(* ===== verification/_CoqProject ===== *)
-Q . S2P
Prelude.v
Extern.v
World.v
Coins.v
Clvm.v
StandardCoin.v
Text.v
TransactionManager.v
ManagerProperties.v
UnrollCoin.v
GameHandler.v
RefereeTypes.v
Referee.v
ToyGame.v
RefereeProperties.v
LiveGame.v
ChannelState.v
ChannelGames.v
ChannelOnChain.v
ToyChannel.v
ChannelLemmas.v
ChannelBalances.v
ChannelMirror.v
ChannelUnrolls.v
Effects.v
OnChainPhase.v
OnChainActions.v
OnChainSpend.v
HandlerBase.v
SpendChannelCoin.v
UnrollTransition.v
OffChainPhase.v
OffChainReceive.v
OnChainProperties.v
OffChainProperties.v
HandshakeBase.v
HandshakeInitiator.v
HandshakeReceiver.v
PeerPhase.v
GameSession.v
HandshakeProperties.v
HandshakeCompletion.v
SessionTermination.v
SessionProperties.v
ManagedSession.v
SnapshotDelivery.v
Simulator.v
SimulatorProperties.v
KrunkDict.v
KrunkProperties.v
BencodexSer.v
BencodexDe.v
ProtocolPretty.v
BencodexProperties.v
WasmHost.v
WasmOffers.v
WasmProperties.v
SimulatorService.v
ServiceProperties.v
