(* ===== verification/Prelude.v ===== *)
(** * Chia gaming: a verification library (root file, prelude)

    Two players fund a channel coin together, play games off chain by sending
    each other signed states (the potato goes back and forth), and fall back to
    the chain when they stop agreeing: the channel coin is spent to an unroll
    coin, the unroll coin to one coin per unfinished game, and each game is
    finished on chain by a referee puzzle.  This library models the Rust crate
    that does this, from the encodings up to the session the host drives, and
    proves what makes it correct.

    ** The parts and how they interact

    From the bottom up; file names are those of the library, paths those of
    the repository.

    - [Prelude], [Extern], [World]: notation, errors, the state-and-error monad
      [eff], machine integers, hash maps; the third-party crates as classes;
      one concrete instance of all of them for the witnesses.
    - [Coins], [Clvm], [StandardCoin], [Text]: [src/src/common], [src/src/utils.rs]
      and what is used of Rust's own number and text formats.
    - [TransactionManager], [ManagerProperties]:
      [src/src/transaction_manager.rs], the layer between the host's view of the
      chain and the session.  It calls the session only through the class
      [ManagedGameSession] (the trait of the source); [GameSession.session_managed]
      is the instance of the program.
    - [UnrollCoin]: [src/src/channel_state/types/unroll_coin.rs].
    - [GameHandler]: the CLVM handlers, validators and the proposal factory,
      [src/src/channel_state/{game_handler,game,game_start_info}.rs].
    - [RefereeTypes], [Referee], [RefereeProperties]: [src/src/referee], the state
      machine of one game and its puzzle's arguments and solutions.
    - [LiveGame], [ChannelState], [ChannelGames], [ChannelOnChain]:
      [src/src/channel_state/mod.rs] and its types: balances, games, proposals,
      potatoes, and the answers to the chain.  [ChannelLemmas], [ChannelBalances],
      [ChannelMirror], [ChannelUnrolls] hold what is proved of them.
    - [Effects]: the messages, notifications and effects of
      [src/src/session_phases], and [apply_effects] over the class [EffectSystem].
    - the phases of a session, [src/src/session_phases]: [HandshakeBase],
      [HandshakeInitiator], [HandshakeReceiver]; [OffChainPhase],
      [OffChainReceive] (mod.rs); [HandlerBase], [SpendChannelCoin],
      [UnrollTransition]; [OnChainPhase], [OnChainActions], [OnChainSpend].  A phase
      answers every call with a list of effects and hands its state to the next.
    - [PeerPhase], [GameSession]: [src/src/game_session.rs].  [Peer] is the trait
      object [Box<dyn PeerLifecyclePhase>]; the session applies the effects of
      its phase, replaces it by its successor and collects the host's events.
      [HandshakeProperties], [HandshakeCompletion] (the two phases of two
      players together), [OffChainProperties], [OnChainProperties],
      [SessionTermination], [SessionProperties] hold what is proved of them.
    - [ManagedSession], [SnapshotDelivery]: the manager around the session, as the
      host runs the two.
    - [BencodexSer], [BencodexDe], [ProtocolPretty], [BencodexProperties]:
      [src/bencodex] and [src/src/protocol_pretty.rs].
    - [KrunkDict], [KrunkProperties]: the signed dictionary of the word game,
      [src/src/games/krunk_dict_tree.rs], with the lookup of the puzzle
      [src/clsp/games/krunk/krunk_dict_tree.clinc] and the generator
      [src/src/bin/gen_krunk_dict.rs].
    - [Simulator], [SimulatorProperties]: [src/src/simulator/mod.rs], the ledger the
      tests and the demonstrations run on: what it reports of the chain is what
      [TransactionManager] is shown.
    - [SimulatorService], [ServiceProperties]: [src/src/simulator/service.rs], the
      users' wallet over a [Simulator], the requests and the actor that serves
      its clients.
    - [WasmHost], [WasmOffers], [WasmProperties]: [src/wasm/src/mod.rs], the table of
      sessions and the functions a front-end calls; each call runs [GameSession]
      inside [TransactionManager] and returns what the manager collected.

    [ToyGame] and [ToyChannel] are a concrete game and a concrete channel over
    [World], on which the witnesses of the theorems run.

    ** How the code is modelled

    A struct is a record, an enum an inductive type, with the fields and
    constructors of the source; where two structs share a field name the record
    prefixes it.  A method on [&mut self] is an [eff S A], a function from the
    state to a result and the state left behind, so what an early return ([?])
    leaves half done is in the model.  A method on [&self] is a function of the
    state.  A loop is a [Fixpoint] over what it consumes.  A [HashMap] is a [gmap]
    visited in an arbitrary order ([HashOrder]); a [BTreeMap], [Vec] or [VecDeque]
    is a map or a list.  An [Rc] and a [Box] are their contents.

    The build modelled is the release build: [+] on machine integers wraps
    ([u64_add], [usize_add] for a [usize] of 32 or 64 bits), the macro [game_assert]
    is an error, a checked operation is an option.  A Rust panic is the error
    [Panicked], which no modelled code catches.  The text of an error message is
    kept without the values formatted into it, a log line by its leading tag.
    The CLVM allocator is not modelled: a [NodePtr] is the tree it points to.

    What the program takes from other crates is a parameter, with the laws its
    documentation gives: [Sha2] (the digest), [BigInt] (big-endian numbers), [Clvm]
    and [ClvmTree] (running a program, serialization, the tree hash, currying),
    [Bls] (keys and signatures, that what is signed verifies, that partial
    signatures add up), [ChiaPuzzles], [LauncherPuzzle], [SettlementPuzzle] (bytes of
    published puzzles), [Hex] and [HexDecode], [Pairing] (the verification of
    aggregated signatures), [Consensus] (the full node's validation of a bundle),
    [SessionRng] (the generator and the keys made of its output), [Flate2],
    [OfferFormats] and [OfferPuzzles] (what offers are compressed and written with),
    [NotificationJs] (a notification as JavaScript value), [ServiceJson] (serde's
    reading of the service's requests).  [PeerCodec] and [PeerEncoder] are the codecs serde's
    macros derive for the peer messages.  [World] satisfies the laws of the
    classes all files share; the module [Witnesses] of a file those of its own.

    ** What is proved

    - One channel, two players: [channels_stay_mirrored], [honest_potato_accepted],
      [unroll_exchange_verifies], [game_starts_mirror], [players_agree],
      [honest_move_accepted]: players who apply what the other does agree on the
      money, the games, the turn and the coins, and accept each other's
      signatures and moves.
    - Money: [balances_conserved], [unroll_pays_out], [timeout_spend_correct]: no
      operation makes or loses any, and each unroll and timeout pays what the
      signed state says.
    - The way to the chain: [going_on_chain_opens_unroll],
      [unroll_answer_correct], [slash_spend_correct], [their_move_verdict],
      [my_move_checked], [spent_game_accounted], [queue_drained]: there is always
      a doubly signed spend to go on chain with, a stale unroll is superseded, a
      slash is earned, a move is made and taken as its validator says (what it
      commits to is [move_commitment], which the puzzle of the coin contradicts),
      a game whose coin is spent is followed or its end reported but in the two
      cases [let_go], every queued action is tried.
    - The phases: [handshake_sets_up] shows that whatever leaves the handshake
      satisfies [set_up], the state in which [off_chain_refines_session] starts;
      that theorem shows the off-chain phase to refine the steps of a channel
      session, for which the theorems on [ChannelState] are proved;
      [refused_message_contained] says what a refused message leaves, and
      [honest_handshake_completes] that two players who follow the protocol
      both leave the handshake, with mirrored channels.
    - The session: [effects_settle] (applying effects ends), [phases_advance],
      [disconnected_stays_silent], [abandoned_is_final], over any sequence of the
      host's calls ([HostCall], [session_step]); [program_steps_keep] carries
      them over to the session inside the transaction manager, and
      [abandoned_program_quiet] to what the manager submits;
      [snapshot_reaches_session] says which calls an accepted snapshot becomes
      and what the new block does to the session;
      [sessions_run_their_programs] shows that the sessions of the wasm module are
      advanced by these steps alone, and [calls_return_their_drain] that what they
      collect reaches JavaScript.
    - The transaction manager: [manager_invariant], [spends_after_creations],
      [snapshot_observations], [rolled_back_coin_not_spent],
      [claims_submitted_once], [eviction_exact], [maturity_exact], for any session;
      [manager_mirrors_chain], for the chain of the simulator.
    - The simulator: [block_refines_utxo], its blocks are those of an abstract
      ledger of unspent coins, in the runs that roll the chain back only while
      nothing is pending and for bundles that spend no coin of their own (the
      other cases are counterexamples: [rolled_back_input_mints],
      [ephemeral_coin_stays_unspent]); [clients_see_their_coins], what waits for a
      client of its service, and the answer and the blocks it is sent.
    - The dictionary: [gaps_partition], [signed_dictionary_convicts]: every word is
      in the dictionary or in one gap, and the signed tree proves which.
    - Encodings: [bencodex_roundtrip], [reading_ends], [bytestring_length_bounds],
      [elided_not_shown] and [identity_keys_shown] (what the dashboard's text hides,
      and the private keys it does not), [move_spend_roundtrip], [spend_bundle_reencode],
      [partial_spend_verifies], [curry_and_treehash_correct].

    ** Fuel and bounds

    - [process_effects] calls itself through [go_on_chain] and through the loops
      over waiting messages and actions; its fuel bounds the depth of the calls
      and the turns of each loop.  The argument [exhausted] is what a run that
      lacks fuel answers: [effects_settle] shows that from some fuel on the
      outcome does not depend on either.
    - [inbound_loop] has as many turns as there are messages: nothing a message
      causes adds one ([inbound_turns]).
    - [drain_loop] of the off-chain phase and [process_queue] of the on-chain
      phase have as many turns as their queues have entries, which only shrink;
      for the latter [queue_drained] says so.
    - The readers of Bencodex have the length of the input as fuel, which
      [reading_ends] shows to be enough, and answer [BOutOfFuel] otherwise; the
      recursion of the source has no bound but the stack.
    - [u64_low_bytes] produces at most the eight bytes of a [u64].

    ** Not modelled

    - The sockets, timers, threads and HTTP server of the simulator's service, the
      runners of simulation tests, the test support, the agent: input and output,
      tests and glue.  Test-only methods ([cfg(test)]) of modelled files.
    - The chialisp puzzles and game handlers (another language; run through
      [Clvm], but for the dictionary lookup), the front-end and the hub
      (TypeScript), the loading of compiled programs from files.
    - Serde's derived implementations, [string_key_map] and the [typetag] of the
      phases: serialization of whole states; only the Bencodex format itself is.
      The encoding of a session is a parameter of [restore_session].
    - What serde makes of a JavaScript or JSON argument: the calls of [WasmHost]
      take the Rust value.  Module initialisation and the file cache.
    - Display and Debug, except the pretty-printer. *)
From stdpp Require Export base tactics decidable option list numbers strings gmap sets fin_maps.
From Stdlib Require Export Init.Byte Strings.Byte.
From Stdlib Require Import Eqdep_dec.

(** ** Results and errors

    [Error] mirrors [common/types/error.rs]; the text of a formatted message
    is kept, the values formatted into it are dropped.  Errors the source
    wraps from third-party crates carry the message only. *)
Inductive Error : Type :=
| ClvmErr (msg : string)
| IoErr (msg : string)
| BasicErr
| EncodeErr (msg : string)
| StrErr (msg : string)
| BlsErr (msg : string)
| BencodexErr (msg : string)
| JsonErr (msg : string)
| HexErr (msg : string)
| Channel (msg : string)
| GameMoveRejected (tag message : list byte)
(** not a constructor of the source: a Rust panic, which ends the whole
    operation; no modelled code intercepts it *)
| Panicked (msg : string).

Inductive result (E A : Type) : Type :=
| Ok (a : A)
| Err (e : E).
Arguments Ok {E A} a.
Arguments Err {E A} e.

#[export] Instance result_ret {E} : MRet (result E) := fun A a => Ok a.
#[export] Instance result_bind {E} : MBind (result E) :=
  fun A B f r => match r with Ok a => f a | Err e => Err e end.
#[export] Instance result_fmap {E} : FMap (result E) :=
  fun A B f r => match r with Ok a => Ok (f a) | Err e => Err e end.

Definition is_ok {E A} (r : result E A) : bool :=
  match r with Ok _ => true | Err _ => false end.

(** [Option::ok_or_else]. *)
Definition ok_or {E A} (e : E) (o : option A) : result E A :=
  match o with Some a => Ok a | None => Err e end.

(** The loop [for x in l { out.push(f(x)?); }]. *)
Fixpoint mapM_result {E A B} (f : A -> result E B) (l : list A) : result E (list B) :=
  match l with
  | [] => Ok []
  | x :: l => y ← f x; ys ← mapM_result f l; mret (y :: ys)
  end.

(** ** Stateful operations that may fail

    A method [fn op(&mut self, ..) -> Result<A, Error>] is a function from the
    state to its outcome AND the state it leaves, also when the outcome is an
    error: Rust does not roll a mutation back when [?] returns early. *)
Definition eff (S A : Type) : Type := S -> result Error A * S.

#[export] Instance eff_ret {S} : MRet (eff S) := fun A a s => (Ok a, s).
#[export] Instance eff_bind {S} : MBind (eff S) :=
  fun A B f m s =>
    match m s with
    | (Ok a, s') => f a s'
    | (Err e, s') => (Err e, s')
    end.

Definition get_state {S} : eff S S := fun s => (Ok s, s).
Definition put_state {S} (s' : S) : eff S unit := fun _ => (Ok tt, s').
Definition modify_state {S} (f : S -> S) : eff S unit := fun s => (Ok tt, f s).
Definition gets {S A} (f : S -> A) : eff S A := fun s => (Ok (f s), s).
Definition lift_result {S A} (r : result Error A) : eff S A := fun s => (r, s).
Definition throw {S A} (e : Error) : eff S A := fun s => (Err e, s).
(** [if !cond { return Err(e) }], also [game_assert!] of a release build. *)
Definition guard_or {S} (c : bool) (e : Error) : eff S unit :=
  fun s => (if c then Ok tt else Err e, s).
(** A call on a part of the state, as in [self.part.op()?]. *)
Definition on_part {S T A} (get : S -> T) (set : T -> S -> S) (m : eff T A) : eff S A :=
  fun s => let '(r, t) := m (get s) in (r, set t s).

(** [let r = op();]: the outcome is looked at, the state left is kept. *)
Definition attempt {S A} (op : eff S A) : eff S (result Error A) :=
  fun s => let '(r, s') := op s in (Ok r, s').
(** [match op() { Err(e) => handler(e), ok => ok }]; a panic is not an [Err]. *)
Definition catch {S A} (op : eff S A) (handler : Error -> eff S A) : eff S A := fun s =>
  match op s with
  | (Err (Panicked msg), s') => (Err (Panicked msg), s')
  | (Err e, s') => handler e s'
  | done => done
  end.

Definition check {E} (c : bool) (e : E) : result E unit := if c then Ok tt else Err e.

(** ** Record update: [r <| field := v |>]

    A record type declares its eta expansion once; the setter of a field is
    derived from it on demand. *)
Class RecordEta (R : Type) := record_eta : R -> R.
Class Update {R T : Type} (field : R -> T) := update_field : (T -> T) -> R -> R.

Ltac derive_update field :=
  let field_ty := type of field in
  lazymatch field_ty with
  | ?R -> ?T =>
      let inst := constr:(ltac:(typeclasses eauto) : RecordEta R) in
      let body := eval red in inst in
      let body := eval hnf in body in
      let abstracted := eval pattern field in body in
      lazymatch abstracted with
      | ?setter _ =>
          let res := constr:(fun (f : T -> T) (r : R) => setter (fun r0 => f (field r0)) r) in
          let res := eval cbv beta in res in
          exact res
      end
  end.

#[export] Hint Extern 0 (Update ?field) => derive_update field : typeclass_instances.
Arguments update_field {R T} field {_} _ _ /.

Notation "r <| field := v |>" := (update_field field (fun _ => v) r)
  (at level 1, left associativity, field constr at level 10).
Notation "r <| field ::= f |>" := (update_field field f r)
  (at level 1, left associativity, field constr at level 10).

(** ** Bytes *)
Abbreviation bytes := (list byte).

#[export] Instance byte_eq_dec : EqDecision byte := Byte.byte_eq_dec.
#[export] Program Instance byte_countable : Countable byte :=
  inj_countable Byte.to_N Byte.of_N _.
Next Obligation. intros b. apply Byte.of_to_N. Qed.

(** Slices and [Vec<u8>] are ordered lexicographically. *)
Fixpoint bytes_cmp (a b : bytes) : comparison :=
  match a, b with
  | [], [] => Eq
  | [], _ => Lt
  | _, [] => Gt
  | x :: a, y :: b =>
      match (Byte.to_N x ?= Byte.to_N y)%N with Eq => bytes_cmp a b | c => c end
  end.

#[export] Instance Error_eq_dec : EqDecision Error.
Proof. solve_decision. Defined.
#[export] Instance result_eq_dec {E A} `{EqDecision E, EqDecision A} : EqDecision (result E A).
Proof. solve_decision. Defined.

(** ** Machine integers

    [u64] values are [N]s below [2 ^ 64].  The shipped artefact is the release
    build of the wasm crate: [+] wraps, [debug_assert!] is absent.  [usize] is
    32 bits wide there and 64 bits wide in the simulator: the width is a
    parameter. *)
Definition u64_modulus : N := 2 ^ 64.
Definition u64_max : N := 2 ^ 64 - 1.
Definition u64_add (a b : N) : N := (a + b) mod u64_modulus.
Definition u64_checked_add (a b : N) : option N :=
  if (a + b <? u64_modulus)%N then Some (a + b)%N else None.
Definition u64_checked_sub (a b : N) : option N :=
  if (b <=? a)%N then Some (a - b)%N else None.
Definition is_u64 (a : N) : Prop := (a < u64_modulus)%N.

Class Arch := {
  usize_bits : N;
  usize_bits_ok : usize_bits = 32%N \/ usize_bits = 64%N;
}.
Definition usize_modulus `{Arch} : N := 2 ^ usize_bits.
Definition usize_add `{Arch} (a b : N) : N := (a + b) mod usize_modulus.
(** [x as usize]. *)
Definition as_usize `{Arch} (a : N) : N := a mod usize_modulus.

Lemma u64_add_small a b : (a + b < u64_modulus)%N -> u64_add a b = (a + b)%N.
Proof. apply N.mod_small. Qed.

Lemma u64_add_is_u64 a b : is_u64 (u64_add a b).
Proof. apply N.mod_lt. done. Qed.

Lemma u64_checked_sub_Some a b c :
  u64_checked_sub a b = Some c <-> (b <= a)%N /\ c = (a - b)%N.
Proof.
  unfold u64_checked_sub. destruct (N.leb_spec b a); split.
  - intros [= <-]. done.
  - intros [_ ->]. done.
  - done.
  - intros [? _]. lia.
Qed.

Lemma u64_checked_add_Some a b c :
  u64_checked_add a b = Some c <-> (a + b < u64_modulus)%N /\ c = (a + b)%N.
Proof.
  unfold u64_checked_add. destruct (N.ltb_spec (a + b) u64_modulus); split.
  - intros [= <-]. done.
  - intros [_ ->]. done.
  - done.
  - intros [? _]. lia.
Qed.

Lemma usize_modulus_lower `{Arch} : (2 ^ 32 <= usize_modulus)%N.
Proof. unfold usize_modulus. destruct usize_bits_ok as [-> | ->]; vm_compute; done. Qed.

Lemma usize_modulus_upper `{Arch} : (usize_modulus <= u64_modulus)%N.
Proof. unfold usize_modulus. destruct usize_bits_ok as [-> | ->]; vm_compute; done. Qed.

(** ** Vectors

    [Vec::remove(i)] is stdpp's [delete i l], [Vec::push] is [l ++ [x]], and
    [Vec::retain] is the Standard Library's [List.filter] on a boolean. *)
Fixpoint position {A} (p : A -> bool) (l : list A) : option nat :=
  match l with
  | [] => None
  | x :: l => if p x then Some 0 else S <$> position p l
  end.
Abbreviation find_first := List.find.
Abbreviation retain := List.filter.

Definition vec_insert {A} (i : nat) (x : A) (l : list A) : list A := take i l ++ x :: drop i l.

Definition sum_N (l : list N) : N := foldr N.add 0%N l.

Lemma position_Some {A} (p : A -> bool) l i :
  position p l = Some i -> exists x, l !! i = Some x /\ p x = true.
Proof.
  revert i. induction l as [|y l IH]; intros i; [done|]. cbn.
  destruct (p y) eqn:Hp; [intros [= <-]; eauto|].
  destruct (position p l) as [j|] eqn:Hj; [|done].
  intros [= <-]. cbn. eauto.
Qed.

Lemma position_None {A} (p : A -> bool) l :
  position p l = None <-> forall x, x ∈ l -> p x = false.
Proof.
  induction l as [|y l IH]; cbn; [set_solver|].
  destruct (p y) eqn:Hp.
  - split; [done|]. intros H. specialize (H y (list_elem_of_here _ _)). congruence.
  - rewrite fmap_None, IH. split; [|intros H x Hx; apply H; by right].
    intros H x [->|Hx]%elem_of_cons; [done|]. by apply H.
Qed.

Lemma position_lt {A} (p : A -> bool) l i : position p l = Some i -> i < length l.
Proof. intros (x & Hx & _)%position_Some. by apply lookup_lt_Some in Hx. Qed.

Lemma position_app {A} (p : A -> bool) l1 l2 :
  position p (l1 ++ l2)
  = match position p l1 with Some i => Some i | None => Nat.add (length l1) <$> position p l2 end.
Proof.
  induction l1 as [|x l1 IH]; cbn; [by destruct (position p l2)|].
  destruct (p x); [done|]. rewrite IH. destruct (position p l1); [done|].
  by destruct (position p l2).
Qed.

Lemma find_first_Some {A} (p : A -> bool) l x :
  find_first p l = Some x -> x ∈ l /\ p x = true.
Proof. intros [H ?]%find_some. by rewrite list_elem_of_In. Qed.

Lemma find_first_None {A} (p : A -> bool) l :
  find_first p l = None <-> forall x, x ∈ l -> p x = false.
Proof.
  split; [intros H x Hx; eapply find_none; [done|by apply list_elem_of_In]|].
  induction l as [|y l IH]; cbn; [done|]. intros H.
  rewrite (H y) by set_solver. apply IH. set_solver.
Qed.

Lemma elem_of_retain {A} (p : A -> bool) l x : x ∈ retain p l <-> x ∈ l /\ p x = true.
Proof. rewrite !list_elem_of_In. apply filter_In. Qed.

Lemma retain_true {A} (p : A -> bool) l : (forall x, x ∈ l -> p x = true) -> retain p l = l.
Proof.
  induction l as [|x l IH]; cbn; [done|]. intros H. rewrite (H x) by set_solver.
  by rewrite IH by set_solver.
Qed.

Lemma retain_retain {A} (p q : A -> bool) l :
  retain p (retain q l) = retain (fun x => q x && p x) l.
Proof.
  induction l as [|x l IH]; cbn; [done|]. destruct (q x); cbn; [|done].
  by destruct (p x); rewrite IH.
Qed.

Lemma retain_ext {A} (p q : A -> bool) l : (forall x, p x = q x) -> retain p l = retain q l.
Proof. intros H. induction l as [|x l IH]; cbn; [done|]. by rewrite H, IH. Qed.

(** Putting back what [Vec::remove] took out restores the vector. *)
Lemma vec_insert_delete {A} (l : list A) i x :
  l !! i = Some x -> vec_insert i x (delete i l) = l.
Proof.
  revert i. induction l as [|y l IH]; intros [|i] H; simplify_eq/=; [done|].
  unfold vec_insert in *. cbn. f_equal. by apply IH.
Qed.

Lemma length_vec_insert {A} (l : list A) i x : length (vec_insert i x l) = S (length l).
Proof. unfold vec_insert. rewrite length_app. cbn. rewrite length_take, length_drop. lia. Qed.

Lemma sum_N_app l1 l2 : sum_N (l1 ++ l2) = (sum_N l1 + sum_N l2)%N.
Proof. unfold sum_N. induction l1; cbn; lia. Qed.

#[export] Instance sum_N_Permutation : Proper (Permutation ==> eq) sum_N.
Proof. unfold sum_N. intros l1 l2. induction 1; cbn; lia. Qed.

Lemma sum_N_map_delete {A} (f : A -> N) (l : list A) i x :
  l !! i = Some x -> (sum_N (f <$> l) = f x + sum_N (f <$> delete i l))%N.
Proof. intros H. by rewrite (delete_Permutation _ _ _ H) at 1. Qed.

Lemma sum_N_elem_le {A} (f : A -> N) (l : list A) x : x ∈ l -> (f x <= sum_N (f <$> l))%N.
Proof. intros [i H]%list_elem_of_lookup. rewrite (sum_N_map_delete f l i x H). lia. Qed.

Lemma foldl_app_concat {A B} (f : A -> list B) (l : list A) acc :
  foldl (fun acc x => acc ++ f x) acc l = acc ++ List.concat (f <$> l).
Proof.
  revert acc. induction l as [|x l IH]; intros acc; cbn; [by rewrite app_nil_r|].
  by rewrite IH, <-app_assoc.
Qed.

Lemma concat_option_list {A B} (f : A -> option B) (l : list A) :
  List.concat ((fun x => option_list (f x)) <$> l) = omap f l.
Proof. induction l as [|x l IH]; cbn; [done|]. rewrite <-IH. by destruct (f x). Qed.

Lemma omap_pointwise {A B} (f g : A -> option B) (l : list A) :
  (forall x, f x = g x) -> omap f l = omap g l.
Proof. intros H. induction l as [|x l IH]; cbn; [done|]. by rewrite H, IH. Qed.

(** ** Hash maps

    [HashMap] and [HashSet] are stdpp's [gmap] and [gset]; the order in which
    Rust visits them is unspecified, so every iteration goes through an
    arbitrary order of the entries. *)
Class HashOrder := {
  hm_iter : forall {K V} `{Countable K}, gmap K V -> list (K * V);
  hm_iter_perm : forall {K V} `{Countable K} (m : gmap K V), hm_iter m ≡ₚ map_to_list m;
  hs_iter : forall {K} `{Countable K}, gset K -> list K;
  hs_iter_perm : forall {K} `{Countable K} (s : gset K), hs_iter s ≡ₚ elements s;
}.

(** One order, for running the model. *)
Definition canonical_order : HashOrder.
Proof. refine {| hm_iter K V _ _ m := map_to_list m; hs_iter K _ _ s := elements s |}; done. Defined.

(** [for (k, v) in map.iter_mut() { .. }]: the body may rewrite the entry and
    updates an accumulator made of the locals it mutates. *)
Definition hm_for_each_mut `{HashOrder} {K V A} `{Countable K}
    (body : K -> V -> A -> V * A) (m : gmap K V) (acc : A) : gmap K V * A :=
  foldl (fun '(m, acc) '(k, v) => let '(v', acc') := body k v acc in (<[k := v']> m, acc'))
        (m, acc) (hm_iter m).

(** [map.retain(|k, v| ..)]. *)
Definition hm_retain {K V} `{Countable K} (keep : K -> V -> bool) (m : gmap K V) : gmap K V :=
  filter (fun kv => keep kv.1 kv.2 = true) m.

Section hash_maps.
Context `{HashOrder} {K : Type} `{Countable K} {V : Type}.
Implicit Types (m : gmap K V) (k : K) (v : V).

Lemma elem_of_hm_iter m k v : (k, v) ∈ hm_iter m <-> m !! k = Some v.
Proof. rewrite hm_iter_perm. apply elem_of_map_to_list. Qed.

Lemma elem_of_hs_iter (s : gset K) k : k ∈ hs_iter s <-> k ∈ s.
Proof. rewrite hs_iter_perm. apply elem_of_elements. Qed.

Lemma NoDup_hs_iter (s : gset K) : NoDup (hs_iter s).
Proof. rewrite hs_iter_perm. apply NoDup_elements. Qed.

Lemma NoDup_hm_iter_keys m : NoDup (hm_iter m).*1.
Proof. rewrite hm_iter_perm. apply NoDup_fst_map_to_list. Qed.

Lemma lookup_hm_retain keep m k v :
  hm_retain keep m !! k = Some v <-> m !! k = Some v /\ keep k v = true.
Proof. unfold hm_retain. by rewrite map_lookup_filter_Some. Qed.

(** When the rewritten entry does not depend on the accumulator, the loop maps
    the entries and folds the accumulator over the entries as they were. *)
Lemma hm_for_each_mut_spec {A} (new : K -> V -> V) (step : K -> V -> A -> A) m acc :
  hm_for_each_mut (fun k v a => (new k v, step k v a)) m acc
  = (map_imap (fun k v => Some (new k v)) m,
     foldl (fun a kv => step kv.1 kv.2 a) acc (hm_iter m)).
Proof.
  unfold hm_for_each_mut.
  assert (forall l m0 acc0, NoDup l.*1 -> (forall k v, (k, v) ∈ l -> m !! k = Some v) ->
    foldl (fun '(m, acc) '(k, v) => (<[k := new k v]> m, step k v acc)) (m0, acc0) l
    = (map_imap (fun k v => Some (new k v)) (list_to_map l : gmap K V) ∪ m0,
       foldl (fun a kv => step kv.1 kv.2 a) acc0 l)) as Hl.
  { induction l as [|[k v] l IH]; intros m0 acc0 Hnd Hm; cbn.
    - by rewrite map_imap_empty, (left_id_L ∅ (∪)).
    - inversion Hnd as [|? ? Hk Hnd']; subst.
      rewrite IH by (try done; set_solver). f_equal.
      erewrite map_imap_insert_Some by done. rewrite <-insert_union_l, insert_union_r; [done|].
      rewrite map_lookup_imap. by rewrite (not_elem_of_list_to_map_1 _ _ Hk). }
  rewrite Hl; [|apply NoDup_hm_iter_keys|intros; by apply elem_of_hm_iter].
  f_equal.
  assert ((list_to_map (hm_iter m) : gmap K V) = m) as ->.
  { rewrite <-(list_to_map_to_list m) at 2. apply list_to_map_proper; [|apply hm_iter_perm].
    apply NoDup_hm_iter_keys. }
  apply map_eq. intros k. rewrite lookup_union, map_lookup_imap.
  by destruct (m !! k).
Qed.
End hash_maps.

(** ** Properties an operation keeps, whatever its outcome *)
Definition preserves {S A} (P : S -> Prop) (m : eff S A) : Prop := forall s, P s -> P (m s).2.

Section preserves.
Context {S : Type} (P : S -> Prop).

Lemma preserves_ret {A} (a : A) : preserves P (mret a).
Proof. by intros s. Qed.

Lemma preserves_lift {A} (r : result Error A) : preserves P (lift_result r).
Proof. by intros s. Qed.

Lemma preserves_throw {A} (e : Error) : preserves P (throw (A := A) e).
Proof. by intros s. Qed.

Lemma preserves_guard c e : preserves P (guard_or c e).
Proof. by intros s. Qed.

Lemma preserves_modify f : (forall s, P s -> P (f s)) -> preserves P (modify_state f).
Proof. done. Qed.

Lemma preserves_bind {A B} (m : eff S A) (f : A -> eff S B) :
  preserves P m -> (forall a, preserves P (f a)) -> preserves P (m ≫= f).
Proof.
  intros Hm Hf s Hs. specialize (Hm s Hs). unfold mbind, eff_bind.
  destruct (m s) as [[a|e] s']; [by apply Hf|done].
Qed.

(** What is read is the state itself, of which [P] is known. *)
Lemma preserves_get_bind {B} (f : S -> eff S B) :
  (forall s, P s -> P (f s s).2) -> preserves P (get_state ≫= f).
Proof. intros Hf s Hs. by apply Hf. Qed.

Lemma preserves_on_part {T A} (get : S -> T) (set : T -> S -> S) (op : eff T A) :
  (forall s t, P s -> P (set t s)) -> preserves P (on_part get set op).
Proof. intros Hset s Hs. unfold on_part. destruct (op (get s)) as [r t]. by apply Hset. Qed.
End preserves.

(** ** One run of an operation

    [holds_after P op s]: whatever its outcome, the run of [op] from [s] leaves
    a state of which [P] holds. *)
Definition holds_after {S A} (P : S -> Prop) (op : eff S A) (s : S) : Prop := P (op s).2.

Section after.
Context {S : Type} (P : S -> Prop).

Lemma preserves_after {A} (op : eff S A) s : preserves P op -> P s -> holds_after P op s.
Proof. intros H Hs. by apply H. Qed.

Lemma after_preserves {A} (op : eff S A) : (forall s, P s -> holds_after P op s) -> preserves P op.
Proof. done. Qed.

Lemma after_get_bind {B} (f : S -> eff S B) s :
  holds_after P (f s) s -> holds_after P (get_state ≫= f) s.
Proof. done. Qed.

Lemma after_put s s' : P s' -> holds_after P (put_state s') s.
Proof. done. Qed.

Lemma after_modify f s : P (f s) -> holds_after P (modify_state f) s.
Proof. done. Qed.

Lemma after_pure {A} (r : result Error A) s : P s -> holds_after P (lift_result r) s.
Proof. done. Qed.

Lemma after_bind {A B} (m : eff S A) (f : A -> eff S B) s :
  holds_after P m s -> (forall a s', P s' -> holds_after P (f a) s') -> holds_after P (m ≫= f) s.
Proof.
  unfold holds_after, mbind, eff_bind. intros Hm Hf. destruct (m s) as [[a|e] s']; [by apply Hf|done].
Qed.

Lemma after_attempt {A} (op : eff S A) s : holds_after P op s -> holds_after P (attempt op) s.
Proof. unfold holds_after, attempt. by destruct (op s). Qed.

Lemma after_catch {A} (op : eff S A) h s :
  holds_after P op s -> (forall e s', P s' -> holds_after P (h e) s') -> holds_after P (catch op h) s.
Proof.
  unfold holds_after, catch. intros Hop Hh. destruct (op s) as [[a|e] s']; [done|].
  destruct e; [by apply Hh..|done].
Qed.
End after.

(** Unfold the operation and walk through it; what is left are its calls and
    its updates. *)
Ltac head_of t := lazymatch t with ?f _ => head_of f | _ => t end.
Ltac walk :=
  repeat (cbv beta zeta;
    lazymatch goal with
    | |- holds_after _ (get_state ≫= _) _ => apply after_get_bind
    | |- holds_after _ (_ ≫= _) _ => apply after_bind; [|intros ? ? ?]
    | |- holds_after _ (mret ?a) _ => apply (after_pure _ (Ok a))
    | |- holds_after _ (lift_result _) _ => apply after_pure
    | |- holds_after _ (throw ?e) _ => apply (after_pure _ (Err e))
    | |- holds_after _ (guard_or ?c ?e) _ => apply (after_pure _ (if c then Ok tt else Err e))
    | |- holds_after _ (put_state _) _ => apply after_put
    | |- holds_after _ (modify_state _) _ => apply after_modify
    | |- holds_after _ (attempt _) _ => apply after_attempt
    | |- holds_after _ (catch _ _) _ => apply after_catch; [|intros ? ? ?]
    | |- holds_after _ (match ?x with _ => _ end) _ => destruct x eqn:?
    end).
Ltac walk_through :=
  apply after_preserves; intros ? ?;
  lazymatch goal with
  | |- holds_after _ ?op _ => let f := head_of op in unfold f
  end; walk; try done; try (apply preserves_after; [solve [eauto with chia]|done]).

(** [on_ok Q op s]: when the run of [op] from [s] succeeds, [Q] holds of its
    value and of the state it leaves. *)
Definition on_ok {S A} (Q : A -> S -> Prop) (op : eff S A) (s : S) : Prop :=
  match op s with (Ok a, s') => Q a s' | (Err _, _) => True end.

Section on_ok.
Context {S : Type}.

Lemma on_ok_run {A} (Q : A -> S -> Prop) op s a s' : on_ok Q op s -> op s = (Ok a, s') -> Q a s'.
Proof. unfold on_ok. intros H Hop. by rewrite Hop in H. Qed.

Lemma on_ok_intro {A} (Q : A -> S -> Prop) op s :
  (forall a s', op s = (Ok a, s') -> Q a s') -> on_ok Q op s.
Proof. unfold on_ok. intros H. destruct (op s) as [[a|e] s']; [by apply H|done]. Qed.

Lemma on_ok_weaken {A} (Q R : A -> S -> Prop) op s :
  on_ok Q op s -> (forall a s', Q a s' -> R a s') -> on_ok R op s.
Proof. unfold on_ok. destruct (op s) as [[a|e] s']; auto. Qed.

Lemma on_ok_bind {A B} (Q : B -> S -> Prop) (m : eff S A) (f : A -> eff S B) s :
  on_ok (fun a s' => on_ok Q (f a) s') m s -> on_ok Q (m ≫= f) s.
Proof. unfold on_ok, mbind, eff_bind. by destruct (m s) as [[a|e] s']. Qed.

Lemma on_ok_get_bind {B} (Q : B -> S -> Prop) (f : S -> eff S B) s :
  on_ok Q (f s) s -> on_ok Q (get_state ≫= f) s.
Proof. done. Qed.

Lemma on_ok_lift_bind {A B} (Q : B -> S -> Prop) (r : result Error A) (f : A -> eff S B) s :
  (forall a, r = Ok a -> on_ok Q (f a) s) -> on_ok Q (lift_result r ≫= f) s.
Proof.
  unfold on_ok, mbind, eff_bind, lift_result. destruct r as [a|e]; [intros H; by apply H|done].
Qed.

Lemma on_ok_guard_bind {B} (Q : B -> S -> Prop) c e (f : unit -> eff S B) s :
  (c = true -> on_ok Q (f tt) s) -> on_ok Q (guard_or c e ≫= f) s.
Proof. unfold on_ok, mbind, eff_bind, guard_or. destruct c; [intros H; by apply H|done]. Qed.

Lemma on_ok_ret {A} (Q : A -> S -> Prop) a s : Q a s -> on_ok Q (mret a) s.
Proof. done. Qed.
End on_ok.

(** Walk through an operation to what holds of a successful run of it. *)
Ltac walk_ok :=
  repeat (cbv beta zeta;
    lazymatch goal with
    | |- on_ok _ (get_state ≫= _) _ => apply on_ok_get_bind
    | |- on_ok _ (lift_result _ ≫= _) _ => apply on_ok_lift_bind; intros ? ?
    | |- on_ok _ (guard_or _ _ ≫= _) _ => apply on_ok_guard_bind; intros ?
    | |- on_ok _ (put_state _ ≫= _) _ => apply on_ok_bind; unfold on_ok at 1, put_state at 1
    | |- on_ok _ (modify_state _ ≫= _) _ => apply on_ok_bind; unfold on_ok at 1, modify_state at 1
    | |- on_ok _ (mret _) _ => apply on_ok_ret
    | |- on_ok _ (throw _) _ => exact I
    | |- on_ok _ (match ?x with _ => _ end) _ => destruct x eqn:?
    end).

(** ** Tactics for results and stateful operations *)
Lemma bind_Ok {E A B} (r : result E A) (f : A -> result E B) b :
  (r ≫= f) = Ok b <-> exists a, r = Ok a /\ f a = Ok b.
Proof.
  destruct r as [a|e]; cbn; split.
  - eauto.
  - by intros (? & [= <-] & ?).
  - done.
  - by intros (? & [=] & ?).
Qed.

Lemma eff_bind_Ok {S A B} (m : eff S A) (f : A -> eff S B) b s s' :
  (m ≫= f) s = (Ok b, s') <-> exists a s1, m s = (Ok a, s1) /\ f a s1 = (Ok b, s').
Proof.
  unfold mbind, eff_bind. destruct (m s) as [[a|e] s1]; split.
  - eauto.
  - by intros (? & ? & [= <- <-] & ?).
  - done.
  - by intros (? & ? & [=] & ?).
Qed.

Lemma check_Ok {E} c (e : E) u : check c e = Ok u <-> c = true.
Proof. by destruct u, c. Qed.

Lemma ok_or_Ok {E A} (e : E) (o : option A) a : ok_or e o = Ok a <-> o = Some a.
Proof. destruct o; cbn; split; congruence. Qed.

Lemma mapM_result_Ok {E A B} (f : A -> result E B) l ys :
  mapM_result f l = Ok ys <-> Forall2 (fun x y => f x = Ok y) l ys.
Proof.
  revert ys. induction l as [|x l IH]; intros ys.
  - cbn. split; [intros [= <-]; constructor|by inversion 1].
  - cbn [mapM_result]. rewrite bind_Ok. setoid_rewrite bind_Ok. split.
    + intros (y & Hy & ys' & Hys & [= <-]). constructor; [done|]. by apply IH.
    + inversion 1; subst. eexists; split; [done|]. eexists; split; [by apply IH|done].
Qed.

(** The outcome of a run and the state it leaves. *)
Lemma eff_run {S A} (op : eff S A) s r : (op s).1 = r -> op s = (r, (op s).2).
Proof. intros <-. by destruct (op s). Qed.

(** The value of a run that is known to succeed. *)
Definition the_ok {E A} (r : result E A) : is_ok r = true -> A :=
  match r with
  | Ok a => fun _ => a
  | Err _ => fun H => match Bool.diff_false_true H with end
  end.

Lemma the_ok_pair {E A B} (r : result E (A * B)) (H : is_ok r = true) :
  r = Ok ((the_ok r H).1, (the_ok r H).2).
Proof. by destruct r as [[a b]|]. Qed.

Lemma the_ok_eq {E A} (r : result E A) (H : is_ok r = true) : r = Ok (the_ok r H).
Proof. by destruct r. Qed.

Definition ran_value {E A} (r : result E A) (H : is_ok r = true) : { a | r = Ok a } :=
  exist _ (the_ok r H) (the_ok_eq r H).

(** A successful run with its outcome, for witnesses that go on from it. *)
Definition ran {E A B} (r : result E (A * B)) (H : is_ok r = true) : { p | r = Ok (p.1, p.2) } :=
  exist _ (the_ok r H) (the_ok_pair r H).

(** Split a successful computation, wherever it is a hypothesis. *)
Ltac inv_ok :=
  repeat match goal with
  | H : (_ ≫= _) = Ok _ |- _ => apply bind_Ok in H as (? & ? & ?)
  | H : (_ ≫= _) _ = (Ok _, _) |- _ => apply eff_bind_Ok in H as (? & ? & ? & ?)
  | H : check _ _ = Ok _ |- _ => apply check_Ok in H
  | H : ok_or _ _ = Ok _ |- _ => apply ok_or_Ok in H
  | H : mret _ = Ok _ |- _ => injection H as H
  | H : mret _ _ = (Ok _, _) |- _ => injection H as H
  | H : Ok _ = Ok _ |- _ => injection H as H
  | H : Err _ = Ok _ |- _ => discriminate H
  | H : Some _ = Some _ |- _ => injection H as H
  | H : None = Some _ |- _ => discriminate H
  end; subst.

(** Run the primitive steps of a stateful operation. *)
Ltac run_eff :=
  cbv beta iota delta [mbind eff_bind mret eff_ret get_state put_state modify_state gets
    lift_result throw guard_or on_part result_bind result_ret check] in *;
  cbn [fst snd] in *.

(** Case analysis on the innermost match of the goal or of a hypothesis. *)
Ltac case_goal :=
  match goal with |- context [match ?x with _ => _ end] => destruct x eqn:? end.
Ltac case_in H :=
  match type of H with context [match ?x with _ => _ end] => destruct x eqn:? end.

(** Prove a decidable proposition by running it. *)
Ltac by_evaluation := refine (bool_decide_eq_true_1 _ _); vm_compute; reflexivity.

(** Prove that a program evaluates to a value by running it. *)
Ltac by_running := match goal with |- _ = ?v => vm_cast_no_check (eq_refl v) end.

Create HintDb chia discriminated.
Create Rewrite HintDb chia.
#[export] Hint Resolve u64_add_is_u64 position_lt preserves_ret preserves_lift preserves_throw
  preserves_guard preserves_bind preserves_on_part : chia.
#[export] Hint Rewrite @lookup_hm_retain @elem_of_hm_iter @elem_of_hs_iter @elem_of_retain : chia.
