(* ===== verification/Extern.v ===== *)
(** * The world outside the repository

    Bytes, big-endian numbers and fixed-width hashes; the CLVM value type; and
    one class per third-party crate whose code is not part of the repository:
    its operations are parameters of the model and its documented behaviour is
    a law of the class. *)
From S2P Require Import Prelude.
From Stdlib Require Import Eqdep_dec.

(** ** Big-endian numbers *)
Definition be_value (bs : bytes) : N := foldl (fun acc b => 256 * acc + Byte.to_N b)%N 0%N bs.

Definition byte_of_N (n : N) : byte := default x00 (Byte.of_N (n mod 256)).

(** The big-endian digits of [n], without leading zeros; [fuel] bounds the
    number of digits. *)
Fixpoint be_digits (fuel : nat) (n : N) : bytes :=
  match fuel with
  | O => []
  | S fuel => if (n =? 0)%N then [] else be_digits fuel (n / 256) ++ [byte_of_N n]
  end.
Definition be_minimal (n : N) : bytes := be_digits (S (N.to_nat (N.log2 n))) n.

Definition sign_bit (b : byte) : bool := (128 <=? Byte.to_N b)%N.

(** The canonical CLVM atom of a non-negative number: minimal signed
    big-endian, with a zero byte in front when the top bit is set. *)
Definition canonical_be (n : N) : bytes :=
  match be_minimal n with
  | b :: bs => if sign_bit b then x00 :: b :: bs else b :: bs
  | [] => []
  end.

(** The [k] low-order big-endian digits ([u64::to_be_bytes] for [k = 8]). *)
Fixpoint be_fixed (k : nat) (n : N) : bytes :=
  match k with O => [] | S k => be_fixed k (n / 256) ++ [byte_of_N n] end.

Lemma be_fixed_length k n : length (be_fixed k n) = k.
Proof.
  revert n. induction k as [|k IH]; intros n; cbn; [done|]. rewrite length_app, IH. cbn. lia.
Qed.

Lemma to_N_byte_of_N n : Byte.to_N (byte_of_N n) = (n mod 256)%N.
Proof.
  unfold byte_of_N. destruct (Byte.of_N (n mod 256)) as [b|] eqn:Hb.
  - by apply Byte.to_of_N in Hb.
  - apply Byte.of_N_None_iff in Hb. pose proof (N.mod_lt n 256). lia.
Qed.

Lemma byte_of_N_to_N b : byte_of_N (Byte.to_N b) = b.
Proof.
  unfold byte_of_N. pose proof (Byte.to_N_bounded b).
  rewrite N.mod_small by lia. by rewrite Byte.of_to_N.
Qed.

Lemma be_value_snoc bs b : be_value (bs ++ [b]) = (256 * be_value bs + Byte.to_N b)%N.
Proof. unfold be_value. by rewrite foldl_app. Qed.

Lemma be_value_cons_zero bs : be_value (x00 :: bs) = be_value bs.
Proof. done. Qed.

Lemma be_value_bound bs : (be_value bs < 256 ^ N.of_nat (length bs))%N.
Proof.
  induction bs as [|b bs IH] using rev_ind; [done|].
  rewrite be_value_snoc, length_app. cbn [length].
  replace (N.of_nat (length bs + 1)) with (N.succ (N.of_nat (length bs))) by lia.
  rewrite N.pow_succ_r'. pose proof (Byte.to_N_bounded b). lia.
Qed.

Lemma be_digits_value fuel n : (n < 2 ^ N.of_nat fuel)%N -> be_value (be_digits fuel n) = n.
Proof.
  revert n. induction fuel as [|fuel IH]; intros n Hn; cbn [be_digits].
  { change (2 ^ N.of_nat 0)%N with 1%N in Hn. cbn. lia. }
  destruct (N.eqb_spec n 0) as [->|Hz]; [done|].
  rewrite be_value_snoc, to_N_byte_of_N, IH.
  { pose proof (N.div_mod n 256). lia. }
  rewrite Nat2N.inj_succ, N.pow_succ_r' in Hn.
  apply N.Div0.div_lt_upper_bound. lia.
Qed.

Lemma be_minimal_value n : be_value (be_minimal n) = n.
Proof.
  apply be_digits_value. destruct (N.eqb_spec n 0) as [->|Hz]; [done|].
  rewrite Nat2N.inj_succ, N2Nat.id. apply N.log2_spec. lia.
Qed.

(** More fuel than digits changes nothing. *)
Lemma be_digits_fuel fuel1 fuel2 n :
  (n < 2 ^ N.of_nat fuel1)%N -> (n < 2 ^ N.of_nat fuel2)%N ->
  be_digits fuel1 n = be_digits fuel2 n.
Proof.
  revert fuel2 n. induction fuel1 as [|fuel1 IH]; intros fuel2 n H1 H2.
  - assert (n = 0)%N as -> by (change (2 ^ N.of_nat 0)%N with 1%N in H1; lia). by destruct fuel2.
  - destruct fuel2 as [|fuel2].
    { assert (n = 0)%N as -> by (change (2 ^ N.of_nat 0)%N with 1%N in H2; lia). done. }
    cbn. destruct (N.eqb_spec n 0) as [|Hz]; [done|]. f_equal.
    rewrite Nat2N.inj_succ, N.pow_succ_r' in H1, H2. apply IH; apply N.Div0.div_lt_upper_bound; lia.
Qed.

Lemma be_minimal_bound n : (n < 2 ^ N.of_nat (S (N.to_nat (N.log2 n))))%N.
Proof.
  destruct (N.eqb_spec n 0) as [->|Hz]; [done|].
  rewrite Nat2N.inj_succ, N2Nat.id. apply N.log2_spec. lia.
Qed.

Lemma be_minimal_zero : be_minimal 0 = [].
Proof. done. Qed.

Lemma be_minimal_step n : n <> 0%N -> be_minimal n = be_minimal (n / 256) ++ [byte_of_N n].
Proof.
  intros Hz. unfold be_minimal at 1. cbn [be_digits]. destruct (N.eqb_spec n 0) as [|_]; [done|].
  f_equal. apply be_digits_fuel; [|apply be_minimal_bound].
  pose proof (be_minimal_bound n) as H. rewrite Nat2N.inj_succ, N.pow_succ_r' in H.
  apply N.Div0.div_lt_upper_bound. lia.
Qed.

Lemma be_minimal_head n b bs : be_minimal n = b :: bs -> b <> x00.
Proof.
  revert b bs. induction n as [n IH] using (well_founded_induction N.lt_wf_0). intros b bs Hn.
  destruct (N.eqb_spec n 0) as [->|Hz]; [done|]. rewrite be_minimal_step in Hn by done.
  destruct (be_minimal (n / 256)) as [|b' bs'] eqn:Hd.
  - injection Hn as Hb <-. intros ->.
    assert (n / 256 = 0)%N as Hq by (rewrite <-(be_minimal_value (n / 256)), Hd; done).
    assert (Byte.to_N (byte_of_N n) = 0)%N as Hv by (by rewrite Hb).
    rewrite to_N_byte_of_N in Hv. pose proof (N.div_mod n 256). lia.
  - injection Hn as <- <-. apply (IH (n / 256)%N) with bs'; [|done].
    apply N.div_lt; lia.
Qed.

(** A fixed-width number is its minimal form after some zero bytes. *)
Lemma be_fixed_minimal k n :
  (n < 256 ^ N.of_nat k)%N ->
  be_fixed k n = replicate (k - length (be_minimal n)) x00 ++ be_minimal n
  /\ length (be_minimal n) <= k.
Proof.
  revert n. induction k as [|k IH]; intros n Hn.
  - change (256 ^ N.of_nat 0)%N with 1%N in Hn. assert (n = 0)%N as -> by lia. done.
  - rewrite Nat2N.inj_succ, N.pow_succ_r' in Hn.
    destruct (IH (n / 256)%N) as [IHv IHl]; [apply N.Div0.div_lt_upper_bound; lia|].
    cbn [be_fixed]. rewrite IHv. destruct (N.eqb_spec n 0) as [->|Hz].
    + change (0 / 256)%N with 0%N. rewrite be_minimal_zero. cbn [length].
      rewrite !Nat.sub_0_r, !app_nil_r. split; [|lia].
      change (byte_of_N 0) with x00. rewrite <-(replicate_S_end k). done.
    + rewrite (be_minimal_step n) by done. rewrite length_app. cbn [length].
      rewrite (assoc_L (++)). split; [|lia]. do 2 f_equal. f_equal. lia.
Qed.

Lemma canonical_be_value n : be_value (canonical_be n) = n.
Proof.
  unfold canonical_be. pose proof (be_minimal_value n) as Hn.
  destruct (be_minimal n) as [|b bs]; [done|].
  destruct (sign_bit b); [|done]. by rewrite be_value_cons_zero.
Qed.

(** ** Fixed-width hashes

    [Hash] of [common/types/sha256input.rs] is a [[u8; 32]]: the length is part
    of the type. *)
Record Hash := mkHash {
  hash_bytes : bytes;
  hash_length : (length hash_bytes =? 32)%nat = true;
}.

(** [copy_from_slice] of exactly 32 bytes. *)
Definition array32 (bs : bytes) : option Hash :=
  match (length bs =? 32)%nat as ok return (length bs =? 32)%nat = ok -> option Hash with
  | true => fun H => Some (mkHash bs H)
  | false => fun _ => None
  end eq_refl.

Definition zero_hash : Hash := mkHash (replicate 32 x00) eq_refl.

Lemma hash_ext (h1 h2 : Hash) : hash_bytes h1 = hash_bytes h2 -> h1 = h2.
Proof.
  destruct h1 as [b1 H1], h2 as [b2 H2]. cbn. intros <-. f_equal.
  apply UIP_dec, bool_dec.
Qed.

#[export] Instance Hash_eq_dec : EqDecision Hash.
Proof.
  intros h1 h2. destruct (decide (hash_bytes h1 = hash_bytes h2)) as [H|H].
  - left. by apply hash_ext.
  - right. congruence.
Defined.

Lemma hash_bytes_length h : length (hash_bytes h) = 32.
Proof. apply Nat.eqb_eq, hash_length. Qed.

Lemma array32_Some bs h : array32 bs = Some h <-> hash_bytes h = bs.
Proof.
  unfold array32. split.
  - generalize (eq_refl (length bs =? 32)).
    destruct (length bs =? 32) at 2 3; [by intros H [= <-]|done].
  - intros <-. generalize (eq_refl (length (hash_bytes h) =? 32)).
    destruct (length (hash_bytes h) =? 32) eqn:Hl at 2 3.
    + intros H. f_equal. by apply hash_ext.
    + pose proof (hash_length h). congruence.
Qed.

Lemma array32_None bs : array32 bs = None <-> length bs <> 32.
Proof.
  destruct (array32 bs) as [h|] eqn:Hh.
  - apply array32_Some in Hh as <-. rewrite hash_bytes_length. split; [done|lia].
  - split; [|done]. intros _ Hl. unfold array32 in Hh.
    revert Hh. generalize (eq_refl (length bs =? 32)).
    destruct (length bs =? 32) eqn:Hb at 2 3; [done|]. apply Nat.eqb_neq in Hb. done.
Qed.

#[export] Program Instance Hash_countable : Countable Hash :=
  inj_countable hash_bytes array32 _.
Next Obligation. intros h. by apply array32_Some. Qed.

(** ** CLVM values

    What [clvmr::Allocator::sexp] shows of a [NodePtr]: an atom or a pair. *)
Inductive sexp : Type :=
| Atom (b : bytes)
| Pair (f r : sexp).

Definition nil_node : sexp := Atom [].

#[export] Instance sexp_eq_dec : EqDecision sexp.
Proof. solve_decision. Defined.

(** ** [sha2]: one-shot SHA-256 of the bytes fed to a hasher *)
Class Sha2 := { sha256_digest : bytes -> Hash }.

(** ** [num-bigint] *)
Class BigInt := {
  from_bytes_be : bytes -> N;            (* [BigInt::from_bytes_be(Sign::Plus, ..)] *)
  from_signed_bytes_be : bytes -> Z;
  to_bytes_be : Z -> bytes;              (* the magnitude *)
  to_signed_bytes_be : Z -> bytes;
  from_bytes_be_value : forall bs, from_bytes_be bs = be_value bs;
  from_signed_bytes_be_value : forall bs, from_signed_bytes_be bs =
    match bs with
    | b :: _ => if sign_bit b then (Z.of_N (be_value bs) - 2 ^ (8 * Z.of_nat (length bs)))%Z
                else Z.of_N (be_value bs)
    | [] => 0%Z
    end;
}.

(** ** [clvmr], [clvm-traits] and [clvm-utils] *)
Class Clvm := {
  run_program : sexp -> sexp -> result string sexp;
  node_to_bytes : sexp -> result string bytes;
  node_from_bytes : bytes -> result string sexp;
  (** [ToClvm for u64], [u32] and [usize] *)
  encode_number : N -> bytes;
  (** [tree_hash] *)
  tree_hash : sexp -> Hash;
  (** [CurriedProgram { program, args: clvm_curried_args!(..) }] *)
  curry_program : sexp -> list sexp -> sexp;

  node_from_to_bytes : forall n bs, node_to_bytes n = Ok bs -> node_from_bytes bs = Ok n;
  node_from_bytes_nil : node_from_bytes [x80] = Ok nil_node;
  node_to_bytes_nil : node_to_bytes nil_node = Ok [x80];
  encode_number_canonical : forall n, encode_number n = canonical_be n;
}.

(** The laws of [tree_hash] and of currying, which only the referee puzzle-hash
    shortcut relies on. *)
Fixpoint curried_env (args : list sexp) : sexp :=
  match args with
  | [] => Atom [x01]
  | a :: args =>
      Pair (Atom [x04]) (Pair (Pair (Atom [x01]) a) (Pair (curried_env args) nil_node))
  end.

Class ClvmTree `{Sha2, Clvm} := {
  tree_hash_atom : forall b, tree_hash (Atom b) = sha256_digest (x01 :: b);
  tree_hash_pair : forall l r, tree_hash (Pair l r)
    = sha256_digest (x02 :: hash_bytes (tree_hash l) ++ hash_bytes (tree_hash r));
  curry_program_shape : forall p args, curry_program p args
    = Pair (Atom [x02]) (Pair (Pair (Atom [x01]) p) (Pair (curried_env args) nil_node));
}.

(** ** [chia-bls] *)
Class Bls := {
  PublicKey : Type;
  PrivateKey : Type;
  Aggsig : Type;
  PublicKey_eq_dec :: EqDecision PublicKey;
  PrivateKey_eq_dec :: EqDecision PrivateKey;
  Aggsig_eq_dec :: EqDecision Aggsig;
  pk_bytes : PublicKey -> bytes;
  pk_from_bytes : bytes -> result string PublicKey;
  pk_add : PublicKey -> PublicKey -> PublicKey;
  sk_bytes : PrivateKey -> bytes;
  sk_from_bytes : bytes -> result string PrivateKey;
  sk_public : PrivateKey -> PublicKey;
  sk_sign : PrivateKey -> bytes -> Aggsig;
  sig_bytes : Aggsig -> bytes;
  sig_from_bytes : bytes -> result string Aggsig;
  sig_default : Aggsig;
  sig_add : Aggsig -> Aggsig -> Aggsig;
  sig_verify : Aggsig -> PublicKey -> bytes -> bool;
  sign_raw : PrivateKey -> bytes -> Aggsig;
  hash_to_g2 : bytes -> Aggsig;
  scalar_multiply : Aggsig -> bytes -> Aggsig;

  pk_bytes_length : forall pk, length (pk_bytes pk) = 48;
  pk_from_to_bytes : forall pk, pk_from_bytes (pk_bytes pk) = Ok pk;
  sig_bytes_length : forall s, length (sig_bytes s) = 96;
  sig_from_to_bytes : forall s, sig_from_bytes (sig_bytes s) = Ok s;
  pk_add_comm : forall a b, pk_add a b = pk_add b a;
  sig_add_comm : forall a b, sig_add a b = sig_add b a;
  sign_raw_scalar : forall sk m, sign_raw sk m = scalar_multiply (hash_to_g2 m) (sk_bytes sk);
  sk_sign_verifies : forall sk m, sig_verify (sk_sign sk m) (sk_public sk) m = true;
  (** two partial signatures of a message augmented with the aggregate key *)
  partial_signatures_verify : forall sk1 sk2 m,
    let pk := pk_add (sk_public sk1) (sk_public sk2) in
    sig_verify (sig_add (sign_raw sk1 (pk_bytes pk ++ m)) (sign_raw sk2 (pk_bytes pk ++ m))) pk m
    = true;
}.
