(* ===== verification/World.v ===== *)
(** * One concrete outside world

    Instances of the classes of [Extern] that satisfy every law, so that the
    witnesses of the library evaluate on concrete inputs.  They stand for
    nothing in the repository: any instance does. *)
From S2P Require Import Prelude Extern.

Module Toy.

#[export] Instance toy_arch : Arch := {| usize_bits := 32; usize_bits_ok := or_introl eq_refl |}.
#[export] Instance toy_order : HashOrder := canonical_order.

(** ** Hashing: a polynomial checksum, printed on 32 bytes *)
Definition checksum (bs : bytes) : N :=
  foldl (fun acc b => (acc * 257 + Byte.to_N b + 1) mod (2 ^ 61 - 1))%N 7%N bs.

(** The known hash of the standard puzzle; that puzzle is the atom [0x99] here. *)
Definition standard_puzzle_hash : Hash := mkHash
  [xe9; xaa; xa4; x9f; x45; xba; xd5; xc8; x89; xb8; x6e; xe3; x34; x15; x50; xc1;
   x55; xcf; xdd; x10; xc3; xa6; x75; x7d; xe6; x18; xd2; x06; x12; xff; xfd; x52] eq_refl.

Definition toy_digest (bs : bytes) : Hash :=
  if bool_decide (bs = [x01; x99]) then standard_puzzle_hash
  else default zero_hash (array32 (be_fixed 32 (checksum bs))).

#[export] Instance toy_sha2 : Sha2 := {| sha256_digest := toy_digest |}.

(** ** Big integers *)
Definition toy_from_signed (bs : bytes) : Z :=
  match bs with
  | b :: _ => if sign_bit b then (Z.of_N (be_value bs) - 2 ^ (8 * Z.of_nat (length bs)))%Z
              else Z.of_N (be_value bs)
  | [] => 0%Z
  end.

#[export] Instance toy_bigint : BigInt := {|
  from_bytes_be := be_value;
  from_signed_bytes_be := toy_from_signed;
  to_bytes_be z := be_minimal (Z.abs_N z);
  to_signed_bytes_be z := canonical_be (Z.abs_N z);
  from_bytes_be_value _ := eq_refl;
  from_signed_bytes_be_value _ := eq_refl;
|}.

(** ** CLVM: a prefix code for the values; programs are constants [(q . x)] and
    the identity [1] *)
Fixpoint escape (bs : bytes) : bytes :=
  match bs with [] => [] | b :: bs => x02 :: b :: escape bs end.

Fixpoint toy_encode (n : sexp) : bytes :=
  match n with
  | Atom [] => [x80]
  | Atom bs => x01 :: escape bs ++ [x03]
  | Pair f r => xff :: toy_encode f ++ toy_encode r
  end.

Fixpoint unescape (bs : bytes) : option (bytes * bytes) :=
  match bs with
  | x03 :: rest => Some ([], rest)
  | x02 :: b :: rest => '(v, rest) ← unescape rest; Some (b :: v, rest)
  | _ => None
  end.

Fixpoint toy_decode (fuel : nat) (bs : bytes) : option (sexp * bytes) :=
  match fuel with
  | O => None
  | S fuel =>
      match bs with
      | x80 :: rest => Some (Atom [], rest)
      | x01 :: rest => '(v, rest) ← unescape rest; Some (Atom v, rest)
      | xff :: rest =>
          '(f, rest) ← toy_decode fuel rest;
          '(r, rest) ← toy_decode fuel rest;
          Some (Pair f r, rest)
      | _ => None
      end
  end.

Lemma unescape_escape bs rest : unescape (escape bs ++ x03 :: rest) = Some (bs, rest).
Proof. induction bs as [|b bs IH]; [done|]. cbn in *. by rewrite IH. Qed.

Fixpoint depth (n : sexp) : nat :=
  match n with Atom _ => 1 | Pair f r => S (depth f `max` depth r) end.

Lemma toy_decode_encode n rest fuel :
  depth n <= fuel -> toy_decode fuel (toy_encode n ++ rest) = Some (n, rest).
Proof.
  revert rest fuel. induction n as [[|b bs]|f IHf r IHr]; intros rest [|fuel] Hf; cbn [depth] in Hf;
    try lia; cbn [toy_encode].
  - done.
  - cbn [app toy_decode]. rewrite <-app_assoc. cbn [app].
    by rewrite unescape_escape.
  - cbn [app toy_decode]. rewrite <-app_assoc, IHf by lia. cbn. by rewrite IHr by lia.
Qed.

Lemma depth_le_length n : depth n <= length (toy_encode n).
Proof.
  induction n as [[|b bs]|f IHf r IHr]; cbn; [lia|lia|]. rewrite length_app. lia.
Qed.

Definition toy_from_bytes (bs : bytes) : result string sexp :=
  match toy_decode (length bs) bs with
  | Some (n, []) => Ok n
  | _ => Err "bad encoding"
  end.

Fixpoint toy_tree_hash (n : sexp) : Hash :=
  match n with
  | Atom b => toy_digest (x01 :: b)
  | Pair l r => toy_digest (x02 :: hash_bytes (toy_tree_hash l) ++ hash_bytes (toy_tree_hash r))
  end.

Definition toy_run (program env : sexp) : result string sexp :=
  match program with
  | Pair (Atom [x01]) x => Ok x
  | Atom [x01] => Ok env
  | _ => Err "clvm raise"
  end.

Lemma toy_from_to n bs : Ok (toy_encode n) = Ok (E := string) bs -> toy_from_bytes bs = Ok n.
Proof.
  intros [= <-]. unfold toy_from_bytes.
  rewrite <-(app_nil_r (toy_encode n)) at 2.
  by rewrite toy_decode_encode by apply depth_le_length.
Qed.

#[export] Instance toy_clvm : Clvm := {|
  run_program := toy_run;
  node_to_bytes n := Ok (toy_encode n);
  node_from_bytes := toy_from_bytes;
  encode_number := canonical_be;
  tree_hash := toy_tree_hash;
  curry_program p args :=
    Pair (Atom [x02]) (Pair (Pair (Atom [x01]) p) (Pair (curried_env args) nil_node));
  node_from_to_bytes := toy_from_to;
  node_from_bytes_nil := eq_refl;
  node_to_bytes_nil := eq_refl;
  encode_number_canonical _ := eq_refl;
|}.

#[export] Instance toy_clvm_tree : ClvmTree.
Proof. by split. Qed.

(** ** Signatures: the exponents of a linear scheme modulo 256 *)
Definition toy_g2 (m : bytes) : byte := byte_of_N (1 + 2 * checksum m).
Definition toy_add (a b : byte) : byte := byte_of_N (Byte.to_N a + Byte.to_N b).
Definition toy_mul (a b : byte) : byte := byte_of_N (Byte.to_N a * Byte.to_N b).
Definition toy_bytes (k : nat) (b : byte) : bytes := replicate k x00 ++ [b].
Definition toy_of_bytes (bs : bytes) : result string byte := Ok (byte_of_N (be_value bs)).

Lemma be_value_toy_bytes k b : be_value (toy_bytes k b) = Byte.to_N b.
Proof.
  unfold toy_bytes. rewrite be_value_snoc.
  assert (be_value (replicate k x00) = 0%N) as ->; [|lia].
  induction k as [|k IH]; [done|]. cbn [replicate]. by rewrite be_value_cons_zero.
Qed.

Lemma toy_of_to_bytes k b : toy_of_bytes (toy_bytes k b) = Ok b.
Proof. unfold toy_of_bytes. by rewrite be_value_toy_bytes, byte_of_N_to_N. Qed.

Lemma toy_bytes_length k b : length (toy_bytes k b) = S k.
Proof. unfold toy_bytes. rewrite length_app, length_replicate. cbn. lia. Qed.

Lemma toy_add_comm a b : toy_add a b = toy_add b a.
Proof. unfold toy_add. by rewrite N.add_comm. Qed.

Lemma toy_distr a b g : toy_add (toy_mul a g) (toy_mul b g) = toy_mul (toy_add a b) g.
Proof.
  unfold toy_add, toy_mul. rewrite !to_N_byte_of_N. unfold byte_of_N.
  rewrite <-N.Div0.add_mod, N.Div0.mul_mod_idemp_l. do 3 f_equal. lia.
Qed.

#[export] Program Instance toy_bls : Bls := {|
  PublicKey := byte; PrivateKey := byte; Aggsig := byte;
  pk_bytes := toy_bytes 47;
  pk_from_bytes := toy_of_bytes;
  pk_add := toy_add;
  sk_bytes := toy_bytes 31;
  sk_from_bytes := toy_of_bytes;
  sk_public sk := sk;
  sk_sign sk m := toy_mul sk (toy_g2 (toy_bytes 47 sk ++ m));
  sig_bytes := toy_bytes 95;
  sig_from_bytes := toy_of_bytes;
  sig_default := x00;
  sig_add := toy_add;
  sig_verify s pk m := Byte.eqb s (toy_mul pk (toy_g2 (toy_bytes 47 pk ++ m)));
  sign_raw sk m := toy_mul sk (toy_g2 m);
  hash_to_g2 := toy_g2;
  scalar_multiply s bs := byte_of_N (be_value bs * Byte.to_N s);
|}.
Next Obligation. intros pk. apply toy_bytes_length. Qed.
Next Obligation. intros pk. apply toy_of_to_bytes. Qed.
Next Obligation. intros pk. apply toy_bytes_length. Qed.
Next Obligation. intros pk. apply toy_of_to_bytes. Qed.
Next Obligation. intros a b. apply toy_add_comm. Qed.
Next Obligation. intros a b. apply toy_add_comm. Qed.
Next Obligation. intros sk m. unfold toy_mul. by rewrite be_value_toy_bytes. Qed.
Next Obligation. intros sk m. cbn beta. by apply Byte.byte_dec_lb. Qed.
Next Obligation. intros sk1 sk2 m pk. cbn beta. apply Byte.byte_dec_lb, toy_distr. Qed.

End Toy.
