(* ===== verification/Coins.v ===== *)
(** * Common value types

    [src/common/types]: integer atoms, hashes, amounts, timeouts, game ids,
    hash inputs and coin strings, and [divmod]. *)
From S2P Require Import Prelude Extern World.

(** ** [amount.rs], [timeout.rs], [game_id.rs], [coin_id.rs], [puzzle_hash.rs] *)
Abbreviation Amount := N (only parsing).
Abbreviation Timeout := N (only parsing).
Abbreviation GameID := N (only parsing).

Record PuzzleHash := mkPuzzleHash { ph_hash : Hash }.
Record CoinID := mkCoinID { coin_id_hash : Hash }.
Record CoinString := mkCoinString { coin_bytes : bytes }.

#[export] Instance PuzzleHash_eq_dec : EqDecision PuzzleHash.
Proof. solve_decision. Defined.
#[export] Instance CoinID_eq_dec : EqDecision CoinID.
Proof. solve_decision. Defined.
#[export] Instance CoinString_eq_dec : EqDecision CoinString.
Proof. solve_decision. Defined.
#[export] Program Instance PuzzleHash_countable : Countable PuzzleHash :=
  inj_countable' ph_hash mkPuzzleHash _.
Next Obligation. by intros []. Qed.
#[export] Program Instance CoinID_countable : Countable CoinID :=
  inj_countable' coin_id_hash mkCoinID _.
Next Obligation. by intros []. Qed.
#[export] Program Instance CoinString_countable : Countable CoinString :=
  inj_countable' coin_bytes mkCoinString _.
Next Obligation. by intros []. Qed.

Definition PuzzleHash_bytes (ph : PuzzleHash) : bytes := hash_bytes (ph_hash ph).
Definition CoinID_bytes (id : CoinID) : bytes := hash_bytes (coin_id_hash id).
(** [CoinID::default] and the like. *)
Definition CoinID_default : CoinID := mkCoinID zero_hash.
Definition PuzzleHash_default : PuzzleHash := mkPuzzleHash zero_hash.

(** [Amount::half]. *)
Definition Amount_half (a : Amount) : Amount := (a / 2)%N.

(** [Amount::checked_sub], in a release build. *)
Definition Amount_checked_sub (a rhs : Amount) : result Error Amount :=
  ok_or (StrErr "Amount underflow") (u64_checked_sub a rhs).

(** [impl Add/AddAssign for Amount], [impl Add for Timeout]. *)
Definition Amount_add (a rhs : Amount) : Amount := u64_add a rhs.
Definition Timeout_add (t rhs : Timeout) : Timeout := u64_add t rhs.

(** ** [divmod.rs]: [/] and [%] of [BigInt] truncate *)
Definition divmod (a b : Z) : Z * Z :=
  let d := Z.quot a b in
  let r := Z.rem a b in
  if ((d <? 0) && negb (r =? 0))%Z then (d - 1, r + b)%Z else (d, r).

Section common.
Context {arch : Arch} {sha2 : Sha2} {bigint : BigInt} {clvm : Clvm}.

(** ** [int_utils.rs] *)
Definition usize_from_atom (a : bytes) : option N :=
  let bi := from_bytes_be a in if (bi <? usize_modulus)%N then Some bi else None.

Definition u64_from_atom (a : bytes) : option N :=
  let bi := from_bytes_be a in if (bi <? u64_modulus)%N then Some bi else None.

Definition i64_from_atom (a : bytes) : option Z :=
  let bi := from_signed_bytes_be a in
  if ((- 2 ^ 63 <=? bi) && (bi <? 2 ^ 63))%Z then Some bi else None.

(** ** [sha256input.rs] *)
Definition atom_from_clvm (n : sexp) : option bytes :=
  match n with Atom b => Some b | Pair _ _ => None end.

Definition Hash_from_slice (by_ : bytes) : result Error Hash :=
  if (length by_ =? 0)%nat then Ok zero_hash
  else ok_or (StrErr "hash must be 32 bytes") (array32 by_).

Definition Hash_from_nodeptr (n : sexp) : result Error Hash :=
  match atom_from_clvm n with
  | Some b => Hash_from_slice b
  | None => Err (StrErr "can't convert node to hash")
  end.

Inductive Sha256Input : Type :=
| Sha_Bytes (b : bytes)
| Sha_Hashed (input : list Sha256Input)
| Sha_Hash (h : Hash)
| Sha_Array (inputs : list Sha256Input).

(** The hasher is the bytes it was fed. *)
Fixpoint Sha256Input_update (self : Sha256Input) (hasher : bytes) : bytes :=
  match self with
  | Sha_Bytes b => hasher ++ b
  | Sha_Hash h => hasher ++ hash_bytes h
  | Sha_Hashed input =>
      let new_hasher := fold_left (fun h i => Sha256Input_update i h) input [] in
      hasher ++ hash_bytes (sha256_digest new_hasher)
  | Sha_Array inputs => fold_left (fun h i => Sha256Input_update i h) inputs hasher
  end.

Definition Sha256Input_hash (self : Sha256Input) : Hash :=
  sha256_digest (Sha256Input_update self []).

Definition Hash_new (by_ : bytes) : Hash := Sha256Input_hash (Sha_Bytes by_).

(** ** [Amount::from_clvm], [Timeout::from_clvm], [GameID::from_clvm] *)
Definition Amount_from_clvm (n : sexp) : result Error Amount :=
  match atom_from_clvm n ≫= u64_from_atom with
  | Some v => Ok v
  | None => Err (StrErr "bad amount")
  end.

Definition Timeout_from_clvm (n : sexp) : result Error Timeout :=
  match atom_from_clvm n ≫= u64_from_atom with
  | Some v => Ok v
  | None => Err (StrErr "bad timeout")
  end.

Definition GameID_from_clvm (n : sexp) : result Error GameID :=
  match atom_from_clvm n with
  | Some a => ok_or (StrErr "game id atom too large for u64") (u64_from_atom a)
  | None => Err (StrErr "bad game id")
  end.

(** ** [coin_string.rs] *)
Definition CoinString_from_bytes (b : bytes) : CoinString := mkCoinString b.
Definition CoinString_to_bytes (c : CoinString) : bytes := coin_bytes c.

Definition CoinString_from_parts (parent : CoinID) (puzzle_hash : PuzzleHash) (amount : Amount)
    : CoinString :=
  mkCoinString (CoinID_bytes parent ++ PuzzleHash_bytes puzzle_hash ++ encode_number amount).

Definition to_parts (c : CoinString) : option (CoinID * PuzzleHash * Amount) :=
  if (length (coin_bytes c) <? 64)%nat then None
  else
    match Hash_from_slice (take 32 (coin_bytes c)),
          Hash_from_slice (take 32 (drop 32 (coin_bytes c))) with
    | Ok parent_id, Ok puzzle_hash =>
        (fun a => (mkCoinID parent_id, mkPuzzleHash puzzle_hash, a))
          <$> u64_from_atom (drop 64 (coin_bytes c))
    | _, _ => None
    end.

Definition CoinString_amount (c : CoinString) : option Amount :=
  match to_parts c with Some (_, _, amt) => Some amt | None => None end.

Definition to_coin_id (c : CoinString) : CoinID := mkCoinID (Hash_new (coin_bytes c)).

Definition get_coin_string_parts (c : CoinString) : result Error (CoinID * PuzzleHash * Amount) :=
  ok_or (StrErr "improper coin string") (to_parts c).

Definition get_coin_string_parts_opt (c : option CoinString)
    : result Error (option (CoinID * PuzzleHash * Amount)) :=
  match c with
  | Some coin => p ← get_coin_string_parts coin; mret (Some p)
  | None => Ok None
  end.

(** ** Lemmas *)
Lemma Hash_from_slice_hash h : Hash_from_slice (hash_bytes h) = Ok h.
Proof.
  unfold Hash_from_slice. rewrite hash_bytes_length. cbn.
  by rewrite (proj2 (array32_Some _ h)).
Qed.

Lemma u64_from_atom_Some a v :
  u64_from_atom a = Some v <-> is_u64 v /\ v = be_value a.
Proof.
  unfold u64_from_atom, is_u64. rewrite from_bytes_be_value.
  destruct (N.ltb_spec (be_value a) u64_modulus); split.
  - by intros [= <-].
  - by intros [_ ->].
  - done.
  - intros [? ->]. lia.
Qed.

Lemma u64_from_atom_encode_number v : is_u64 v -> u64_from_atom (encode_number v) = Some v.
Proof.
  intros Hv. apply u64_from_atom_Some. by rewrite encode_number_canonical, canonical_be_value.
Qed.

Lemma usize_from_atom_encode_number v :
  (v < usize_modulus)%N -> usize_from_atom (encode_number v) = Some v.
Proof.
  intros Hv. unfold usize_from_atom.
  rewrite from_bytes_be_value, encode_number_canonical, canonical_be_value.
  by destruct (N.ltb_spec v usize_modulus); [|lia].
Qed.

Lemma to_parts_Some c parent ph amt :
  to_parts c = Some (parent, ph, amt)
  <-> exists amount_bytes,
        coin_bytes c = CoinID_bytes parent ++ PuzzleHash_bytes ph ++ amount_bytes
        /\ u64_from_atom amount_bytes = Some amt.
Proof.
  unfold to_parts. split.
  - destruct (Nat.ltb_spec (length (coin_bytes c)) 64) as [|Hlen]; [done|].
    unfold Hash_from_slice. rewrite !length_take, !length_drop.
    replace (_ `min` _ =? 0) with false by (symmetry; apply Nat.eqb_neq; lia).
    replace (_ `min` _ =? 0) with false by (symmetry; apply Nat.eqb_neq; lia).
    destruct (array32 (take 32 (coin_bytes c))) as [h1|] eqn:H1; [|done].
    destruct (array32 (take 32 (drop 32 (coin_bytes c)))) as [h2|] eqn:H2; [|done]. cbn.
    destruct (u64_from_atom _) as [a|] eqn:Ha; [|done]. intros [= <- <- <-].
    apply array32_Some in H1, H2. exists (drop 64 (coin_bytes c)). split; [|done].
    unfold CoinID_bytes, PuzzleHash_bytes. cbn. rewrite H1, H2.
    by rewrite <-(drop_drop _ 32 32), !take_drop.
  - intros (bs & Hc & Ha). rewrite Hc.
    assert (length (CoinID_bytes parent) = 32) as L1 by apply hash_bytes_length.
    assert (length (PuzzleHash_bytes ph) = 32) as L2 by apply hash_bytes_length.
    rewrite !length_app, L1, L2.
    destruct (Nat.ltb_spec (32 + (32 + length bs)) 64) as [|_]; [lia|].
    rewrite take_app_length' by done.
    rewrite drop_app_length' by done.
    rewrite take_app_length' by done.
    rewrite (app_assoc (CoinID_bytes parent)), drop_app_length' by (rewrite length_app; lia).
    unfold CoinID_bytes, PuzzleHash_bytes. rewrite !Hash_from_slice_hash, Ha. cbn.
    by destruct parent, ph.
Qed.

End common.

#[export] Hint Resolve hash_bytes_length : chia.
#[export] Hint Rewrite @Hash_from_slice_hash : chia.

(** The pair floor division returns is the one whose remainder lies between
    zero and the divisor. *)
Lemma floor_pair a b q r :
  (b <> 0 -> a = b * q + r ->
  (q, r) = (Z.div a b, Z.modulo a b) <-> 0 <= r < b \/ b < r <= 0)%Z.
Proof.
  intros Hb Ha. split.
  - intros [= -> ->]. destruct (Z.lt_ge_cases 0 b).
    + left. by apply Z.mod_pos_bound.
    + right. apply Z.mod_neg_bound. lia.
  - intros Hr. pose proof (Z.div_mod a b Hb) as Hd.
    destruct (Z.div_mod_unique b q (a / b) r (a mod b))%Z as [-> ->]; [done| |lia|done].
    destruct (Z.lt_ge_cases 0 b).
    + left. by apply Z.mod_pos_bound.
    + right. apply Z.mod_neg_bound. lia.
Qed.

(** ** Properties *)

(** [CoinString::to_parts] inverts [CoinString::from_parts] for every
    parent, puzzle hash and [u64] amount. *)
Theorem coin_string_roundtrip {bigint : BigInt} {clvm : Clvm} parent ph amt (Hamt : is_u64 amt) :
  to_parts (CoinString_from_parts parent ph amt) = Some (parent, ph, amt).
Proof. apply to_parts_Some. eexists. split; [done|]. by apply u64_from_atom_encode_number. Qed.

(** [divmod] is floor division exactly when the truncated quotient is
    nonzero, or the remainder is zero or has the sign of the divisor: a
    quotient truncated to zero is never corrected ([divmod (-1) 2] is
    [(0, -1)]). *)
Theorem divmod_floor a b (Hb : b <> 0%Z) :
  divmod a b = (Z.div a b, Z.modulo a b)
  <-> (Z.quot a b <> 0 \/ Z.rem a b = 0 \/ 0 < Z.rem a b * b)%Z.
Proof.
  pose proof (Z.quot_rem' a b) as Hqr. pose proof (Z.rem_bound_abs a b Hb) as Hbnd.
  pose proof (Z.rem_sign_nz a b Hb) as Hsign. revert Hqr Hbnd Hsign. unfold divmod.
  generalize (Z.quot a b) (Z.rem a b). intros q r Hqr Hbnd Hsign.
  assert (r <> 0 -> 0 < r * a)%Z as Hra by (intros Hr; specialize (Hsign Hr); nia).
  destruct (Z.ltb_spec q 0), (Z.eqb_spec r 0); cbn; rewrite (floor_pair a b) by (lia || nia).
  all: split; intros; nia.
Qed.

Module Witnesses.
Import Toy.

Lemma coin_string_roundtrip_witness :
  to_parts (CoinString_from_parts (mkCoinID zero_hash) (mkPuzzleHash (Hash_new [x01])) 1000%N)
  = Some (mkCoinID zero_hash, mkPuzzleHash (Hash_new [x01]), 1000%N).
Proof. apply coin_string_roundtrip. vm_compute. reflexivity. Defined.

Lemma divmod_floor_witness :
  divmod (-7) 2 = ((-7) / 2, (-7) mod 2)%Z <-> (Z.quot (-7) 2 <> 0 \/ Z.rem (-7) 2 = 0 \/ 0 < Z.rem (-7) 2 * 2)%Z.
Proof. apply (divmod_floor (-7) 2). discriminate. Defined.

End Witnesses.
