(* ===== verification/Clvm.v ===== *)
(** * Programs, CLVM encodings, spends and coin conditions

    [src/utils.rs] and [src/common/types/{program, program_ref, puzzle, spend,
    coin_condition}.rs].  A [NodePtr] is the value it points to; allocator
    limits are not modelled.  An [Rc] is the shared value. *)
From S2P Require Import Prelude Extern World Coins.

(** ** [common/constants.rs] *)
Definition CREATE_COIN : N := 51.
Definition REM : N := 1.
Definition ASSERT_HEIGHT_RELATIVE : N := 82.
Definition AGG_SIG_UNSAFE_ATOM : bytes := [x31].
Definition AGG_SIG_ME_ATOM : bytes := [x32].
Definition CREATE_COIN_ATOM : bytes := [x33].
Definition RESERVE_FEE_ATOM : bytes := [x34].
Definition CREATE_COIN_ANNOUNCEMENT_ATOM : bytes := [x3c].
Definition ASSERT_COIN_ANNOUNCEMENT_ATOM : bytes := [x3d].
Definition ASSERT_HEIGHT_RELATIVE_ATOM : bytes := [x52].

(** ** [utils.rs] *)
Definition non_nil (n : sexp) : bool :=
  match n with Pair _ _ => true | Atom b => negb (length b =? 0)%nat end.

Fixpoint proper_list_loop (args_sexp : sexp) (store : bool) (args : list sexp)
    : option (list sexp) :=
  match args_sexp with
  | Atom b => if negb (non_nil (Atom b)) then Some args else None
  | Pair f r => proper_list_loop r store (if store then args ++ [f] else args)
  end.
Definition proper_list (n : sexp) (store : bool) : option (list sexp) := proper_list_loop n store [].

(** [for i_reverse in 0..vec.len() { built = new_pair(vec[i], built) }] *)
Definition enlist (vec : list sexp) : sexp :=
  foldl (fun built v => Pair v built) nil_node (reverse vec).

Definition first (n : sexp) : result Error sexp :=
  match n with Pair f _ => Ok f | Atom _ => Err (ClvmErr "first of non-cons") end.

(** ** Encodings of [clvm-traits]

    A tuple [(a, b)] is a pair, [()] is nil, a vector or array is a proper
    list, an [Option] is nil or its value. *)
Definition list_node (l : list sexp) : sexp := foldr Pair nil_node l.

Section clvm.
Context {arch : Arch} {sha2 : Sha2} {bigint : BigInt} {clvm : Clvm} {bls : Bls}.

Definition num_node (n : N) : sexp := Atom (encode_number n).
Definition hash_node (h : Hash) : sexp := Atom (hash_bytes h).
Definition ph_node (ph : PuzzleHash) : sexp := hash_node (ph_hash ph).
Definition pk_node (pk : PublicKey) : sexp := Atom (pk_bytes pk).
Definition option_node {A} (enc : A -> sexp) (o : option A) : sexp := from_option enc nil_node o.

(** ** [program.rs], [program_ref.rs], [puzzle.rs] *)
Record Program := mkProgram { program_bytes : bytes }.
Record Puzzle := mkPuzzle { puzzle_program : Program }.

#[export] Instance Program_eq_dec : EqDecision Program.
Proof. solve_decision. Defined.
#[export] Instance Puzzle_eq_dec : EqDecision Puzzle.
Proof. solve_decision. Defined.

Definition lift_err {A} (mk : string -> Error) (r : result string A) : result Error A :=
  match r with Ok a => Ok a | Err e => Err (mk e) end.

Definition Program_to_nodeptr (p : Program) : result Error sexp :=
  lift_err ClvmErr (node_from_bytes (program_bytes p)).
Definition Program_from_nodeptr (n : sexp) : result Error Program :=
  mkProgram <$> lift_err ClvmErr (node_to_bytes n).
(** [clone_to_encoder] copies the value into the encoder's allocator. *)
Fixpoint clone_to_encoder (node : sexp) : sexp :=
  match node with
  | Atom buf => Atom buf
  | Pair a b => Pair (clone_to_encoder a) (clone_to_encoder b)
  end.
Definition Program_to_clvm (p : Program) : result Error sexp :=
  n ← lift_err EncodeErr (node_from_bytes (program_bytes p)); mret (clone_to_encoder n).
(** [x.sha256tree(allocator)] of a program panics when its bytes do not
    decode; the panic is the [Panicked] outcome. *)
Definition Program_sha256tree (p : Program) : result Error PuzzleHash :=
  match Program_to_clvm p with
  | Ok node => Ok (mkPuzzleHash (tree_hash node))
  | Err _ => Err (Panicked "sha256tree: ToClvm encoding failed")
  end.
Definition node_sha256tree (n : sexp) : PuzzleHash := mkPuzzleHash (tree_hash n).
(** [NodePtr::to_quoted_program]: [(q . x)]. *)
Definition to_quoted_program (n : sexp) : result Error Program :=
  Program_from_nodeptr (Pair (Atom [x01]) n).

Definition Puzzle_from_nodeptr (n : sexp) : result Error Puzzle :=
  mkPuzzle <$> Program_from_nodeptr n.
Definition Puzzle_to_clvm (p : Puzzle) : result Error sexp := Program_to_clvm (puzzle_program p).

(** [Program(vec![0x80])] *)
Definition nil_program : Program := mkProgram [x80].

(** ** [aggsig.rs], [public_key.rs]: decoding *)
Definition Aggsig_from_slice (b : bytes) : result Error Aggsig :=
  if negb (length b =? 96)%nat then Err (StrErr "bad aggsig length")
  else lift_err BlsErr (sig_from_bytes b).
Definition PublicKey_from_slice (b : bytes) : result Error PublicKey :=
  if negb (length b =? 48)%nat then Err (StrErr "bad public key length")
  else lift_err BlsErr (pk_from_bytes b).

(** ** [spend.rs] *)
Record Spend := mkSpend { puzzle : Puzzle; solution : Program; signature : Aggsig }.
Record CoinSpend := mkCoinSpend { coin : CoinString; bundle : Spend }.
Record SpendBundle := mkSpendBundle { name : option string; spends : list CoinSpend }.
Record BrokenOutCoinSpendInfo := mkBroken {
  broken_solution : Program;
  broken_conditions : Program;
  message : bytes;
  broken_signature : Aggsig;
}.

#[export] Instance Spend_eq_dec : EqDecision Spend.
Proof. solve_decision. Defined.
#[export] Instance CoinSpend_eq_dec : EqDecision CoinSpend.
Proof. solve_decision. Defined.
#[export] Instance SpendBundle_eq_dec : EqDecision SpendBundle.
Proof. solve_decision. Defined.

Definition Spend_default : Spend := mkSpend (mkPuzzle nil_program) nil_program sig_default.

Definition Spend_to_clvm (s : Spend) : result Error sexp :=
  p ← Puzzle_to_clvm (puzzle s);
  sol ← Program_to_clvm (solution s);
  mret (Pair p (Pair sol (Pair (Atom (sig_bytes (signature s))) nil_node))).

Definition Spend_from_clvm (data : sexp) : result Error Spend :=
  match proper_list data true with
  | None => Err (StrErr "not list")
  | Some lst =>
      match lst with
      | l0 :: l1 :: l2 :: _ =>
          p ← Puzzle_from_nodeptr l0;
          sol ← Program_from_nodeptr l1;
          sig_atom ← ok_or (StrErr "bad sig") (atom_from_clvm l2);
          sig ← Aggsig_from_slice sig_atom;
          mret (mkSpend p sol sig)
      | _ => Err (StrErr "bad length")
      end
  end.

Definition CoinSpend_to_clvm (c : CoinSpend) : result Error sexp :=
  b ← Spend_to_clvm (bundle c); mret (Pair (Atom (coin_bytes (coin c))) (Pair b nil_node)).

Definition CoinSpend_from_clvm (data : sexp) : result Error CoinSpend :=
  match proper_list data true with
  | None => Err (StrErr "bad list")
  | Some lst =>
      match lst with
      | l0 :: l1 :: _ =>
          coin_b ← ok_or (StrErr "bad coin") (atom_from_clvm l0);
          b ← Spend_from_clvm l1;
          mret (mkCoinSpend (CoinString_from_bytes coin_b) b)
      | _ => Err (StrErr "bad length")
      end
  end.

Definition SpendBundle_to_clvm (sb : SpendBundle) : result Error sexp :=
  l ← mapM_result CoinSpend_to_clvm (spends sb); mret (list_node l).

Definition SpendBundle_from_clvm (data : sexp) : result Error SpendBundle :=
  match proper_list data true with
  | None => Err (StrErr "bad list")
  | Some lst => l ← mapM_result CoinSpend_from_clvm lst; mret (mkSpendBundle None l)
  end.

(** ** [coin_condition.rs] *)
Inductive CoinCondition : Type :=
| AggSigMe (pk : PublicKey) (msg : bytes)
| AggSigUnsafe (pk : PublicKey) (msg : bytes)
| CreateCoin (ph : PuzzleHash) (amt : Amount)
| CreateCoinAnnouncement (msg : bytes)
| AssertCoinAnnouncement (msg : bytes)
| ReserveFee (amt : Amount)
| AssertHeightRelative (h : N).

#[export] Instance CoinCondition_eq_dec : EqDecision CoinCondition.
Proof. solve_decision. Defined.

(** [.map_err(|e| StrErr(format!("<what>: {e:?}")))] *)
Definition relabel {A} (what : string) (r : result Error A) : result Error A :=
  match r with Ok a => Ok a | Err _ => Err (StrErr what) end.

Definition parse_condition (condition : sexp) : result Error (option CoinCondition) :=
  match proper_list condition true with
  | None => Ok None
  | Some exploded =>
      let two_atoms :=
        match exploded with
        | [Atom op; Atom arg] =>
            if bool_decide (op = ASSERT_HEIGHT_RELATIVE_ATOM) then
              v ← ok_or (StrErr "ASSERT_HEIGHT_RELATIVE value was not a u64 atom") (u64_from_atom arg);
              mret (Some (AssertHeightRelative v))
            else if bool_decide (op = CREATE_COIN_ANNOUNCEMENT_ATOM) then
              Ok (Some (CreateCoinAnnouncement arg))
            else if bool_decide (op = ASSERT_COIN_ANNOUNCEMENT_ATOM) then
              Ok (Some (AssertCoinAnnouncement arg))
            else if bool_decide (op = RESERVE_FEE_ATOM) then
              v ← ok_or (StrErr "RESERVE_FEE value was not a u64 atom") (u64_from_atom arg);
              mret (Some (ReserveFee v))
            else Ok None
        | _ => Ok None
        end in
      match exploded with
      | Atom a0 :: Atom a1 :: Atom a2 :: _ =>
          if bool_decide (a0 = AGG_SIG_UNSAFE_ATOM) then
            pk ← relabel "AGG_SIG_UNSAFE public key" (PublicKey_from_slice a1);
            mret (Some (AggSigUnsafe pk a2))
          else if bool_decide (a0 = AGG_SIG_ME_ATOM) then
            pk ← relabel "AGG_SIG_ME public key" (PublicKey_from_slice a1);
            mret (Some (AggSigMe pk a2))
          else if bool_decide (a0 = CREATE_COIN_ATOM) then
            amt ← ok_or (StrErr "CREATE_COIN amount was not a u64 atom") (u64_from_atom a2);
            hash ← relabel "CREATE_COIN puzzle hash" (Hash_from_slice a1);
            mret (Some (CreateCoin (mkPuzzleHash hash) amt))
          else two_atoms
      | _ => two_atoms
      end
  end.

(** The loop of [CoinCondition::from_nodeptr] over the parsed conditions. *)
Fixpoint parse_conditions (l : list sexp) : result Error (list CoinCondition) :=
  match l with
  | [] => Ok []
  | cond :: l =>
      parsed ← parse_condition cond;
      rest ← parse_conditions l;
      mret (match parsed with Some c => c :: rest | None => rest end)
  end.

Definition CoinCondition_from_nodeptr (conditions : sexp) : result Error (list CoinCondition) :=
  exploded ← ok_or (StrErr "coin conditions were not a list") (proper_list conditions true);
  parse_conditions exploded.

Definition from_puzzle_and_solution (puzzle solution : Program)
    : result Error (list CoinCondition) :=
  run_puzzle ← Program_to_nodeptr puzzle;
  run_args ← Program_to_nodeptr solution;
  conditions ← lift_err ClvmErr (run_program run_puzzle run_args);
  CoinCondition_from_nodeptr conditions.

(** [(CREATE_COIN, (ph, (amount, ())))] *)
Definition create_coin_node (ph : PuzzleHash) (amount : Amount) : sexp :=
  Pair (num_node CREATE_COIN) (Pair (ph_node ph) (Pair (num_node amount) nil_node)).

Definition is_create_coin (c : CoinCondition) : option (PuzzleHash * Amount) :=
  match c with CreateCoin ph amt => Some (ph, amt) | _ => None end.
End clvm.

(** ** Lemmas *)
Section lemmas.
Context {bigint : BigInt} {clvm : Clvm} {bls : Bls}.

Lemma proper_list_loop_list_node l args :
  proper_list_loop (list_node l) true args = Some (args ++ l).
Proof.
  revert args. induction l as [|x l IH]; intros args; cbn; [by rewrite app_nil_r|].
  by rewrite IH, <-app_assoc.
Qed.

Lemma proper_list_list_node l : proper_list (list_node l) true = Some l.
Proof. apply proper_list_loop_list_node. Qed.

Lemma proper_list_loop_inv n args l :
  proper_list_loop n true args = Some l -> exists l', l = args ++ l' /\ n = list_node l'.
Proof.
  revert args. induction n as [b|f _ r IHr]; intros args; cbn.
  - destruct b; [|done]. intros [= <-]. exists []. by rewrite app_nil_r.
  - intros (l' & -> & ->)%IHr. exists (f :: l'). by rewrite <-app_assoc.
Qed.

Lemma proper_list_Some n l : proper_list n true = Some l <-> n = list_node l.
Proof.
  split; [|intros ->; apply proper_list_list_node].
  by intros (l' & -> & ->)%proper_list_loop_inv.
Qed.

Lemma enlist_list_node l : enlist l = list_node l.
Proof.
  unfold enlist, list_node.
  induction l as [|x l IH]; [done|]. by rewrite reverse_cons, foldl_app, IH.
Qed.

Lemma clone_to_encoder_id n : clone_to_encoder n = n.
Proof. induction n as [|? IHf ? IHr]; cbn; congruence. Qed.

Lemma Program_from_nodeptr_inv n p :
  Program_from_nodeptr n = Ok p -> Program_to_clvm p = Ok n /\ Program_to_nodeptr p = Ok n.
Proof.
  unfold Program_from_nodeptr, Program_to_clvm, Program_to_nodeptr.
  destruct (node_to_bytes n) as [bs|] eqn:Hb; cbn; [|done]. intros [= <-]. cbn.
  rewrite (node_from_to_bytes _ _ Hb). cbn. by rewrite clone_to_encoder_id.
Qed.

Lemma nil_program_node : Program_to_nodeptr nil_program = Ok nil_node.
Proof. unfold Program_to_nodeptr. cbn. by rewrite node_from_bytes_nil. Qed.

Lemma Program_from_nil_node : Program_from_nodeptr nil_node = Ok nil_program.
Proof. unfold Program_from_nodeptr. by rewrite node_to_bytes_nil. Qed.

Lemma num_node_51 : num_node CREATE_COIN = Atom CREATE_COIN_ATOM.
Proof. unfold num_node. by rewrite encode_number_canonical. Qed.

Lemma num_node_REM : num_node REM = Atom [x01].
Proof. unfold num_node. by rewrite encode_number_canonical. Qed.

Lemma num_node_82 : num_node ASSERT_HEIGHT_RELATIVE = Atom ASSERT_HEIGHT_RELATIVE_ATOM.
Proof. unfold num_node. by rewrite encode_number_canonical. Qed.

Lemma num_node_inj a b : num_node a = num_node b -> a = b.
Proof.
  unfold num_node. rewrite !encode_number_canonical. intros [= H].
  by rewrite <-(canonical_be_value a), H, canonical_be_value.
Qed.

Lemma parse_create_coin ph amt :
  is_u64 amt -> parse_condition (create_coin_node ph amt) = Ok (Some (CreateCoin ph amt)).
Proof.
  intros Hamt. unfold parse_condition, create_coin_node.
  change (Pair (num_node CREATE_COIN) _)
    with (list_node [num_node CREATE_COIN; ph_node ph; num_node amt]).
  rewrite proper_list_list_node, num_node_51. cbn -[u64_from_atom Hash_from_slice].
  rewrite u64_from_atom_encode_number by done. cbn -[Hash_from_slice].
  rewrite Hash_from_slice_hash. by destruct ph.
Qed.

(** Only the opcodes whose arguments are checked can fail. *)
Lemma checked_opcode op rest e :
  parse_condition (list_node (Atom op :: rest)) = Err e ->
  op ∈ [AGG_SIG_UNSAFE_ATOM; AGG_SIG_ME_ATOM; CREATE_COIN_ATOM;
        ASSERT_HEIGHT_RELATIVE_ATOM; RESERVE_FEE_ATOM].
Proof.
  unfold parse_condition. rewrite proper_list_list_node.
  destruct (decide (op ∈ [AGG_SIG_UNSAFE_ATOM; AGG_SIG_ME_ATOM; CREATE_COIN_ATOM;
    ASSERT_HEIGHT_RELATIVE_ATOM; RESERVE_FEE_ATOM])) as [?|Hop]; [done|].
  repeat rewrite not_elem_of_cons in Hop. destruct Hop as (H1 & H2 & H3 & H4 & H5 & _).
  rewrite !(bool_decide_eq_false_2 (op = AGG_SIG_UNSAFE_ATOM)),
    !(bool_decide_eq_false_2 (op = AGG_SIG_ME_ATOM)),
    !(bool_decide_eq_false_2 (op = CREATE_COIN_ATOM)),
    !(bool_decide_eq_false_2 (op = ASSERT_HEIGHT_RELATIVE_ATOM)),
    !(bool_decide_eq_false_2 (op = RESERVE_FEE_ATOM)) by done.
  destruct rest as [|[a1|] [|[a2|] rest]]; try done.
  all: by repeat case_bool_decide.
Qed.

Lemma Spend_from_clvm_inv data s :
  Spend_from_clvm data = Ok s ->
  exists data', Spend_to_clvm s = Ok data' /\ Spend_from_clvm data' = Ok s.
Proof.
  unfold Spend_from_clvm at 1. destruct (proper_list data true) as [lst|]; [|done].
  destruct lst as [|l0 [|l1 [|l2 ?]]]; try done. intros H.
  apply bind_Ok in H as (p & Hp & H). apply bind_Ok in H as (sol & Hsol & H).
  apply bind_Ok in H as (a & Ha & H). apply bind_Ok in H as (sig & Hsig & [= <-]).
  unfold Puzzle_from_nodeptr in Hp.
  destruct (Program_from_nodeptr l0) as [pp|] eqn:Hpp; [|done]. injection Hp as <-.
  destruct (Program_from_nodeptr_inv _ _ Hpp) as [Hc0 _].
  destruct (Program_from_nodeptr_inv _ _ Hsol) as [Hc1 _].
  unfold Spend_to_clvm, Puzzle_to_clvm. cbn. rewrite Hc0. cbn. rewrite Hc1. cbn.
  eexists. split; [done|]. unfold Spend_from_clvm.
  change (Pair l0 _) with (list_node [l0; l1; Atom (sig_bytes sig)]).
  rewrite proper_list_list_node. unfold Puzzle_from_nodeptr. rewrite Hpp. cbn. rewrite Hsol. cbn.
  unfold Aggsig_from_slice. rewrite sig_bytes_length. cbn. by rewrite sig_from_to_bytes.
Qed.

Lemma CoinSpend_from_clvm_inv data c :
  CoinSpend_from_clvm data = Ok c ->
  exists data', CoinSpend_to_clvm c = Ok data' /\ CoinSpend_from_clvm data' = Ok c.
Proof.
  unfold CoinSpend_from_clvm at 1. destruct (proper_list data true) as [lst|]; [|done].
  destruct lst as [|l0 [|l1 ?]]; try done. intros H.
  apply bind_Ok in H as (cb & Hcb & H). apply bind_Ok in H as (b & Hb & [= <-]).
  apply Spend_from_clvm_inv in Hb as (d & Hd & Hd').
  unfold CoinSpend_to_clvm. cbn. rewrite Hd. cbn. eexists. split; [done|].
  unfold CoinSpend_from_clvm.
  change (Pair _ (Pair d nil_node)) with (list_node [Atom cb; d]).
  rewrite proper_list_list_node. cbn. by rewrite Hd'.
Qed.

Lemma CoinSpends_from_clvm_inv l cs :
  Forall2 (fun n c => CoinSpend_from_clvm n = Ok c) l cs ->
  exists l', Forall2 (fun c n => CoinSpend_to_clvm c = Ok n) cs l'
    /\ Forall2 (fun n c => CoinSpend_from_clvm n = Ok c) l' cs.
Proof.
  induction 1 as [|n c l cs Hc _ (l' & IH1 & IH2)]; [by exists []|].
  apply CoinSpend_from_clvm_inv in Hc as (n' & ? & ?).
  exists (n' :: l'). split; by constructor.
Qed.
End lemmas.

#[export] Hint Rewrite @proper_list_list_node @clone_to_encoder_id @num_node_51 @num_node_82
  @num_node_REM : chia.

(** ** Properties *)

(** [proper_list] reads back exactly the vector [enlist] wrote, and
    accepts nothing else. *)
Theorem proper_list_enlist n l : proper_list n true = Some l <-> n = enlist l.
Proof. rewrite enlist_list_node. apply proper_list_Some. Qed.

(** A spend bundle decoded from CLVM can be encoded again, and the
    encoding decodes to the same bundle: peers that re-send a bundle send the
    same spends. *)
Theorem spend_bundle_reencode {clvm : Clvm} {bls : Bls} data sb
    (Hdec : SpendBundle_from_clvm data = Ok sb) :
  exists data', SpendBundle_to_clvm sb = Ok data' /\ SpendBundle_from_clvm data' = Ok sb.
Proof.
  unfold SpendBundle_from_clvm in Hdec. destruct (proper_list data true) as [lst|]; [|done].
  apply bind_Ok in Hdec as (cs & Hcs%mapM_result_Ok & [= <-]).
  apply CoinSpends_from_clvm_inv in Hcs as (l' & H1%mapM_result_Ok & H2%mapM_result_Ok).
  exists (list_node l'). unfold SpendBundle_to_clvm, SpendBundle_from_clvm. cbn.
  rewrite H1, proper_list_list_node. by rewrite H2.
Qed.

(** Parsing a condition list never fails on an opcode the parser does not
    know: an error means that some listed condition starts with one of the
    five opcodes whose arguments are checked. *)
Theorem parse_conditions_error {bigint : BigInt} {bls : Bls} l e
    (Herr : CoinCondition_from_nodeptr (list_node l) = Err e) :
  exists op rest, list_node (Atom op :: rest) ∈ l /\
    op ∈ [AGG_SIG_UNSAFE_ATOM; AGG_SIG_ME_ATOM; CREATE_COIN_ATOM;
          ASSERT_HEIGHT_RELATIVE_ATOM; RESERVE_FEE_ATOM].
Proof.
  unfold CoinCondition_from_nodeptr in Herr. rewrite proper_list_list_node in Herr. cbn in Herr.
  induction l as [|c l IH]; [done|]. cbn in Herr.
  destruct (parse_condition c) as [parsed|e'] eqn:Hc; cbn in Herr.
  - destruct (parse_conditions l) as [|e'] eqn:Hl; cbn in Herr; [done|].
    destruct IH as (op & rest & ? & ?); [congruence|].
    exists op, rest. split; [by right|done].
  - destruct (proper_list c true) as [[|[op|] rest]|] eqn:Hp;
      try (unfold parse_condition in Hc; rewrite Hp in Hc; done).
    apply proper_list_Some in Hp as ->.
    exists op, rest. split; [left|]. by eapply checked_opcode.
Qed.

Module Witnesses.
Import Toy.

Definition sample_bundle : SpendBundle :=
  mkSpendBundle None [mkCoinSpend (CoinString_from_parts CoinID_default PuzzleHash_default 7%N)
    (mkSpend (mkPuzzle nil_program) nil_program x05)].

Definition sample_data : sexp :=
  list_node [list_node
    [Atom (coin_bytes (CoinString_from_parts CoinID_default PuzzleHash_default 7%N));
     list_node [nil_node; nil_node; Atom (toy_bytes 95 x05)]]].

Lemma spend_bundle_reencode_witness :
  exists data, SpendBundle_from_clvm data = Ok sample_bundle /\
  exists data', SpendBundle_to_clvm sample_bundle = Ok data'
    /\ SpendBundle_from_clvm data' = Ok sample_bundle.
Proof.
  exists sample_data. split; [by_evaluation|].
  apply (spend_bundle_reencode sample_data). by_evaluation.
Defined.

Lemma parse_conditions_error_witness :
  exists op rest, list_node (Atom op :: rest) ∈ [list_node [Atom [x33]; Atom [x01]; Atom [x02]]] /\
    op ∈ [AGG_SIG_UNSAFE_ATOM; AGG_SIG_ME_ATOM; CREATE_COIN_ATOM;
          ASSERT_HEIGHT_RELATIVE_ATOM; RESERVE_FEE_ATOM].
Proof.
  apply (parse_conditions_error _ (StrErr "CREATE_COIN puzzle hash")). by_evaluation.
Defined.

End Witnesses.
