(* ===== verification/StandardCoin.v ===== *)
(** * The standard coin: puzzle hashes, synthetic keys and signatures

    [src/common/standard_coin.rs].  The bytes of the standard puzzle come from
    the [chia-puzzles] crate and are a parameter. *)
From S2P Require Import Prelude Extern World Coins Clvm.

Definition GROUP_ORDER : bytes :=
  [x73; xed; xa7; x53; x29; x9d; x7d; x48; x33; x39; xd8; x08; x09; xa1; xd8; x05;
   x53; xbd; xa4; x02; xff; xfe; x5b; xfe; xff; xff; xff; xff; x00; x00; x00; x01].
Definition DEFAULT_HIDDEN_PUZZLE_HASH : Hash := mkHash
  [x71; x1d; x6c; x4e; x32; xc9; x2e; x53; x17; x9b; x19; x94; x84; xcf; x8c; x89;
   x75; x42; xbc; x57; xf2; xb2; x25; x82; x79; x9f; x9d; x65; x7e; xec; x46; x99] eq_refl.
Definition DEFAULT_PUZZLE_HASH : Hash := mkHash
  [xe9; xaa; xa4; x9f; x45; xba; xd5; xc8; x89; xb8; x6e; xe3; x34; x15; x50; xc1;
   x55; xcf; xdd; x10; xc3; xa6; x75; x7d; xe6; x18; xd2; x06; x12; xff; xfd; x52] eq_refl.
Definition ONE : bytes := [x01].
Definition TWO : bytes := [x02].
Definition Q_KW : bytes := [x01].
Definition A_KW : bytes := [x02].
Definition C_KW : bytes := [x04].

(** [chia_puzzles::P2_DELEGATED_PUZZLE_OR_HIDDEN_PUZZLE] *)
Class ChiaPuzzles := { P2_DELEGATED_PUZZLE_OR_HIDDEN_PUZZLE : bytes }.

Section standard_coin.
Context {sha2 : Sha2} {bigint : BigInt} {clvm : Clvm} {bls : Bls} {puzzles : ChiaPuzzles}.

Definition Q_KW_TREEHASH : Hash := Sha256Input_hash (Sha_Array [Sha_Bytes [x01]; Sha_Bytes [x01]]).

(** ** [utils.rs] *)
Definition number_from_u8 (v : bytes) : Z :=
  if (length v =? 0)%nat then 0%Z else from_signed_bytes_be v.
Definition u8_from_number (v : Z) : bytes := to_signed_bytes_be v.

Definition get_standard_coin_puzzle : result Error Puzzle :=
  hex_sexp ← lift_err ClvmErr (node_from_bytes P2_DELEGATED_PUZZLE_OR_HIDDEN_PUZZLE);
  Puzzle_from_nodeptr hex_sexp.

Definition group_order_int : Z := Z.of_N (from_bytes_be GROUP_ORDER).

Definition calculate_synthetic_offset (public_key : PublicKey) (hidden_puzzle_hash : PuzzleHash)
    : Z :=
  let blob_input := pk_bytes public_key ++ PuzzleHash_bytes hidden_puzzle_hash in
  let blob := Sha256Input_hash (Sha_Bytes blob_input) in
  let group_order := group_order_int in
  let value := from_signed_bytes_be (hash_bytes blob) in
  Z.rem (Z.rem value group_order + group_order) group_order.

(** The loop that right-aligns the bytes in a zeroed [[u8; 32]]; more than 32
    bytes underflow the index. *)
Definition right_align_32 (right : bytes) : result Error bytes :=
  if (32 <? length right)%nat then Err (Panicked "index out of bounds")
  else Ok (replicate (32 - length right) x00 ++ right).

Definition private_to_public_key (private_key : PrivateKey) : PublicKey := sk_public private_key.

Definition calculate_synthetic_secret_key (secret_key : PrivateKey) (hidden_puzzle_hash : Hash)
    : result Error PrivateKey :=
  let secret_exponent := number_from_u8 (sk_bytes secret_key) in
  let public_key := private_to_public_key secret_key in
  let synthetic_secret_offset :=
    calculate_synthetic_offset public_key (mkPuzzleHash hidden_puzzle_hash) in
  let synthetic_secret_exponent :=
    Z.rem (secret_exponent + synthetic_secret_offset) group_order_int in
  private_key_bytes ← right_align_32 (u8_from_number synthetic_secret_exponent);
  lift_err (fun _ => StrErr "calculate_synthetic_secret_key failed")
    (sk_from_bytes private_key_bytes).

Definition calculate_synthetic_public_key (public_key : PublicKey)
    (hidden_puzzle_hash : PuzzleHash) : result Error PublicKey :=
  let private_key_int := calculate_synthetic_offset public_key hidden_puzzle_hash in
  private_key_bytes ← right_align_32 (to_bytes_be private_key_int);
  synthetic_offset ← lift_err (fun _ => StrErr "calculate_synthetic_public_key failed")
    (sk_from_bytes private_key_bytes);
  let public_of_synthetic := private_to_public_key synthetic_offset in
  mret (pk_add public_key public_of_synthetic).

Definition puzzle_for_synthetic_public_key (standard_coin_puzzle : Puzzle)
    (synthetic_public_key : PublicKey) : result Error Puzzle :=
  program ← Puzzle_to_clvm standard_coin_puzzle;
  Puzzle_from_nodeptr (curry_program program [pk_node synthetic_public_key]).

Definition hash_of_consed_parameter_hash (environment parameter : Hash) : Hash :=
  Sha256Input_hash (Sha_Array [
    Sha_Bytes TWO;
    Sha_Hashed [Sha_Bytes ONE; Sha_Bytes C_KW];
    Sha_Hashed [
      Sha_Bytes TWO;
      Sha_Hashed [
        Sha_Bytes TWO;
        Sha_Hashed [Sha_Bytes ONE; Sha_Bytes Q_KW];
        Sha_Hash parameter];
      Sha_Hashed [
        Sha_Bytes TWO;
        Sha_Hash environment;
        Sha_Hashed [Sha_Bytes ONE]]]]).

Definition curry_and_treehash (hash_of_quoted_mod_hash : PuzzleHash)
    (hashed_arguments : list PuzzleHash) : PuzzleHash :=
  let env := fold_left (fun env arg => hash_of_consed_parameter_hash env (ph_hash arg))
               (reverse hashed_arguments) (Sha256Input_hash (Sha_Bytes [x01; x01])) in
  mkPuzzleHash (Sha256Input_hash (Sha_Array [
    Sha_Bytes TWO;
    Sha_Hashed [Sha_Bytes ONE; Sha_Bytes A_KW];
    Sha_Hashed [
      Sha_Bytes TWO;
      Sha_Hash (ph_hash hash_of_quoted_mod_hash);
      Sha_Hashed [
        Sha_Bytes TWO;
        Sha_Hash env;
        Sha_Hashed [Sha_Bytes ONE]]]])).

Definition calculate_hash_of_quoted_mod_hash (mod_hash : PuzzleHash) : Hash :=
  Sha256Input_hash
    (Sha_Array [Sha_Bytes TWO; Sha_Hash Q_KW_TREEHASH; Sha_Hash (ph_hash mod_hash)]).

Definition puzzle_hash_for_synthetic_public_key (synthetic_public_key : PublicKey) : PuzzleHash :=
  let quoted_mod_hash :=
    mkPuzzleHash (calculate_hash_of_quoted_mod_hash (mkPuzzleHash DEFAULT_PUZZLE_HASH)) in
  let public_key_hash := node_sha256tree (pk_node synthetic_public_key) in
  curry_and_treehash quoted_mod_hash [public_key_hash].

Definition puzzle_for_pk (public_key : PublicKey) : result Error Puzzle :=
  standard_puzzle ← get_standard_coin_puzzle;
  synthetic_public_key ← calculate_synthetic_public_key public_key
    (mkPuzzleHash DEFAULT_HIDDEN_PUZZLE_HASH);
  puzzle_for_synthetic_public_key standard_puzzle synthetic_public_key.

Definition puzzle_hash_for_pk (public_key : PublicKey) : result Error PuzzleHash :=
  synthetic_public_key ← calculate_synthetic_public_key public_key
    (mkPuzzleHash DEFAULT_HIDDEN_PUZZLE_HASH);
  mret (puzzle_hash_for_synthetic_public_key synthetic_public_key).

Definition solution_for_delegated_puzzle (delegated_puzzle : Program) (solution : sexp)
    : result Error sexp :=
  d ← Program_to_clvm delegated_puzzle;
  mret (Pair (num_node 0) (Pair d (Pair solution nil_node))).

Definition solution_for_conditions (conditions : sexp) : result Error sexp :=
  delegated_puzzle ← to_quoted_program conditions;
  solution_for_delegated_puzzle delegated_puzzle nil_node.

(** ** Signatures *)
Definition partial_signer (private_key : PrivateKey) (final_public_key : PublicKey)
    (value : bytes) : Aggsig :=
  let message := pk_bytes final_public_key ++ value in
  scalar_multiply (hash_to_g2 message) (sk_bytes private_key).

Definition signer (private_key : PrivateKey) (value : bytes) : PublicKey * Aggsig :=
  let public_key := private_to_public_key private_key in
  (public_key, partial_signer private_key public_key value).

Definition unsafe_sign_partial (sk : PrivateKey) (pk : PublicKey) (msg : bytes) : Aggsig :=
  sign_raw sk (pk_bytes pk ++ msg).

Definition agg_sig_me_message (raw_message : bytes) (coin_id : CoinID)
    (agg_sig_me_extra_data : Hash) : bytes :=
  raw_message ++ CoinID_bytes coin_id ++ hash_bytes agg_sig_me_extra_data.

Definition sign_agg_sig_me (secret_key : PrivateKey) (raw_message : bytes) (coin_id : CoinID)
    (agg_sig_me_extra_data : Hash) : result Error Aggsig :=
  let message := agg_sig_me_message raw_message coin_id agg_sig_me_extra_data in
  let public_key := private_to_public_key secret_key in
  let signed := sk_sign secret_key message in
  _ ← check (sig_verify signed public_key message) (Panicked "assertion failed: signed.verify");
  mret signed.

Definition reward_payout_message (reward_puzzle_hash : PuzzleHash) : bytes :=
  x78 :: PuzzleHash_bytes reward_puzzle_hash.

Definition sign_reward_payout (secret_key : PrivateKey) (reward_puzzle_hash : PuzzleHash)
    : result Error Aggsig :=
  let message := reward_payout_message reward_puzzle_hash in
  let public_key := private_to_public_key secret_key in
  let signed := sk_sign secret_key message in
  _ ← check (sig_verify signed public_key message) (Panicked "assertion failed: signed.verify");
  mret signed.

Definition verify_reward_payout_signature (pubkey : PublicKey) (reward_puzzle_hash : PuzzleHash)
    (signature : Aggsig) : bool :=
  sig_verify signature pubkey (reward_payout_message reward_puzzle_hash).

Definition standard_solution_unsafe (private_key : PrivateKey) (conditions : sexp)
    : result Error BrokenOutCoinSpendInfo :=
  quoted_conds ← to_quoted_program conditions;
  quoted_conds_hash ← Program_sha256tree quoted_conds;
  solution ← solution_for_conditions conditions;
  solution_program ← Program_from_nodeptr solution;
  let message := PuzzleHash_bytes quoted_conds_hash in
  let '(_, sig) := signer private_key message in
  conditions_program ← Program_from_nodeptr conditions;
  mret (mkBroken solution_program conditions_program message sig).

Definition add_signature (aggregated_signature : option Aggsig) (new_sig : Aggsig)
    : option Aggsig :=
  match aggregated_signature with
  | Some agg => Some (sig_add agg new_sig)
  | None => Some new_sig
  end.

(** One turn of the loop of [standard_solution_partial] over the conditions;
    the locals are [one_create] and [aggregated_signature]. *)
Definition sign_condition (private_key : PrivateKey) (aggregate_public_key : PublicKey)
    (coin_agg_sig_me_message : bytes) (parent_coin : CoinID) (agg_sig_me_additional_data : Hash)
    (partial : bool) (locals : bool * option Aggsig) (cond : CoinCondition)
    : bool * option Aggsig :=
  let '(one_create, aggregated_signature) := locals in
  match cond with
  | CreateCoin _ _ =>
      if negb one_create then
        (true, add_signature aggregated_signature
                 (if partial
                  then partial_signer private_key aggregate_public_key coin_agg_sig_me_message
                  else sk_sign private_key coin_agg_sig_me_message))
      else locals
  | AggSigMe pubkey data =>
      let message := pk_bytes pubkey ++ data in
      let extra_agg_sig_me_message :=
        agg_sig_me_message message parent_coin agg_sig_me_additional_data in
      (one_create, add_signature aggregated_signature
                     (partial_signer private_key pubkey extra_agg_sig_me_message))
  | AggSigUnsafe pubkey data =>
      (one_create, add_signature aggregated_signature (partial_signer private_key pubkey data))
  | _ => locals
  end.

Definition standard_solution_partial (private_key : PrivateKey) (parent_coin : CoinID)
    (conditions : sexp) (aggregate_public_key : PublicKey) (agg_sig_me_additional_data : Hash)
    (partial : bool) : result Error BrokenOutCoinSpendInfo :=
  quoted_conds ← to_quoted_program conditions;
  quoted_conds_hash ← Program_sha256tree quoted_conds;
  solution ← solution_for_conditions conditions;
  let coin_agg_sig_me_message := agg_sig_me_message (PuzzleHash_bytes quoted_conds_hash)
    parent_coin agg_sig_me_additional_data in
  conds ← CoinCondition_from_nodeptr conditions;
  let '(_, aggregated_signature) :=
    fold_left (sign_condition private_key aggregate_public_key coin_agg_sig_me_message
                 parent_coin agg_sig_me_additional_data partial) conds (false, None) in
  match aggregated_signature with
  | Some signature =>
      solution_program ← Program_from_nodeptr solution;
      conditions_program ← Program_from_nodeptr conditions;
      mret (mkBroken solution_program conditions_program coin_agg_sig_me_message signature)
  | None => Err (StrErr "Failed to get a signature from the spend")
  end.

(** ** [ChiaIdentity] *)
Record ChiaIdentity := mkChiaIdentity {
  private_key : PrivateKey;
  synthetic_public_key : PublicKey;
  public_key : PublicKey;
  synthetic_private_key : PrivateKey;
  identity_puzzle : Puzzle;
  identity_puzzle_hash : PuzzleHash;
}.

Definition ChiaIdentity_new (private_key : PrivateKey) : result Error ChiaIdentity :=
  synthetic_private_key ← calculate_synthetic_secret_key private_key DEFAULT_HIDDEN_PUZZLE_HASH;
  let public_key := private_to_public_key private_key in
  let synthetic_public_key := private_to_public_key synthetic_private_key in
  puzzle ← puzzle_for_pk public_key;
  puzzle_hash ← puzzle_hash_for_pk public_key;
  computed ← Program_sha256tree (puzzle_program puzzle);
  _ ← check (bool_decide (computed = puzzle_hash)) (Panicked "assertion failed: puzzle hash");
  mret (mkChiaIdentity private_key synthetic_public_key public_key synthetic_private_key
          puzzle puzzle_hash).
End standard_coin.

(** ** Lemmas *)
Section tree_hashes.
Context {sha2 : Sha2} {bigint : BigInt} {clvm : Clvm} {tree : ClvmTree} {bls : Bls}.
Implicit Types (n p : sexp).

(** The hash inputs of the source spell out the tree hash of a pair. *)
Lemma hash_of_consed_parameter_tree (env : sexp) n :
  hash_of_consed_parameter_hash (tree_hash env) (tree_hash n)
  = tree_hash (Pair (Atom C_KW) (Pair (Pair (Atom Q_KW) n) (Pair env nil_node))).
Proof. unfold nil_node. by rewrite !tree_hash_pair, !tree_hash_atom. Qed.

Lemma quoted_mod_hash_tree p :
  calculate_hash_of_quoted_mod_hash (node_sha256tree p) = tree_hash (Pair (Atom Q_KW) p).
Proof. by rewrite tree_hash_pair, tree_hash_atom. Qed.

Lemma curried_env_tree (args : list sexp) :
  fold_left (fun env arg => hash_of_consed_parameter_hash env (ph_hash arg))
    (reverse (node_sha256tree <$> args)) (Sha256Input_hash (Sha_Bytes [x01; x01]))
  = tree_hash (curried_env args).
Proof.
  induction args as [|a args IH]; cbn [fmap list_fmap curried_env].
  - by rewrite tree_hash_atom.
  - rewrite reverse_cons, fold_left_app, IH. cbn [fold_left].
    apply hash_of_consed_parameter_tree.
Qed.

Lemma curry_and_treehash_tree p args :
  curry_and_treehash (mkPuzzleHash (calculate_hash_of_quoted_mod_hash (node_sha256tree p)))
    (node_sha256tree <$> args)
  = node_sha256tree (curry_program p args).
Proof.
  unfold curry_and_treehash. rewrite curried_env_tree, curry_program_shape. cbn [ph_hash].
  rewrite quoted_mod_hash_tree. unfold node_sha256tree, nil_node. f_equal.
  by rewrite !tree_hash_pair, !tree_hash_atom.
Qed.
End tree_hashes.

Section partial_spends.
Context {sha2 : Sha2} {bigint : BigInt} {clvm : Clvm} {bls : Bls}.

Definition is_create (c : CoinCondition) : bool :=
  match c with CreateCoin _ _ => true | _ => false end.
Definition is_agg_sig (c : CoinCondition) : bool :=
  match c with AggSigMe _ _ | AggSigUnsafe _ _ => true | _ => false end.

Lemma partial_signer_sign_raw sk pk value :
  partial_signer sk pk value = sign_raw sk (pk_bytes pk ++ value).
Proof. unfold partial_signer. by rewrite sign_raw_scalar. Qed.

(** Without explicit signature conditions, the fold signs the spend once, at
    the first created coin. *)
Lemma sign_conditions_once sk pk msg parent extra partial conds locals :
  Forall (fun c => is_agg_sig c = false) conds ->
  fold_left (sign_condition sk pk msg parent extra partial) conds locals
  = if existsb is_create conds && negb locals.1
    then (true, add_signature locals.2
            (if partial then partial_signer sk pk msg else sk_sign sk msg))
    else locals.
Proof.
  intros Hno. revert locals. induction Hno as [|c conds Hc _ IH]; intros [one agg]; [done|].
  cbn [fold_left existsb]. rewrite IH. destruct c, one; try done; cbn.
  all: by rewrite ?andb_false_r.
Qed.

Lemma standard_solution_partial_Ok sk parent conditions pk extra partial info :
  standard_solution_partial sk parent conditions pk extra partial = Ok info ->
  exists quoted qh conds sig one,
    to_quoted_program conditions = Ok quoted /\ Program_sha256tree quoted = Ok qh
    /\ CoinCondition_from_nodeptr conditions = Ok conds
    /\ message info = agg_sig_me_message (PuzzleHash_bytes qh) parent extra
    /\ fold_left (sign_condition sk pk (message info) parent extra partial) conds (false, None)
       = (one, Some sig)
    /\ broken_signature info = sig.
Proof.
  unfold standard_solution_partial. intros (quoted & Hq & H)%bind_Ok.
  apply bind_Ok in H as (qh & Hqh & H). apply bind_Ok in H as (sol & _ & H).
  apply bind_Ok in H as (conds & Hconds & H).
  destruct (fold_left _ _ _) as [one [sig|]] eqn:Hfold; [|done].
  apply bind_Ok in H as (? & _ & H). apply bind_Ok in H as (? & _ & [= <-]).
  by exists quoted, qh, conds, sig, one.
Qed.

(** Whoever else signs such a spend signs the same message of it. *)
Lemma standard_solution_partial_other sk1 sk2 parent conditions pk extra conds info :
  CoinCondition_from_nodeptr conditions = Ok conds ->
  Forall (fun c => is_agg_sig c = false) conds ->
  standard_solution_partial sk1 parent conditions pk extra true = Ok info ->
  broken_signature info = partial_signer sk1 pk (message info)
  /\ Program_from_nodeptr conditions = Ok (broken_conditions info)
  /\ standard_solution_partial sk2 parent conditions pk extra true
     = Ok (mkBroken (broken_solution info) (broken_conditions info) (message info)
             (partial_signer sk2 pk (message info))).
Proof.
  intros Hconds Hno. unfold standard_solution_partial. rewrite Hconds.
  destruct (to_quoted_program conditions) as [quoted|]; [|done]. cbn [mbind result_bind].
  destruct (Program_sha256tree quoted) as [qh|]; [|done]. cbn [mbind result_bind].
  destruct (solution_for_conditions conditions) as [sol|]; [|done]. cbn [mbind result_bind].
  rewrite !sign_conditions_once by done. cbn [negb andb fst snd add_signature].
  destruct (existsb is_create conds); [|done]. cbn [andb].
  destruct (Program_from_nodeptr sol) as [sp|]; [|done]. cbn [mbind result_bind].
  destruct (Program_from_nodeptr conditions) as [cp|]; [|done]. by intros [= <-].
Qed.
End partial_spends.

(** ** Properties *)

(** The shortcut [curry_and_treehash] computes the tree hash of the
    curried puzzle itself, for every puzzle and every argument list. *)
Theorem curry_and_treehash_correct {sha2 : Sha2} {clvm : Clvm} {tree : ClvmTree} p args :
  curry_and_treehash (mkPuzzleHash (calculate_hash_of_quoted_mod_hash (node_sha256tree p)))
    (node_sha256tree <$> args)
  = node_sha256tree (curry_program p args).
Proof. apply curry_and_treehash_tree. Qed.

(** Two players that sign the same spend of a coin they hold 2-of-2 (its
    conditions carry no signature condition of their own) sign the same
    message, and the sum of their partial signatures verifies under the
    aggregate of their public keys, whichever of them adds it up. *)
Theorem partial_spend_verifies {sha2 : Sha2} {bigint : BigInt} {clvm : Clvm} {bls : Bls}
    sk1 sk2 parent conditions extra conds info1 info2
    (pk := pk_add (private_to_public_key sk1) (private_to_public_key sk2))
    (Hconds : CoinCondition_from_nodeptr conditions = Ok conds)
    (Hno : Forall (fun c => is_agg_sig c = false) conds)
    (H1 : standard_solution_partial sk1 parent conditions pk extra true = Ok info1)
    (H2 : standard_solution_partial sk2 parent conditions pk extra true = Ok info2) :
  message info1 = message info2
  /\ sig_verify (sig_add (broken_signature info1) (broken_signature info2)) pk (message info1) = true
  /\ sig_verify (sig_add (broken_signature info2) (broken_signature info1)) pk (message info1) = true.
Proof.
  apply standard_solution_partial_Ok in H1 as (? & ? & conds1 & sig1 & ? & Hq1 & Hh1 & Hc1 & Hm1 & Hf1 & ->).
  apply standard_solution_partial_Ok in H2 as (? & ? & conds2 & sig2 & ? & Hq2 & Hh2 & Hc2 & Hm2 & Hf2 & ->).
  assert (conds1 = conds /\ conds2 = conds) as [-> ->] by (split; congruence).
  assert (message info1 = message info2) as Hm by congruence.
  rewrite sign_conditions_once in Hf1, Hf2 by done. rewrite <-Hm in Hf2.
  cbn in Hf1, Hf2. destruct (existsb is_create conds); cbn in Hf1, Hf2; simplify_eq.
  split_and!; [done| |rewrite sig_add_comm];
    rewrite !partial_signer_sign_raw; apply partial_signatures_verify.
Qed.

(** A reward payout signature is produced without tripping the
    assertion, and verifies under the signer's key. *)
Theorem reward_payout_verifies {bls : Bls} sk ph :
  exists sig, sign_reward_payout sk ph = Ok sig
    /\ verify_reward_payout_signature (private_to_public_key sk) ph sig = true.
Proof.
  unfold sign_reward_payout, verify_reward_payout_signature, private_to_public_key.
  rewrite sk_sign_verifies. cbn. eexists. split; [done|]. apply sk_sign_verifies.
Qed.

Module Witnesses.
Import Toy.

Lemma curry_and_treehash_correct_witness :
  curry_and_treehash
    (mkPuzzleHash (calculate_hash_of_quoted_mod_hash (node_sha256tree (Atom [x01]))))
    (node_sha256tree <$> [Atom [x05]; nil_node])
  = node_sha256tree (curry_program (Atom [x01]) [Atom [x05]; nil_node]).
Proof. apply (curry_and_treehash_correct (tree := toy_clvm_tree)). Defined.

Definition two_coins : sexp :=
  list_node [create_coin_node PuzzleHash_default 5; create_coin_node PuzzleHash_default 6].

Definition sample_info (sk : byte) : BrokenOutCoinSpendInfo :=
  match standard_solution_partial sk CoinID_default two_coins (toy_add x03 x04) zero_hash true with
  | Ok info => info
  | Err _ => mkBroken nil_program nil_program [] x00
  end.

Lemma sample_info_Ok sk :
  is_ok (standard_solution_partial sk CoinID_default two_coins (toy_add x03 x04) zero_hash true)
  = true ->
  standard_solution_partial sk CoinID_default two_coins (toy_add x03 x04) zero_hash true
  = Ok (sample_info sk).
Proof. unfold sample_info. by destruct (standard_solution_partial _ _ _ _ _ _). Qed.

Lemma partial_spend_verifies_witness :
  message (sample_info x03) = message (sample_info x04)
  /\ sig_verify (sig_add (broken_signature (sample_info x03)) (broken_signature (sample_info x04)))
       (toy_add x03 x04) (message (sample_info x03)) = true
  /\ sig_verify (sig_add (broken_signature (sample_info x04)) (broken_signature (sample_info x03)))
       (toy_add x03 x04) (message (sample_info x03)) = true.
Proof.
  apply (partial_spend_verifies (bls := toy_bls) x03 x04 CoinID_default two_coins zero_hash
           [CreateCoin PuzzleHash_default 5; CreateCoin PuzzleHash_default 6]).
  - by_evaluation.
  - repeat constructor.
  - apply (sample_info_Ok x03). by_evaluation.
  - apply (sample_info_Ok x04). by_evaluation.
Defined.

End Witnesses.
