(* ===== verification/Text.v ===== *)
(** * Text

    What the source takes from the standard library of Rust: decimal numbers as
    [to_string] prints and [parse] reads them, and the check of
    [str::from_utf8]. *)
From S2P Require Import Prelude.
From Stdlib Require Import Decimal DecimalN DecimalFacts NArith.

(** ** Decimal digits *)
Fixpoint uint_bytes (d : uint) : bytes :=
  match d with
  | Nil => []
  | D0 d => x30 :: uint_bytes d | D1 d => x31 :: uint_bytes d | D2 d => x32 :: uint_bytes d
  | D3 d => x33 :: uint_bytes d | D4 d => x34 :: uint_bytes d | D5 d => x35 :: uint_bytes d
  | D6 d => x36 :: uint_bytes d | D7 d => x37 :: uint_bytes d | D8 d => x38 :: uint_bytes d
  | D9 d => x39 :: uint_bytes d
  end.

Definition push_digit (b : byte) (d : uint) : option uint :=
  match b with
  | x30 => Some (D0 d) | x31 => Some (D1 d) | x32 => Some (D2 d) | x33 => Some (D3 d)
  | x34 => Some (D4 d) | x35 => Some (D5 d) | x36 => Some (D6 d) | x37 => Some (D7 d)
  | x38 => Some (D8 d) | x39 => Some (D9 d) | _ => None
  end.
Fixpoint bytes_uint (bs : bytes) : option uint :=
  match bs with
  | [] => Some Nil
  | b :: bs => d ← bytes_uint bs; push_digit b d
  end.

Definition is_digit (b : byte) : bool := bool_decide (is_Some (push_digit b Nil)).
Definition c_minus : byte := x2d.
Definition c_plus : byte := x2b.

(** [n.to_string()] *)
Definition nat_digits (n : N) : bytes := uint_bytes (N.to_uint n).
Definition int_digits (z : Z) : bytes :=
  if (z <? 0)%Z then c_minus :: nat_digits (Z.to_N (- z)) else nat_digits (Z.to_N z).

(** [parse]: digits, at least one; a plus sign is taken, a minus sign only by
    the signed types; the value must fit. *)
Definition parse_digits (bs : bytes) : option N :=
  match bs with
  | [] => None
  | _ => N.of_uint <$> bytes_uint bs
  end.
Definition strip_plus (bs : bytes) : bytes :=
  match bs with b :: rest => if bool_decide (b = c_plus) then rest else bs | [] => [] end.
Definition parse_unsigned (limit : N) (bs : bytes) : option N :=
  n ← parse_digits (strip_plus bs); if (n <? limit)%N then Some n else None.
Definition i128_max : Z := 2 ^ 127 - 1.
Definition i128_min : Z := - 2 ^ 127.
Definition parse_i128 (bs : bytes) : option Z :=
  match bs with
  | b :: rest =>
      if bool_decide (b = c_minus) then
        n ← parse_digits rest; if (Z.of_N n <=? - i128_min)%Z then Some (- Z.of_N n)%Z else None
      else n ← parse_digits (strip_plus bs); if (Z.of_N n <=? i128_max)%Z then Some (Z.of_N n) else None
  | [] => None
  end.

(** ** UTF-8 *)
Definition byte_in (lo hi : N) (b : byte) : bool := (lo <=? Byte.to_N b)%N && (Byte.to_N b <=? hi)%N.
Definition utf8_cont (b : byte) : bool := byte_in 128 191 b.

(** [str::from_utf8] accepts the well-formed sequences of the Unicode standard:
    no overlong form, no surrogate, nothing above U+10FFFF. *)
Fixpoint utf8_valid (bs : bytes) : bool :=
  match bs with
  | [] => true
  | b :: bs =>
      if byte_in 0 127 b then utf8_valid bs
      else
        match bs with
        | [] => false
        | b1 :: bs1 =>
            if byte_in 194 223 b then utf8_cont b1 && utf8_valid bs1
            else
              match bs1 with
              | [] => false
              | b2 :: bs2 =>
                  if byte_in 224 239 b then
                    byte_in (if byte_in 224 224 b then 160 else 128)
                            (if byte_in 237 237 b then 159 else 191) b1
                    && utf8_cont b2 && utf8_valid bs2
                  else
                    match bs2 with
                    | [] => false
                    | b3 :: bs3 =>
                        byte_in 240 244 b
                        && byte_in (if byte_in 240 240 b then 144 else 128)
                                   (if byte_in 244 244 b then 143 else 191) b1
                        && utf8_cont b2 && utf8_cont b3 && utf8_valid bs3
                    end
              end
        end
  end.

(** ** Lemmas *)
Lemma push_digit_bytes b d d' : push_digit b d = Some d' -> uint_bytes d' = b :: uint_bytes d.
Proof. by destruct b; intros [= <-]. Qed.

Lemma bytes_uint_bytes d : bytes_uint (uint_bytes d) = Some d.
Proof. induction d as [|d IH|d IH|d IH|d IH|d IH|d IH|d IH|d IH|d IH|d IH]; cbn; [done|..]; by rewrite IH. Qed.

Lemma uint_bytes_digits d : Forall (fun b => is_digit b = true) (uint_bytes d).
Proof. induction d; cbn; constructor; done. Qed.

Lemma nat_digits_digits n : Forall (fun b => is_digit b = true) (nat_digits n).
Proof. apply uint_bytes_digits. Qed.

Lemma to_uint_norm n : N.to_uint n = unorm (N.to_uint n).
Proof. rewrite <-(DecimalN.Unsigned.to_of (N.to_uint n)). by rewrite DecimalN.Unsigned.of_to. Qed.

Lemma nat_digits_nonnil n : nat_digits n <> [].
Proof.
  unfold nat_digits. rewrite to_uint_norm. unfold unorm. by destruct (nzhead _).
Qed.

(** A printed number has no leading zero, but for zero itself. *)
Lemma nat_digits_zero n rest : nat_digits n = x30 :: rest -> rest = [].
Proof.
  unfold nat_digits. rewrite to_uint_norm. unfold unorm.
  pose proof (fun d => nzhead_nonzero (N.to_uint n) d) as Hnz.
  destruct (nzhead _) as [|d|d|d|d|d|d|d|d|d|d]; cbn; try done; [by intros [= <-]|by destruct (Hnz d)].
Qed.

Lemma parse_nat_digits n : parse_digits (nat_digits n) = Some n.
Proof.
  pose proof (nat_digits_nonnil n) as Hnil. unfold parse_digits.
  destruct (nat_digits n) as [|b bs] eqn:Hd; [done|]. rewrite <-Hd. unfold nat_digits.
  rewrite bytes_uint_bytes. cbn. by rewrite DecimalN.Unsigned.of_to.
Qed.

Lemma digit_byte b : is_digit b = true -> byte_in 48 57 b = true.
Proof. by destruct b. Qed.

Lemma nat_digits_head n b rest : nat_digits n = b :: rest -> is_digit b = true.
Proof. intros H. pose proof (nat_digits_digits n) as Hd. rewrite H in Hd. by inversion Hd. Qed.

Lemma strip_plus_digits n : strip_plus (nat_digits n) = nat_digits n.
Proof.
  destruct (nat_digits n) as [|b bs] eqn:H; [done|]. cbn. rewrite bool_decide_eq_false_2; [done|].
  intros ->. by apply nat_digits_head in H.
Qed.

Lemma parse_unsigned_digits limit n :
  (n < limit)%N -> parse_unsigned limit (nat_digits n) = Some n.
Proof.
  intros Hn. unfold parse_unsigned. rewrite strip_plus_digits, parse_nat_digits. cbn.
  by rewrite (proj2 (N.ltb_lt _ _) Hn).
Qed.

Lemma parse_int_digits z :
  (i128_min <= z <= i128_max)%Z -> parse_i128 (int_digits z) = Some z.
Proof.
  intros Hz. unfold int_digits, parse_i128. destruct (Z.ltb_spec z 0) as [Hneg|Hpos].
  - rewrite bool_decide_eq_true_2 by done. rewrite parse_nat_digits. cbn -[Z.opp i128_min].
    rewrite (proj2 (Z.leb_le _ _)) by lia. f_equal. lia.
  - pose proof (nat_digits_nonnil (Z.to_N z)) as Hnil.
    pose proof (strip_plus_digits (Z.to_N z)) as Hs. pose proof (parse_nat_digits (Z.to_N z)) as Hp.
    destruct (nat_digits (Z.to_N z)) as [|b bs] eqn:Hd; [done|].
    apply nat_digits_head in Hd. rewrite bool_decide_eq_false_2 by (by intros ->).
    rewrite Hs, Hp. cbn -[i128_max]. rewrite (proj2 (Z.leb_le _ _)) by lia. f_equal. lia.
Qed.

Lemma utf8_cons b rest : byte_in 0 127 b = true -> utf8_valid (b :: rest) = utf8_valid rest.
Proof. intros H. unfold utf8_valid at 1. fold utf8_valid. by rewrite H. Qed.

Lemma utf8_ascii bs rest :
  Forall (fun b => byte_in 0 127 b = true) bs -> utf8_valid (bs ++ rest) = utf8_valid rest.
Proof. induction 1 as [|b bs Hb _ IH]; [done|]. by rewrite <-app_comm_cons, utf8_cons. Qed.

Lemma digit_ascii b : is_digit b = true -> byte_in 0 127 b = true.
Proof. by destruct b. Qed.

Lemma nat_digits_ascii n : Forall (fun b => byte_in 0 127 b = true) (nat_digits n).
Proof. eapply Forall_impl; [apply nat_digits_digits|exact digit_ascii]. Qed.

Lemma int_digits_ascii z : Forall (fun b => byte_in 0 127 b = true) (int_digits z).
Proof. unfold int_digits. destruct (z <? 0)%Z; [constructor; [done|]|]; apply nat_digits_ascii. Qed.

Lemma ascii_utf8 bs : Forall (fun b => byte_in 0 127 b = true) bs -> utf8_valid bs = true.
Proof. intros H. rewrite <-(List.app_nil_r bs). by rewrite utf8_ascii. Qed.
