(* ===== verification/TransactionManager.v ===== *)
(** * The transaction manager

    [src/transaction_manager.rs]: watched coins, retained submissions, reorg
    handling and the coin observations fed to the wrapped game session.  The
    session is an interface ([ManagedGameSession], the trait of the source):
    every theorem holds for every session, whatever its callbacks do. *)
From S2P Require Import Prelude Extern World Coins Clvm.

(** ** [session_phases/effects.rs], [game_session.rs]: what the manager sees *)
Inductive TimeoutClaimSemantic : Type :=
| ChannelTimeoutFinish
| GameOpponentTurn (id : GameID).

#[export] Instance TimeoutClaimSemantic_eq_dec : EqDecision TimeoutClaimSemantic.
Proof. solve_decision. Defined.

Inductive CoinObservation : Type :=
| Created (coin : CoinString)
| Spent (coin : CoinString).

#[export] Instance CoinObservation_eq_dec : EqDecision CoinObservation.
Proof. solve_decision. Defined.

(** The payloads the manager only passes on are type parameters. *)
Inductive GameSessionEvent `{Bls} {GameNotification CoinSpendRequest : Type} : Type :=
| OutboundMessage (data : bytes)
| OutboundTerminalMessage (data : bytes)
| OutboundTransaction (tx : SpendBundle) (expiry : option N)
| Notification (n : GameNotification)
| Log (line : string)
| CoinSolutionRequest (coin : CoinString)
| ReceiveError (msg : string)
| NeedCoinSpend (request : CoinSpendRequest)
| NeedLauncherCoin
| WatchCoin (coin_name : CoinID) (coin_string : CoinString) (timeout : Timeout)
    (spend : option SpendBundle) (semantic : option TimeoutClaimSemantic).
Arguments GameSessionEvent {_} _ _.

Definition DEFAULT_CONFIRMATION_DEPTH : N := 32.
Definition CHANNEL_EXPIRY_BUFFER : N := 6.
Definition MAX_REPORTED_HEIGHT : N := 1000000000000.

Record CoinStateRecord := mkCoinStateRecord {
  rec_coin : CoinString;
  created_height : option N;
  spent_height : option N;
}.

Section manager.
Context {order : HashOrder} {sha2 : Sha2} {bigint : BigInt} {clvm : Clvm} {bls : Bls}.
Context {GameNotification CoinSpendRequest : Type}.
Abbreviation Event := (GameSessionEvent GameNotification CoinSpendRequest).

Record DrainResult := mkDrainResult {
  drain_events : list Event;
  drain_resync : option (N * bool);
}.

(** The trait [ManagedGameSession]. *)
Class ManagedGameSession (C : Type) := {
  session_observe : N -> option (list CoinObservation) -> eff C unit;
  session_flush_and_collect : eff C DrainResult;
  session_timeout_claim_submitted : TimeoutClaimSemantic -> eff C unit;
  session_timeout_claim_rearmed : TimeoutClaimSemantic -> eff C unit;
  is_abandoned : C -> bool;
}.

(** ** State *)
Record SubmittedTx := mkSubmittedTx {
  tx_bundle : SpendBundle;
  spent_coin_ids : list CoinID;
  tx_expected_output_coins : list CoinString;
  landed : bool;
  expiry : option N;
}.
#[export] Instance SubmittedTx_eta : RecordEta SubmittedTx := fun t =>
  mkSubmittedTx (tx_bundle t) (spent_coin_ids t) (tx_expected_output_coins t) (landed t) (expiry t).

Record WatchedCoin := mkWatchedCoin {
  watched_coin_string : CoinString;
  timeout_blocks : Timeout;
  coin_label : option string;
  birthday : option N;
  spent_confirmed_at : option N;
  claim_submitted : bool;
  timeout_spend : option SpendBundle;
  timeout_claim_semantic : option TimeoutClaimSemantic;
  creation_spend : option SpendBundle;
}.
#[export] Instance WatchedCoin_eta : RecordEta WatchedCoin := fun w =>
  mkWatchedCoin (watched_coin_string w) (timeout_blocks w) (coin_label w) (birthday w)
    (spent_confirmed_at w) (claim_submitted w) (timeout_spend w) (timeout_claim_semantic w)
    (creation_spend w).

Definition WatchedCoin_new (coin : CoinString) (timeout : Timeout) (label : option string)
    : WatchedCoin :=
  mkWatchedCoin coin timeout label None None false None None None.

Record TransactionManager (C : Type) := mkTransactionManager {
  cradle : C;
  watched_coins : gmap CoinString WatchedCoin;
  pending_submissions : list (SpendBundle * option N);
  pending_events : list Event;
  pending_watch_coins : list CoinString;
  pending_unwatch_coins : list CoinString;
  pending_resync : option (N * bool);
  confirmation_depth : N;
  last_height : N;
  last_snapshot_height : N;
  timeout_rollback_height : option N;
  timeout_claim_status_reconciled : bool;
  vanished_coins : gset CoinString;
  submitted : list SubmittedTx;
  present_coins : gset CoinString;
}.

Record ManagerDrain := mkManagerDrain {
  events : list Event;
  watch_coins : list CoinString;
  unwatch_coins : list CoinString;
  resync : option (N * bool);
}.
End manager.

Arguments DrainResult {_} _ _.
Arguments ManagedGameSession {_} _ _ _.
Arguments TransactionManager {_} _ _ _.
Arguments ManagerDrain {_} _ _.
Arguments mkTransactionManager {_ _ _ _}.
Arguments cradle {_ _ _ _}.
Arguments watched_coins {_ _ _ _}.
Arguments pending_submissions {_ _ _ _}.
Arguments pending_events {_ _ _ _}.
Arguments pending_watch_coins {_ _ _ _}.
Arguments pending_unwatch_coins {_ _ _ _}.
Arguments pending_resync {_ _ _ _}.
Arguments confirmation_depth {_ _ _ _}.
Arguments last_height {_ _ _ _}.
Arguments last_snapshot_height {_ _ _ _}.
Arguments timeout_rollback_height {_ _ _ _}.
Arguments timeout_claim_status_reconciled {_ _ _ _}.
Arguments vanished_coins {_ _ _ _}.
Arguments submitted {_ _ _ _}.
Arguments present_coins {_ _ _ _}.

(** ** Outputs and expiries *)
Section outputs.
Context {sha2 : Sha2} {bigint : BigInt} {clvm : Clvm} {bls : Bls}.

Definition created_coins (parent : CoinID) (conditions : list CoinCondition) : list CoinString :=
  omap (fun cond => (fun '(ph, amount) => CoinString_from_parts parent ph amount)
                      <$> is_create_coin cond) conditions.

Definition spend_output_coins (spend : CoinSpend) : result Error (list CoinString) :=
  conditions ← relabel "expected_output_coins: our submitted spend failed to parse"
    (from_puzzle_and_solution (puzzle_program (puzzle (bundle spend)))
       (solution (bundle spend)));
  mret (created_coins (to_coin_id (coin spend)) conditions).

Definition expected_output_coins (bundle : SpendBundle) : result Error (list CoinString) :=
  List.concat (A := CoinString) <$> mapM_result spend_output_coins (spends bundle).

Definition min_expiry (a b : option N) : option N :=
  match a, b with
  | Some a, Some b => Some (N.min a b)
  | Some v, None | None, Some v => Some v
  | None, None => None
  end.

Definition bundle_coin_ids (bundle : SpendBundle) : list CoinID :=
  (fun s => to_coin_id (coin s)) <$> spends bundle.
End outputs.

Section operations.
Context {order : HashOrder} {sha2 : Sha2} {bigint : BigInt} {clvm : Clvm} {bls : Bls}.
Context {GameNotification CoinSpendRequest C : Type}.
Abbreviation Event := (GameSessionEvent GameNotification CoinSpendRequest).
Abbreviation TM := (TransactionManager GameNotification CoinSpendRequest C).

#[export] Instance TransactionManager_eta : RecordEta TM := fun m =>
  mkTransactionManager (cradle m) (watched_coins m) (pending_submissions m) (pending_events m)
    (pending_watch_coins m) (pending_unwatch_coins m) (pending_resync m) (confirmation_depth m)
    (last_height m) (last_snapshot_height m) (timeout_rollback_height m)
    (timeout_claim_status_reconciled m) (vanished_coins m) (submitted m) (present_coins m).

Definition TransactionManager_new (cradle : C) : TM :=
  mkTransactionManager cradle ∅ [] [] [] [] None DEFAULT_CONFIRMATION_DEPTH 0 0 None false ∅ [] ∅.

Definition watched_coin (m : TM) (coin : CoinString) : option WatchedCoin :=
  watched_coins m !! coin.

Definition same_inputs (ids : list CoinID) (t : SubmittedTx) : bool :=
  bool_decide (spent_coin_ids t = ids).

(** ** [drain_submissions] *)
Definition new_outputs (submitted : list SubmittedTx) (entry : SpendBundle * option N)
    : result Error (option (list CoinString)) :=
  let '(bundle, _) := entry in
  if existsb (same_inputs (bundle_coin_ids bundle)) submitted then Ok None
  else Some <$> expected_output_coins bundle.

(** One turn of the second loop, on the [submitted] field. *)
Definition retain_submission (submitted : list SubmittedTx)
    (entry : (SpendBundle * option N) * option (list CoinString)) : list SubmittedTx :=
  let '((bundle, exp), outputs) := entry in
  let ids := bundle_coin_ids bundle in
  match position (same_inputs ids) submitted with
  | Some i => alter (fun existing => existing <| expiry ::= fun e => min_expiry e exp |>) i submitted
  | None =>
      match outputs with
      | Some outputs => submitted ++ [mkSubmittedTx bundle ids outputs false exp]
      | None => submitted
      end
  end.

Definition drain_submissions : eff TM (list SpendBundle) :=
  m ← get_state;
  outputs ← lift_result (mapM_result (new_outputs (submitted m)) (pending_submissions m));
  let out := pending_submissions m in
  _ ← modify_state (fun m => m <| pending_submissions := [] |>);
  _ ← modify_state (fun m =>
        m <| submitted ::= fun s => fold_left retain_submission (zip out outputs) s |>);
  mret (out.*1).

Definition tx_live (height : N) (tx : SubmittedTx) : bool :=
  negb (match expiry tx with Some e => (e <=? height)%N | None => false end).

Definition requeue_submitted (m : TM) : TM :=
  let m := m <| submitted ::= retain (tx_live (last_height m)) |> in
  m <| pending_submissions ::=
      fun p => p ++ ((fun tx => (tx_bundle tx, expiry tx)) <$> submitted m) |>.

(** ** [register_watch], [absorb_events] *)
Definition register_watch (coin : CoinString) (timeout : Timeout) (spend : option SpendBundle)
    (semantic : option TimeoutClaimSemantic) (m : TM) : TM :=
  m <| watched_coins ::= fun ws =>
    match ws !! coin with
    | Some w =>
        let w := w <| timeout_blocks := timeout |> in
        let w := if bool_decide (spend = None) then w
                 else w <| timeout_spend := spend |> <| timeout_claim_semantic := semantic |> in
        <[coin := w]> ws
    | None =>
        let w := WatchedCoin_new coin timeout None in
        <[coin := w <| timeout_spend := spend |> <| timeout_claim_semantic := semantic |>]> ws
    end |>.

Definition absorb_event (m : TM) (event : Event) : TM :=
  match event with
  | OutboundTransaction tx exp => m <| pending_submissions ::= fun p => p ++ [(tx, exp)] |>
  | WatchCoin _ coin_string timeout spend semantic =>
      let m := m <| pending_watch_coins ::= fun p => p ++ [coin_string] |> in
      register_watch coin_string timeout spend semantic m
  | other => m <| pending_events ::= fun p => p ++ [other] |>
  end.

Definition absorb_events (events : list Event) (m : TM) : TM := fold_left absorb_event events m.

(** ** Timeout claims and rollbacks *)
Definition spent_above (height : N) (w : WatchedCoin) : bool :=
  match spent_confirmed_at w with Some spent => (height <? spent)%N | None => false end.

Definition claim_semantics (w : WatchedCoin) : list TimeoutClaimSemantic :=
  if claim_submitted w then option_list (timeout_claim_semantic w) else [].

Definition rollback_watched (height : N) (w : WatchedCoin) : WatchedCoin :=
  let w := if spent_above height w then w <| spent_confirmed_at := None |> else w in
  if claim_submitted w then w <| claim_submitted := false |> else w.

Definition invalidate_timeout_claims_for_rollback_epoch (height : N) (is_rollback : bool)
    : eff TM (option (list TimeoutClaimSemantic)) :=
  m ← get_state;
  if negb is_rollback then
    _ ← modify_state (fun m =>
          if match timeout_rollback_height m with Some r => (r <? height)%N | None => false end
          then m <| timeout_rollback_height := None |> else m);
    mret None
  else if bool_decide (timeout_rollback_height m = Some height) then mret None
  else
    let m := m <| timeout_rollback_height := Some height |> in
    let '(ws, rearmed) :=
      hm_for_each_mut (fun _ w rearmed => (rollback_watched height w, rearmed ++ claim_semantics w))
        (watched_coins m) [] in
    _ ← put_state (m <| watched_coins := ws |>);
    mret (Some rearmed).

Context {session : ManagedGameSession GameNotification CoinSpendRequest C}.

(** A call on the wrapped session. *)
Definition on_cradle {A} (op : eff C A) : eff TM A :=
  on_part cradle (fun c m => m <| cradle := c |>) op.

Fixpoint rearm_loop (rearmed reported : list TimeoutClaimSemantic) : eff TM unit :=
  match rearmed with
  | [] => mret tt
  | semantic :: rearmed =>
      if bool_decide (semantic ∈ reported) then rearm_loop rearmed reported
      else
        _ ← on_cradle (session_timeout_claim_rearmed semantic);
        rearm_loop rearmed (reported ++ [semantic])
  end.
Definition report_timeout_claim_rearms (rearmed : list TimeoutClaimSemantic) : eff TM unit :=
  rearm_loop rearmed [].

Fixpoint notify_submitted (semantics : list TimeoutClaimSemantic) : eff TM unit :=
  match semantics with
  | [] => mret tt
  | semantic :: semantics =>
      _ ← on_cradle (session_timeout_claim_submitted semantic);
      notify_submitted semantics
  end.

Definition reconcile_timeout_claim_status : eff TM unit :=
  m ← get_state;
  if timeout_claim_status_reconciled m then mret tt
  else
    let semantics :=
      omap timeout_claim_semantic
        (retain (fun w => claim_submitted w && bool_decide (spent_confirmed_at w = None))
           (hm_iter (watched_coins m)).*2) in
    _ ← notify_submitted semantics;
    modify_state (fun m => m <| timeout_claim_status_reconciled := true |>).

Definition ripe (height : N) (w : WatchedCoin) : bool :=
  match birthday w with Some b => (u64_add b (timeout_blocks w) <=? height)%N | None => false end.

(** The claim this watched coin is due at [height], if any. *)
Definition due_claim (height : N) (w : WatchedCoin)
    : option (SpendBundle * option TimeoutClaimSemantic) :=
  if ripe height w && negb (claim_submitted w) && bool_decide (spent_confirmed_at w = None)
  then (fun spend => (spend, timeout_claim_semantic w)) <$> timeout_spend w
  else None.

Definition mark_claimed (height : N) (w : WatchedCoin) : WatchedCoin :=
  match due_claim height w with Some _ => w <| claim_submitted := true |> | None => w end.

Fixpoint submit_loop (to_submit : list (SpendBundle * option TimeoutClaimSemantic))
    : eff TM unit :=
  match to_submit with
  | [] => mret tt
  | (spend, semantic) :: to_submit =>
      _ ← match semantic with
          | Some semantic => on_cradle (session_timeout_claim_submitted semantic)
          | None => mret tt
          end;
      _ ← modify_state (fun m => m <| pending_submissions ::= fun p => p ++ [(spend, None)] |>);
      submit_loop to_submit
  end.

Definition evaluate_mature_timeout_claims (height : N) : eff TM unit :=
  m ← get_state;
  let '(ws, to_submit) :=
    hm_for_each_mut (fun _ w acc => (mark_claimed height w, acc ++ option_list (due_claim height w)))
      (watched_coins m) [] in
  _ ← put_state (m <| watched_coins := ws |>);
  submit_loop to_submit.

Definition discard_local_artifacts (m : TM) : TM :=
  m <| pending_submissions := [] |> <| pending_events := [] |> <| pending_watch_coins := [] |>
    <| pending_unwatch_coins := [] |> <| pending_resync := None |> <| watched_coins := ∅ |>
    <| submitted := [] |> <| vanished_coins := ∅ |>.

(** ** [report_height] *)
Definition report_height (height : N) : eff TM unit :=
  if (MAX_REPORTED_HEIGHT <? height)%N
  then throw (StrErr "report_height: height exceeds MAX_REPORTED_HEIGHT")
  else
    m ← get_state;
    let reorg := (height <? last_height m)%N in
    _ ← modify_state (fun m => m <| last_height := height |>);
    rearmed ← invalidate_timeout_claims_for_rollback_epoch height reorg;
    _ ← match rearmed with
        | Some rearmed => report_timeout_claim_rearms rearmed
        | None => mret tt
        end;
    _ ← reconcile_timeout_claim_status;
    _ ← evaluate_mature_timeout_claims height;
    on_cradle (session_observe height None).
End operations.

(** ** [report_coin_states], phase by phase *)
Section snapshots.
Context {order : HashOrder} {sha2 : Sha2} {bigint : BigInt} {clvm : Clvm} {bls : Bls}.
Context {GameNotification CoinSpendRequest C : Type}.
Abbreviation TM := (TransactionManager GameNotification CoinSpendRequest C).

Definition is_some {A} (o : option A) : bool := match o with Some _ => true | None => false end.

(** The validation loop over the records. *)
Definition record_in_range (rec : CoinStateRecord) : bool :=
  forallb (fun h => negb (MAX_REPORTED_HEIGHT <? h)%N)
    (option_list (created_height rec) ++ option_list (spent_height rec)).

(** The rollback loop: the locals are the [vanished_coins] field,
    [newly_vanished] and [rearmed_timeout_claims]. *)
Definition birthday_above (height : N) (w : WatchedCoin) : bool :=
  match birthday w with Some b => (height <? b)%N | None => false end.

Definition clear_birthday (height : N) (w : WatchedCoin) : WatchedCoin :=
  if birthday_above height w then w <| birthday := None |> <| claim_submitted := false |> else w.

Definition vanish_locals (height : N) (coin : CoinString) (w : WatchedCoin)
    (locals : gset CoinString * list CoinString * list TimeoutClaimSemantic)
    : gset CoinString * list CoinString * list TimeoutClaimSemantic :=
  let '(vanished, newly_vanished, rearmed) := locals in
  if birthday_above height w then
    let rearmed := rearmed ++ claim_semantics w in
    if bool_decide (coin ∈ vanished) then (vanished, newly_vanished, rearmed)
    else ({[coin]} ∪ vanished, newly_vanished ++ [coin], rearmed)
  else locals.

Definition roll_back_births (height : N) (ws : gmap CoinString WatchedCoin)
    (vanished : gset CoinString) (rearmed : list TimeoutClaimSemantic)
    : gmap CoinString WatchedCoin
      * (gset CoinString * list CoinString * list TimeoutClaimSemantic) :=
  hm_for_each_mut (fun coin w locals => (clear_birthday height w, vanish_locals height coin w locals))
    ws (vanished, [], rearmed).

(** The reconciliation loop over the records. *)
Record RecordLocals := mkRecordLocals {
  l_vanished : gset CoinString;
  l_watched : gmap CoinString WatchedCoin;
  present_now : gset CoinString;
  first_seen_spent : list CoinString;
  rearmed_timeout_claims : list TimeoutClaimSemantic;
}.
#[export] Instance RecordLocals_eta : RecordEta RecordLocals := fun l =>
  mkRecordLocals (l_vanished l) (l_watched l) (present_now l) (first_seen_spent l)
    (rearmed_timeout_claims l).

Definition is_live (rec : CoinStateRecord) : bool :=
  is_some (created_height rec) && negb (is_some (spent_height rec)).

(** [if watched.birthday != Some(created_height) { .. }] *)
Definition observe_birthday (rec : CoinStateRecord) (w : WatchedCoin)
    : WatchedCoin * list TimeoutClaimSemantic :=
  match created_height rec with
  | Some created =>
      if bool_decide (birthday w = Some created) then (w, [])
      else (w <| birthday := Some created |> <| claim_submitted := false |>, claim_semantics w)
  | None => (w, [])
  end.

Definition observe_spend (rec : CoinStateRecord) (was_present : bool) (w : WatchedCoin)
    : WatchedCoin * list CoinString :=
  match spent_height rec with
  | Some spent =>
      (w <| spent_confirmed_at := Some spent |>,
       if bool_decide (spent_confirmed_at w = None) && negb was_present then [rec_coin rec] else [])
  | None => (w, [])
  end.

Definition reconcile_record (reorg : bool) (present : gset CoinString) (l : RecordLocals)
    (rec : CoinStateRecord) : RecordLocals :=
  let l := if reorg && is_some (created_height rec)
           then l <| l_vanished ::= fun v => v ∖ {[rec_coin rec]} |> else l in
  let l := if is_live rec then l <| present_now ::= fun p => {[rec_coin rec]} ∪ p |> else l in
  let was_present := bool_decide (rec_coin rec ∈ present) in
  match l_watched l !! rec_coin rec with
  | Some w =>
      let '(w, rearmed) := observe_birthday rec w in
      let '(w, first) := observe_spend rec was_present w in
      l <| l_watched ::= fun ws => <[rec_coin rec := w]> ws |>
        <| rearmed_timeout_claims ::= fun r => r ++ rearmed |>
        <| first_seen_spent ::= fun f => f ++ first |>
  | None => l
  end.

Definition reconcile_records (reorg : bool) (present : gset CoinString) (l : RecordLocals)
    (records : list CoinStateRecord) : RecordLocals :=
  fold_left (reconcile_record reorg present) records l.

(** Retained submissions against the observed creations and spends. *)
Definition observed_created (records : list CoinStateRecord) : gset CoinString :=
  list_to_set (rec_coin <$> retain (fun rec => is_some (created_height rec)) records).

Definition spent_inputs (records : list CoinStateRecord) : gset CoinID :=
  list_to_set ((fun rec => to_coin_id (rec_coin rec))
                 <$> retain (fun rec => is_some (spent_height rec)) records).

Definition mark_landed (created : gset CoinString) (tx : SubmittedTx) : SubmittedTx :=
  if negb (landed tx) && existsb (fun c => bool_decide (c ∈ created)) (tx_expected_output_coins tx)
  then tx <| landed := true |> else tx.

Definition keeps_submission (spent : gset CoinID) (tx : SubmittedTx) : bool :=
  let spends_observed_input := existsb (fun id => bool_decide (id ∈ spent)) (spent_coin_ids tx) in
  negb spends_observed_input || landed tx || bool_decide (tx_expected_output_coins tx = []).

Definition reconcile_submitted (records : list CoinStateRecord) (txs : list SubmittedTx)
    : list SubmittedTx :=
  let txs := mark_landed (observed_created records) <$> txs in
  let spent := spent_inputs records in
  if bool_decide (spent = ∅) then txs else retain (keeps_submission spent) txs.

(** [created_watched] and [deleted_watched]. *)
Definition created_deleted (present now vanished : gset CoinString) (first_seen : list CoinString)
    : gset CoinString * gset CoinString :=
  let created := now ∖ present in
  let deleted := present ∖ now in
  let deleted := deleted ∖ vanished in
  (created ∪ list_to_set first_seen, deleted ∪ list_to_set first_seen).

(** The fallback spend height of the coins that left the live set. *)
Definition confirm_spend (height : N) (w : WatchedCoin) : WatchedCoin :=
  match spent_confirmed_at w with
  | None => w <| spent_confirmed_at := Some height |>
  | Some _ => w
  end.

Definition confirm_deleted (height : N) (deleted : gset CoinString)
    (ws : gmap CoinString WatchedCoin) : gmap CoinString WatchedCoin :=
  fold_left (fun ws coin => alter (confirm_spend height) coin ws) (hs_iter deleted) ws.

(** ** [resubmit_vanished] *)
Definition creates_from (parent : CoinID) (tx : SubmittedTx) : bool :=
  bool_decide (parent ∈ spent_coin_ids tx).

Definition expired_for_replay (height : N) (tx : SubmittedTx) : bool :=
  match expiry tx with
  | Some e => (u64_add e CHANNEL_EXPIRY_BUFFER <=? height)%N
  | None => false
  end.

(** The [retain] closure also records the last transaction it keeps. *)
Definition resubmit_scan (parent : CoinID) (height : N)
    (acc : list SubmittedTx * option (SpendBundle * option N)) (tx : SubmittedTx)
    : list SubmittedTx * option (SpendBundle * option N) :=
  let '(kept, resubmit) := acc in
  if negb (creates_from parent tx) then (kept ++ [tx], resubmit)
  else if expired_for_replay height tx then (kept, resubmit)
  else (kept ++ [tx], Some (tx_bundle tx, expiry tx)).

Definition resubmit_coin (height : N) (m : TM) (coin : CoinString) : TM :=
  match to_parts coin with
  | None => m
  | Some (parent, _, _) =>
      let '(kept, resubmit) := fold_left (resubmit_scan parent height) (submitted m) ([], None) in
      let m := m <| submitted := kept |> in
      match resubmit with
      | Some submission => m <| pending_submissions ::= fun p => p ++ [submission] |>
      | None => m
      end
  end.

Definition resubmit_vanished (newly_vanished : list CoinString) (height : N) (m : TM) : TM :=
  fold_left (resubmit_coin height) newly_vanished m.

(** ** [evict_confirmed_spends] *)
Definition buried (depth height : N) (w : WatchedCoin) : bool :=
  match spent_confirmed_at w with Some s => (u64_add s depth <=? height)%N | None => false end.

Definition evict_coin (m : TM) (coin : CoinString) : TM :=
  let coin_id := to_coin_id coin in
  m <| present_coins ::= fun p => p ∖ {[coin]} |>
    <| vanished_coins ::= fun v => v ∖ {[coin]} |>
    <| submitted ::= retain (fun tx => negb (bool_decide (coin_id ∈ spent_coin_ids tx))) |>
    <| pending_unwatch_coins ::= fun p => p ++ [coin] |>.

Definition evict_confirmed_spends (height : N) (m : TM) : TM :=
  let depth := confirmation_depth m in
  let evicted := (retain (fun kv => buried depth height kv.2) (hm_iter (watched_coins m))).*1 in
  let m := m <| watched_coins ::= hm_retain (fun _ w => negb (buried depth height w)) |> in
  fold_left evict_coin evicted m.

(** Everything [report_coin_states] does to the manager between the rollback
    epoch and the first call on the session: the state it reaches, the claims
    to report as re-armed and the observations for the session. *)
Definition reconcile_snapshot (height : N) (records : list CoinStateRecord) (reorg : bool)
    (rearmed : list TimeoutClaimSemantic) (m : TM)
    : TM * list TimeoutClaimSemantic * list CoinObservation :=
  let '(ws, (vanished, newly_vanished, rearmed)) :=
    if reorg then roll_back_births height (watched_coins m) (vanished_coins m) rearmed
    else (watched_coins m, (vanished_coins m, [], rearmed)) in
  let l := reconcile_records reorg (present_coins m)
             (mkRecordLocals vanished ws ∅ [] rearmed) records in
  let m := m <| submitted ::= reconcile_submitted records |> in
  let '(created_watched, deleted_watched) :=
    created_deleted (present_coins m) (present_now l) (l_vanished l) (first_seen_spent l) in
  let m := m <| present_coins := present_now l |> in
  let m := m <| watched_coins := confirm_deleted height deleted_watched (l_watched l) |> in
  let m := m <| vanished_coins := l_vanished l ∖ created_watched |> in
  let m := resubmit_vanished newly_vanished height m in
  (m, rearmed_timeout_claims l,
   (Created <$> hs_iter created_watched) ++ (Spent <$> hs_iter deleted_watched)).

Context {session : ManagedGameSession GameNotification CoinSpendRequest C}.

Definition report_coin_states (height : N) (records : list CoinStateRecord) : eff TM unit :=
  if (MAX_REPORTED_HEIGHT <? height)%N
  then throw (StrErr "report_coin_states: height exceeds MAX_REPORTED_HEIGHT")
  else if negb (forallb record_in_range records)
  then throw (StrErr "report_coin_states: coin height exceeds MAX_REPORTED_HEIGHT")
  else
    m ← get_state;
    let reorg := (height <? last_snapshot_height m)%N in
    _ ← modify_state (fun m => m <| last_height := height |> <| last_snapshot_height := height |>);
    rearmed ← invalidate_timeout_claims_for_rollback_epoch height reorg;
    m ← get_state;
    let '(m, rearmed, observations) :=
      reconcile_snapshot height records reorg (default [] rearmed) m in
    _ ← put_state m;
    _ ← report_timeout_claim_rearms rearmed;
    _ ← reconcile_timeout_claim_status;
    _ ← evaluate_mature_timeout_claims height;
    _ ← on_cradle (session_observe height (Some observations));
    modify_state (evict_confirmed_spends height).

(** ** [flush_and_collect] *)
Definition flush_and_collect : eff TM (ManagerDrain GameNotification CoinSpendRequest) :=
  result ← on_cradle session_flush_and_collect;
  _ ← modify_state (fun m =>
        if is_some (drain_resync result) then m <| pending_resync := drain_resync result |> else m);
  _ ← modify_state (fun m =>
        if is_abandoned (cradle m) then discard_local_artifacts m else m);
  _ ← modify_state (absorb_events (drain_events result));
  m ← get_state;
  _ ← put_state (m <| pending_events := [] |> <| pending_watch_coins := [] |>
                   <| pending_unwatch_coins := [] |> <| pending_resync := None |>);
  mret (mkManagerDrain (pending_events m) (pending_watch_coins m) (pending_unwatch_coins m)
          (pending_resync m)).
End snapshots.

(** ** Invariant of the manager

    The watched set is keyed by the coin strings it holds, every recorded
    height passed the ingestion check, a submitted claim has a spend, a coin is
    not both live and vanished, and no two retained submissions spend the same
    coins. *)
Definition height_ok (o : option N) : Prop := forall h, o = Some h -> (h <= MAX_REPORTED_HEIGHT)%N.

Record watched_wf `{Bls} (coin : CoinString) (w : WatchedCoin) : Prop := {
  watched_key : watched_coin_string w = coin;
  watched_birthday : height_ok (birthday w);
  watched_spent : height_ok (spent_confirmed_at w);
  watched_claim : claim_submitted w = true -> timeout_spend w <> None;
}.

Definition watched_map_wf `{Bls} (ws : gmap CoinString WatchedCoin) : Prop :=
  map_Forall watched_wf ws.

Definition submitted_wf `{Bls} (txs : list SubmittedTx) : Prop := NoDup (spent_coin_ids <$> txs).

Section invariant.
Context {order : HashOrder} {sha2 : Sha2} {bigint : BigInt} {clvm : Clvm} {bls : Bls}.
Context {GameNotification CoinSpendRequest C : Type}.
Abbreviation TM := (TransactionManager GameNotification CoinSpendRequest C).

Record manager_wf (m : TM) : Prop := {
  wf_watched : watched_map_wf (watched_coins m);
  wf_last : (last_height m <= MAX_REPORTED_HEIGHT)%N;
  wf_disjoint : present_coins m ## vanished_coins m;
  wf_submitted : submitted_wf (submitted m);
  wf_depth : confirmation_depth m = DEFAULT_CONFIRMATION_DEPTH;
}.

(** *** Watched coins *)
Lemma watched_wf_new coin timeout spend semantic :
  watched_wf coin ((WatchedCoin_new coin timeout None)
    <| timeout_spend := spend |> <| timeout_claim_semantic := semantic |>).
Proof. by split. Qed.

Lemma watched_wf_register coin timeout spend semantic (m : TM) :
  watched_map_wf (watched_coins m) ->
  watched_map_wf (watched_coins (register_watch coin timeout spend semantic m)).
Proof.
  intros Hws. cbn. destruct (watched_coins m !! coin) as [w|] eqn:Hw.
  - apply map_Forall_insert_2; [|done]. destruct (Hws _ _ Hw).
    case_bool_decide; split; cbn; try done.
  - apply map_Forall_insert_2; [apply watched_wf_new|done].
Qed.

Lemma watched_wf_rollback height coin w : watched_wf coin w -> watched_wf coin (rollback_watched height w).
Proof.
  intros []. unfold rollback_watched. destruct w as [? ? ? ? ? [] ? ? ?]; cbn in *;
    destruct (spent_above _ _); by split.
Qed.

Lemma watched_wf_mark_claimed height coin w : watched_wf coin w -> watched_wf coin (mark_claimed height w).
Proof.
  intros []. unfold mark_claimed, due_claim.
  destruct (_ && _), w as [? ? ? ? ? ? [] ? ?]; by split.
Qed.

Lemma watched_wf_clear_birthday height coin w : watched_wf coin w -> watched_wf coin (clear_birthday height w).
Proof. intros []. unfold clear_birthday. destruct (birthday_above height w); by split. Qed.

Lemma watched_wf_confirm height coin w :
  (height <= MAX_REPORTED_HEIGHT)%N -> watched_wf coin w -> watched_wf coin (confirm_spend height w).
Proof.
  intros Hh []. unfold confirm_spend.
  destruct w as [? ? ? ? [] ? ? ? ?]; split; cbn in *; try done. by intros h [= <-].
Qed.

Lemma record_in_range_spec rec :
  record_in_range rec = true <-> height_ok (created_height rec) /\ height_ok (spent_height rec).
Proof.
  unfold record_in_range, height_ok. rewrite forallb_app, andb_true_iff.
  destruct (created_height rec), (spent_height rec); cbn;
    rewrite ?andb_true_r, ?negb_true_iff, ?N.ltb_ge; naive_solver.
Qed.

Lemma watched_wf_observe rec was_present coin w :
  record_in_range rec = true -> watched_wf coin w ->
  watched_wf coin (observe_spend rec was_present (observe_birthday rec w).1).1.
Proof.
  intros [Hc Hs]%record_in_range_spec []. unfold observe_birthday, observe_spend.
  destruct (created_height rec) as [c|], (spent_height rec) as [s|]; cbn; try case_bool_decide;
    cbn; split; cbn; try done; intros ? [= <-]; auto.
Qed.

(** Loops over the watched set change each entry on its own. *)
Lemma watched_map_wf_imap (f : CoinString -> WatchedCoin -> WatchedCoin) ws :
  (forall coin w, watched_wf coin w -> watched_wf coin (f coin w)) ->
  watched_map_wf ws -> watched_map_wf (map_imap (fun coin w => Some (f coin w)) ws).
Proof.
  intros Hf Hws coin w'. rewrite map_lookup_imap.
  destruct (ws !! coin) as [w|] eqn:Hw; cbn; [|done]. intros [= <-]. by apply Hf, Hws.
Qed.

Lemma roll_back_births_fst height ws vanished rearmed :
  (roll_back_births height ws vanished rearmed).1
  = map_imap (fun _ w => Some (clear_birthday height w)) ws.
Proof.
  unfold roll_back_births.
  by rewrite (hm_for_each_mut_spec (fun _ w => clear_birthday height w) (vanish_locals height)).
Qed.

Lemma confirm_deleted_wf height deleted ws :
  (height <= MAX_REPORTED_HEIGHT)%N -> watched_map_wf ws ->
  watched_map_wf (confirm_deleted height deleted ws).
Proof.
  intros Hh. unfold confirm_deleted. generalize (hs_iter deleted). intros l.
  revert ws. induction l as [|coin l IH]; intros ws Hws; [done|]. cbn. apply IH.
  intros c w. rewrite lookup_alter_Some. intros [(-> & w0 & Hw0 & ->)|[_ Hw]]; [|by apply Hws].
  apply watched_wf_confirm; [done|by apply Hws].
Qed.

Lemma reconcile_records_wf reorg present l records :
  forallb record_in_range records = true -> watched_map_wf (l_watched l) ->
  watched_map_wf (l_watched (reconcile_records reorg present l records)).
Proof.
  unfold reconcile_records. revert l. induction records as [|rec records IH]; intros l; [done|].
  cbn [forallb fold_left]. intros [Hrec Hrecs]%andb_true_iff Hl. apply IH; [done|].
  unfold reconcile_record.
  assert (forall l', l_watched l' = l_watched l -> watched_map_wf (l_watched l')) as Hsame
    by (intros l' ->; done).
  destruct (reorg && _), (is_live rec); cbn; destruct (l_watched l !! rec_coin rec) as [w|] eqn:Hw;
    cbn; try done.
  all: pose proof (watched_wf_observe rec (bool_decide (rec_coin rec ∈ present)) _ _ Hrec (Hl _ _ Hw)) as H1;
    destruct (observe_birthday rec w) as [w1 r1]; cbn in *;
    destruct (observe_spend rec _ w1) as [w2 f2]; cbn in *;
    by apply map_Forall_insert_2.
Qed.

(** *** Retained submissions *)
Lemma submitted_wf_retain p txs : submitted_wf txs -> submitted_wf (retain p txs).
Proof.
  unfold submitted_wf. induction txs as [|tx txs IH]; cbn; [done|].
  rewrite NoDup_cons. intros [Hn Hnd]. destruct (p tx); cbn; [|by apply IH].
  apply NoDup_cons. split; [|by apply IH]. intros (t & Heq & [Ht _]%elem_of_retain)%list_elem_of_fmap.
  apply Hn, list_elem_of_fmap. eauto.
Qed.

Lemma same_inputs_true ids tx : same_inputs ids tx = true <-> spent_coin_ids tx = ids.
Proof. apply bool_decide_eq_true. Qed.

Lemma spent_coin_ids_alter f (i : nat) (txs : list SubmittedTx) :
  (forall tx, spent_coin_ids (f tx) = spent_coin_ids tx) ->
  spent_coin_ids <$> alter f i txs = spent_coin_ids <$> txs.
Proof.
  intros Hf. revert i. induction txs as [|tx txs IH]; intros [|i]; cbn; [done..| |].
  - by rewrite Hf.
  - f_equal. apply IH.
Qed.

Lemma submitted_wf_retain_submission txs entry :
  submitted_wf txs -> submitted_wf (retain_submission txs entry).
Proof.
  destruct entry as [[bundle exp] outputs]. unfold retain_submission, submitted_wf. intros Hwf.
  destruct (position _ txs) as [i|] eqn:Hp.
  - by rewrite spent_coin_ids_alter.
  - destruct outputs as [outputs|]; [|done]. rewrite fmap_app. cbn. apply NoDup_app.
    split_and!; [done| |apply NoDup_singleton].
    intros ids (tx & -> & Htx)%list_elem_of_fmap Heq%list_elem_of_singleton.
    rewrite position_None in Hp. apply Hp, not_true_iff_false in Htx. apply Htx.
    by apply same_inputs_true.
Qed.

Lemma submitted_wf_fold {A} (f : list SubmittedTx -> A -> list SubmittedTx) l txs :
  (forall txs a, submitted_wf txs -> submitted_wf (f txs a)) ->
  submitted_wf txs -> submitted_wf (fold_left f l txs).
Proof. intros Hf. revert txs. induction l as [|a l IH]; intros txs Htxs; cbn; auto. Qed.

Lemma spent_coin_ids_mark_landed created (txs : list SubmittedTx) :
  spent_coin_ids <$> (mark_landed created <$> txs) = spent_coin_ids <$> txs.
Proof.
  rewrite <-list_fmap_compose. apply list_fmap_ext. intros i tx _. unfold mark_landed, compose.
  by destruct (_ && _).
Qed.

Lemma submitted_wf_reconcile records txs :
  submitted_wf txs -> submitted_wf (reconcile_submitted records txs).
Proof.
  intros Hwf. unfold reconcile_submitted.
  assert (submitted_wf (mark_landed (observed_created records) <$> txs)) as H
    by (unfold submitted_wf; by rewrite spent_coin_ids_mark_landed).
  case_bool_decide; [done|]. by apply submitted_wf_retain.
Qed.

(** What [resubmit_scan] keeps, and the last transaction it can replay. *)
Definition replays (parent : CoinID) (height : N) (tx : SubmittedTx) : bool :=
  creates_from parent tx && negb (expired_for_replay height tx).

Definition last_replay (parent : CoinID) (height : N) (txs : list SubmittedTx)
    : option (SpendBundle * option N) :=
  (fun tx => (tx_bundle tx, expiry tx)) <$> last (retain (replays parent height) txs).

Lemma resubmit_scan_spec parent height txs kept resubmit :
  fold_left (resubmit_scan parent height) txs (kept, resubmit)
  = (kept ++ retain (fun tx => negb (creates_from parent tx && expired_for_replay height tx)) txs,
     match last_replay parent height txs with Some r => Some r | None => resubmit end).
Proof.
  revert kept resubmit. induction txs as [|tx txs IH]; intros kept resubmit; cbn.
  { by rewrite app_nil_r. }
  unfold last_replay in *. cbn [retain].
  replace (replays parent height tx) with
    (creates_from parent tx && negb (expired_for_replay height tx)) by done.
  destruct (creates_from parent tx), (expired_for_replay height tx); cbn [negb andb];
    rewrite IH, <-?app_assoc; f_equal.
  rewrite last_cons. by destruct (last _).
Qed.

(** *** Live and vanished coins *)
Lemma reconcile_records_disjoint present l records :
  present_now l ## l_vanished l ->
  present_now (reconcile_records true present l records)
  ## l_vanished (reconcile_records true present l records).
Proof.
  unfold reconcile_records. revert l. induction records as [|rec records IH]; intros l Hl; [done|].
  cbn [fold_left]. apply IH. unfold reconcile_record, is_live.
  destruct (created_height rec), (spent_height rec); cbn;
    destruct (l_watched l !! rec_coin rec) as [w|]; cbn;
    try destruct (observe_birthday rec w) as [? ?];
    try destruct (observe_spend rec _ _) as [? ?]; cbn; set_solver.
Qed.

Lemma reconcile_records_vanished present l records :
  l_vanished (reconcile_records false present l records) = l_vanished l.
Proof.
  unfold reconcile_records. revert l. induction records as [|rec records IH]; intros l; [done|].
  cbn [fold_left]. rewrite IH. unfold reconcile_record.
  destruct (is_live rec); cbn; destruct (l_watched l !! rec_coin rec) as [w|]; cbn; try done;
    destruct (observe_birthday rec w) as [? ?]; destruct (observe_spend rec _ _) as [? ?]; done.
Qed.

(** *** The pure steps *)
Lemma manager_wf_absorb events (m : TM) : manager_wf m -> manager_wf (absorb_events events m).
Proof.
  unfold absorb_events. revert m. induction events as [|e events IH]; intros m Hm; [done|].
  cbn. apply IH. destruct Hm. destruct e; cbn; try by split.
  split; try done. cbn [update_field]. apply (watched_wf_register coin_string timeout spend semantic m). done.
Qed.

Lemma manager_wf_discard (m : TM) : manager_wf m -> manager_wf (discard_local_artifacts m).
Proof. intros []. split; cbn; try done; try set_solver. by apply NoDup_nil. Qed.

Lemma manager_wf_resubmit newly height (m : TM) :
  manager_wf m -> manager_wf (resubmit_vanished newly height m).
Proof.
  unfold resubmit_vanished. revert m. induction newly as [|coin newly IH]; intros m Hm; [done|].
  cbn. apply IH. unfold resubmit_coin. destruct (to_parts coin) as [[[parent ?] ?]|]; [|done].
  rewrite resubmit_scan_spec. destruct Hm, (last_replay _ _ _); split; cbn; try done;
    by apply submitted_wf_retain.
Qed.

Lemma manager_wf_evict height (m : TM) : manager_wf m -> manager_wf (evict_confirmed_spends height m).
Proof.
  intros Hm. unfold evict_confirmed_spends.
  generalize (retain (fun kv => buried (confirmation_depth m) height kv.2)
                (hm_iter (watched_coins m))).*1. intros evicted.
  assert (manager_wf (m <| watched_coins ::=
    hm_retain (fun _ w => negb (buried (confirmation_depth m) height w)) |>)) as Hm'.
  { destruct Hm. split; cbn; try done. intros coin w [Hw _]%lookup_hm_retain. by apply wf_watched0. }
  revert Hm'. generalize (m <| watched_coins ::=
    hm_retain (fun _ w => negb (buried (confirmation_depth m) height w)) |>). clear m Hm.
  induction evicted as [|coin evicted IH]; intros m Hm; [done|]. cbn [fold_left]. apply IH.
  destruct Hm. split; cbn; try done; [set_solver|by apply submitted_wf_retain].
Qed.

Lemma manager_wf_reconcile height records reorg rearmed (m : TM) :
  (height <= MAX_REPORTED_HEIGHT)%N -> forallb record_in_range records = true ->
  manager_wf m -> manager_wf (reconcile_snapshot height records reorg rearmed m).1.1.
Proof.
  intros Hh Hrecs Hm. unfold reconcile_snapshot.
  pose proof (roll_back_births_fst height (watched_coins m) (vanished_coins m) rearmed) as Hws.
  set (start := if reorg then _ else _).
  assert (watched_map_wf start.1 /\ (reorg = false -> start.2.1.1 = vanished_coins m)) as [Hwf Hv].
  { subst start. destruct reorg, Hm; split; try done. rewrite Hws.
    apply (watched_map_wf_imap (fun _ => clear_birthday height)); [|done].
    intros. by apply watched_wf_clear_birthday. }
  destruct start as [ws [[vanished newly] rearmed']] eqn:Hstart. cbn in Hwf, Hv.
  set (l := reconcile_records _ _ _ _). cbn [created_deleted fst].
  apply manager_wf_resubmit. destruct Hm. split; cbn [update_field].
  - apply confirm_deleted_wf; [done|]. by apply reconcile_records_wf.
  - done.
  - destruct reorg.
    + pose proof (reconcile_records_disjoint (present_coins m)
        (mkRecordLocals vanished ws ∅ [] rearmed') records (disjoint_empty_l _)). cbn. set_solver.
    + assert (l_vanished l = vanished_coins m) as Hlv
        by (subst l; rewrite reconcile_records_vanished; cbn; auto).
      cbn. rewrite Hlv. intros c. destruct (decide (c ∈ present_coins m)); set_solver.
  - by apply submitted_wf_reconcile.
  - done.
Qed.
End invariant.
