(* ===== verification/ManagerProperties.v ===== *)
(** * Properties of the transaction manager

    Reachable states, the observations it feeds its session, its timeout
    claims, its retained submissions and its evictions. *)
From S2P Require Import Prelude Extern World Coins Clvm TransactionManager.

(** ** The operations keep the invariant, whatever the session answers *)
Section preservation.
Context {order : HashOrder} {sha2 : Sha2} {bigint : BigInt} {clvm : Clvm} {bls : Bls}.
Context {GameNotification CoinSpendRequest C : Type}.
Context {session : ManagedGameSession GameNotification CoinSpendRequest C}.
Abbreviation TM := (TransactionManager GameNotification CoinSpendRequest C).
Abbreviation wf := (manager_wf : TM -> Prop).

Lemma preserves_on_cradle {A} (op : eff C A) : preserves wf (on_cradle op).
Proof. apply preserves_on_part. intros m c []. by split. Qed.
Hint Resolve preserves_on_cradle : chia.

Lemma preserves_rearm_loop rearmed reported : preserves wf (rearm_loop rearmed reported).
Proof.
  revert reported. induction rearmed as [|semantic rearmed IH]; intros reported; cbn.
  - auto with chia.
  - case_bool_decide; auto with chia.
Qed.

Lemma preserves_notify_submitted semantics : preserves wf (notify_submitted semantics).
Proof. induction semantics; cbn; auto with chia. Qed.

Lemma preserves_submit_loop to_submit : preserves wf (submit_loop to_submit).
Proof.
  induction to_submit as [|[spend [semantic|]] to_submit IH]; cbn; auto with chia.
  all: repeat (apply preserves_bind; [auto with chia|intros _]); try done.
  all: intros m []; by split.
Qed.
Hint Resolve preserves_rearm_loop preserves_notify_submitted preserves_submit_loop : chia.

Lemma preserves_reconcile_status : preserves wf reconcile_timeout_claim_status.
Proof.
  apply preserves_get_bind. intros m Hm. destruct (timeout_claim_status_reconciled m); [done|].
  refine (preserves_bind wf _ _ _ _ m Hm); [auto with chia|]. intros _ m' []. by split.
Qed.

(** The loop over the watched set marks the due claims and collects them. *)
Lemma evaluate_unfold height (m : TM) :
  evaluate_mature_timeout_claims height m
  = submit_loop (foldl (fun acc kv => acc ++ option_list (due_claim height kv.2)) []
                   (hm_iter (watched_coins m)))
      (m <| watched_coins := map_imap (fun _ w => Some (mark_claimed height w)) (watched_coins m) |>).
Proof.
  unfold evaluate_mature_timeout_claims, get_state, put_state, mbind, eff_bind. cbn beta iota.
  by rewrite (hm_for_each_mut_spec (fun _ w => mark_claimed height w)
    (fun _ w acc => acc ++ option_list (due_claim height w))).
Qed.

Lemma preserves_evaluate height : preserves wf (evaluate_mature_timeout_claims height).
Proof.
  intros m Hm. rewrite evaluate_unfold. apply preserves_submit_loop. destruct Hm. split; try done.
  apply (watched_map_wf_imap (fun _ => mark_claimed height)); [|done].
  intros. by apply watched_wf_mark_claimed.
Qed.

(** Consuming a rollback epoch rewrites every watched coin on its own. *)
Lemma invalidate_unfold height (m : TM) :
  timeout_rollback_height m <> Some height ->
  invalidate_timeout_claims_for_rollback_epoch height true m
  = (Ok (Some (foldl (fun acc kv => acc ++ claim_semantics kv.2) [] (hm_iter (watched_coins m)))),
     m <| timeout_rollback_height := Some height |>
       <| watched_coins := map_imap (fun _ w => Some (rollback_watched height w)) (watched_coins m) |>).
Proof.
  intros Hh. unfold invalidate_timeout_claims_for_rollback_epoch, get_state, mbind, eff_bind.
  cbn [negb]. rewrite bool_decide_eq_false_2 by done. cbn [update_field watched_coins].
  by rewrite (hm_for_each_mut_spec (fun _ w => rollback_watched height w)
    (fun _ w acc => acc ++ claim_semantics w)).
Qed.

Lemma preserves_invalidate height rollback :
  preserves wf (invalidate_timeout_claims_for_rollback_epoch height rollback).
Proof.
  intros m Hm. destruct rollback.
  - destruct (decide (timeout_rollback_height m = Some height)) as [Heq|Hne].
    + unfold invalidate_timeout_claims_for_rollback_epoch, get_state, mbind, eff_bind. cbn [negb].
      by rewrite bool_decide_eq_true_2.
    + rewrite invalidate_unfold by done. destruct Hm. split; try done.
      apply (watched_map_wf_imap (fun _ => rollback_watched height)); [|done].
      intros. by apply watched_wf_rollback.
  - unfold invalidate_timeout_claims_for_rollback_epoch, get_state, modify_state, mbind, eff_bind.
    cbn. destruct (timeout_rollback_height m) as [r|]; [|done]. destruct (r <? height)%N; [|done].
    destruct Hm. by split.
Qed.
Hint Resolve preserves_reconcile_status preserves_evaluate preserves_invalidate : chia.

Lemma preserves_report_height height : preserves wf (report_height height).
Proof.
  unfold report_height. destruct (N.ltb_spec MAX_REPORTED_HEIGHT height) as [|Hh]; [auto with chia|].
  apply preserves_get_bind. intros m Hm.
  refine (preserves_bind wf _ _ _ _ m Hm); [intros m' []; by split|intros _].
  apply preserves_bind; [auto with chia|]. intros rearmed.
  apply preserves_bind; [destruct rearmed; unfold report_timeout_claim_rearms; auto with chia|].
  auto 10 with chia.
Qed.

Lemma preserves_report_coin_states height records : preserves wf (report_coin_states height records).
Proof.
  unfold report_coin_states. destruct (N.ltb_spec MAX_REPORTED_HEIGHT height) as [|Hh]; [auto with chia|].
  destruct (forallb record_in_range records) eqn:Hrecs; cbn [negb]; [|auto with chia].
  apply preserves_get_bind. intros m Hm.
  refine (preserves_bind wf _ _ _ _ m Hm); [intros m' []; by split|intros _].
  apply preserves_bind; [auto with chia|]. intros rearmed.
  apply preserves_get_bind. intros m1 Hm1.
  pose proof (manager_wf_reconcile height records (height <? last_snapshot_height m)%N
    (default [] rearmed) m1 Hh Hrecs Hm1) as Hm2.
  destruct (reconcile_snapshot _ _ _ _ _) as [[m2 rearmed2] observations]. cbn in Hm2.
  refine (preserves_bind wf _ _ _ _ m1 Hm1); [by intros ? _|intros _].
  repeat (apply preserves_bind; [unfold report_timeout_claim_rearms; auto with chia|intros _]).
  intros m3 Hm3. by apply manager_wf_evict.
Qed.

Lemma preserves_drain_submissions : preserves wf drain_submissions.
Proof.
  apply preserves_get_bind. intros m Hm.
  refine (preserves_bind wf _ _ _ _ m Hm); [auto with chia|intros outputs].
  apply preserves_bind; [intros m' []; by split|intros _].
  apply preserves_bind; [|auto with chia]. intros m' []. split; try done.
  apply submitted_wf_fold; [|done]. intros. by apply submitted_wf_retain_submission.
Qed.

Lemma manager_wf_requeue (m : TM) : wf m -> wf (requeue_submitted m).
Proof. intros []. split; try done. by apply submitted_wf_retain. Qed.

Lemma preserves_flush_and_collect : preserves wf flush_and_collect.
Proof.
  apply preserves_bind; [apply preserves_on_cradle|intros result].
  apply preserves_bind; [intros m []; cbn; destruct (is_some _); by split|intros _].
  apply preserves_bind.
  { intros m Hm. cbn. destruct (is_abandoned (cradle m)); [by apply manager_wf_discard|done]. }
  intros _. apply preserves_bind; [intros m Hm; by apply manager_wf_absorb|intros _].
  apply preserves_get_bind. intros m []. by split.
Qed.
End preservation.

(** ** The manager as a state machine

    The public operations, in any order and with any arguments; [step_session]
    is whatever the host does to the wrapped session through [DerefMut]. *)
Section machine.
Context {order : HashOrder} {sha2 : Sha2} {bigint : BigInt} {clvm : Clvm} {bls : Bls}.
Context {GameNotification CoinSpendRequest C : Type}.
Context {session : ManagedGameSession GameNotification CoinSpendRequest C}.
Abbreviation TM := (TransactionManager GameNotification CoinSpendRequest C).

Inductive manager_step : TM -> TM -> Prop :=
| step_report_height height m : manager_step m (report_height height m).2
| step_report_coin_states height records m : manager_step m (report_coin_states height records m).2
| step_drain_submissions m : manager_step m (drain_submissions m).2
| step_requeue_submitted m : manager_step m (requeue_submitted m)
| step_flush_and_collect m : manager_step m (flush_and_collect m).2
| step_session c m : manager_step m (m <| cradle := c |>).

Definition manager_reachable (m : TM) : Prop :=
  exists c, rtc manager_step (TransactionManager_new c) m.

Lemma manager_step_wf m m' : manager_step m m' -> manager_wf m -> manager_wf m'.
Proof.
  destruct 1; intros Hm.
  - by apply preserves_report_height.
  - by apply preserves_report_coin_states.
  - by apply preserves_drain_submissions.
  - by apply manager_wf_requeue.
  - by apply preserves_flush_and_collect.
  - destruct Hm. by split.
Qed.

Lemma manager_wf_new c : manager_wf (TransactionManager_new c : TM).
Proof. split; cbn; try done; try set_solver. by apply NoDup_nil. Qed.

Lemma reachable_wf m : manager_reachable m -> manager_wf m.
Proof.
  intros [c Hrun]. pose proof (manager_wf_new c) as Hm. revert Hrun Hm.
  induction 1 as [|m1 m2 m3 Hstep _ IH]; [done|]. intros Hm.
  by apply IH, (manager_step_wf m1).
Qed.

(** What a successful snapshot report did. *)
Lemma report_coin_states_Ok height records (m m' : TM) :
  report_coin_states height records m = (Ok tt, m') ->
  exists rearmed0 m1 m2 rearmed observations m3 c,
    (height <= MAX_REPORTED_HEIGHT)%N
    /\ invalidate_timeout_claims_for_rollback_epoch height (height <? last_snapshot_height m)%N
         (m <| last_height := height |> <| last_snapshot_height := height |>) = (Ok rearmed0, m1)
    /\ reconcile_snapshot height records (height <? last_snapshot_height m)%N
         (default [] rearmed0) m1 = (m2, rearmed, observations)
    /\ (_ ← report_timeout_claim_rearms rearmed; _ ← reconcile_timeout_claim_status;
        evaluate_mature_timeout_claims height) m2 = (Ok tt, m3)
    /\ session_observe height (Some observations) (cradle m3) = (Ok tt, c)
    /\ m' = evict_confirmed_spends height (m3 <| cradle := c |>).
Proof.
  unfold report_coin_states. destruct (N.ltb_spec MAX_REPORTED_HEIGHT height) as [|Hh]; [done|].
  destruct (forallb _ _); [|done]. cbn [negb].
  intros (m0 & ? & [= <- <-] & H)%eff_bind_Ok.
  apply eff_bind_Ok in H as ([] & ? & [= <-] & H).
  apply eff_bind_Ok in H as (rearmed0 & m1 & Hinv & H).
  apply eff_bind_Ok in H as (? & ? & [= <- <-] & H).
  destruct (reconcile_snapshot _ _ _ _ _) as [[m2 rearmed] observations] eqn:Hrec.
  apply eff_bind_Ok in H as ([] & ? & [= <-] & H).
  apply eff_bind_Ok in H as ([] & ma & Ha & H). apply eff_bind_Ok in H as ([] & mb & Hb & H).
  apply eff_bind_Ok in H as ([] & mc & Hc & H). apply eff_bind_Ok in H as ([] & md & Hd & [= <-]).
  unfold on_cradle, on_part in Hd. destruct (session_observe _ _ _) as [r c] eqn:Hobs.
  injection Hd as -> <-.
  exists rearmed0, m1, m2, rearmed, observations, mc, c. split_and!; try done.
  apply eff_bind_Ok. exists tt, ma. split; [done|]. apply eff_bind_Ok. by exists tt, mb.
Qed.

(** The calls on the session between the snapshot and its observation touch
    the claims only. *)
Section claims_only.
Context (P : C -> gset CoinString -> Prop).
Context (HP : forall semantic c p,
  P c p -> P (session_timeout_claim_rearmed semantic c).2 p
           /\ P (session_timeout_claim_submitted semantic c).2 p).
Definition frame (m : TM) : Prop := P (cradle m) (present_coins m).

Lemma frame_rearmed semantic : preserves frame (on_cradle (session_timeout_claim_rearmed semantic)).
Proof.
  intros m Hm. unfold on_cradle, on_part. destruct (HP semantic _ _ Hm) as [H _].
  by destruct (session_timeout_claim_rearmed _ _).
Qed.

Lemma frame_submitted semantic : preserves frame (on_cradle (session_timeout_claim_submitted semantic)).
Proof.
  intros m Hm. unfold on_cradle, on_part. destruct (HP semantic _ _ Hm) as [_ H].
  by destruct (session_timeout_claim_submitted _ _).
Qed.
Hint Resolve frame_rearmed frame_submitted : chia.

Lemma frame_rearm_loop rearmed reported : preserves frame (rearm_loop rearmed reported).
Proof.
  revert reported. induction rearmed as [|semantic rearmed IH]; intros reported; cbn.
  - auto with chia.
  - case_bool_decide; auto with chia.
Qed.

Lemma frame_notify semantics : preserves frame (notify_submitted semantics).
Proof. induction semantics; cbn; auto with chia. Qed.

Lemma frame_submit_loop to_submit : preserves frame (submit_loop to_submit).
Proof.
  induction to_submit as [|[spend [semantic|]] to_submit IH]; cbn; auto with chia.
  all: repeat (apply preserves_bind; [auto with chia|intros _]); try done.
  all: intros m Hm; exact Hm.
Qed.

Lemma frame_reconcile_status : preserves frame reconcile_timeout_claim_status.
Proof.
  apply preserves_get_bind. intros m Hm. destruct (timeout_claim_status_reconciled m); [done|].
  refine (preserves_bind frame _ _ _ _ m Hm); [apply frame_notify|]. by intros _ m' ?.
Qed.

Lemma frame_evaluate height : preserves frame (evaluate_mature_timeout_claims height).
Proof. intros m Hm. rewrite evaluate_unfold. by apply frame_submit_loop. Qed.

Lemma frame_claims rearmed height :
  preserves frame (_ ← report_timeout_claim_rearms rearmed; _ ← reconcile_timeout_claim_status;
                   evaluate_mature_timeout_claims height).
Proof.
  apply preserves_bind; [apply frame_rearm_loop|intros _].
  apply preserves_bind; [apply frame_reconcile_status|intros _; apply frame_evaluate].
Qed.
End claims_only.
(** ** What leaves the session and the live coins alone *)
Lemma resubmit_vanished_frame newly height (m : TM) :
  cradle (resubmit_vanished newly height m) = cradle m
  /\ present_coins (resubmit_vanished newly height m) = present_coins m.
Proof.
  unfold resubmit_vanished. revert m. induction newly as [|coin newly IH]; intros m; [done|].
  cbn. destruct (IH (resubmit_coin height m coin)) as [-> ->]. unfold resubmit_coin.
  destruct (to_parts coin) as [[[parent ?] ?]|]; [|done].
  by destruct (fold_left _ _ _) as [? [?|]].
Qed.

(** What a snapshot tells the session about the live set. *)
Lemma reconcile_snapshot_observations height records reorg rearmed (m : TM) m2 rearmed2 obs :
  reconcile_snapshot height records reorg rearmed m = (m2, rearmed2, obs) ->
  exists created deleted : gset CoinString,
    obs = (Created <$> hs_iter created) ++ (Spent <$> hs_iter deleted)
    /\ cradle m2 = cradle m
    /\ deleted ⊆ present_coins m ∪ created
    /\ present_coins m2 ⊆ present_coins m ∪ created.
Proof.
  unfold reconcile_snapshot. set (start := if reorg then _ else _).
  destruct start as [ws [[vanished newly] rearmed']]. set (l := reconcile_records _ _ _ _).
  cbn [created_deleted]. intros [= <- _ <-]. do 2 eexists. split; [done|].
  destruct (resubmit_vanished_frame newly height
    (m <| submitted ::= reconcile_submitted records |> <| present_coins := present_now l |>
       <| watched_coins := confirm_deleted height
            ((present_coins m ∖ present_now l) ∖ l_vanished l ∪ list_to_set (first_seen_spent l))
            (l_watched l) |>
       <| vanished_coins := l_vanished l ∖
            (present_now l ∖ present_coins m ∪ list_to_set (first_seen_spent l)) |>)) as [Hc Hp].
  cbn in *. rewrite Hc, Hp. split_and!; [done| |].
  - set_solver.
  - intros c Hc'. destruct (decide (c ∈ present_coins m)); set_solver.
Qed.

Lemma evict_coins_frame evicted (m : TM) :
  cradle (fold_left evict_coin evicted m) = cradle m
  /\ present_coins (fold_left evict_coin evicted m) ⊆ present_coins m.
Proof.
  revert m. induction evicted as [|coin evicted IH]; intros m; [done|]. cbn [fold_left].
  destruct (IH (evict_coin m coin)) as [-> Hp]. split; [done|]. cbn in Hp. set_solver.
Qed.

Lemma evict_frame height (m : TM) :
  cradle (evict_confirmed_spends height m) = cradle m
  /\ present_coins (evict_confirmed_spends height m) ⊆ present_coins m.
Proof. unfold evict_confirmed_spends. by match goal with |- context [fold_left evict_coin ?l ?m0] =>
  pose proof (evict_coins_frame l m0) end. Qed.

Lemma invalidate_traced height rollback (m m' : TM) r :
  invalidate_timeout_claims_for_rollback_epoch height rollback m = (r, m') ->
  cradle m' = cradle m /\ present_coins m' = present_coins m.
Proof.
  destruct rollback.
  - destruct (decide (timeout_rollback_height m = Some height)) as [Heq|Hne].
    + unfold invalidate_timeout_claims_for_rollback_epoch, get_state, mbind, eff_bind. cbn [negb].
      rewrite bool_decide_eq_true_2 by done. by intros [= _ <-].
    + rewrite invalidate_unfold by done. by intros [= _ <-].
  - unfold invalidate_timeout_claims_for_rollback_epoch, get_state, modify_state, mbind, eff_bind.
    cbn. intros [= _ <-]. destruct (timeout_rollback_height m) as [h|]; [|done].
    by destruct (h <? height)%N.
Qed.

Lemma absorb_frame events (m : TM) :
  cradle (absorb_events events m) = cradle m
  /\ present_coins (absorb_events events m) = present_coins m.
Proof.
  unfold absorb_events. revert m. induction events as [|e events IH]; intros m; [done|]. cbn.
  destruct (IH (absorb_event m e)) as [-> ->]. by destruct e.
Qed.

(** Only the four calls of the interface change the session. *)
Section session_only.
Variable Q : C -> Prop.
Hypothesis Q_observe : forall height observations, preserves Q (session_observe height observations).
Hypothesis Q_flush : preserves Q session_flush_and_collect.
Hypothesis Q_submitted : forall semantic, preserves Q (session_timeout_claim_submitted semantic).
Hypothesis Q_rearmed : forall semantic, preserves Q (session_timeout_claim_rearmed semantic).
Definition in_session (m : TM) : Prop := Q (cradle m).

Lemma in_session_cradle {A} (op : eff C A) : preserves Q op -> preserves in_session (on_cradle op).
Proof.
  intros H m Hm. unfold on_cradle, on_part. specialize (H (cradle m) Hm). by destruct (op (cradle m)).
Qed.
Lemma claims_keep semantic c (p : gset CoinString) :
  Q c -> Q (session_timeout_claim_rearmed semantic c).2 /\ Q (session_timeout_claim_submitted semantic c).2.
Proof. intros Hc. split; [by apply Q_rearmed|by apply Q_submitted]. Qed.
Lemma in_session_rearms rearmed : preserves in_session (report_timeout_claim_rearms rearmed).
Proof. apply (frame_rearm_loop (fun c _ => Q c) claims_keep). Qed.
Lemma in_session_status : preserves in_session reconcile_timeout_claim_status.
Proof. apply (frame_reconcile_status (fun c _ => Q c) claims_keep). Qed.
Lemma in_session_evaluate height : preserves in_session (evaluate_mature_timeout_claims height).
Proof. apply (frame_evaluate (fun c _ => Q c) claims_keep). Qed.
Lemma in_session_invalidate height rollback :
  preserves in_session (invalidate_timeout_claims_for_rollback_epoch height rollback).
Proof.
  intros m Hm. destruct (invalidate_timeout_claims_for_rollback_epoch _ _ m) as [r m'] eqn:Hrun.
  apply invalidate_traced in Hrun as [Hc _]. unfold in_session. cbn. by rewrite Hc.
Qed.
Hint Resolve in_session_cradle in_session_invalidate in_session_rearms in_session_status
  in_session_evaluate : chia.
Lemma in_session_modify (f : TM -> TM) :
  (forall m, cradle (f m) = cradle m) -> preserves in_session (modify_state f).
Proof. intros Hf m Hm. unfold in_session. cbn. by rewrite Hf. Qed.

Lemma in_session_drain : preserves in_session drain_submissions.
Proof. walk_through. Qed.
Lemma in_session_flush : preserves in_session flush_and_collect.
Proof.
  apply preserves_bind; [by apply in_session_cradle|intros result].
  apply preserves_bind; [apply in_session_modify; intros m; by destruct (is_some _)|intros _].
  apply preserves_bind; [apply in_session_modify; intros m; by destruct (is_abandoned _)|intros _].
  apply preserves_bind; [apply in_session_modify; intros m; apply absorb_frame|intros _].
  apply preserves_get_bind. by intros m Hm.
Qed.
Lemma in_session_height height : preserves in_session (report_height height).
Proof. walk_through. Qed.
Lemma in_session_snapshot height records : preserves in_session (report_coin_states height records).
Proof.
  apply after_preserves. intros m Hm. unfold report_coin_states. walk; try done.
  all: try (apply preserves_after; [solve [eauto with chia]|done]).
  - match goal with H : reconcile_snapshot _ _ _ _ _ = _ |- _ =>
      destruct (reconcile_snapshot_observations _ _ _ _ _ _ _ _ H) as (? & ? & _ & Hc & _) end.
    unfold in_session. by rewrite Hc.
  - unfold in_session. by rewrite (proj1 (evict_frame _ _)).
Qed.
End session_only.
End machine.

(** ** The observations of a run

    The same session with a log of every observation handed to it. *)
Section trace.
Context {order : HashOrder} {sha2 : Sha2} {bigint : BigInt} {clvm : Clvm} {bls : Bls}.
Context {GameNotification CoinSpendRequest C : Type}.
Context {session : ManagedGameSession GameNotification CoinSpendRequest C}.

Definition logged {A} (op : eff C A) : eff (C * list CoinObservation) A :=
  on_part fst (fun c cl => (c, cl.2)) op.

#[local] Instance logged_session
    : ManagedGameSession GameNotification CoinSpendRequest (C * list CoinObservation) := {|
  session_observe height observations cl :=
    logged (session_observe height observations) (cl.1, cl.2 ++ default [] observations);
  session_flush_and_collect := logged session_flush_and_collect;
  session_timeout_claim_submitted semantic := logged (session_timeout_claim_submitted semantic);
  session_timeout_claim_rearmed semantic := logged (session_timeout_claim_rearmed semantic);
  is_abandoned cl := is_abandoned cl.1;
|}.
Abbreviation TM := (TransactionManager GameNotification CoinSpendRequest (C * list CoinObservation)).

(** The steps of a run whose snapshots were all accepted. *)
Inductive traced_step : TM -> TM -> Prop :=
| traced_height height m : traced_step m (report_height height m).2
| traced_snapshot height records m m' :
    report_coin_states height records m = (Ok tt, m') -> traced_step m m'
| traced_drain m : traced_step m (drain_submissions m).2
| traced_requeue m : traced_step m (requeue_submitted m)
| traced_flush m : traced_step m (flush_and_collect m).2
| traced_session c m : traced_step m (m <| cradle := (c, (cradle m).2) |>).

Definition observation_log (m : TM) : list CoinObservation := (cradle m).2.

Definition created_first (log : list CoinObservation) : Prop :=
  forall i coin, log !! i = Some (Spent coin) ->
    exists j, j < i /\ log !! j = Some (Created coin).

(** Every live coin was announced, and every spend after its creation. *)
Record trace_wf (log : list CoinObservation) (present : gset CoinString) : Prop := {
  trace_present : forall coin, coin ∈ present -> Created coin ∈ log;
  trace_order : created_first log;
}.

Definition traced (m : TM) : Prop := trace_wf (observation_log m) (present_coins m).

Lemma created_first_app log (created deleted : list CoinString) :
  created_first log ->
  (forall coin, coin ∈ deleted -> Created coin ∈ log \/ coin ∈ created) ->
  created_first (log ++ (Created <$> created) ++ (Spent <$> deleted)).
Proof.
  intros Hlog Hdel i coin Hi.
  assert (forall o, o ∈ log ++ (Created <$> created) -> length log + length created <= i ->
    exists j, j < i /\ (log ++ (Created <$> created) ++ (Spent <$> deleted)) !! j = Some o) as Hearlier.
  { intros o [j Hj]%list_elem_of_lookup Hlen. exists j. rewrite (assoc_L (++)).
    pose proof (lookup_lt_Some _ _ _ Hj) as Hlt. rewrite length_app, length_fmap in Hlt.
    split; [lia|]. by rewrite lookup_app_l by (rewrite length_app, length_fmap; lia). }
  apply lookup_app_Some in Hi as [Hi|[Hlen Hi]].
  - destruct (Hlog _ _ Hi) as (j & ? & Hj). exists j. split; [done|].
    by apply lookup_app_l_Some.
  - apply lookup_app_Some in Hi as [(c & ? & ?)%list_lookup_fmap_Some|[Hlen2 Hi]]; [done|].
    rewrite length_fmap in Hlen2.
    apply list_lookup_fmap_Some in Hi as (c & [= <-] & Hc%list_elem_of_lookup_2).
    apply Hearlier; [|lia]. destruct (Hdel _ Hc) as [?|Hin]; apply elem_of_app; [by left|right].
    by apply list_elem_of_fmap_2.
Qed.

Lemma logged_frame log (present : gset CoinString) semantic (cl : C * list CoinObservation) p :
  cl.2 = log /\ p = present ->
  ((session_timeout_claim_rearmed semantic cl).2.2 = log /\ p = present)
  /\ ((session_timeout_claim_submitted semantic cl).2.2 = log /\ p = present).
Proof.
  destruct cl as [c l]. cbn. unfold logged, on_part. cbn.
  by destruct (session_timeout_claim_rearmed semantic c), (session_timeout_claim_submitted semantic c).
Qed.

Lemma claims_traced rearmed height log present (m m' : TM) r :
  (_ ← report_timeout_claim_rearms rearmed; _ ← reconcile_timeout_claim_status;
   evaluate_mature_timeout_claims height) m = (r, m') ->
  observation_log m = log -> present_coins m = present ->
  observation_log m' = log /\ present_coins m' = present.
Proof.
  intros Hrun Hlog Hp.
  pose proof (frame_claims (fun cl p => cl.2 = log /\ p = present) (logged_frame log present)
    rearmed height m (conj Hlog Hp)) as Hframe.
  by rewrite Hrun in Hframe.
Qed.

Lemma traced_snapshot_step height records (m m' : TM) :
  report_coin_states height records m = (Ok tt, m') -> traced m -> traced m'.
Proof.
  intros (r0 & m1 & m2 & rearmed & obs & m3 & c & _ & Hinv & Hrec & Hcl & Hobs & ->)%report_coin_states_Ok
    [Hpresent Horder].
  apply invalidate_traced in Hinv as [Hc1 Hp1]. cbn in Hc1, Hp1.
  apply reconcile_snapshot_observations in Hrec as (created & deleted & -> & Hc2 & Hdel & Hnow).
  destruct (claims_traced _ _ (observation_log m) (present_coins m2) _ _ _ Hcl) as [Hl3 Hp3];
    [unfold observation_log; congruence|done|].
  destruct (evict_frame height (m3 <| cradle := c |>)) as [He Hep].
  assert (observation_log (evict_confirmed_spends height (m3 <| cradle := c |>))
    = observation_log m ++ (Created <$> hs_iter created) ++ (Spent <$> hs_iter deleted)) as Hlog.
  { unfold observation_log at 1. rewrite He. cbn in Hobs |- *. unfold logged, on_part in Hobs. cbn in Hobs.
    destruct (session_observe _ _ _) as [r c']. injection Hobs as _ <-. cbn. f_equal.
    exact Hl3. }
  split; rewrite Hlog.
  - intros coin Hcoin. apply Hep in Hcoin. cbn in Hcoin. rewrite Hp3 in Hcoin.
    apply Hnow, elem_of_union in Hcoin as [Hcoin|Hcoin]; rewrite !elem_of_app.
    + left. apply Hpresent. by rewrite <-Hp1.
    + right. left. apply list_elem_of_fmap_2. by apply elem_of_hs_iter.
  - apply created_first_app; [done|]. intros coin Hcoin%elem_of_hs_iter.
    apply Hdel, elem_of_union in Hcoin as [Hcoin|Hcoin]; [left|right; by apply elem_of_hs_iter].
    apply Hpresent. by rewrite <-Hp1.
Qed.

Lemma traced_height_step height : preserves traced (report_height height).
Proof.
  intros m [Hpresent Horder]. unfold report_height.
  destruct (N.ltb_spec MAX_REPORTED_HEIGHT height) as [|Hh]; [by split|].
  pose (P := fun (cl : C * list CoinObservation) p => cl.2 = observation_log m /\ p = present_coins m).
  assert (forall m', frame P m' -> traced m') as Hkeeps
    by (intros m' [Hl Hp]; split; unfold observation_log; rewrite ?Hl, ?Hp; done).
  apply Hkeeps. pose proof (logged_frame (observation_log m) (present_coins m)) as HP.
  assert (frame P m) as Hm by done. revert Hm. generalize m at 1 2. clear Hpresent Horder Hkeeps.
  change (preserves (frame P) (m ← get_state;
    _ ← modify_state (fun m => m <| last_height := height |>);
    rearmed ← invalidate_timeout_claims_for_rollback_epoch height (height <? last_height m)%N;
    _ ← match rearmed with
        | Some rearmed => report_timeout_claim_rearms rearmed
        | None => mret tt
        end;
    _ ← reconcile_timeout_claim_status;
    _ ← evaluate_mature_timeout_claims height;
    on_cradle (session_observe height None))).
  apply preserves_get_bind. intros m1 Hm1.
  refine (preserves_bind (frame P) _ _ _ _ m1 Hm1); [by intros ? ?|intros _].
  apply preserves_bind.
  { intros m2 [Hl Hp]. destruct (invalidate_timeout_claims_for_rollback_epoch _ _ m2) as [r m3] eqn:H.
    apply invalidate_traced in H as [Hc Hp']. split; cbn; rewrite ?Hc, ?Hp'; done. }
  intros rearmed. apply preserves_bind.
  { destruct rearmed; [by apply frame_rearm_loop|by intros ? ?]. }
  intros _. apply preserves_bind; [by apply frame_reconcile_status|intros _].
  apply preserves_bind; [by apply frame_evaluate|intros _].
  intros m2 [Hl Hp]. unfold on_cradle, on_part. cbn. unfold logged, on_part. cbn.
  destruct (session_observe height None _) as [r c]. split; [|done]. cbn. by rewrite app_nil_r.
Qed.

Lemma traced_flush_step : preserves traced flush_and_collect.
Proof.
  intros m [Hpresent Horder].
  pose (P := fun (cl : C * list CoinObservation) p => cl.2 = observation_log m /\ p = present_coins m).
  assert (forall m', frame P m' -> traced m') as Hkeeps
    by (intros m' [Hl Hp]; split; unfold observation_log; rewrite ?Hl, ?Hp; done).
  apply Hkeeps. refine (preserves_bind (frame P) _ _ _ _ m (conj eq_refl eq_refl)).
  { intros m1 [Hl Hp]. unfold on_cradle, on_part. cbn. unfold logged, on_part. cbn.
    by destruct (session_flush_and_collect _). }
  intros result. apply preserves_bind; [intros m1 Hm1; cbn; by destruct (is_some _)|intros _].
  apply preserves_bind; [intros m1 Hm1; cbn; by destruct (is_abandoned _)|intros _].
  apply preserves_bind; [|intros _; apply preserves_get_bind; by intros m1 Hm1].
  intros m1 [Hl Hp]. unfold frame, modify_state. cbn.
  by destruct (absorb_frame (drain_events result) m1) as [-> ->].
Qed.

Lemma traced_step_traced m m' : traced_step m m' -> traced m -> traced m'.
Proof.
  destruct 1 as [height m|height records m m' Hok|m|m|m|c m]; intros Hm.
  - by apply traced_height_step.
  - by eapply traced_snapshot_step.
  - unfold drain_submissions, get_state, lift_result, modify_state, mbind, eff_bind. cbn.
    by destruct (mapM_result _ _).
  - by destruct Hm.
  - by apply traced_flush_step.
  - by destruct Hm.
Qed.
End trace.

(** ** Claims, submissions and evictions *)
Section claims.
Context {order : HashOrder} {sha2 : Sha2} {bigint : BigInt} {clvm : Clvm} {bls : Bls}.
Context {GameNotification CoinSpendRequest C : Type}.
Context {session : ManagedGameSession GameNotification CoinSpendRequest C}.
Abbreviation TM := (TransactionManager GameNotification CoinSpendRequest C).

Lemma due_mark_claimed height w : due_claim height (mark_claimed height w) = None.
Proof.
  unfold mark_claimed. destruct (due_claim height w) eqn:Hd; [|done].
  unfold due_claim. cbn. by rewrite andb_false_r.
Qed.

Lemma mark_claimed_not_due height w : due_claim height w = None -> mark_claimed height w = w.
Proof. unfold mark_claimed. by intros ->. Qed.

(** The claims the loop collects, in the order of the map. *)
Definition due_claims (height : N) (m : TM) : list (SpendBundle * option TimeoutClaimSemantic) :=
  omap (fun kv => due_claim height kv.2) (hm_iter (watched_coins m)).

Definition as_submissions (claims : list (SpendBundle * option TimeoutClaimSemantic))
    : list (SpendBundle * option N) := (fun c => (c.1, None)) <$> claims.

Definition claim_marked (height : N) (m : TM) : TM :=
  m <| watched_coins := map_imap (fun _ w => Some (mark_claimed height w)) (watched_coins m) |>.

Lemma evaluate_claims height (m : TM) :
  evaluate_mature_timeout_claims height m = submit_loop (due_claims height m) (claim_marked height m).
Proof.
  rewrite evaluate_unfold, (foldl_app_concat (fun kv => option_list (due_claim height kv.2))). cbn [app].
  by rewrite (concat_option_list (fun kv : CoinString * WatchedCoin => due_claim height kv.2)).
Qed.

Lemma on_cradle_Ok {A} (op : eff C A) (m m' : TM) a :
  on_cradle op m = (Ok a, m') -> exists c, op (cradle m) = (Ok a, c) /\ m' = m <| cradle := c |>.
Proof.
  unfold on_cradle, on_part. destruct (op (cradle m)) as [r c]. intros [= -> <-]. eauto.
Qed.

Lemma submit_loop_Ok claims (m m' : TM) :
  submit_loop claims m = (Ok tt, m') ->
  pending_submissions m' = pending_submissions m ++ as_submissions claims
  /\ watched_coins m' = watched_coins m.
Proof.
  revert m. induction claims as [|[spend semantic] claims IH]; intros m; cbn [submit_loop].
  { intros [= <-]. by rewrite app_nil_r. }
  intros (u & m1 & H1 & H)%eff_bind_Ok. apply eff_bind_Ok in H as (? & m2 & [= _ <-] & H).
  apply IH in H as [-> ->]. cbn. rewrite <-app_assoc.
  destruct semantic; [apply on_cradle_Ok in H1 as (c & _ & ->)|injection H1 as _ <-]; done.
Qed.

Lemma due_claims_marked height (m m' : TM) :
  watched_coins m' = watched_coins (claim_marked height m) -> due_claims height m' = [].
Proof.
  intros Hw. unfold due_claims. apply elem_of_nil_inv. intros c [[coin w] [Hin Hc]]%list_elem_of_omap.
  apply elem_of_hm_iter in Hin. rewrite Hw in Hin. cbn in Hin.
  rewrite map_lookup_imap in Hin. destruct (watched_coins m !! coin) as [w0|]; [|done].
  injection Hin as <-. cbn in Hc. by rewrite due_mark_claimed in Hc.
Qed.

Lemma claim_marked_id height (m : TM) : due_claims height m = [] -> claim_marked height m = m.
Proof.
  intros Hd. unfold claim_marked.
  assert (map_imap (fun _ w => Some (mark_claimed height w)) (watched_coins m) = watched_coins m) as ->.
  { apply map_eq. intros coin. rewrite map_lookup_imap.
    destruct (watched_coins m !! coin) as [w|] eqn:Hw; [|done]. cbn. f_equal.
    apply mark_claimed_not_due. destruct (due_claim height w) as [c|] eqn:Hc; [|done].
    assert (c ∈ due_claims height m) as Hin; [|rewrite Hd in Hin; by apply not_elem_of_nil in Hin].
    apply list_elem_of_omap. exists (coin, w). by rewrite elem_of_hm_iter. }
  by destruct m.
Qed.
End claims.

Section retained.
Context {order : HashOrder} {sha2 : Sha2} {bigint : BigInt} {clvm : Clvm} {bls : Bls}.
Context {GameNotification CoinSpendRequest C : Type}.
Context {session : ManagedGameSession GameNotification CoinSpendRequest C}.
Abbreviation TM := (TransactionManager GameNotification CoinSpendRequest C).

(** *** [drain_submissions] *)
Definition drained (m : TM) (outputs : list (option (list CoinString))) : TM :=
  m <| pending_submissions := [] |>
    <| submitted ::= fun s => fold_left retain_submission (zip (pending_submissions m) outputs) s |>.

Lemma drain_unfold (m : TM) :
  drain_submissions m
  = match mapM_result (new_outputs (submitted m)) (pending_submissions m) with
    | Ok outputs => (Ok (pending_submissions m).*1, drained m outputs)
    | Err e => (Err e, m)
    end.
Proof.
  unfold drain_submissions, get_state, lift_result, modify_state, mbind, eff_bind.
  by destruct (mapM_result _ _).
Qed.

(** The expiries of the entries that spend [ids]. *)
Definition entry_expiries (ids : list CoinID) (entries : list (SpendBundle * option N))
    : list (option N) :=
  snd <$> retain (fun e => bool_decide (bundle_coin_ids e.1 = ids)) entries.

(** The retained submission of [ids] and its expiry. *)
Definition kept (ids : list CoinID) (txs : list SubmittedTx) : option SubmittedTx :=
  position (same_inputs ids) txs ≫= (txs !!.).

Lemma kept_Some ids txs tx : kept ids txs = Some tx -> tx ∈ txs /\ spent_coin_ids tx = ids.
Proof.
  unfold kept. destruct (position _ txs) as [i|] eqn:Hp; [|done]. cbn. intros Hi.
  apply position_Some in Hp as (tx' & Hi' & H%same_inputs_true). simplify_eq.
  split; [|done]. by eapply list_elem_of_lookup_2.
Qed.

Lemma kept_elem txs tx : submitted_wf txs -> tx ∈ txs -> kept (spent_coin_ids tx) txs = Some tx.
Proof.
  unfold submitted_wf, kept. intros Hnd. induction txs as [|t txs IH]; [by intros ?%not_elem_of_nil|].
  cbn in Hnd. apply NoDup_cons in Hnd as [Hn Hnd].
  intros [->|Htx]%elem_of_cons; cbn; unfold same_inputs at 1; case_bool_decide as Heq; try done.
  - exfalso. apply Hn, list_elem_of_fmap. eauto.
  - specialize (IH Hnd Htx). destruct (position _ txs); [done|discriminate].
Qed.

Lemma position_same_inputs ids (txs txs' : list SubmittedTx) :
  spent_coin_ids <$> txs = spent_coin_ids <$> txs' ->
  position (same_inputs ids) txs = position (same_inputs ids) txs'.
Proof.
  revert txs'. induction txs as [|t txs IH]; intros [|t' txs'] Heq; simplify_eq/=; [done|].
  unfold same_inputs at 1 3. rewrite H. by rewrite (IH txs').
Qed.

(** One turn of the second loop of [drain_submissions]. *)
Lemma kept_retain_submission ids txs bundle exp outputs :
  kept ids (retain_submission txs ((bundle, exp), outputs))
  = if bool_decide (bundle_coin_ids bundle = ids) then
      match kept ids txs with
      | Some tx => Some (tx <| expiry ::= fun e => min_expiry e exp |>)
      | None => (fun outputs => mkSubmittedTx bundle ids outputs false exp) <$> outputs
      end
    else kept ids txs.
Proof.
  unfold retain_submission, kept.
  destruct (position (same_inputs (bundle_coin_ids bundle)) txs) as [i|] eqn:Hp.
  - rewrite (position_same_inputs ids _ txs) by (by apply spent_coin_ids_alter).
    apply position_Some in Hp as Hi. destruct Hi as (tx & Hi & Htx%same_inputs_true).
    case_bool_decide as Heq.
    { subst. rewrite Hp. cbn [mbind option_bind]. by rewrite list_lookup_alter, decide_True, Hi by done. }
    destruct (position (same_inputs ids) txs) as [j|] eqn:Hj; [|done]. cbn.
    apply position_Some in Hj as (t & Hj & Ht%same_inputs_true).
    apply list_lookup_alter_ne. intros ->. congruence.
  - case_bool_decide as Heq.
    + subst. rewrite Hp. destruct outputs as [outputs|]; cbn; [|by rewrite Hp].
      rewrite position_app, Hp. cbn. unfold same_inputs. cbn. rewrite bool_decide_eq_true_2 by done.
      cbn. by rewrite lookup_app_r, Nat.add_0_r, Nat.sub_diag by lia.
    + destruct outputs as [outputs|]; [|done]. rewrite position_app.
      destruct (position (same_inputs ids) txs) as [j|] eqn:Hj; cbn.
      * by rewrite lookup_app_l by (by eapply position_lt).
      * unfold same_inputs. cbn. by rewrite bool_decide_eq_false_2 by congruence.
Qed.

Lemma kept_fold ids entries outputs txs :
  length outputs = length entries ->
  (forall i, outputs !! i = Some None -> forall e, entries !! i = Some e ->
     kept (bundle_coin_ids e.1) txs <> None) ->
  let txs' := fold_left retain_submission (zip entries outputs) txs in
  (forall e, e ∈ entries -> kept (bundle_coin_ids e.1) txs' <> None)
  /\ kept ids txs' ≫= expiry
     = fold_left min_expiry (entry_expiries ids entries) (kept ids txs ≫= expiry).
Proof.
  revert outputs txs. induction entries as [|[bundle exp] entries IH];
    intros [|out outputs] txs Hlen Hnone; simplify_eq/=.
  { split; [|done]. by intros e ?%not_elem_of_nil. }
  set (txs1 := match position _ txs with Some i => _ | None => _ end).
  assert (forall ids, kept ids txs1 = kept ids (retain_submission txs ((bundle, exp), out))) as Htxs1
    by done.
  assert (kept (bundle_coin_ids bundle) txs1 <> None) as Hb.
  { rewrite Htxs1, kept_retain_submission, bool_decide_eq_true_2 by done.
    destruct (kept (bundle_coin_ids bundle) txs) eqn:Hk; [done|]. destruct out; [done|].
    exfalso. by apply (Hnone 0 eq_refl _ eq_refl). }
  assert (forall ids, kept ids txs <> None -> kept ids txs1 <> None) as Hmono.
  { intros ids' Hk. rewrite Htxs1, kept_retain_submission. case_bool_decide; [|done].
    by destruct (kept ids' txs). }
  destruct (IH outputs txs1) as [Hall Hexp]; [done| |].
  { intros i Hi e He. apply Hmono. by apply (Hnone (S i) Hi). }
  cbn in Hall, Hexp. split.
  - intros e [->|He]%elem_of_cons; [|by apply Hall]. cbn.
    assert (forall l txs, kept (bundle_coin_ids bundle) txs <> None ->
      kept (bundle_coin_ids bundle) (fold_left retain_submission l txs) <> None) as Hkeep; [|by apply Hkeep].
    clear. induction l as [|[[b e] o] l IH]; intros txs Hk; [done|]. cbn [fold_left]. apply IH.
    rewrite kept_retain_submission. case_bool_decide; [|done]. by destruct (kept _ txs).
  - rewrite Hexp. unfold entry_expiries. cbn [retain]. rewrite Htxs1, kept_retain_submission.
    cbn [fst]. case_bool_decide as Hids; [|done]. cbn. f_equal.
    destruct (kept ids txs) as [tx|] eqn:Hk; [done|].
    destruct out; [by destruct exp|]. exfalso. apply (Hnone 0 eq_refl _ eq_refl). cbn. by rewrite Hids.
Qed.
End retained.

Section evictions.
Context {order : HashOrder} {sha2 : Sha2} {bigint : BigInt} {clvm : Clvm} {bls : Bls}.
Context {GameNotification CoinSpendRequest C : Type}.
Abbreviation TM := (TransactionManager GameNotification CoinSpendRequest C).

(** *** [evict_confirmed_spends] *)
Definition spends_none (evicted : list CoinString) (tx : SubmittedTx) : bool :=
  forallb (fun coin => negb (bool_decide (to_coin_id coin ∈ spent_coin_ids tx))) evicted.

Lemma evict_coins_spec evicted (m : TM) :
  let m' := fold_left evict_coin evicted m in
  watched_coins m' = watched_coins m
  /\ pending_unwatch_coins m' = pending_unwatch_coins m ++ evicted
  /\ submitted m' = retain (spends_none evicted) (submitted m)
  /\ present_coins m' = present_coins m ∖ list_to_set evicted
  /\ vanished_coins m' = vanished_coins m ∖ list_to_set evicted.
Proof.
  cbn. revert m. induction evicted as [|coin evicted IH]; intros m; cbn.
  - rewrite app_nil_r, retain_true by done. split_and!; try done; set_solver.
  - destruct (IH (evict_coin m coin)) as (-> & -> & -> & -> & ->). cbn.
    rewrite <-app_assoc, retain_retain. split_and!; try done; set_solver.
Qed.

Lemma evict_coins_pending evicted (m : TM) :
  cradle (fold_left evict_coin evicted m) = cradle m
  /\ pending_submissions (fold_left evict_coin evicted m) = pending_submissions m.
Proof.
  revert m. induction evicted as [|coin evicted IH]; intros m; [done|].
  cbn [fold_left]. by destruct (IH (evict_coin m coin)) as [-> ->].
Qed.

(** *** [resubmit_vanished] *)
Definition coin_parent (coin : CoinString) : option CoinID := (fun p => p.1.1) <$> to_parts coin.

Definition replay_for (height : N) (txs : list SubmittedTx) (coin : CoinString)
    : option (SpendBundle * option N) :=
  parent ← coin_parent coin; last_replay parent height txs.

(** A retained submission that created the coin but can no longer be included. *)
Definition lapsed (height : N) (tx : SubmittedTx) (coin : CoinString) : bool :=
  match coin_parent coin with
  | Some parent => creates_from parent tx && expired_for_replay height tx
  | None => false
  end.

Lemma last_replay_retain parent height (p : SubmittedTx -> bool) txs :
  (forall tx, p tx = false -> expired_for_replay height tx = true) ->
  last_replay parent height (retain p txs) = last_replay parent height txs.
Proof.
  intros Hp. unfold last_replay. f_equal. f_equal. rewrite retain_retain.
  induction txs as [|tx txs IH]; cbn; [done|]. rewrite IH.
  destruct (p tx) eqn:Htx; [done|]. unfold replays. rewrite (Hp _ Htx). by rewrite andb_false_r.
Qed.

Lemma resubmit_coin_spec height coin (m : TM) :
  let m' := resubmit_coin height m coin in
  pending_submissions m' = pending_submissions m ++ option_list (replay_for height (submitted m) coin)
  /\ submitted m' = retain (fun tx => negb (lapsed height tx coin)) (submitted m)
  /\ watched_coins m' = watched_coins m
  /\ vanished_coins m' = vanished_coins m.
Proof.
  unfold resubmit_coin, replay_for, lapsed, coin_parent.
  destruct (to_parts coin) as [[[parent ph] amt]|]; cbn.
  - rewrite resubmit_scan_spec. cbn. destruct (last_replay _ _ _); cbn; rewrite ?app_nil_r; done.
  - by rewrite app_nil_r, retain_true.
Qed.

Lemma lapsed_expired height tx coin : lapsed height tx coin = true -> expired_for_replay height tx = true.
Proof. unfold lapsed. destruct (coin_parent coin); [|done]. by intros [_ ?]%andb_true_iff. Qed.

Lemma resubmit_vanished_spec newly height (m : TM) :
  let m' := resubmit_vanished newly height m in
  pending_submissions m' = pending_submissions m ++ omap (replay_for height (submitted m)) newly
  /\ submitted m' = retain (fun tx => negb (existsb (lapsed height tx) newly)) (submitted m)
  /\ watched_coins m' = watched_coins m
  /\ vanished_coins m' = vanished_coins m.
Proof.
  unfold resubmit_vanished. revert m. induction newly as [|coin newly IH]; intros m; cbn.
  { by rewrite app_nil_r, retain_true. }
  destruct (IH (resubmit_coin height m coin)) as (-> & -> & -> & ->). clear IH.
  destruct (resubmit_coin_spec height coin m) as (-> & -> & -> & ->).
  split_and!; try done.
  - rewrite <-(assoc_L (++)). f_equal.
    assert (omap (replay_for height (retain (fun tx => negb (lapsed height tx coin)) (submitted m))) newly
      = omap (replay_for height (submitted m)) newly) as ->; [|by destruct (replay_for _ _ coin)].
    apply omap_pointwise. intros c. unfold replay_for. destruct (coin_parent c); [|done]. cbn.
    apply last_replay_retain. intros tx Htx%negb_false_iff. by eapply lapsed_expired.
  - rewrite retain_retain. apply retain_ext. intros tx. by rewrite negb_orb.
Qed.

(** *** The reorg loop *)
Lemma vanish_fold height (l : list (CoinString * WatchedCoin)) vanished newly rearmed :
  NoDup l.*1 ->
  let '(vanished', newly', _) :=
    foldl (fun a kv => vanish_locals height kv.1 kv.2 a) (vanished, newly, rearmed) l in
  let above := (retain (fun kv => birthday_above height kv.2) l).*1 in
  vanished' = list_to_set above ∪ vanished
  /\ (forall coin, coin ∈ newly' <-> coin ∈ newly \/ (coin ∈ above /\ coin ∉ vanished)).
Proof.
  set (f := fun a (kv : CoinString * WatchedCoin) => vanish_locals height kv.1 kv.2 a).
  revert vanished newly rearmed. induction l as [|[coin w] l IH]; intros vanished newly rearmed Hnd.
  { cbn. split; set_solver. }
  cbn in Hnd. apply NoDup_cons in Hnd as [Hn Hnd]. cbn [foldl retain snd].
  assert (f (vanished, newly, rearmed) (coin, w) = vanish_locals height coin w (vanished, newly, rearmed))
    as -> by done. unfold vanish_locals.
  destruct (birthday_above height w) eqn:Hb; [|by apply IH].
  cbn [fmap list_fmap fst].
  assert (coin ∉ (retain (fun kv => birthday_above height kv.2) l).*1) as Hna.
  { intros ([c w'] & -> & [Hin _]%elem_of_retain)%list_elem_of_fmap. apply Hn.
    apply list_elem_of_fmap. by exists (c, w'). }
  case_bool_decide as Hv.
  - specialize (IH vanished newly (rearmed ++ claim_semantics w) Hnd).
    destruct (foldl _ _ _) as [[v' n'] r']. destruct IH as [-> IH]. split; [set_solver|].
    intros c. rewrite IH. set_solver.
  - specialize (IH ({[coin]} ∪ vanished) (newly ++ [coin]) (rearmed ++ claim_semantics w) Hnd).
    destruct (foldl _ _ _) as [[v' n'] r']. destruct IH as [-> IH]. split; [set_solver|].
    intros c. rewrite IH. destruct (decide (c = coin)); set_solver.
Qed.

Lemma roll_back_births_spec height ws vanished rearmed ws' vanished' newly rearmed' :
  roll_back_births height ws vanished rearmed = (ws', (vanished', newly, rearmed')) ->
  ws' = map_imap (fun _ w => Some (clear_birthday height w)) ws
  /\ (forall coin, coin ∈ vanished' <->
       coin ∈ vanished \/ exists w, ws !! coin = Some w /\ birthday_above height w = true)
  /\ (forall coin, coin ∈ newly <->
       coin ∉ vanished /\ exists w, ws !! coin = Some w /\ birthday_above height w = true).
Proof.
  unfold roll_back_births.
  rewrite (hm_for_each_mut_spec (fun _ w => clear_birthday height w) (vanish_locals height)).
  intros [= <- Hf]. pose proof (vanish_fold height (hm_iter ws) vanished [] rearmed
    (NoDup_hm_iter_keys _)) as H. cbn in Hf. rewrite Hf in H. destruct H as [-> Hn].
  assert (forall coin, coin ∈ (retain (fun kv => birthday_above height kv.2) (hm_iter ws)).*1 <->
    exists w, ws !! coin = Some w /\ birthday_above height w = true) as Habove.
  { intros coin. rewrite list_elem_of_fmap. split.
    - intros ([c w] & -> & [Hin%elem_of_hm_iter Hb]%elem_of_retain). eauto.
    - intros (w & Hw & Hb). exists (coin, w). rewrite elem_of_retain, elem_of_hm_iter. done. }
  split_and!; [done| |].
  - intros coin. rewrite elem_of_union, elem_of_list_to_set, Habove. tauto.
  - intros coin. rewrite Hn, Habove. set_solver.
Qed.
End evictions.

(** *** The reconciliation loop *)
Section records.
Context {sha2 : Sha2} {bls : Bls}.

(** A spend reported for a watched coin that was never seen live and whose
    spend is not known yet. *)
Definition fresh_spend (present : gset CoinString) (w : WatchedCoin) (rec : CoinStateRecord) : bool :=
  bool_decide (spent_confirmed_at w = None) && negb (bool_decide (rec_coin rec ∈ present))
  && is_some (spent_height rec).

Lemma observe_birthday_spent rec w :
  spent_confirmed_at (observe_birthday rec w).1 = spent_confirmed_at w.
Proof. unfold observe_birthday. destruct (created_height rec); [|done]. by case_bool_decide. Qed.

Lemma reconcile_record_spec reorg present l rec :
  let l' := reconcile_record reorg present l rec in
  present_now l' = (if is_live rec then {[rec_coin rec]} else ∅) ∪ present_now l
  /\ (forall coin, coin <> rec_coin rec ->
       l_watched l' !! coin = l_watched l !! coin /\ (coin ∈ l_vanished l' <-> coin ∈ l_vanished l))
  /\ (forall w, l_watched l !! rec_coin rec = Some w ->
       exists w', l_watched l' !! rec_coin rec = Some w'
         /\ spent_confirmed_at w' = match spent_height rec with
                                    | Some s => Some s
                                    | None => spent_confirmed_at w
                                    end)
  /\ (l_watched l !! rec_coin rec = None -> l_watched l' !! rec_coin rec = None)
  /\ first_seen_spent l' = first_seen_spent l ++
       match l_watched l !! rec_coin rec with
       | Some w => if fresh_spend present w rec then [rec_coin rec] else []
       | None => []
       end.
Proof.
  unfold reconcile_record. set (l1 := if reorg && _ then _ else _).
  assert (l_watched l1 = l_watched l /\ present_now l1 = present_now l
    /\ first_seen_spent l1 = first_seen_spent l
    /\ (forall coin, coin <> rec_coin rec -> coin ∈ l_vanished l1 <-> coin ∈ l_vanished l))
    as (Hw1 & Hp1 & Hf1 & Hv1).
  { subst l1. destruct (reorg && _); cbn; split_and!; try done. set_solver. }
  set (l2 := if is_live rec then _ else _).
  assert (l_watched l2 = l_watched l
    /\ present_now l2 = (if is_live rec then {[rec_coin rec]} else ∅) ∪ present_now l
    /\ first_seen_spent l2 = first_seen_spent l /\ l_vanished l2 = l_vanished l1)
    as (Hw2 & Hp2 & Hf2 & Hv2).
  { subst l2. destruct (is_live rec); cbn; rewrite ?Hp1; split_and!; try done. set_solver. }
  rewrite Hw2. destruct (l_watched l !! rec_coin rec) as [w|] eqn:Hw; cbn.
  - pose proof (observe_birthday_spent rec w) as Hs.
    destruct (observe_birthday rec w) as [wb rearmed]. cbn in Hs. unfold observe_spend, fresh_spend.
    rewrite Hs. destruct (spent_height rec) as [s|]; cbn; rewrite Hw2, Hp2, Hf2, Hv2, ?andb_true_r, ?andb_false_r;
      (split_and!; [done| | |done|done]).
    all: try (intros coin Hne; rewrite lookup_insert_ne by done; by rewrite (Hv1 coin)).
    all: intros w0 [= ->]; rewrite lookup_insert_eq; eauto.
  - rewrite Hw2, Hp2, Hf2, Hv2, app_nil_r. split_and!; try done. intros coin Hne. by rewrite (Hv1 coin).
Qed.

Lemma reconcile_records_spec reorg present l records :
  let l' := reconcile_records reorg present l records in
  present_now l' = list_to_set (rec_coin <$> retain is_live records) ∪ present_now l
  /\ (forall coin, coin ∉ rec_coin <$> records ->
       l_watched l' !! coin = l_watched l !! coin /\ (coin ∈ l_vanished l' <-> coin ∈ l_vanished l))
  /\ (forall coin, coin ∈ first_seen_spent l' <-> coin ∈ first_seen_spent l \/
       exists w rec, l_watched l !! coin = Some w /\ rec ∈ records /\ rec_coin rec = coin
         /\ fresh_spend present w rec = true).
Proof.
  unfold reconcile_records. cbn. revert l. induction records as [|rec records IH]; intros l.
  { cbn. split_and!; [set_solver|done|]. set_solver. }
  cbn [fold_left]. destruct (reconcile_record_spec reorg present l rec) as (Hp & Hother & Hself & Hnone & Hf).
  set (l1 := reconcile_record reorg present l rec) in *.
  destruct (IH l1) as (-> & Hrest & Hfirst). split_and!.
  - rewrite Hp. cbn [retain]. destruct (is_live rec); cbn; set_solver.
  - intros coin Hc. rewrite fmap_cons, not_elem_of_cons in Hc. destruct Hc as [Hne Hc].
    destruct (Hrest coin Hc) as [-> ->]. by apply Hother.
  - intros coin. rewrite Hfirst, Hf, elem_of_app. destruct (decide (coin = rec_coin rec)) as [->|Hne].
    + destruct (l_watched l !! rec_coin rec) as [w|] eqn:Hw.
      * destruct (Hself w eq_refl) as (w' & Hw' & Hs). rewrite Hw'.
        destruct (fresh_spend present w rec) eqn:Hfresh.
        { split; [intros _; right; exists w, rec; set_solver|]. intros _. left. right. by left. }
        split.
        -- intros [[?|?%not_elem_of_nil]|(w0 & rec0 & [= <-] & Hin & Heq & Hfr)]; [by left|done|].
           right. exists w, rec0. split_and!; [done|by right|done|].
           unfold fresh_spend in *. rewrite Hs in Hfr. rewrite Heq in *.
           destruct (spent_height rec); [done|]. exact Hfr.
        -- intros [?|(w0 & rec0 & [= <-] & Hin & Heq & Hfr)]; [by do 2 left|].
           apply elem_of_cons in Hin as [->|Hin]; [congruence|]. right. exists w', rec0.
           split_and!; try done. unfold fresh_spend in *. rewrite Hs. rewrite Heq in *.
           destruct (spent_height rec); [|exact Hfr]. cbn in Hfresh. rewrite andb_true_r in Hfresh.
           by rewrite Hfresh in Hfr.
      * rewrite (Hnone eq_refl). split.
        -- intros [[?|?%not_elem_of_nil]|(? & ? & [=] & _)]; [by left|done].
        -- intros [?|(? & ? & [=] & _)]. by do 2 left.
    + destruct (Hother coin Hne) as [-> _]. split.
      * intros [[?|Hin]|(w & rec0 & ? & ? & ? & ?)]; [by left| |right; exists w, rec0; set_solver].
        destruct (l_watched l !! rec_coin rec) as [w|]; [|set_solver].
        destruct (fresh_spend present w rec); set_solver.
      * intros [?|(w & rec0 & ? & Hin & ? & ?)]; [by do 2 left|].
        apply elem_of_cons in Hin as [->|Hin]; [congruence|]. right. by exists w, rec0.
Qed.
End records.

(** ** Properties *)
Section properties.
Context {order : HashOrder} {sha2 : Sha2} {bigint : BigInt} {clvm : Clvm} {bls : Bls}.
Context {GameNotification CoinSpendRequest C : Type}.
Context {session : ManagedGameSession GameNotification CoinSpendRequest C}.
Abbreviation TM := (TransactionManager GameNotification CoinSpendRequest C).
Implicit Types (m : TM).

(** C36: In every reachable state, whatever the session does and whichever of
    its calls fail: the watched set is keyed by its own coin strings, recorded
    heights are within [MAX_REPORTED_HEIGHT], a submitted claim has a spend, no
    coin is both live and vanished, and no two retained submissions spend the
    same coins. *)
Theorem manager_invariant m (Hreach : manager_reachable m) : manager_wf m.
Proof. by apply reachable_wf. Qed.

(** A report with a height out of range, of the tip or of any record, is
    refused before anything changes: the error leaves the manager and its
    session exactly as they were. *)
Theorem out_of_range_rejected height records m
    (Hbad : (MAX_REPORTED_HEIGHT < height)%N \/
            exists rec h, rec ∈ records /\ (MAX_REPORTED_HEIGHT < h)%N
              /\ (created_height rec = Some h \/ spent_height rec = Some h)) :
  (exists e, report_coin_states height records m = (Err e, m))
  /\ ((MAX_REPORTED_HEIGHT < height)%N -> exists e, report_height height m = (Err e, m)).
Proof.
  unfold report_coin_states, report_height. split.
  - destruct (N.ltb_spec MAX_REPORTED_HEIGHT height) as [|Hh]; [by eexists|].
    destruct (forallb record_in_range records) eqn:Hrecs; [|by eexists]. exfalso.
    destruct Hbad as [?|(rec & h & Hrec & Hlt & Hh')]; [lia|].
    rewrite forallb_forall in Hrecs. specialize (Hrecs rec ltac:(by apply list_elem_of_In)).
    apply record_in_range_spec in Hrecs as [Hc Hs].
    destruct Hh' as [H|H]; [specialize (Hc _ H)|specialize (Hs _ H)]; lia.
  - intros Hlt. apply N.ltb_lt in Hlt. rewrite Hlt. by eexists.
Qed.

Definition live_in (records : list CoinStateRecord) (coin : CoinString) : Prop :=
  exists rec, rec ∈ records /\ rec_coin rec = coin /\ is_live rec = true.

Definition first_spend_in (m : TM) (records : list CoinStateRecord) (coin : CoinString) : Prop :=
  exists w rec, watched_coins m !! coin = Some w /\ rec ∈ records /\ rec_coin rec = coin
    /\ spent_height rec <> None /\ spent_confirmed_at w = None /\ coin ∉ present_coins m.

(** While the chain moves forward, a snapshot announces as created exactly
    the coins that are live now and were not before, and as spent exactly the
    coins that were live and no longer are; a watched coin first seen already
    spent is announced as both.  Every creation precedes every spend. *)
Theorem snapshot_observations height records m (Hwf : manager_wf m) :
  exists created deleted,
    (reconcile_snapshot height records false [] m).2
      = (Created <$> created) ++ (Spent <$> deleted)
    /\ NoDup created /\ NoDup deleted
    /\ (forall coin, coin ∈ created <->
         (live_in records coin /\ coin ∉ present_coins m) \/ first_spend_in m records coin)
    /\ (forall coin, coin ∈ deleted <->
         (coin ∈ present_coins m /\ ~ live_in records coin) \/ first_spend_in m records coin).
Proof.
  unfold reconcile_snapshot. cbn [created_deleted].
  set (l0 := mkRecordLocals _ _ _ _ _).
  destruct (reconcile_records_spec false (present_coins m) l0 records) as (Hp & _ & Hf).
  pose proof (reconcile_records_vanished (present_coins m) l0 records) as Hv.
  set (l := reconcile_records _ _ _ _) in *. cbn in Hv.
  assert (forall coin, coin ∈ present_now l <-> live_in records coin) as Hlive.
  { intros coin. rewrite Hp. cbn. rewrite elem_of_union, elem_of_list_to_set, list_elem_of_fmap.
    unfold live_in. setoid_rewrite elem_of_retain. set_solver. }
  assert (forall coin, coin ∈ first_seen_spent l <-> first_spend_in m records coin) as Hfirst.
  { intros coin. rewrite Hf. cbn. unfold first_spend_in, fresh_spend. split.
    - intros [?%not_elem_of_nil|(w & rec & Hw & Hr & <- & Hfr)]; [done|]. exists w, rec.
      apply andb_true_iff in Hfr as [[H1%bool_decide_eq_true H2%negb_true_iff]%andb_true_iff H3].
      apply bool_decide_eq_false in H2. split_and!; try done. by destruct (spent_height rec).
    - intros (w & rec & Hw & Hr & <- & Hs & Hn & Hnp). right. exists w, rec. split_and!; try done.
      rewrite !bool_decide_eq_true_2, bool_decide_eq_false_2 by done. by destruct (spent_height rec). }
  do 2 eexists. split; [done|]. split_and!; [apply NoDup_hs_iter..| |].
  - intros coin. cbn. rewrite elem_of_hs_iter, elem_of_union, elem_of_difference,
      elem_of_list_to_set, Hlive, Hfirst. done.
  - intros coin. cbn. rewrite elem_of_hs_iter, elem_of_union, !elem_of_difference,
      elem_of_list_to_set, Hlive, Hfirst, Hv. pose proof (wf_disjoint m Hwf). set_solver.
Qed.

Lemma lookup_confirm_deleted height (deleted : gset CoinString)
    (ws : gmap CoinString WatchedCoin) coin :
  coin ∉ deleted -> confirm_deleted height deleted ws !! coin = ws !! coin.
Proof.
  unfold confirm_deleted. rewrite <-elem_of_hs_iter. generalize (hs_iter deleted). intros s.
  revert ws. induction s as [|c s IH]; intros ws Hs; [done|]. cbn.
  apply not_elem_of_cons in Hs as [? ?]. rewrite IH by done. by apply lookup_alter_ne.
Qed.

(** C35: When a reorg rolls back the block that created a watched coin, and the
    coin is in no record of the snapshot, the session is not told that it was
    spent; the coin is flagged as vanished and forgets its birthday; and if a
    retained submission that created it can still be included, one is queued
    for submission again. *)
Theorem rolled_back_coin_not_spent height records rearmed m coin w
    (Hw : watched_coins m !! coin = Some w)
    (Hbirth : birthday_above height w = true)
    (Hgone : coin ∉ rec_coin <$> records)
    (Hnew : coin ∉ vanished_coins m) :
  let '(m', _, observations) := reconcile_snapshot height records true rearmed m in
  Spent coin ∉ observations
  /\ coin ∈ vanished_coins m'
  /\ (exists w', watched_coins m' !! coin = Some w'
        /\ birthday w' = None /\ claim_submitted w' = false)
  /\ (forall parent tx, coin_parent coin = Some parent ->
        tx ∈ reconcile_submitted records (submitted m) -> replays parent height tx = true ->
        exists tx', (tx_bundle tx', expiry tx') ∈ pending_submissions m'
          /\ parent ∈ spent_coin_ids tx' /\ expired_for_replay height tx' = false).
Proof.
  unfold reconcile_snapshot.
  destruct (roll_back_births height (watched_coins m) (vanished_coins m) rearmed)
    as [ws [[vanished newly] rearmed']] eqn:Hroll.
  apply roll_back_births_spec in Hroll as (-> & Hvan & Hnewly).
  set (l0 := mkRecordLocals _ _ _ _ _).
  destruct (reconcile_records_spec true (present_coins m) l0 records) as (Hp & Hrest & Hf).
  set (l := reconcile_records _ _ _ _) in *. cbn [created_deleted].
  destruct (Hrest coin Hgone) as [Hlw Hlv]. cbn in Hlw, Hlv.
  assert (coin ∈ l_vanished l) as Hcv by (apply Hlv, Hvan; eauto).
  assert (coin ∉ first_seen_spent l) as Hcf.
  { rewrite Hf. cbn. intros [?%not_elem_of_nil|(w' & rec & _ & Hrec & <- & _)]; [done|].
    by apply Hgone, list_elem_of_fmap_2. }
  assert (coin ∉ present_now l) as Hcp.
  { rewrite Hp. cbn. rewrite elem_of_union, elem_of_list_to_set.
    intros [(rec & -> & [Hrec _]%elem_of_retain)%list_elem_of_fmap|?]; [|set_solver].
    by apply Hgone, list_elem_of_fmap_2. }
  match goal with |- context [resubmit_vanished newly height ?m0] =>
    set (mid := m0); destruct (resubmit_vanished_spec newly height mid) as (Hpend & _ & Hws & Hvs) end.
  rewrite Hvs, Hws, Hpend. clear Hpend Hws Hvs. subst mid. cbn. split_and!.
  - rewrite elem_of_app. intros [(c & ? & _)%list_elem_of_fmap|(c & [= <-] & Hc)%list_elem_of_fmap];
      [done|]. apply elem_of_hs_iter in Hc. set_solver.
  - set_solver.
  - rewrite lookup_confirm_deleted by set_solver.
    rewrite Hlw, map_lookup_imap, Hw. cbn. eexists. split; [done|].
    unfold clear_birthday. by rewrite Hbirth.
  - intros parent tx Hparent Htx Hrep.
    assert (coin ∈ newly) as Hcn by (apply Hnewly; eauto).
    destruct (last (retain (replays parent height) (reconcile_submitted records (submitted m))))
      as [tx'|] eqn:Hlast.
    + exists tx'. pose proof (last_Some_elem_of _ _ Hlast) as Htx'.
      apply elem_of_retain in Htx' as [_ [H1%bool_decide_eq_true H2%negb_true_iff]%andb_true_iff].
      split_and!; try done. apply elem_of_app. right. apply list_elem_of_omap. exists coin.
      split; [done|]. unfold replay_for. rewrite Hparent. cbn. unfold last_replay. by rewrite Hlast.
    + exfalso. apply last_None in Hlast.
      assert (tx ∈ retain (replays parent height) (reconcile_submitted records (submitted m))) as Hin
        by (by apply elem_of_retain).
      rewrite Hlast in Hin. by apply not_elem_of_nil in Hin.
Qed.

(** A successful pass over the timeout claims queues, once each and
    without an expiry, exactly the spends of the coins that are mature,
    unclaimed and not known spent; running it again at the same height changes
    nothing: no claim is submitted twice. *)
Theorem claims_submitted_once height m m'
    (Hrun : evaluate_mature_timeout_claims height m = (Ok tt, m')) :
  (exists claims, claims ≡ₚ omap (due_claim height) (map_to_list (watched_coins m)).*2
     /\ pending_submissions m' = pending_submissions m ++ as_submissions claims)
  /\ evaluate_mature_timeout_claims height m' = (Ok tt, m').
Proof.
  rewrite evaluate_claims in Hrun. apply submit_loop_Ok in Hrun as [Hp Hw]. split.
  - exists (due_claims height m). split; [|exact Hp]. unfold due_claims. rewrite hm_iter_perm.
    clear. induction (map_to_list (watched_coins m)) as [|[c w] l IH]; cbn; [done|].
    destruct (due_claim height w); [by f_equiv|done].
  - rewrite evaluate_claims, (due_claims_marked height m m' Hw).
    by rewrite claim_marked_id by by eapply due_claims_marked.
Qed.

Lemma buried_exact height m coin w :
  manager_wf m -> watched_coins m !! coin = Some w ->
  buried (confirmation_depth m) height w = true <->
  exists s, spent_confirmed_at w = Some s /\ (s + 32 <= height)%N.
Proof.
  intros [Hws _ _ _ ->] Hw. destruct (Hws _ _ Hw) as [_ _ Hs _].
  assert (u64_modulus = u64_max + 1)%N as Hmod by done.
  assert (MAX_REPORTED_HEIGHT + 32 <= u64_max)%N as Hmax by (vm_compute; discriminate).
  unfold buried, DEFAULT_CONFIRMATION_DEPTH.
  destruct (spent_confirmed_at w) as [s|]; [|naive_solver]. specialize (Hs s eq_refl).
  rewrite u64_add_small by lia. rewrite N.leb_le. naive_solver.
Qed.

(** Under the invariant the wrapping additions of the maturity and burial
    tests never wrap: a coin is ripe exactly when its birthday plus its timeout
    has been reached, and buried exactly when its spend is 32 blocks deep. *)
Theorem maturity_exact m coin w height (Hwf : manager_wf m)
    (Hw : watched_coins m !! coin = Some w)
    (Htimeout : (timeout_blocks w <= u64_max - MAX_REPORTED_HEIGHT)%N) :
  (ripe height w = true <->
     exists b, birthday w = Some b /\ (b + timeout_blocks w <= height)%N)
  /\ (buried (confirmation_depth m) height w = true <->
     exists s, spent_confirmed_at w = Some s /\ (s + 32 <= height)%N).
Proof.
  split; [|by eapply buried_exact]. destruct Hwf as [Hws _ _ _ _]. destruct (Hws _ _ Hw) as [_ Hb _ _].
  assert (u64_modulus = u64_max + 1)%N as Hmod by done.
  assert (MAX_REPORTED_HEIGHT <= u64_max)%N as Hmax by (vm_compute; discriminate).
  unfold ripe. destruct (birthday w) as [b|]; [|naive_solver]. specialize (Hb b eq_refl).
  rewrite u64_add_small by lia. rewrite N.leb_le. naive_solver.
Qed.

(** A rollback epoch is consumed once: the first report of a lower tip
    re-arms every submitted claim and forgets the spends above the tip, and no
    later report of the same tip re-arms anything, until a higher tip closes
    the epoch. *)
Theorem rollback_epoch_once height m m1 rearmed
    (Hfirst : invalidate_timeout_claims_for_rollback_epoch height true m = (Ok (Some rearmed), m1)) :
  (forall semantic, semantic ∈ rearmed <-> exists coin w, watched_coins m !! coin = Some w
     /\ claim_submitted w = true /\ timeout_claim_semantic w = Some semantic)
  /\ (forall coin w, watched_coins m1 !! coin = Some w ->
        claim_submitted w = false
        /\ forall s, spent_confirmed_at w = Some s -> (s <= height)%N)
  /\ (forall m2, timeout_rollback_height m2 = timeout_rollback_height m1 ->
        invalidate_timeout_claims_for_rollback_epoch height true m2 = (Ok None, m2))
  /\ (forall m2 height', timeout_rollback_height m2 = timeout_rollback_height m1 ->
        timeout_rollback_height (invalidate_timeout_claims_for_rollback_epoch height' false m2).2
        = if (height <? height')%N then None else Some height).
Proof.
  destruct (decide (timeout_rollback_height m = Some height)) as [Heq|Hne].
  { unfold invalidate_timeout_claims_for_rollback_epoch, get_state, mbind, eff_bind in Hfirst.
    cbn [negb] in Hfirst. by rewrite bool_decide_eq_true_2 in Hfirst. }
  rewrite invalidate_unfold in Hfirst by done.
  rewrite (foldl_app_concat (fun kv => claim_semantics kv.2)) in Hfirst.
  injection Hfirst as <- <-. cbn. split_and!.
  - intros semantic. rewrite list_elem_of_In, in_concat. unfold claim_semantics. split.
    + intros (l & Hl%list_elem_of_In & Hs). apply list_elem_of_fmap in Hl as ([c w] & -> & Hin%elem_of_hm_iter).
      cbn in Hs. destruct (claim_submitted w) eqn:Hc; [|done].
      destruct (timeout_claim_semantic w) as [s'|] eqn:Hw; [|done].
      destruct Hs as [<-|[]]. by exists c, w.
    + intros (c & w & Hin & Hc & Hs). exists [semantic]. split; [|by left].
      apply list_elem_of_In, list_elem_of_fmap. exists (c, w). rewrite elem_of_hm_iter. cbn.
      by rewrite Hc, Hs.
  - intros coin w. rewrite map_lookup_imap. destruct (watched_coins m !! coin) as [w0|]; [|done].
    cbn. intros [= <-]. unfold rollback_watched, spent_above.
    destruct w0 as [? ? ? ? [s|] [] ? ? ?]; cbn; try done; destruct (N.ltb_spec height s); cbn;
      (split; [done|]); intros ? [= <-]; done.
  - intros m2 Hm2. unfold invalidate_timeout_claims_for_rollback_epoch, get_state, mbind, eff_bind.
    cbn [negb]. by rewrite bool_decide_eq_true_2.
  - intros m2 height' Hm2. unfold invalidate_timeout_claims_for_rollback_epoch, get_state,
      modify_state, mbind, eff_bind. cbn. rewrite Hm2. by destruct (height <? height')%N.
Qed.

(** Draining is all or nothing: a submission that cannot be parsed leaves
    the queue and the retained set untouched; otherwise the queue is handed
    out in order and emptied, every drained transaction is retained, no two
    retained ones spend the same coins, and each keeps the tightest expiry of
    everything submitted for its coins. *)
Theorem drain_submissions_spec m (Hwf : manager_wf m) :
  (exists e, drain_submissions m = (Err e, m))
  \/ exists m', drain_submissions m = (Ok (pending_submissions m).*1, m')
       /\ pending_submissions m' = []
       /\ submitted_wf (submitted m')
       /\ (forall entry, entry ∈ pending_submissions m ->
             exists tx, tx ∈ submitted m' /\ spent_coin_ids tx = bundle_coin_ids entry.1)
       /\ (forall tx, tx ∈ submitted m' ->
             expiry tx = fold_left min_expiry
               (entry_expiries (spent_coin_ids tx) (pending_submissions m))
               (kept (spent_coin_ids tx) (submitted m) ≫= expiry)).
Proof.
  pose proof (preserves_drain_submissions m Hwf) as Hwf'. rewrite drain_unfold in *.
  destruct (mapM_result _ _) as [outputs|e] eqn:Hout; [right|left; by eexists].
  exists (drained m outputs). cbn in Hwf'. split_and!; try done; [by destruct Hwf'| |].
  all: apply mapM_result_Ok in Hout; pose proof (Forall2_length _ _ _ Hout) as Hlen.
  all: assert (forall i, outputs !! i = Some None -> forall e, pending_submissions m !! i = Some e ->
    kept (bundle_coin_ids e.1) (submitted m) <> None) as Hnone.
  1, 3: intros i Hi e He; destruct (Forall2_lookup_l _ _ _ _ _ Hout He) as (o & Ho & Hnew);
    rewrite Hi in Ho; injection Ho as <-; destruct e as [bundle exp]; unfold new_outputs in Hnew;
    destruct (existsb _ _) eqn:Hex; [|by destruct (expected_output_coins bundle)];
    apply existsb_exists in Hex as (tx & Htx%list_elem_of_In & Heq%same_inputs_true); cbn;
    rewrite <-Heq, kept_elem by (by destruct Hwf); done.
  - intros entry Hentry.
    destruct (kept_fold [] (pending_submissions m) outputs (submitted m)) as [Hall _]; [done..|].
    specialize (Hall _ Hentry).
    destruct (kept (bundle_coin_ids entry.1) _) as [tx|] eqn:Hk in Hall; [|done].
    apply kept_Some in Hk as [Hk1 Hk2]. by exists tx.
  - intros tx Htx.
    destruct (kept_fold (spent_coin_ids tx) (pending_submissions m) outputs (submitted m))
      as [_ Hexp]; [done..|].
    rewrite <-Hexp. cbn in Htx. rewrite kept_elem; [done|by destruct Hwf'|done].
Qed.

(** C33: Eviction forgets exactly what is out of reach of a reorganisation: the
    watched coins whose spend is at least 32 blocks deep.  Each is announced
    once as no longer watched and leaves the coins believed live and those that
    vanished; the retained submissions that spend one of them are dropped; every
    other coin and submission stays, and nothing is said to the session. *)
Theorem eviction_exact height m (Hwf : manager_wf m) :
  let m' := evict_confirmed_spends height m in
  let deep w := exists s, spent_confirmed_at w = Some s /\ (s + 32 <= height)%N in
  exists evicted, NoDup evicted
    /\ (forall coin, coin ∈ evicted <-> exists w, watched_coins m !! coin = Some w /\ deep w)
    /\ pending_unwatch_coins m' = pending_unwatch_coins m ++ evicted
    /\ (forall coin w, watched_coins m' !! coin = Some w <->
          watched_coins m !! coin = Some w /\ ~ deep w)
    /\ present_coins m' = present_coins m ∖ list_to_set evicted
    /\ vanished_coins m' = vanished_coins m ∖ list_to_set evicted
    /\ (forall tx, tx ∈ submitted m' <-> tx ∈ submitted m
          /\ forall coin, coin ∈ evicted -> to_coin_id coin ∉ spent_coin_ids tx)
    /\ cradle m' = cradle m /\ pending_submissions m' = pending_submissions m.
Proof.
  intros m' deep. subst m'.
  assert (forall coin w, watched_coins m !! coin = Some w ->
    buried (confirmation_depth m) height w = true <-> deep w) as Hdeep by (intros; by eapply buried_exact).
  unfold evict_confirmed_spends. set (evicted := (retain _ (hm_iter _)).*1). exists evicted.
  match goal with |- context [fold_left evict_coin evicted ?m0] =>
    set (mid := m0); destruct (evict_coins_spec evicted mid) as (-> & -> & -> & -> & ->);
    destruct (evict_coins_pending evicted mid) as [-> ->] end.
  subst mid. cbn. split_and!; try done.
  - pose proof (NoDup_hm_iter_keys (watched_coins m)) as Hnd. subst evicted. revert Hnd.
    generalize (hm_iter (watched_coins m)). clear. induction l as [|[c w] l IH]; cbn; [done|].
    rewrite NoDup_cons. intros [Hn Hnd]. destruct (buried _ _ _); cbn; [|by apply IH].
    apply NoDup_cons. split; [|by apply IH].
    intros ([c' w'] & -> & [Hin _]%elem_of_retain)%list_elem_of_fmap. apply Hn.
    apply list_elem_of_fmap. by exists (c', w').
  - intros coin. subst evicted. rewrite list_elem_of_fmap. split.
    + intros ([c w] & -> & [Hin%elem_of_hm_iter Hb]%elem_of_retain). cbn in *. exists w. split; [done|].
      by apply (Hdeep c).
    + intros (w & Hin & Hb). exists (coin, w). rewrite elem_of_retain, elem_of_hm_iter. split_and!; [done..|].
      by apply (Hdeep coin).
  - intros coin w. rewrite lookup_hm_retain, negb_true_iff, <-not_true_iff_false.
    split; intros [Hin Hb]; (split; [done|]); by rewrite (Hdeep coin) in *.
  - intros tx. rewrite elem_of_retain. unfold spends_none. rewrite forallb_forall.
    setoid_rewrite <-list_elem_of_In. setoid_rewrite negb_true_iff.
    by setoid_rewrite bool_decide_eq_false.
Qed.

(** Replaying the creators of vanished coins queues, for each coin in
    turn, the last retained submission that spends the coin's parent and can
    still be included, and discards exactly those that no longer can. *)
Theorem resubmit_vanished_replays newly height m :
  let m' := resubmit_vanished newly height m in
  pending_submissions m' = pending_submissions m ++ omap (replay_for height (submitted m)) newly
  /\ submitted m' = retain (fun tx => negb (existsb (lapsed height tx) newly)) (submitted m)
  /\ watched_coins m' = watched_coins m.
Proof. cbn. by destruct (resubmit_vanished_spec newly height m) as (-> & -> & -> & _). Qed.

Lemma absorb_events_frame events m :
  submitted (absorb_events events m) = submitted m
  /\ vanished_coins (absorb_events events m) = vanished_coins m
  /\ pending_unwatch_coins (absorb_events events m) = pending_unwatch_coins m
  /\ pending_resync (absorb_events events m) = pending_resync m.
Proof.
  unfold absorb_events. revert m. induction events as [|e events IH]; intros m; [done|]. cbn.
  destruct (IH (absorb_event m e)) as (-> & -> & -> & ->). by destruct e.
Qed.

(** The events only see the queues and the watched set. *)
Definition same_queues (m1 m2 : TM) : Prop :=
  pending_submissions m1 = pending_submissions m2 /\ watched_coins m1 = watched_coins m2
  /\ pending_events m1 = pending_events m2 /\ pending_watch_coins m1 = pending_watch_coins m2.

Lemma absorb_events_queues events m1 m2 :
  same_queues m1 m2 -> same_queues (absorb_events events m1) (absorb_events events m2).
Proof.
  unfold absorb_events. revert m1 m2. induction events as [|e events IH]; intros m1 m2 Hm; [done|].
  cbn. apply IH. destruct Hm as (H1 & H2 & H3 & H4).
  destruct e; unfold same_queues; cbn; rewrite ?H1, ?H2, ?H3, ?H4; done.
Qed.

(** Once the session is abandoned, collecting its events discards every
    local artefact first: only what the final batch of events itself asks for
    is queued or watched afterwards, and nothing is left to resubmit. *)
Theorem abandoned_flush_discards m result c
    (Hflush : session_flush_and_collect (cradle m) = (Ok result, c))
    (Habandoned : is_abandoned c = true) :
  exists drain m', flush_and_collect m = (Ok drain, m')
    /\ submitted m' = [] /\ vanished_coins m' = ∅
    /\ unwatch_coins drain = [] /\ resync drain = None
    /\ let fresh : TM := absorb_events (drain_events result) (TransactionManager_new c) in
       pending_submissions m' = pending_submissions fresh
       /\ watched_coins m' = watched_coins fresh
       /\ events drain = pending_events fresh /\ watch_coins drain = pending_watch_coins fresh.
Proof.
  unfold flush_and_collect, on_cradle, on_part, modify_state, get_state, put_state, mbind, eff_bind,
    mret, eff_ret.
  rewrite Hflush. set (m1 := if is_some (drain_resync result) then _ else _).
  assert (cradle m1 = c) as Hc by (subst m1; by destruct (is_some _)). rewrite Hc, Habandoned.
  set (m2 := absorb_events _ _). do 2 eexists. split; [done|].
  destruct (absorb_events_frame (drain_events result) (discard_local_artifacts m1)) as (? & ? & ? & ?).
  destruct (absorb_events_queues (drain_events result) (discard_local_artifacts m1)
    (TransactionManager_new c)) as (? & ? & ? & ?); [done|]. by split_and!.
Qed.
End properties.

Section run.
Context {order : HashOrder} {sha2 : Sha2} {bigint : BigInt} {clvm : Clvm} {bls : Bls}.
Context {GameNotification CoinSpendRequest C : Type}.
Context {session : ManagedGameSession GameNotification CoinSpendRequest C}.

(** C34: Over any run whose snapshots are all accepted, with any other
    operations in between, the session is never told of a spend before the
    creation of the same coin: every [Spent] it observes has an earlier
    [Created]. *)
Theorem spends_after_creations c (m : TransactionManager GameNotification CoinSpendRequest (C * list CoinObservation))
    (Hrun : rtc traced_step (TransactionManager_new (c, [])) m) :
  created_first (observation_log m).
Proof.
  assert (forall m0 m, rtc traced_step m0 m -> traced m0 -> traced m) as Htraced.
  { clear. induction 1 as [|m1 m2 m3 Hstep _ IH]; [done|]. intros Hm. apply IH. by eapply traced_step_traced. }
  apply (Htraced _ _ Hrun). split; [by intros coin ?%not_elem_of_empty|by intros ? ? ?].
Qed.
End run.
Module Witnesses.
Import Toy.

#[local] Instance WatchedCoin_eq_dec : EqDecision WatchedCoin.
Proof. solve_decision. Defined.

Definition coin_a : CoinString := CoinString_from_parts CoinID_default PuzzleHash_default 7.

(** A spend of [coin_a] that creates one coin. *)
Definition spend_a : SpendBundle := mkSpendBundle None
  [mkCoinSpend coin_a (mkSpend
     (mkPuzzle (mkProgram (toy_encode
        (Pair (Atom [x01]) (list_node [create_coin_node PuzzleHash_default 5])))))
     nil_program x00)].

Definition watch_a : GameSessionEvent unit unit :=
  WatchCoin (to_coin_id coin_a) coin_a 10 (Some spend_a) (Some ChannelTimeoutFinish).

(** A session that accepts everything and asks for [coin_a] to be watched; its
    state says whether it is abandoned. *)
#[local] Instance quiet_session : ManagedGameSession unit unit bool := {|
  session_observe _ _ := mret tt;
  session_flush_and_collect := mret (mkDrainResult [watch_a] None);
  session_timeout_claim_submitted _ := mret tt;
  session_timeout_claim_rearmed _ := mret tt;
  is_abandoned c := c;
|}.
Abbreviation TM := (TransactionManager unit unit bool).

Definition created_a (height : N) : CoinStateRecord := mkCoinStateRecord coin_a (Some height) None.

(** Watched, then created at 100, then mature at 110, then handed out. *)
Definition m0 : TM := TransactionManager_new false.
Definition m1 : TM := (flush_and_collect m0).2.
Definition m2 : TM := (report_coin_states 100 [created_a 100] m1).2.
Definition m3 : TM := (report_height 110 m2).2.
Definition m4 : TM := (drain_submissions m3).2.

Lemma m2_reachable : manager_reachable m2.
Proof.
  exists false. eapply rtc_l; [exact (step_flush_and_collect m0)|].
  eapply rtc_once. exact (step_report_coin_states 100 [created_a 100] m1).
Qed.

Lemma m3_reachable : manager_reachable m3.
Proof.
  destruct m2_reachable as [c Hrun]. exists c. eapply rtc_r; [exact Hrun|].
  exact (step_report_height 110 m2).
Qed.

Definition w2 : WatchedCoin :=
  mkWatchedCoin coin_a 10 None (Some 100%N) None false (Some spend_a) (Some ChannelTimeoutFinish) None.

Lemma manager_invariant_witness : manager_wf m3.
Proof. apply manager_invariant. exact m3_reachable. Defined.

Lemma out_of_range_rejected_witness :
  (exists e, report_coin_states 2000000000000 [] m2 = (Err e, m2))
  /\ ((MAX_REPORTED_HEIGHT < 2000000000000)%N -> exists e, report_height 2000000000000 m2 = (Err e, m2)).
Proof. apply out_of_range_rejected. left. reflexivity. Defined.

Lemma snapshot_observations_witness :
  exists created deleted,
    (reconcile_snapshot 101 [mkCoinStateRecord coin_a (Some 100%N) (Some 101%N)] false [] m2).2
      = (Created <$> created) ++ (Spent <$> deleted)
    /\ NoDup created /\ NoDup deleted
    /\ (forall coin, coin ∈ created <->
         (live_in [mkCoinStateRecord coin_a (Some 100%N) (Some 101%N)] coin /\ coin ∉ present_coins m2)
         \/ first_spend_in m2 [mkCoinStateRecord coin_a (Some 100%N) (Some 101%N)] coin)
    /\ (forall coin, coin ∈ deleted <->
         (coin ∈ present_coins m2 /\ ~ live_in [mkCoinStateRecord coin_a (Some 100%N) (Some 101%N)] coin)
         \/ first_spend_in m2 [mkCoinStateRecord coin_a (Some 100%N) (Some 101%N)] coin).
Proof. apply snapshot_observations. apply reachable_wf, m2_reachable. Defined.

Lemma rolled_back_coin_not_spent_witness :
  let '(m', _, observations) := reconcile_snapshot 90 [] true [] m2 in
  Spent coin_a ∉ observations
  /\ coin_a ∈ vanished_coins m'
  /\ (exists w', watched_coins m' !! coin_a = Some w'
        /\ birthday w' = None /\ claim_submitted w' = false)
  /\ (forall parent tx, coin_parent coin_a = Some parent ->
        tx ∈ reconcile_submitted [] (submitted m2) -> replays parent 90 tx = true ->
        exists tx', (tx_bundle tx', expiry tx') ∈ pending_submissions m'
          /\ parent ∈ spent_coin_ids tx' /\ expired_for_replay 90 tx' = false).
Proof.
  apply (rolled_back_coin_not_spent 90 [] [] m2 coin_a w2); by_evaluation.
Defined.

Lemma claims_submitted_once_witness :
  exists m', evaluate_mature_timeout_claims 110 m2 = (Ok tt, m')
  /\ (exists claims, claims ≡ₚ omap (due_claim 110) (map_to_list (watched_coins m2)).*2
        /\ pending_submissions m' = pending_submissions m2 ++ as_submissions claims)
  /\ evaluate_mature_timeout_claims 110 m' = (Ok tt, m').
Proof.
  assert (evaluate_mature_timeout_claims 110 m2 = (Ok tt, (evaluate_mature_timeout_claims 110 m2).2))
    as Hrun by (apply eff_run; by_evaluation).
  eexists. split; [exact Hrun|]. exact (claims_submitted_once 110 m2 _ Hrun).
Defined.

Lemma maturity_exact_witness :
  (ripe 110 w2 = true <-> exists b, birthday w2 = Some b /\ (b + timeout_blocks w2 <= 110)%N)
  /\ (buried (confirmation_depth m2) 110 w2 = true <->
     exists s, spent_confirmed_at w2 = Some s /\ (s + 32 <= 110)%N).
Proof.
  apply (maturity_exact m2 coin_a); [apply reachable_wf, m2_reachable|by_evaluation|by_evaluation].
Defined.

(** Spent at 110: forgotten at 142. *)
Definition spent_a : CoinStateRecord := mkCoinStateRecord coin_a (Some 100%N) (Some 110%N).
Definition m5 : TM := (report_coin_states 110 [spent_a] m2).2.
Lemma m5_wf : manager_wf m5.
Proof.
  apply reachable_wf. destruct m2_reachable as [c Hc]. exists c.
  apply (rtc_r _ m2 m5 Hc). exact (step_report_coin_states 110 [spent_a] m2).
Qed.
Lemma m5_spent : (match watched_coins m5 !! coin_a with
                  | Some w => bool_decide (spent_confirmed_at w = Some 110%N) | None => false end) = true.
Proof. vm_compute. reflexivity. Qed.
Lemma eviction_exact_witness :
  exists evicted, coin_a ∈ evicted
    /\ pending_unwatch_coins (evict_confirmed_spends 142 m5) = pending_unwatch_coins m5 ++ evicted.
Proof.
  destruct (eviction_exact 142 m5 m5_wf) as (evicted & _ & Hev & Hp & _). exists evicted.
  split; [|exact Hp]. apply Hev. pose proof m5_spent as Hspent.
  destruct (watched_coins m5 !! coin_a) as [w|] eqn:Hw; [|done]. apply bool_decide_eq_true in Hspent.
  exists w. split; [reflexivity|]. exists 110%N. split; [exact Hspent|vm_compute; discriminate].
Defined.

Lemma rollback_epoch_once_witness :
  invalidate_timeout_claims_for_rollback_epoch 90 true
    (invalidate_timeout_claims_for_rollback_epoch 90 true m3).2
  = (Ok None, (invalidate_timeout_claims_for_rollback_epoch 90 true m3).2).
Proof.
  assert (invalidate_timeout_claims_for_rollback_epoch 90 true m3
    = (Ok (Some [ChannelTimeoutFinish]), (invalidate_timeout_claims_for_rollback_epoch 90 true m3).2))
    as Hfirst by (apply eff_run; by_evaluation).
  apply (rollback_epoch_once 90 m3 _ _ Hfirst). reflexivity.
Defined.

Lemma drain_submissions_spec_witness :
  (exists e, drain_submissions m3 = (Err e, m3))
  \/ exists m', drain_submissions m3 = (Ok (pending_submissions m3).*1, m')
       /\ pending_submissions m' = []
       /\ submitted_wf (submitted m')
       /\ (forall entry, entry ∈ pending_submissions m3 ->
             exists tx, tx ∈ submitted m' /\ spent_coin_ids tx = bundle_coin_ids entry.1)
       /\ (forall tx, tx ∈ submitted m' ->
             expiry tx = fold_left min_expiry
               (entry_expiries (spent_coin_ids tx) (pending_submissions m3))
               (kept (spent_coin_ids tx) (submitted m3) ≫= expiry)).
Proof. apply drain_submissions_spec. apply reachable_wf, m3_reachable. Defined.

(** The drained claim is the one the manager queued, and it is retained. *)
Example m4_drained : length (submitted m4) = 1 /\ pending_submissions m4 = [].
Proof. split; by_evaluation. Qed.

Lemma abandoned_flush_discards_witness :
  exists drain m', flush_and_collect (m3 <| cradle := true |>) = (Ok drain, m')
    /\ submitted m' = [] /\ vanished_coins m' = ∅
    /\ unwatch_coins drain = [] /\ resync drain = None
    /\ let fresh : TM := absorb_events [watch_a] (TransactionManager_new true) in
       pending_submissions m' = pending_submissions fresh
       /\ watched_coins m' = watched_coins fresh
       /\ events drain = pending_events fresh /\ watch_coins drain = pending_watch_coins fresh.
Proof.
  apply (abandoned_flush_discards (m3 <| cradle := true |>) (mkDrainResult [watch_a] None) true);
    reflexivity.
Defined.

#[local] Existing Instance logged_session.

Definition t1 : TransactionManager unit unit (bool * list CoinObservation) :=
  (flush_and_collect (TransactionManager_new (false, []))).2.
Definition spent_at_once : list CoinStateRecord :=
  [mkCoinStateRecord coin_a (Some 99%N) (Some 100%N)].
Definition t2 := (report_coin_states 100 spent_at_once t1).2.

Lemma spends_after_creations_witness :
  observation_log t2 = [Created coin_a; Spent coin_a] /\ created_first (observation_log t2).
Proof.
  split; [by_evaluation|]. apply (spends_after_creations false).
  apply (rtc_l _ _ t1); [exact (traced_flush (TransactionManager_new (false, [])))|].
  apply rtc_once. apply (traced_snapshot 100 spent_at_once t1 t2).
  apply (eff_run (report_coin_states 100 spent_at_once) t1 (Ok tt)). by_evaluation.
Defined.
End Witnesses.
