(* ===== verification/UnrollCoin.v ===== *)
(** * The unroll coin

    [src/channel_state/types/{unroll_coin, channel_state, potato}.rs]: what the
    unroll coin pays out, the signatures that let it, and the environment the
    channel code runs in. *)
From S2P Require Import Prelude Extern World Coins Clvm StandardCoin.

Section unroll.
Context {arch : Arch} {sha2 : Sha2} {bigint : BigInt} {clvm : Clvm} {bls : Bls}.

(** ** [ChannelEnv], [ChannelPrivateKeys], [StateUpdateSignatures] *)
Record ChannelEnv := mkChannelEnv {
  unroll_puzzle : Puzzle;
  env_referee_coin_puzzle : Puzzle;
  env_referee_coin_puzzle_hash : PuzzleHash;
  standard_puzzle : Puzzle;
  env_agg_sig_me_additional_data : Hash;
}.

Record ChannelPrivateKeys := mkChannelPrivateKeys {
  my_channel_coin_private_key : PrivateKey;
  my_unroll_coin_private_key : PrivateKey;
  my_referee_private_key : PrivateKey;
}.

Record StateUpdateSignatures := mkStateUpdateSignatures {
  channel_half_sig : Aggsig;
  unroll_preempt_half_sig : Aggsig;
}.
Definition StateUpdateSignatures_default : StateUpdateSignatures :=
  mkStateUpdateSignatures sig_default sig_default.

(** ** [UnrollCoin] *)
Record UnrollCoinConditionInputs := mkUnrollInputs {
  my_reward_puzzle_hash : PuzzleHash;
  inputs_their_reward_puzzle_hash : PuzzleHash;
  my_balance : Amount;
  their_balance : Amount;
  puzzle_hashes_and_amounts : list (PuzzleHash * Amount);
  inputs_unroll_timeout : N;
}.

Record UnrollCoinOutcome := mkUnrollOutcome {
  conditions : Program;
  conditions_without_hash : Program;
  outcome_state_number : N;
  outcome_hash : PuzzleHash;
  outcome_signature : Aggsig;
}.

Record UnrollCoin := mkUnrollCoin {
  started_with_potato : bool;
  unroll_state_number : N;
  outcome : option UnrollCoinOutcome;
}.
#[export] Instance UnrollCoin_eta : RecordEta UnrollCoin := fun u =>
  mkUnrollCoin (started_with_potato u) (unroll_state_number u) (outcome u).

Definition UnrollCoin_default : UnrollCoin := mkUnrollCoin false 0 None.

(** The five getters read the outcome or fail alike. *)
Definition from_outcome {A} (get : UnrollCoinOutcome -> A) (u : UnrollCoin) : result Error A :=
  match outcome u with Some r => Ok (get r) | None => Err (StrErr "no default setup") end.
Definition get_internal_conditions_for_unroll_coin_spend := from_outcome conditions_without_hash.
Definition get_old_state_number := from_outcome outcome_state_number.
Definition get_conditions_for_unroll_coin_spend := from_outcome conditions.
Definition get_conditions_hash_for_unroll_puzzle := from_outcome outcome_hash.
Definition get_unroll_coin_signature := from_outcome outcome_signature.

(** [(REM, (state_number, ()))] in front of the conditions. *)
Definition prepend_state_number_rem_to_conditions (state_number : N) (conditions : sexp) : sexp :=
  Pair (Pair (num_node REM) (Pair (num_node state_number) nil_node)) conditions.
Definition prepend_rem_conditions (state_number : N) (conditions : sexp) : sexp :=
  prepend_state_number_rem_to_conditions state_number conditions.

Definition make_curried_unroll_puzzle (env : ChannelEnv) (aggregate_public_key : PublicKey)
    (u : UnrollCoin) : result Error sexp :=
  conditions_hash ← get_conditions_hash_for_unroll_puzzle u;
  old_state_number ← get_old_state_number u;
  program ← Puzzle_to_clvm (unroll_puzzle env);
  mret (curry_program program
          [pk_node aggregate_public_key; num_node old_state_number; ph_node conditions_hash]).

Definition make_unroll_puzzle_solution (u : UnrollCoin) : result Error sexp :=
  conditions ← get_internal_conditions_for_unroll_coin_spend u; Program_to_nodeptr conditions.

Definition make_timeout_unroll_solution (u : UnrollCoin) : result Error sexp :=
  timeout_conditions ← get_conditions_for_unroll_coin_spend u; Program_to_nodeptr timeout_conditions.

(** The coins the unroll creates, in order. *)
Definition unroll_payouts (started : bool) (inputs : UnrollCoinConditionInputs)
    : list (PuzzleHash * Amount) :=
  let their_first_coin := (inputs_their_reward_puzzle_hash inputs, their_balance inputs) in
  let our_first_coin := (my_reward_puzzle_hash inputs, my_balance inputs) in
  let '(start_coin_one, start_coin_two) :=
    if started then (our_first_coin, their_first_coin) else (their_first_coin, our_first_coin) in
  start_coin_one :: start_coin_two :: puzzle_hashes_and_amounts inputs.

Definition compute_unroll_coin_conditions (inputs : UnrollCoinConditionInputs) (u : UnrollCoin)
    : result Error Program :=
  let result_coins :=
    (fun '(ph, a) => create_coin_node ph a) <$> unroll_payouts (started_with_potato u) inputs in
  Program_from_nodeptr (prepend_rem_conditions (unroll_state_number u) (list_node result_coins)).

(** The timelock in front of the base conditions, when there is a timeout. *)
Definition timeout_conditions_for (unroll_timeout : N) (base_conditions : Program)
    : result Error Program :=
  if (0 <? unroll_timeout)%N then
    let timelock_cond :=
      Pair (num_node ASSERT_HEIGHT_RELATIVE) (Pair (num_node unroll_timeout) nil_node) in
    base ← Program_to_nodeptr base_conditions;
    Program_from_nodeptr (Pair timelock_cond base)
  else Ok base_conditions.

Definition UnrollCoin_update (unroll_private_key : PrivateKey)
    (their_unroll_coin_public_key : PublicKey) (inputs : UnrollCoinConditionInputs)
    : eff UnrollCoin Aggsig :=
  u ← get_state;
  base_conditions ← lift_result (compute_unroll_coin_conditions inputs u);
  timeout_conditions ←
    lift_result (timeout_conditions_for (inputs_unroll_timeout inputs) base_conditions);
  timeout_hash ← lift_result (Program_sha256tree timeout_conditions);
  base_hash ← lift_result (Program_sha256tree base_conditions);
  let unroll_public_key := private_to_public_key unroll_private_key in
  let unroll_aggregate_key := pk_add unroll_public_key their_unroll_coin_public_key in
  let unroll_signature :=
    unsafe_sign_partial unroll_private_key unroll_aggregate_key (PuzzleHash_bytes base_hash) in
  _ ← put_state (u <| outcome := Some (mkUnrollOutcome timeout_conditions base_conditions
                                  (unroll_state_number u) timeout_hash unroll_signature) |>);
  mret unroll_signature.

Definition UnrollCoin_verify (aggregate_unroll_public_key : PublicKey) (signature : Aggsig)
    (u : UnrollCoin) : result Error bool :=
  unroll_puzzle_solution ← get_internal_conditions_for_unroll_coin_spend u;
  unroll_puzzle_solution_hash ← Program_sha256tree unroll_puzzle_solution;
  our_half ← get_unroll_coin_signature u;
  let aggregate_unroll_signature := sig_add signature our_half in
  mret (sig_verify aggregate_unroll_signature aggregate_unroll_public_key
          (PuzzleHash_bytes unroll_puzzle_solution_hash)).

(** [ChannelUnrollSpendInfo], [HistoricalUnrollSpendInfo] *)
Record ChannelUnrollSpendInfo := mkUnrollSpendInfo {
  unroll_coin : UnrollCoin;
  signatures : StateUpdateSignatures;
}.
Definition ChannelUnrollSpendInfo_default : ChannelUnrollSpendInfo :=
  mkUnrollSpendInfo UnrollCoin_default StateUpdateSignatures_default.

Record HistoricalUnrollSpendInfo := mkHistorical {
  historical_state_number : N;
  conditions_hash : PuzzleHash;
  timeout_conditions : Program;
}.

(** ** The two sides of one state *)

(** What the other player passes for the same state. *)
Definition mirror_inputs (i : UnrollCoinConditionInputs) : UnrollCoinConditionInputs :=
  mkUnrollInputs (inputs_their_reward_puzzle_hash i) (my_reward_puzzle_hash i)
    (their_balance i) (my_balance i) (puzzle_hashes_and_amounts i) (inputs_unroll_timeout i).

Definition mirror_coins (u v : UnrollCoin) : Prop :=
  started_with_potato v = negb (started_with_potato u)
  /\ unroll_state_number v = unroll_state_number u.

Lemma unroll_payouts_mirror started i :
  unroll_payouts (negb started) (mirror_inputs i) = unroll_payouts started i.
Proof. by destruct started. Qed.

Lemma compute_mirror i u v :
  mirror_coins u v ->
  compute_unroll_coin_conditions (mirror_inputs i) v = compute_unroll_coin_conditions i u.
Proof.
  intros [Hs Hn]. unfold compute_unroll_coin_conditions. by rewrite Hs, Hn, unroll_payouts_mirror.
Qed.

Lemma UnrollCoin_update_Ok sk their i u s u' :
  UnrollCoin_update sk their i u = (Ok s, u') ->
  exists base tc th bh,
    compute_unroll_coin_conditions i u = Ok base
    /\ timeout_conditions_for (inputs_unroll_timeout i) base = Ok tc
    /\ Program_sha256tree tc = Ok th /\ Program_sha256tree base = Ok bh
    /\ s = unsafe_sign_partial sk (pk_add (private_to_public_key sk) their) (PuzzleHash_bytes bh)
    /\ u' = u <| outcome := Some (mkUnrollOutcome tc base (unroll_state_number u) th s) |>.
Proof.
  unfold UnrollCoin_update. intros (? & ? & [= <- <-] & H)%eff_bind_Ok.
  apply eff_bind_Ok in H as (base & ? & [= Hb <-] & H).
  apply eff_bind_Ok in H as (tc & ? & [= Ht <-] & H).
  apply eff_bind_Ok in H as (th & ? & [= Hth <-] & H).
  apply eff_bind_Ok in H as (bh & ? & [= Hbh <-] & H).
  apply eff_bind_Ok in H as (? & ? & [= _ <-] & [= <- <-]).
  by exists base, tc, th, bh.
Qed.

(** The other player can sign the same state. *)
Lemma UnrollCoin_update_other sk1 sk2 their1 their2 i u v s1 u' :
  mirror_coins u v -> UnrollCoin_update sk1 their1 i u = (Ok s1, u') ->
  exists o s2, outcome u' = Some o /\ outcome_state_number o = unroll_state_number v
  /\ UnrollCoin_update sk2 their2 (mirror_inputs i) v
     = (Ok s2, v <| outcome := Some (mkUnrollOutcome (conditions o) (conditions_without_hash o)
                                       (unroll_state_number v) (outcome_hash o) s2) |>).
Proof.
  intros Hmirror (base & tc & th & bh & Hb & Ht & Hth & Hbh & -> & ->)%UnrollCoin_update_Ok.
  do 2 eexists. split; [done|]. split; [by destruct Hmirror as [_ <-]|].
  unfold UnrollCoin_update, mbind, eff_bind, get_state, lift_result.
  rewrite (compute_mirror i u v), Hb by done. cbn [inputs_unroll_timeout mirror_inputs].
  rewrite Ht, Hth, Hbh. reflexivity.
Qed.

(** Two half signatures of the same state verify together. *)
Lemma exchange_verifies sk1 sk2 i u v s1 s2 u' v'
    (pk1 := private_to_public_key sk1) (pk2 := private_to_public_key sk2) :
  mirror_coins u v ->
  UnrollCoin_update sk1 pk2 i u = (Ok s1, u') ->
  UnrollCoin_update sk2 pk1 (mirror_inputs i) v = (Ok s2, v') ->
  UnrollCoin_verify (pk_add pk1 pk2) s2 u' = Ok true.
Proof.
  intros Hmirror.
  intros (b1 & t1 & th1 & bh1 & Hb1 & Ht1 & Hth1 & Hbh1 & -> & ->)%UnrollCoin_update_Ok.
  intros (b2 & t2 & th2 & bh2 & Hb2 & Ht2 & Hth2 & Hbh2 & -> & ->)%UnrollCoin_update_Ok.
  rewrite (compute_mirror i u v) in Hb2 by done.
  assert (b2 = b1) as -> by congruence. assert (bh2 = bh1) as -> by congruence.
  unfold UnrollCoin_verify, get_internal_conditions_for_unroll_coin_spend,
    get_unroll_coin_signature, from_outcome, unsafe_sign_partial.
  subst pk1 pk2. unfold private_to_public_key. cbn. rewrite Hbh1. cbn.
  rewrite (pk_add_comm (sk_public sk2)), sig_add_comm. f_equal. apply partial_signatures_verify.
Qed.

Lemma mirror_coins_sym u v : mirror_coins u v -> mirror_coins v u.
Proof. intros [Hs Hn]. split; [by rewrite Hs, negb_involutive|done]. Qed.
Lemma mirror_inputs_twice i : mirror_inputs (mirror_inputs i) = i.
Proof. by destruct i. Qed.

(** The conditions as the chain reads them. *)
Definition as_create_coins (l : list (PuzzleHash * Amount)) : list CoinCondition :=
  (fun p => CreateCoin p.1 p.2) <$> l.

Lemma parse_conditions_create_coins l :
  Forall (fun p => is_u64 p.2) l ->
  parse_conditions ((fun '(ph, a) => create_coin_node ph a) <$> l) = Ok (as_create_coins l).
Proof.
  induction 1 as [|[ph a] l Ha _ IH]; [done|]. cbn [fmap list_fmap parse_conditions].
  rewrite parse_create_coin by done. cbn [mbind result_bind]. by rewrite IH.
Qed.

Lemma parse_rem n : parse_condition (Pair (num_node REM) (Pair (num_node n) nil_node)) = Ok None.
Proof.
  unfold parse_condition.
  change (Pair (num_node REM) _) with (list_node [num_node REM; num_node n]).
  rewrite proper_list_list_node, num_node_REM. unfold num_node.
  by destruct (encode_number n).
Qed.

Lemma parse_timelock t :
  is_u64 t ->
  parse_condition (Pair (num_node ASSERT_HEIGHT_RELATIVE) (Pair (num_node t) nil_node))
  = Ok (Some (AssertHeightRelative t)).
Proof.
  intros Ht. unfold parse_condition.
  change (Pair (num_node ASSERT_HEIGHT_RELATIVE) _)
    with (list_node [num_node ASSERT_HEIGHT_RELATIVE; num_node t]).
  rewrite proper_list_list_node, num_node_82. unfold num_node. cbn -[u64_from_atom].
  by rewrite u64_from_atom_encode_number.
Qed.
Lemma parse_timeout_conditions t n l :
  is_u64 t -> Forall (fun p => is_u64 p.2) l ->
  CoinCondition_from_nodeptr
    (Pair (Pair (num_node ASSERT_HEIGHT_RELATIVE) (Pair (num_node t) nil_node))
       (prepend_rem_conditions n (list_node ((fun '(ph, a) => create_coin_node ph a) <$> l))))
  = Ok (AssertHeightRelative t :: as_create_coins l).
Proof.
  intros Ht Hl. unfold CoinCondition_from_nodeptr, prepend_rem_conditions,
    prepend_state_number_rem_to_conditions. set (creates := _ <$> l).
  change (Pair _ (Pair _ (list_node creates))) with (list_node
    (Pair (num_node ASSERT_HEIGHT_RELATIVE) (Pair (num_node t) nil_node)
     :: Pair (num_node REM) (Pair (num_node n) nil_node) :: creates)).
  rewrite proper_list_list_node. cbn [ok_or mbind result_bind parse_conditions].
  rewrite parse_timelock by done. cbn [mbind result_bind]. rewrite parse_rem.
  cbn [mbind result_bind]. subst creates. by rewrite parse_conditions_create_coins.
Qed.

Lemma create_coins_amounts (l : list (PuzzleHash * Amount)) :
  snd <$> omap is_create_coin (as_create_coins l) = snd <$> l.
Proof. unfold as_create_coins. induction l as [|[ph a] l IH]; [done|]. cbn. by rewrite IH. Qed.
End unroll.

(** ** Properties *)

(** Both players compute the same unroll conditions for a state: swapping
    "mine" and "theirs" and negating who started with the potato cancel out. *)
Theorem unroll_conditions_agree {clvm : Clvm} {bls : Bls} i u v (Hmirror : mirror_coins u v) :
  compute_unroll_coin_conditions (mirror_inputs i) v = compute_unroll_coin_conditions i u.
Proof. by apply compute_mirror. Qed.

(** C14: When both players update their unroll coins for the same state, they
    commit to the same puzzle (conditions, timeout hash and state number), and
    each accepts the other's half signature under the aggregate key. *)
Theorem unroll_exchange_verifies {clvm : Clvm} {bls : Bls} sk1 sk2 i u v s1 s2 u' v'
    (pk1 := private_to_public_key sk1) (pk2 := private_to_public_key sk2)
    (Hmirror : mirror_coins u v)
    (H1 : UnrollCoin_update sk1 pk2 i u = (Ok s1, u'))
    (H2 : UnrollCoin_update sk2 pk1 (mirror_inputs i) v = (Ok s2, v')) :
  UnrollCoin_verify (pk_add pk1 pk2) s2 u' = Ok true
  /\ UnrollCoin_verify (pk_add pk2 pk1) s1 v' = Ok true
  /\ get_conditions_hash_for_unroll_puzzle u' = get_conditions_hash_for_unroll_puzzle v'
  /\ get_conditions_for_unroll_coin_spend u' = get_conditions_for_unroll_coin_spend v'
  /\ get_old_state_number u' = get_old_state_number v'.
Proof.
  split; [by eapply exchange_verifies|]. split.
  { eapply exchange_verifies; [by apply mirror_coins_sym|exact H2|by rewrite mirror_inputs_twice]. }
  destruct (UnrollCoin_update_other sk1 sk2 pk2 pk1 i u v s1 u' Hmirror H1) as (o & s & Ho & Hn & H).
  rewrite H in H2. injection H2 as <- <-.
  unfold get_conditions_hash_for_unroll_puzzle, get_conditions_for_unroll_coin_spend,
    get_old_state_number, from_outcome. by rewrite Ho, Hn.
Qed.

(** C32: The timeout spend of an updated unroll coin waits for the agreed
    number of blocks and creates, in this order and nothing else, the coin of the
    player that started with the potato, the coin of the other player, and one coin
    per game: each player's out-of-game balance at that player's reward address,
    and each game's amount at its puzzle.  What it pays out is the sum of the two
    balances and of the game amounts. *)
Theorem unroll_pays_out {sha2 : Sha2} {bigint : BigInt} {clvm : Clvm} {bls : Bls} sk their i u s u'
    (Hupdate : UnrollCoin_update sk their i u = (Ok s, u'))
    (Htimeout : (0 < inputs_unroll_timeout i)%N) (Htimeout64 : is_u64 (inputs_unroll_timeout i))
    (Hmine : is_u64 (my_balance i)) (Htheirs : is_u64 (their_balance i))
    (Hgames : Forall (fun p => is_u64 p.2) (puzzle_hashes_and_amounts i))
    (mine := CreateCoin (my_reward_puzzle_hash i) (my_balance i))
    (theirs := CreateCoin (inputs_their_reward_puzzle_hash i) (their_balance i)) :
  exists node conds, make_timeout_unroll_solution u' = Ok node
    /\ CoinCondition_from_nodeptr node = Ok conds
    /\ conds = AssertHeightRelative (inputs_unroll_timeout i)
               :: (if started_with_potato u then [mine; theirs] else [theirs; mine])
               ++ ((fun '(ph, amount) => CreateCoin ph amount) <$> puzzle_hashes_and_amounts i)
    /\ sum_N (snd <$> omap is_create_coin conds)
       = (my_balance i + their_balance i + sum_N (snd <$> puzzle_hashes_and_amounts i))%N.
Proof.
  assert (Forall (fun p => is_u64 p.2) (unroll_payouts (started_with_potato u) i)) as Hamounts
    by (unfold unroll_payouts; destruct (started_with_potato u); by repeat constructor).
  apply UnrollCoin_update_Ok in Hupdate as (base & tc & th & bh & Hb & Ht & _ & _ & _ & ->).
  unfold timeout_conditions_for in Ht. apply N.ltb_lt in Htimeout. rewrite Htimeout in Ht.
  unfold compute_unroll_coin_conditions in Hb. apply Program_from_nodeptr_inv in Hb as [_ Hb].
  rewrite Hb in Ht. cbn [mbind result_bind] in Ht.
  apply Program_from_nodeptr_inv in Ht as [_ Ht].
  do 2 eexists. split; [exact Ht|]. split; [by apply parse_timeout_conditions|]. split.
  - unfold unroll_payouts, as_create_coins. destruct (started_with_potato u); cbn; do 3 f_equal;
      apply list_fmap_ext; by intros ? [].
  - cbn [omap list_omap is_create_coin]. rewrite create_coins_amounts. unfold unroll_payouts.
    destruct (started_with_potato u); rewrite !fmap_cons; unfold sum_N; cbn [foldr snd]; lia.
Qed.

Module Witnesses.
Import Toy.

Definition inputs : UnrollCoinConditionInputs :=
  mkUnrollInputs PuzzleHash_default (mkPuzzleHash (Hash_new [x01])) 40 60
    [(mkPuzzleHash (Hash_new [x02]), 10%N)] 15.
Definition coin_one : UnrollCoin := mkUnrollCoin true 3 None.
Definition coin_two : UnrollCoin := mkUnrollCoin false 3 None.

Lemma unroll_conditions_agree_witness :
  compute_unroll_coin_conditions (mirror_inputs inputs) coin_two
  = compute_unroll_coin_conditions inputs coin_one.
Proof. apply unroll_conditions_agree. split; reflexivity. Defined.

Definition sk_one : PrivateKey := x05.
Definition sk_two : PrivateKey := x09.
Definition pk_one : PublicKey := private_to_public_key sk_one.
Definition pk_two : PublicKey := private_to_public_key sk_two.

(** The two updates. *)
Definition up_one : result Error Aggsig * UnrollCoin := UnrollCoin_update sk_one pk_two inputs coin_one.
Definition up_two : result Error Aggsig * UnrollCoin :=
  UnrollCoin_update sk_two pk_one (mirror_inputs inputs) coin_two.

Definition signed (up : result Error Aggsig * UnrollCoin) : Aggsig :=
  match up.1 with Ok s => s | Err _ => sig_default end.

Lemma signed_Ok up : is_ok up.1 = true -> up = (Ok (signed up), up.2).
Proof. destruct up as [[s|e] u]; [done|discriminate]. Qed.

Lemma up_one_signed : up_one = (Ok (signed up_one), up_one.2).
Proof. apply signed_Ok. by_evaluation. Qed.

Lemma up_two_signed : up_two = (Ok (signed up_two), up_two.2).
Proof. apply signed_Ok. by_evaluation. Qed.

Lemma unroll_exchange_verifies_witness :
  UnrollCoin_verify (pk_add pk_one pk_two) (signed up_two) up_one.2 = Ok true
  /\ UnrollCoin_verify (pk_add pk_two pk_one) (signed up_one) up_two.2 = Ok true
  /\ get_conditions_hash_for_unroll_puzzle up_one.2 = get_conditions_hash_for_unroll_puzzle up_two.2
  /\ get_conditions_for_unroll_coin_spend up_one.2 = get_conditions_for_unroll_coin_spend up_two.2
  /\ get_old_state_number up_one.2 = get_old_state_number up_two.2.
Proof.
  exact (unroll_exchange_verifies sk_one sk_two inputs coin_one coin_two (signed up_one) (signed up_two)
    up_one.2 up_two.2 (conj eq_refl eq_refl)
    up_one_signed
    up_two_signed).
Defined.

Lemma unroll_pays_out_witness :
  exists node conds, make_timeout_unroll_solution up_one.2 = Ok node
    /\ CoinCondition_from_nodeptr node = Ok conds
    /\ conds = [AssertHeightRelative 15; CreateCoin PuzzleHash_default 40;
                CreateCoin (mkPuzzleHash (Hash_new [x01])) 60;
                CreateCoin (mkPuzzleHash (Hash_new [x02])) 10]
    /\ sum_N (snd <$> omap is_create_coin conds) = 110%N.
Proof.
  apply (unroll_pays_out sk_one pk_two inputs coin_one (signed up_one) up_one.2
    up_one_signed).
  - reflexivity.
  - reflexivity.
  - reflexivity.
  - reflexivity.
  - repeat constructor.
Defined.
End Witnesses.
