(* ===== verification/GameHandler.v ===== *)
(** * Game handlers and game start information

    [src/channel_state/{game_handler, game_start_info}.rs] and
    [src/channel_state/types/{state_update_program, validation_info, evidence,
    readable_move}.rs]; also the description of a move from
    [src/referee/types.rs].  Handlers, validators and message parsers are CLVM
    programs: [run_program] of the [Clvm] class runs them. *)
From S2P Require Import Prelude Extern World Coins Clvm Text.

Definition space : byte := x20.
Definition my_turn_suffix : bytes := [x6d; x79; x20; x74; x75; x72; x6e].            (* "my turn" *)
Definition their_turn_suffix : bytes := [x74; x68; x65; x69; x72; x5f; x74; x75; x72; x6e]. (* "their_turn" *)
Definition initial_name : bytes := [x69; x6e; x69; x74; x69; x61; x6c].              (* "initial" *)

(** ** Moves, as [referee/types.rs] describes them *)
Record GameMoveStateInfo := mkMoveStateInfo {
  move_made : bytes;
  mover_share : Amount;
  max_move_size : N;
  max_move_size_raw : bytes;
}.
Inductive ValidationInfoHash : Type :=
| VihNone
| VihInitial
| VihHash (h : Hash).
Record GameMoveDetails := mkMoveDetails {
  basic : GameMoveStateInfo;
  validation_info_hash : ValidationInfoHash;
  validation_program_hash : option Hash;
}.
#[export] Instance GameMoveDetails_eta : RecordEta GameMoveDetails := fun d =>
  mkMoveDetails (basic d) (validation_info_hash d) (validation_program_hash d).

#[export] Instance GameMoveStateInfo_eq_dec : EqDecision GameMoveStateInfo.
Proof. solve_decision. Defined.
#[export] Instance ValidationInfoHash_eq_dec : EqDecision ValidationInfoHash.
Proof. solve_decision. Defined.
#[export] Instance GameMoveDetails_eq_dec : EqDecision GameMoveDetails.
Proof. solve_decision. Defined.

Definition ValidationInfoHash_is_some (v : ValidationInfoHash) : bool :=
  match v with VihNone => false | _ => true end.

Section handlers.
Context {arch : Arch} {sha2 : Sha2} {bigint : BigInt} {clvm : Clvm} {bls : Bls}.

Definition vih_node (v : ValidationInfoHash) : sexp :=
  match v with
  | VihNone => Atom []
  | VihInitial => Atom [x78]
  | VihHash h => hash_node h
  end.

(** ** [state_update_program.rs], [validation_info.rs] *)
Record StateUpdateProgram := mkStateUpdateProgram {
  sup_name : bytes;
  state_update_program : Program;
  state_update_program_hash : Hash;
}.
#[export] Instance StateUpdateProgram_eq_dec : EqDecision StateUpdateProgram.
Proof. solve_decision. Defined.

Definition StateUpdateProgram_new (name : bytes) (p : Program) : result Error StateUpdateProgram :=
  h ← Program_sha256tree p; mret (mkStateUpdateProgram name p (ph_hash h)).

Definition StateUpdateProgram_new_hash (p : Program) (name : bytes) (h : Hash)
    : StateUpdateProgram := mkStateUpdateProgram name p h.

(** [state_update_program.sha256tree(allocator)] hashes the program again. *)
Definition StateUpdateProgram_sha256tree (s : StateUpdateProgram) : result Error PuzzleHash :=
  Program_sha256tree (state_update_program s).

Inductive ValidationInfo : Type :=
| FromStateUpdate (game_state : Program) (program : StateUpdateProgram) (hash : Hash)
| FromHash (hash : Hash).

Definition ValidationInfo_new_state_update (program : StateUpdateProgram) (game_state : Program)
    : result Error ValidationInfo :=
  state_hash ← Program_sha256tree game_state;
  let hash := Sha256Input_hash (Sha_Array
    [Sha_Hash (state_update_program_hash program); Sha_Hash (ph_hash state_hash)]) in
  mret (FromStateUpdate game_state program hash).

Definition ValidationInfo_hash (v : ValidationInfo) : Hash :=
  match v with FromStateUpdate _ _ h | FromHash h => h end.

(** ** [evidence.rs], [readable_move.rs] *)
Record Evidence := mkEvidence { evidence_program : Program }.
Definition Evidence_nil : result Error Evidence := Ok (mkEvidence nil_program).
Definition Evidence_from_nodeptr (n : sexp) : result Error Evidence :=
  mkEvidence <$> Program_from_nodeptr n.

Record ReadableMove := mkReadableMove { readable_program : Program }.
Definition ReadableMove_from_nodeptr (n : sexp) : result Error ReadableMove :=
  mkReadableMove <$> Program_from_nodeptr n.

#[export] Instance Evidence_eq_dec : EqDecision Evidence.
Proof. solve_decision. Defined.
#[export] Instance ReadableMove_eq_dec : EqDecision ReadableMove.
Proof. solve_decision. Defined.

(** ** [game_handler.rs] *)
Inductive GameHandler : Type :=
| MyTurnHandler (p : Program)
| TheirTurnHandler (p : Program).

Record MessageHandler := mkMessageHandler { message_program : Program }.

Record MyTurnInputs := mkMyTurnInputs {
  readable_new_move : ReadableMove;
  entropy : Hash;
  mti_amount : Amount;
  last_mover_share : Amount;
  mti_state : Program;
}.

Record MyTurnResult := mkMyTurnResult {
  mtr_name : bytes;
  move_bytes : bytes;
  outgoing_move_state_update_program : StateUpdateProgram;
  outgoing_move_state_update_program_hash : Hash;
  incoming_move_state_update_program : StateUpdateProgram;
  incoming_move_state_update_program_hash : Hash;
  mtr_max_move_size : N;
  mtr_mover_share : Amount;
  waiting_handler : option GameHandler;
  message_parser : option MessageHandler;
}.

Record TheirTurnInputs := mkTheirTurnInputs {
  tti_amount : Amount;
  pre_state : sexp;
  tti_state : sexp;
  last_move : bytes;
  tti_last_mover_share : Amount;
  new_move : GameMoveDetails;
}.

Record TheirTurnResult := mkTheirTurnResult {
  ttr_readable_move : Program;
  slash_evidence : list Evidence;
  ttr_mover_share : Amount;
  next_handler : option GameHandler;
  ttr_message : bytes;
}.

#[export] Instance GameHandler_eq_dec : EqDecision GameHandler.
Proof. solve_decision. Defined.
#[export] Instance MessageHandler_eq_dec : EqDecision MessageHandler.
Proof. solve_decision. Defined.

Definition run_code (code env : sexp) : result Error sexp := lift_err ClvmErr (run_program code env).

(** [allocator.atom(n)] panics on a pair. *)
Definition expect_atom (n : sexp) : result Error bytes :=
  ok_or (Panicked "expected atom, got pair") (atom_from_clvm n).

Definition get_state_update_program (name suffix : bytes) (n : sexp)
    : result Error StateUpdateProgram :=
  let final_name := name ++ space :: suffix in
  validation_prog ← Program_from_nodeptr n;
  StateUpdateProgram_new final_name validation_prog.

Definition their_handler_from_nodeptr (n : sexp) : result Error GameHandler :=
  TheirTurnHandler <$> Program_from_nodeptr n.
Definition my_handler_from_nodeptr (n : sexp) : result Error GameHandler :=
  MyTurnHandler <$> Program_from_nodeptr n.
Definition MessageHandler_from_nodeptr (n : sexp) : result Error MessageHandler :=
  mkMessageHandler <$> Program_from_nodeptr n.

Definition handler_is_my_turn (h : GameHandler) : bool :=
  match h with MyTurnHandler _ => true | TheirTurnHandler _ => false end.

Definition get_my_turn_handler (h : GameHandler) : result Error sexp :=
  match h with
  | MyTurnHandler res => Program_to_nodeptr res
  | TheirTurnHandler _ => Err (StrErr "my turn called on a their turn handler")
  end.

Definition get_their_turn_handler (h : GameHandler) : result Error sexp :=
  match h with
  | TheirTurnHandler res => Program_to_nodeptr res
  | MyTurnHandler _ => Err (StrErr "their turn called on a my turn handler")
  end.

(** The optional field of a handler result: absent or nil is [None]. *)
Definition optional_node {A} (decode : sexp -> result Error A) (n : option sexp)
    : result Error (option A) :=
  match n with
  | Some n => if bool_decide (n = nil_node) then Ok None else Some <$> decode n
  | None => Ok None
  end.

Definition get_hash (n : sexp) : result Error Hash :=
  match atom_from_clvm n with Some a => Hash_from_slice a | None => Err (StrErr "bad hash") end.

(** The part of [call_my_turn_handler] that decodes the program's result. *)
Definition decode_my_turn_result (run_result : sexp) : result Error MyTurnResult :=
  match proper_list run_result true with
  | None => Err (StrErr "bad result from game handler: not a list")
  | Some [p0; p1] =>
      tag ← expect_atom p0;
      message ← expect_atom p1;
      Err (GameMoveRejected tag message)
  | Some (p0 :: p1 :: p2 :: p3 :: p4 :: p5 :: p6 :: p7 :: p8 :: rest) =>
      name_atom ← ok_or (StrErr "game handler name was not an atom") (atom_from_clvm p0);
      _ ← check (utf8_valid name_atom) (StrErr "game handler name is not valid UTF-8");
      max_move_size ← ok_or (StrErr "bad max move size") (atom_from_clvm p6 ≫= usize_from_atom);
      mover_share ← ok_or (StrErr "bad share") (atom_from_clvm p7 ≫= u64_from_atom);
      message_parser ← optional_node MessageHandler_from_nodeptr (head rest);
      outgoing_hash ← get_hash p3;
      incoming_hash ← get_hash p5;
      move_data ← ok_or (StrErr "bad move in my turn handler result") (atom_from_clvm p1);
      outgoing ← get_state_update_program name_atom my_turn_suffix p2;
      incoming ← get_state_update_program name_atom their_turn_suffix p4;
      waiting_handler ← optional_node their_handler_from_nodeptr (Some p8);
      mret (mkMyTurnResult name_atom move_data outgoing outgoing_hash incoming incoming_hash
              max_move_size mover_share waiting_handler message_parser)
  | Some _ => Err (StrErr "bad result from game handler")
  end.

Definition call_my_turn_handler (h : GameHandler) (inputs : MyTurnInputs)
    : result Error MyTurnResult :=
  readable ← Program_to_clvm (readable_program (readable_new_move inputs));
  state ← Program_to_clvm (mti_state inputs);
  let handler_args :=
    Pair readable (Pair (num_node (mti_amount inputs)) (Pair state
      (Pair (num_node (last_mover_share inputs)) (Pair (hash_node (entropy inputs)) nil_node)))) in
  handler_node ← get_my_turn_handler h;
  run_result ← run_code handler_node handler_args;
  decode_my_turn_result run_result.

Definition decode_slash_evidence (n : sexp) : result Error (list Evidence) :=
  lst ← ok_or (StrErr "slash evidence was not a list") (proper_list n true);
  mapM_result Evidence_from_nodeptr lst.

Definition decode_their_turn_result (inputs : TheirTurnInputs) (run_result : sexp)
    : result Error TheirTurnResult :=
  match proper_list run_result true with
  | None =>
      _ ← Program_from_nodeptr run_result;
      Err (StrErr "bad result from game handler: not a list")
  | Some (p0 :: p1 :: rest) =>
      slash_evidence ← decode_slash_evidence p1;
      message ← match rest !! 1 with Some p3 => expect_atom p3 | None => Ok [] end;
      next_handler ← optional_node my_handler_from_nodeptr (head rest);
      readable_move ← Program_from_nodeptr p0;
      mret (mkTheirTurnResult readable_move slash_evidence
              (mover_share (basic (new_move inputs))) next_handler message)
  | Some _ => Err (StrErr "bad length for move result")
  end.

Definition their_turn_handler_args (inputs : TheirTurnInputs) : sexp :=
  Pair (num_node (tti_amount inputs)) (Pair (pre_state inputs) (Pair (tti_state inputs)
    (Pair (Atom (move_made (basic (new_move inputs))))
      (Pair (option_node hash_node (validation_program_hash (new_move inputs)))
        (Pair (num_node (mover_share (basic (new_move inputs)))) nil_node))))).

(** A failed run is reported with both states printed; printing them can
    itself fail. *)
Definition call_their_turn_handler (h : GameHandler) (inputs : TheirTurnInputs)
    : result Error TheirTurnResult :=
  handler_node ← get_their_turn_handler h;
  match run_code handler_node (their_turn_handler_args inputs) with
  | Ok run_result => decode_their_turn_result inputs run_result
  | Err _ =>
      _ ← Program_from_nodeptr (pre_state inputs);
      _ ← Program_from_nodeptr (tti_state inputs);
      Err (StrErr "their turn handler failed")
  end.

Record MessageInputs := mkMessageInputs {
  mi_message : bytes;
  mi_state : Program;
  mi_amount : Amount;
}.

Definition MessageHandler_run (h : MessageHandler) (inputs : MessageInputs)
    : result Error ReadableMove :=
  state ← Program_to_clvm (mi_state inputs);
  let args := Pair (Atom (mi_message inputs))
                (Pair state (Pair (num_node (mi_amount inputs)) nil_node)) in
  run_prog ← Program_to_nodeptr (message_program h);
  run_output ← relabel "message parser returned error" (run_code run_prog args);
  ReadableMove_from_nodeptr run_output.

(** ** [game_start_info.rs] *)
Record GameStartInfo := mkGameStartInfo {
  gsi_amount : Amount;
  game_handler : GameHandler;
  my_contribution_this_game : Amount;
  their_contribution_this_game : Amount;
  initial_validation_program : StateUpdateProgram;
  initial_state : Program;
  initial_move : bytes;
  initial_max_move_size : N;
  initial_mover_share : Amount;
  gsi_game_id : GameID;
  gsi_timeout : Timeout;
}.

#[export] Instance GameStartInfo_eq_dec : EqDecision GameStartInfo.
Proof. solve_decision. Defined.

Definition GameStartInfo_is_my_turn (g : GameStartInfo) : bool := handler_is_my_turn (game_handler g).

Definition GameStartInfo_from_clvm (clvm : sexp) : result Error GameStartInfo :=
  match proper_list clvm true with
  | None => Err (StrErr "game start info clvm wasn't a full list")
  | Some (l0 :: l1 :: l2 :: l3 :: l4 :: l5 :: l6 :: l7 :: l8 :: l9 :: l10 :: rest) =>
      amount ← Amount_from_clvm l0;
      my_turn ← ok_or (StrErr "bad my_turn in game start info") (atom_from_clvm l1 ≫= usize_from_atom);
      handler ← (if negb (my_turn =? 0)%N then my_handler_from_nodeptr l2
                 else their_handler_from_nodeptr l2);
      my_contribution ← Amount_from_clvm l3;
      their_contribution ← Amount_from_clvm l4;
      validation_prog ← Program_from_nodeptr l5;
      validation_program_hash ← Hash_from_nodeptr l6;
      let validation_program :=
        StateUpdateProgram_new_hash validation_prog initial_name validation_program_hash in
      initial_state ← Program_from_nodeptr l7;
      initial_move ← ok_or (StrErr "initial move wasn't an atom") (atom_from_clvm l8);
      initial_max_move_size ←
        ok_or (StrErr "bad initial max move size") (atom_from_clvm l9 ≫= usize_from_atom);
      initial_mover_share ← Amount_from_clvm l10;
      match rest with
      | l11 :: l12 :: beyond =>
          game_id ← GameID_from_clvm l11;
          match beyond with
          | _ :: _ =>
              timeout ← Timeout_from_clvm l12;
              mret (mkGameStartInfo amount handler my_contribution their_contribution
                      validation_program initial_state initial_move initial_max_move_size
                      initial_mover_share game_id timeout)
          | [] => Err (StrErr "game_start_info missing required timeout field")
          end
      | _ => Err (StrErr "game_start_info missing required game_id field")
      end
  | Some _ => Err (StrErr "game start info clvm needs at least 11 items")
  end.

(** ** [game.rs]: the proposal factory *)
Record FactoryGame := mkFactoryGame {
  sender_contribution : Amount;
  receiver_contribution : Amount;
  fg_amount : Amount;
  sender_goes_first : bool;
  fg_initial_validation_program_hash : Hash;
  fg_initial_move : bytes;
  fg_initial_max_move_size : N;
  fg_initial_state : Program;
  fg_initial_mover_share : N;
  my_turn_handler : Program;
  their_turn_handler : Program;
  fg_initial_validation_program : Program;
}.

Definition game_start (g : FactoryGame) (game_id : GameID) (timeout : Timeout) (sender_side : bool)
    : GameStartInfo :=
  let is_my_turn := Bool.eqb sender_side (sender_goes_first g) in
  let handler_program := if is_my_turn then my_turn_handler g else their_turn_handler g in
  let handler := if is_my_turn then MyTurnHandler handler_program
                 else TheirTurnHandler handler_program in
  let '(my_contribution, their_contribution) :=
    if sender_side then (sender_contribution g, receiver_contribution g)
    else (receiver_contribution g, sender_contribution g) in
  mkGameStartInfo (fg_amount g) handler my_contribution their_contribution
    (StateUpdateProgram_new_hash (fg_initial_validation_program g) initial_name
       (fg_initial_validation_program_hash g))
    (fg_initial_state g) (fg_initial_move g) (fg_initial_max_move_size g)
    (fg_initial_mover_share g) game_id timeout.

(** One record of the factory's result. *)
Definition decode_factory_game (record : sexp) : result Error FactoryGame :=
  fields ← ok_or (StrErr "proposal factory game is not a proper list") (proper_list record true);
  match fields with
  | [f0; f1; f2; f3; f4; f5; f6; f7; f8; f9; f10; f11] =>
      turn_atom ← ok_or (StrErr "proposal factory game sender_goes_first is not an atom")
        (atom_from_clvm f3);
      sender_goes_first ←
        (if bool_decide (turn_atom = []) then Ok false
         else if bool_decide (turn_atom = [x01]) then Ok true
         else Err (StrErr "proposal factory game sender_goes_first is not canonical boolean"));
      validation_program_hash ← Hash_from_nodeptr f4;
      validation_program ← Program_from_nodeptr f11;
      actual_hash ← Program_sha256tree validation_program;
      _ ← check (bool_decide (ph_hash actual_hash = validation_program_hash))
            (StrErr "proposal factory game initial validator hash mismatch");
      sender_contribution ← Amount_from_clvm f0;
      receiver_contribution ← Amount_from_clvm f1;
      amount ← Amount_from_clvm f2;
      initial_move ← ok_or (StrErr "proposal factory game initial_move is not an atom")
        (atom_from_clvm f5);
      initial_max_move_size ← ok_or (StrErr "proposal factory game has invalid max move size")
        (atom_from_clvm f6 ≫= usize_from_atom);
      initial_state ← Program_from_nodeptr f7;
      initial_mover_share ← ok_or (StrErr "proposal factory game has invalid mover share")
        (atom_from_clvm f8 ≫= u64_from_atom);
      my_turn_handler ← Program_from_nodeptr f9;
      their_turn_handler ← Program_from_nodeptr f10;
      mret (mkFactoryGame sender_contribution receiver_contribution amount sender_goes_first
              validation_program_hash initial_move initial_max_move_size initial_state
              initial_mover_share my_turn_handler their_turn_handler validation_program)
  | _ => Err (StrErr "proposal factory game has the wrong number of fields, expected 12")
  end.

Definition run_factory (factory_program : Puzzle) (parameters : Program)
    : result Error (list FactoryGame) :=
  args ← Program_to_clvm parameters;
  factory_clvm ← Puzzle_to_clvm factory_program;
  result ← relabel "proposal factory failed" (run_code factory_clvm args);
  records ← ok_or (StrErr "proposal factory did not return a proper list")
    (proper_list result true);
  _ ← check (negb (bool_decide (records = []))) (StrErr "proposal factory returned no games");
  mapM_result decode_factory_game records.

(** ** Lemmas *)
Lemma decode_factory_game_hash record g :
  decode_factory_game record = Ok g ->
  Program_sha256tree (fg_initial_validation_program g)
  = Ok (mkPuzzleHash (fg_initial_validation_program_hash g)).
Proof.
  unfold decode_factory_game. intros (fields & _ & H)%bind_Ok.
  do 12 (destruct fields as [|? fields]; [done|]). destruct fields; [|done].
  apply bind_Ok in H as (? & _ & H). apply bind_Ok in H as (? & _ & H).
  apply bind_Ok in H as (vh & _ & H). apply bind_Ok in H as (vp & _ & H).
  apply bind_Ok in H as (ah & Hah & H). apply bind_Ok in H as (? & Hc & H).
  do 9 (apply bind_Ok in H as (? & _ & H)). injection H as <-. cbn.
  apply check_Ok, bool_decide_eq_true in Hc. rewrite Hah. by destruct ah; cbn in *; subst.
Qed.
End handlers.

(** ** Properties *)

(** The two peers start a proposed game in mirror image: same stakes,
    validator, state, move and timeout, contributions swapped, and exactly one
    of them is to move, the one the factory chose. *)
Lemma game_starts_mirror {bls : Bls} g id timeout :
  let sender := game_start g id timeout true in
  let receiver := game_start g id timeout false in
  GameStartInfo_is_my_turn sender = sender_goes_first g
  /\ GameStartInfo_is_my_turn receiver = negb (sender_goes_first g)
  /\ my_contribution_this_game receiver = their_contribution_this_game sender
  /\ their_contribution_this_game receiver = my_contribution_this_game sender
  /\ gsi_amount receiver = gsi_amount sender
  /\ initial_validation_program receiver = initial_validation_program sender
  /\ initial_state receiver = initial_state sender /\ initial_move receiver = initial_move sender
  /\ initial_max_move_size receiver = initial_max_move_size sender
  /\ initial_mover_share receiver = initial_mover_share sender
  /\ gsi_timeout receiver = gsi_timeout sender.
Proof. cbn. unfold game_start. by destruct (sender_goes_first g). Qed.

(** A factory run that succeeds returns at least one game, and every game
    carries the true tree hash of its validation program. *)
Theorem run_factory_checked {arch : Arch} {sha2 : Sha2} {bigint : BigInt} {clvm : Clvm}
    factory parameters games (Hrun : run_factory factory parameters = Ok games) :
  games <> [] /\ Forall (fun g => Program_sha256tree (fg_initial_validation_program g)
                                  = Ok (mkPuzzleHash (fg_initial_validation_program_hash g))) games.
Proof.
  unfold run_factory in Hrun.
  apply bind_Ok in Hrun as (? & _ & H). apply bind_Ok in H as (? & _ & H).
  apply bind_Ok in H as (? & _ & H). apply bind_Ok in H as (records & _ & H).
  apply bind_Ok in H as (? & Hne & H). apply check_Ok, negb_true_iff, bool_decide_eq_false in Hne.
  apply mapM_result_Ok in H. split.
  - intros ->. by inversion H; subst.
  - clear Hne. induction H; constructor; [by eapply decode_factory_game_hash|done].
Qed.

(** Decoding game start information reads thirteen fields but accepts only
    lists of at least fourteen: a list of thirteen or fewer is refused, whatever
    its fields are. *)
Theorem game_start_info_length {arch : Arch} {bigint : BigInt} {clvm : Clvm} {bls : Bls} l info
    (Hdec : GameStartInfo_from_clvm (list_node l) = Ok info) : 14 <= length l.
Proof.
  unfold GameStartInfo_from_clvm in Hdec. rewrite proper_list_list_node in Hdec.
  do 11 (destruct l as [|? l]; [done|]).
  do 11 (apply bind_Ok in Hdec as (? & _ & Hdec)).
  destruct l as [|? [|? l]]; [done|done|]. apply bind_Ok in Hdec as (? & _ & Hdec).
  destruct l; [done|]. cbn. lia.
Qed.

Module Witnesses.
Import Toy.

(** A factory that returns one game whose validator is the identity. *)
Definition validator : sexp := Atom [x01].
Definition sample_record : sexp :=
  list_node [num_node 40; num_node 60; num_node 100; Atom [x01];
             hash_node (tree_hash validator); Atom []; num_node 32; nil_node; num_node 0;
             nil_node; nil_node; validator].
Definition sample_game : FactoryGame :=
  mkFactoryGame 40 60 100 true (tree_hash validator) [] 32 nil_program 0 nil_program nil_program
    (mkProgram (toy_encode validator)).
Definition sample_factory : Puzzle :=
  mkPuzzle (mkProgram (toy_encode (Pair (Atom [x01]) (list_node [sample_record])))).

#[local] Instance FactoryGame_eq_dec : EqDecision FactoryGame.
Proof. solve_decision. Defined.

Lemma run_factory_checked_witness :
  [sample_game] <> [] /\ Forall (fun g => Program_sha256tree (fg_initial_validation_program g)
                                = Ok (mkPuzzleHash (fg_initial_validation_program_hash g))) [sample_game].
Proof. apply (run_factory_checked sample_factory nil_program). by_evaluation. Defined.

Definition start_fields : list sexp :=
  [num_node 100; num_node 1; nil_node; num_node 40; num_node 60; validator;
   hash_node (tree_hash validator); nil_node; Atom []; num_node 32; num_node 0;
   num_node 5; num_node 15; nil_node].
Definition start_info : GameStartInfo :=
  mkGameStartInfo 100 (MyTurnHandler nil_program) 40 60
    (mkStateUpdateProgram initial_name (mkProgram (toy_encode validator)) (tree_hash validator))
    nil_program [] 32 0 5 15.

Lemma game_start_info_length_witness : 14 <= length start_fields.
Proof. apply (game_start_info_length start_fields start_info). by_evaluation. Defined.

(** Without the field nobody reads, the same list is refused. *)
Example thirteen_fields_refused :
  GameStartInfo_from_clvm (list_node (take 13 start_fields))
  = Err (StrErr "game_start_info missing required timeout field").
Proof. by_evaluation. Qed.
End Witnesses.
