(* ===== verification/RefereeTypes.v ===== *)
(** * Referee types

    [src/referee/types.rs]: the arguments curried into the referee puzzle, the
    three solutions it accepts, and the runs of the validation programs.  The
    encoder of a value never fails here; only decoding a stored program can. *)
From S2P Require Import Prelude Extern World Coins Clvm StandardCoin GameHandler.

(** [canonical_atom_from_usize]: strip the leading zeros of [to_be_bytes] and
    keep the number non-negative. *)
Definition canonical_atom_from_usize (v : N) : bytes :=
  if (v =? 0)%N then []
  else
    let be := be_fixed 8 v in
    let start := default 7 (position (fun b => negb (bool_decide (b = x00))) be) in
    match be !! start with
    | Some b => if sign_bit b then x00 :: drop start be else drop start be
    | None => []
    end.

Section types.
Context {arch : Arch} {sha2 : Sha2} {bigint : BigInt} {clvm : Clvm} {bls : Bls}.

Record GameMoveWireData := mkWireData {
  wire_puzzle_hash_for_unroll : PuzzleHash;
  wire_details : GameMoveDetails;
}.

Record TheirTurnMoveResult := mkTheirTurnMoveResult {
  puzzle_hash_for_unroll : option PuzzleHash;
  ttm_readable_move : Program;
  ttm_mover_share : Amount;
  ttm_message : bytes;
  slash : option Evidence;
}.

Inductive SlashOutcome : Type :=
| NoReward
| Reward (transaction : CoinSpend) (my_reward_coin_string : CoinString)
    (cheating_move_mover_share : Amount).

Record RefereeFixedContext := mkFixed {
  referee_coin_puzzle : Puzzle;
  fixed_referee_coin_puzzle_hash : PuzzleHash;
  my_identity : ChiaIdentity;
  reward_puzzle_hash : PuzzleHash;
  their_reward_puzzle_hash : PuzzleHash;
  their_referee_pubkey : PublicKey;
  their_reward_payout_signature : Aggsig;
  my_reward_payout_signature : Aggsig;
  agg_sig_me_additional_data : Hash;
  fixed_timeout : Timeout;
  fixed_amount : Amount;
  fixed_nonce : N;
}.

(** ** The three solutions of the referee puzzle *)
Inductive ParsedRefereeSolution : Type :=
| ParsedTimeout
| ParsedMove (new_move validation_info_hash_raw new_mover_share_raw max_move_size_raw : bytes)
| ParsedSlash.

#[export] Instance ParsedRefereeSolution_eq_dec : EqDecision ParsedRefereeSolution.
Proof. solve_decision. Defined.

Definition ParsedRefereeSolution_parse (solution : Program) : result Error ParsedRefereeSolution :=
  node ← Program_to_nodeptr solution;
  elements ← ok_or (StrErr "referee solution is not a proper list") (proper_list node true);
  match elements with
  | [_; _] => Ok ParsedTimeout
  | e0 :: e1 :: e2 :: e3 :: _ =>
      match e1 with
      | Pair _ _ => Ok ParsedSlash
      | Atom vih =>
          new_move ← expect_atom e0;
          new_mover_share ← expect_atom e2;
          max_move_size ← expect_atom e3;
          mret (ParsedMove new_move vih new_mover_share max_move_size)
      end
  | _ => Err (StrErr "referee solution has unexpected length")
  end.

(** ** Validators: [Some state] for a valid move, [None] for a slash *)
Definition StateUpdateResult : Type := option Program.

Definition parse_validator_result (node : sexp) : result Error StateUpdateResult :=
  match proper_list node true with
  | None => Err (StrErr "non-list in validator result")
  | Some [] => Ok None
  | Some lst => Some <$> Program_from_nodeptr (default nil_node (lst !! 1))
  end.

(** ** [RefereePuzzleArgs] *)
Record RefereePuzzleArgs := mkArgs {
  mover_pubkey : PublicKey;
  waiter_pubkey : PublicKey;
  args_timeout : Timeout;
  args_amount : Amount;
  nonce : N;
  game_move : GameMoveDetails;
  validation_program : StateUpdateProgram;
  previous_validation_info_hash : ValidationInfoHash;
  args_referee_coin_puzzle_hash : PuzzleHash;
}.
#[export] Instance RefereePuzzleArgs_eta : RecordEta RefereePuzzleArgs := fun a =>
  mkArgs (mover_pubkey a) (waiter_pubkey a) (args_timeout a) (args_amount a) (nonce a)
    (game_move a) (validation_program a) (previous_validation_info_hash a)
    (args_referee_coin_puzzle_hash a).

Definition RefereePuzzleArgs_new (fixed : RefereeFixedContext) (initial_move : GameMoveDetails)
    (previous_validation_info_hash : ValidationInfoHash) (validation_program : StateUpdateProgram)
    (my_turn : bool) : RefereePuzzleArgs :=
  mkArgs (if my_turn then public_key (my_identity fixed) else their_referee_pubkey fixed)
    (if my_turn then their_referee_pubkey fixed else public_key (my_identity fixed))
    (fixed_timeout fixed) (fixed_amount fixed) (fixed_nonce fixed) initial_move
    validation_program previous_validation_info_hash (fixed_referee_coin_puzzle_hash fixed).

Definition swap (a : RefereePuzzleArgs) : RefereePuzzleArgs :=
  a <| mover_pubkey := waiter_pubkey a |> <| waiter_pubkey := mover_pubkey a |>.

Definition args_node (a : RefereePuzzleArgs) : sexp :=
  list_node [
    pk_node (mover_pubkey a);
    pk_node (waiter_pubkey a);
    num_node (args_timeout a);
    num_node (args_amount a);
    ph_node (args_referee_coin_puzzle_hash a);
    num_node (nonce a);
    Atom (move_made (basic (game_move a)));
    Atom (max_move_size_raw (basic (game_move a)));
    vih_node (validation_info_hash (game_move a));
    num_node (mover_share (basic (game_move a)));
    vih_node (previous_validation_info_hash a)].

Definition curry_referee_puzzle_hash (referee_coin_puzzle_hash : PuzzleHash)
    (args : RefereePuzzleArgs) : PuzzleHash :=
  let arg_hash := node_sha256tree (args_node args) in
  curry_and_treehash (mkPuzzleHash (calculate_hash_of_quoted_mod_hash referee_coin_puzzle_hash))
    [arg_hash].

Definition curry_referee_puzzle (referee_coin_puzzle : Puzzle) (args : RefereePuzzleArgs)
    : result Error Puzzle :=
  program ← Puzzle_to_clvm referee_coin_puzzle;
  Puzzle_from_nodeptr (curry_program program [args_node args]).

(** ** Running a validator *)
Record StateUpdateMoveArgs := mkStateUpdateMoveArgs { suma_state : Program; evidence : Program }.

Definition StateUpdateMoveArgs_to_nodeptr (a : StateUpdateMoveArgs) (me : StateUpdateProgram)
    : result Error sexp :=
  s ← Program_to_clvm (suma_state a);
  m ← Program_to_clvm (state_update_program me);
  e ← Program_to_clvm (evidence a);
  mret (Pair s (Pair m (Pair e nil_node))).

Record InternalStateUpdateArgs := mkInternalArgs {
  isu_validation_program : StateUpdateProgram;
  referee_args : RefereePuzzleArgs;
  state_update_args : StateUpdateMoveArgs;
}.

Definition InternalStateUpdateArgs_to_nodeptr (a : InternalStateUpdateArgs)
    (validator_mod_hash : PuzzleHash) : result Error sexp :=
  converted_vma ← StateUpdateMoveArgs_to_nodeptr (state_update_args a) (isu_validation_program a);
  mret (Pair (ph_node validator_mod_hash) (Pair (args_node (referee_args a)) converted_vma)).

Definition InternalStateUpdateArgs_run (a : InternalStateUpdateArgs)
    : result Error StateUpdateResult :=
  let validation_program_mod_hash := state_update_program_hash (isu_validation_program a) in
  _ ← check (bool_decide (state_update_program_hash (validation_program (referee_args a))
                          = validation_program_mod_hash))
        (StrErr "ValidationInfo::run: validation_program hash mismatch");
  validation_program_nodeptr ← Program_to_nodeptr (state_update_program (isu_validation_program a));
  validator_full_args_node ←
    InternalStateUpdateArgs_to_nodeptr a (mkPuzzleHash validation_program_mod_hash);
  raw_result ← run_code validation_program_nodeptr validator_full_args_node;
  parse_validator_result raw_result.

(** ** On-chain moves, slashes and timeouts *)
Record OnChainRefereeMoveData := mkMoveData {
  omd_state : Program;
  omd_validation_program : StateUpdateProgram;
  omd_new_move : GameMoveDetails;
  before_args : RefereePuzzleArgs;
  after_args : RefereePuzzleArgs;
}.

Record OnChainRefereeMove := mkOnChainMove {
  ocm_game_move : GameMoveDetails;
  ocm_validation_program : StateUpdateProgram;
  ocm_state : Program;
  ocm_signature : Aggsig;
}.

Record OnChainRefereeSlash := mkOnChainSlash {
  ocs_validation_program : StateUpdateProgram;
  ocs_state : Program;
  ocs_evidence : Evidence;
  ocs_reward_puzzle_hash : PuzzleHash;
  ocs_signature : Aggsig;
}.

Inductive OnChainRefereeSolution : Type :=
| SolTimeout (mover_payout_ph waiter_payout_ph : option PuzzleHash) (aggregate_signature : Aggsig)
| SolMove (refmove : OnChainRefereeMove)
| SolSlash (refslash : OnChainRefereeSlash).

(** The move solution, built alike by [to_move] (to sign it) and by
    [to_nodeptr] (to spend with it). *)
Definition infohash_for (vih : ValidationInfoHash) (program : StateUpdateProgram) (state : Program)
    : result Error (option Hash) :=
  if ValidationInfoHash_is_some vih then
    vi ← ValidationInfo_new_state_update program state; mret (Some (ValidationInfo_hash vi))
  else Ok None.

Definition move_solution_node (m : GameMoveDetails) (infohash_c : option Hash) : sexp :=
  Pair (Atom (move_made (basic m)))
    (Pair (option_node hash_node infohash_c)
      (Pair (num_node (mover_share (basic m)))
        (Pair (Atom (max_move_size_raw (basic m))) nil_node))).

Definition to_move (d : OnChainRefereeMoveData) (fixed : RefereeFixedContext)
    (coin_string : CoinString) : result Error OnChainRefereeMove :=
  infohash_c ← infohash_for (validation_info_hash (omd_new_move d)) (omd_validation_program d)
    (omd_state d);
  let solution_args_node := move_solution_node (omd_new_move d) infohash_c in
  let message := node_sha256tree solution_args_node in
  signature ← sign_agg_sig_me (private_key (my_identity fixed)) (PuzzleHash_bytes message)
    (to_coin_id coin_string) (agg_sig_me_additional_data fixed);
  mret (mkOnChainMove (omd_new_move d) (omd_validation_program d) (omd_state d) signature).

Definition get_signature (s : OnChainRefereeSolution) : option Aggsig :=
  match s with
  | SolTimeout _ _ aggregate_signature => Some aggregate_signature
  | SolMove refmove => Some (ocm_signature refmove)
  | SolSlash refslash => Some (ocs_signature refslash)
  end.

Definition OnChainRefereeSolution_to_nodeptr (s : OnChainRefereeSolution) : result Error sexp :=
  match s with
  | SolTimeout mover_payout_ph waiter_payout_ph _ =>
      Ok (Pair (option_node ph_node mover_payout_ph)
            (Pair (option_node ph_node waiter_payout_ph) nil_node))
  | SolMove refmove =>
      infohash_c ← infohash_for (validation_info_hash (ocm_game_move refmove))
        (ocm_validation_program refmove) (ocm_state refmove);
      mret (move_solution_node (ocm_game_move refmove) infohash_c)
  | SolSlash refslash =>
      s ← Program_to_clvm (ocs_state refslash);
      v ← Program_to_clvm (state_update_program (ocs_validation_program refslash));
      e ← Program_to_clvm (evidence_program (ocs_evidence refslash));
      mret (Pair s (Pair v (Pair e (Pair (ph_node (ocs_reward_puzzle_hash refslash)) nil_node))))
  end.

(** ** Lemmas *)
Lemma swap_swap a : swap (swap a) = a.
Proof. by destruct a. Qed.

(** The curried arguments do not mention the validation program. *)
Definition same_coin_args (a b : RefereePuzzleArgs) : Prop :=
  exists program, b = a <| validation_program := program |>.

#[export] Instance same_coin_args_equiv : Equivalence same_coin_args.
Proof.
  split.
  - intros a. exists (validation_program a). by destruct a.
  - intros a b [p ->]. exists (validation_program a). by destruct a.
  - intros a b c [p ->] [q ->]. by exists q.
Qed.

#[export] Instance args_node_proper : Proper (same_coin_args ==> eq) args_node.
Proof. intros a b [p ->]. done. Qed.

#[export] Instance curry_referee_puzzle_hash_proper ph :
  Proper (same_coin_args ==> eq) (curry_referee_puzzle_hash ph).
Proof. intros a b Hab. unfold curry_referee_puzzle_hash. by rewrite Hab. Qed.

Lemma proper_list_args a : exists l, args_node a = list_node l /\ length l = 11.
Proof. unfold args_node. eexists. done. Qed.
End types.

(** ** Lemmas on canonical atoms *)
Lemma position_replicate_zero k (bs : bytes) :
  position (fun b => negb (bool_decide (b = x00))) (replicate k x00 ++ bs)
  = Nat.add k <$> position (fun b => negb (bool_decide (b = x00))) bs.
Proof.
  induction k as [|k IH]; [cbn; by destruct (position _ bs)|].
  cbn [replicate app position]. rewrite bool_decide_eq_true_2 by done. cbn [negb].
  rewrite IH. by destruct (position _ bs).
Qed.

Lemma canonical_atom_is_canonical v : is_u64 v -> canonical_atom_from_usize v = canonical_be v.
Proof.
  intros Hv. unfold canonical_atom_from_usize, canonical_be.
  destruct (N.eqb_spec v 0) as [->|Hz]; [done|].
  destruct (be_fixed_minimal 8 v) as [-> Hlen]; [exact Hv|].
  destruct (be_minimal v) as [|b bs] eqn:Hm.
  { exfalso. apply Hz. by rewrite <-(be_minimal_value v), Hm. }
  pose proof (be_minimal_head _ _ _ Hm) as Hb.
  rewrite position_replicate_zero. cbn [position].
  rewrite (bool_decide_eq_false_2 (b = x00)) by exact Hb.
  cbn [negb fmap option_fmap option_map default from_option].
  generalize (8 - length (b :: bs)). intros k. rewrite Nat.add_0_r.
  rewrite lookup_app_r; rewrite length_replicate; [|done]. rewrite Nat.sub_diag.
  cbn [lookup list_lookup].
  by rewrite drop_app_length' by (by rewrite length_replicate).
Qed.
