(* ===== verification/Referee.v ===== *)
(** * The referee

    [src/referee/{mod, my_turn, their_turn}.rs]: the state machine of one game.
    A referee is either waiting for our move or for theirs; every operation
    returns the referee that replaces it. *)
From S2P Require Import Prelude Extern World Coins Clvm StandardCoin GameHandler RefereeTypes.

Section referee.
Context {arch : Arch} {sha2 : Sha2} {bigint : BigInt} {clvm : Clvm} {bls : Bls}.

(** ** Data *)
Inductive MyTurnRefereeGameState : Type :=
| MyInitial (initial_state : Program) (initial_puzzle_args : RefereePuzzleArgs)
    (game_handler : GameHandler)
| AfterTheirTurn (game_handler : option GameHandler) (state_after_their_turn : Program)
    (create_this_coin spend_this_coin : RefereePuzzleArgs)
    (move_spend : option OnChainRefereeMoveData).

Record MyTurnReferee := mkMyTurn {
  my_fixed : RefereeFixedContext;
  my_finished : bool;
  my_enable_cheating : option (bytes * Amount);
  my_state : MyTurnRefereeGameState;
  my_state_number : N;
}.

Record TheirTurnRefereeGameState := mkTheirState {
  their_game_handler : option GameHandler;
  slash_validation_program : StateUpdateProgram;
  slash_state : Program;
  their_turn_validation_program : StateUpdateProgram;
  current_state : Program;
  their_create_this_coin : RefereePuzzleArgs;
  their_spend_this_coin : RefereePuzzleArgs;
  their_move_spend : option OnChainRefereeMoveData;
}.

Record TheirTurnReferee := mkTheirTurn {
  their_fixed : RefereeFixedContext;
  their_finished : bool;
  message_handler : option MessageHandler;
  their_state : TheirTurnRefereeGameState;
  their_state_number : N;
}.

Inductive Referee : Type :=
| MyTurn (r : MyTurnReferee)
| TheirTurn (r : TheirTurnReferee).

(** [potato.rs] *)
Record CachedSendMove := mkCachedSendMove {
  csm_state_number : N;
  csm_game_id : GameID;
  csm_puzzle_hash : PuzzleHash;
  match_puzzle_hash : PuzzleHash;
  csm_amount : Amount;
  saved_post_move_referee : option Referee;
  saved_post_move_last_ph : option PuzzleHash;
}.

Inductive TheirTurnCoinSpentResult : Type :=
| Timedout (my_reward_coin_string : option CoinString)
| Expected (state_number : N) (ph : PuzzleHash) (amount : Amount) (redo : option CachedSendMove)
| Moved (new_coin_string : CoinString) (state_number : N) (readable : ReadableMove)
    (mover_share : Amount)
| Slash (outcome : SlashOutcome).

(** ** Construction *)
Record RefereeInitialSetup := mkSetup {
  setup_fixed : RefereeFixedContext;
  ref_puzzle_args : RefereePuzzleArgs;
  setup_puzzle_hash : PuzzleHash;
}.

Definition referee_initial_setup (coin_puzzle : Puzzle) (coin_puzzle_hash : PuzzleHash)
    (game_start_info : GameStartInfo) (identity : ChiaIdentity) (their_pubkey : PublicKey)
    (their_reward_ph : PuzzleHash) (their_payout_signature : Aggsig) (reward_ph : PuzzleHash)
    (nonce : N) (additional_data : Hash) : result Error RefereeInitialSetup :=
  let initial := mkMoveStateInfo (initial_move game_start_info)
    (initial_mover_share game_start_info) (initial_max_move_size game_start_info)
    (canonical_atom_from_usize (initial_max_move_size game_start_info)) in
  let my_turn := handler_is_my_turn (game_handler game_start_info) in
  my_payout_signature ← sign_reward_payout (private_key identity) reward_ph;
  let fixed := mkFixed coin_puzzle coin_puzzle_hash identity reward_ph their_reward_ph their_pubkey
    their_payout_signature my_payout_signature additional_data (gsi_timeout game_start_info)
    (gsi_amount game_start_info) nonce in
  let ip := initial_validation_program game_start_info in
  vi ← ValidationInfo_new_state_update ip (initial_state game_start_info);
  let args := RefereePuzzleArgs_new fixed
    (mkMoveDetails initial (VihHash (ValidationInfo_hash vi))
       (Some (state_update_program_hash ip))) VihInitial ip my_turn in
  _ ← (if my_turn then
         check (bool_decide (public_key (my_identity fixed) = mover_pubkey args))
           (StrErr "referee_initial_setup: my_turn but mover_pubkey != my pubkey")
       else
         check (bool_decide (their_referee_pubkey fixed = mover_pubkey args))
           (StrErr "referee_initial_setup: their_turn but mover_pubkey != their pubkey"));
  mret (mkSetup fixed args (curry_referee_puzzle_hash coin_puzzle_hash args)).

Definition MyTurnReferee_new (setup : RefereeInitialSetup) (game_start_info : GameStartInfo)
    (state_number : N) : MyTurnReferee * PuzzleHash :=
  (mkMyTurn (setup_fixed setup) false None
     (MyInitial (initial_state game_start_info) (ref_puzzle_args setup)
        (game_handler game_start_info)) state_number,
   setup_puzzle_hash setup).

Definition TheirTurnReferee_new (setup : RefereeInitialSetup) (game_start_info : GameStartInfo)
    (state_number : N) : TheirTurnReferee * PuzzleHash :=
  (mkTheirTurn (setup_fixed setup) false None
     (mkTheirState (Some (game_handler game_start_info))
        (initial_validation_program game_start_info) (initial_state game_start_info)
        (initial_validation_program game_start_info) (initial_state game_start_info)
        (ref_puzzle_args setup) (ref_puzzle_args setup) None) state_number,
   setup_puzzle_hash setup).

Definition Referee_new (coin_puzzle : Puzzle) (coin_puzzle_hash : PuzzleHash)
    (game_start_info : GameStartInfo) (identity : ChiaIdentity) (their_pubkey : PublicKey)
    (their_reward_ph : PuzzleHash) (their_payout_signature : Aggsig) (reward_ph : PuzzleHash)
    (nonce : N) (additional_data : Hash) (state_number : N) : result Error (Referee * PuzzleHash) :=
  setup ← referee_initial_setup coin_puzzle coin_puzzle_hash game_start_info identity their_pubkey
    their_reward_ph their_payout_signature reward_ph nonce additional_data;
  if handler_is_my_turn (game_handler game_start_info) then
    let '(r, ph) := MyTurnReferee_new setup game_start_info state_number in Ok (MyTurn r, ph)
  else
    let '(r, ph) := TheirTurnReferee_new setup game_start_info state_number in Ok (TheirTurn r, ph).

(** ** Observations *)
Definition my_args_for_this_coin (s : MyTurnRefereeGameState) : RefereePuzzleArgs :=
  match s with
  | MyInitial _ initial_puzzle_args _ => initial_puzzle_args
  | AfterTheirTurn _ _ create_this_coin _ _ => create_this_coin
  end.
Definition my_spend_this_coin (s : MyTurnRefereeGameState) : RefereePuzzleArgs :=
  match s with
  | MyInitial _ initial_puzzle_args _ => initial_puzzle_args
  | AfterTheirTurn _ _ _ spend_this_coin _ => spend_this_coin
  end.
Definition my_game_handler (s : MyTurnRefereeGameState) : option GameHandler :=
  match s with MyInitial _ _ h => Some h | AfterTheirTurn h _ _ _ _ => h end.
Definition my_move_info (s : MyTurnRefereeGameState) : option OnChainRefereeMoveData :=
  match s with MyInitial _ _ _ => None | AfterTheirTurn _ _ _ _ m => m end.
(** The state a move of ours is applied to. *)
Definition state_to_update (s : MyTurnRefereeGameState) : Program :=
  match s with MyInitial p _ _ => p | AfterTheirTurn _ p _ _ _ => p end.

Definition fixed (r : Referee) : RefereeFixedContext :=
  match r with MyTurn t => my_fixed t | TheirTurn t => their_fixed t end.
Definition args_for_this_coin (r : Referee) : RefereePuzzleArgs :=
  match r with
  | MyTurn t => my_args_for_this_coin (my_state t)
  | TheirTurn t => their_create_this_coin (their_state t)
  end.
Definition spend_this_coin (r : Referee) : RefereePuzzleArgs :=
  match r with
  | MyTurn t => my_spend_this_coin (my_state t)
  | TheirTurn t => their_spend_this_coin (their_state t)
  end.
Definition get_move_info (r : Referee) : option OnChainRefereeMoveData :=
  match r with
  | MyTurn t => my_move_info (my_state t)
  | TheirTurn t => their_move_spend (their_state t)
  end.
Definition get_last_move_spend (r : Referee) : result Error OnChainRefereeMoveData :=
  ok_or (StrErr "we need to be after a my turn to get a move transaction") (get_move_info r).

Definition is_my_turn (r : Referee) : bool :=
  match r with MyTurn _ => true | TheirTurn _ => false end.
Definition processing_my_turn (r : Referee) : bool :=
  match r with TheirTurn _ => true | MyTurn _ => false end.
Definition is_game_over (r : Referee) : bool :=
  match r with
  | MyTurn t => bool_decide (my_game_handler (my_state t) = None)
  | TheirTurn t => bool_decide (their_game_handler (their_state t) = None)
  end.
Definition referee_state_number (r : Referee) : N :=
  match r with MyTurn t => my_state_number t | TheirTurn t => their_state_number t end.
Definition get_max_move_size (r : Referee) : N :=
  max_move_size (basic (game_move (spend_this_coin r))).
Definition get_amount (r : Referee) : Amount := fixed_amount (fixed r).
Definition get_game_timeout (r : Referee) : Timeout := fixed_timeout (fixed r).

Definition get_our_current_share (r : Referee) : result Error Amount :=
  let args := spend_this_coin r in
  if is_my_turn r then Ok (mover_share (basic (game_move args)))
  else Amount_checked_sub (fixed_amount (fixed r)) (mover_share (basic (game_move args))).
Definition get_their_current_share (r : Referee) : result Error Amount :=
  ours ← get_our_current_share r; Amount_checked_sub (fixed_amount (fixed r)) ours.

Definition on_chain_referee_puzzle (r : Referee) : result Error Puzzle :=
  curry_referee_puzzle (referee_coin_puzzle (fixed r)) (args_for_this_coin r).
Definition outcome_referee_puzzle (r : Referee) : result Error Puzzle :=
  curry_referee_puzzle (referee_coin_puzzle (fixed r)) (spend_this_coin r).
Definition on_chain_referee_puzzle_hash (r : Referee) : PuzzleHash :=
  curry_referee_puzzle_hash (fixed_referee_coin_puzzle_hash (fixed r)) (args_for_this_coin r).
Definition outcome_referee_puzzle_hash (r : Referee) : PuzzleHash :=
  curry_referee_puzzle_hash (fixed_referee_coin_puzzle_hash (fixed r)) (spend_this_coin r).

Definition MyTurnReferee_enable_cheating (t : MyTurnReferee) (make_move : bytes)
    (mover_share : Amount) : MyTurnReferee :=
  mkMyTurn (my_fixed t) (my_finished t) (Some (make_move, mover_share)) (my_state t)
    (my_state_number t).
Definition enable_cheating (r : Referee) (make_move : bytes) (mover_share : Amount)
    : option Referee :=
  match r with
  | MyTurn t => Some (MyTurn (MyTurnReferee_enable_cheating t make_move mover_share))
  | TheirTurn _ => None
  end.

(** ** Our move *)

(** The validator sees the arguments from the side of whoever moves next. *)
Definition run_state_update (referee_args : RefereePuzzleArgs) (state : Program)
    (evidence : Evidence) : result Error StateUpdateResult :=
  InternalStateUpdateArgs_run
    (mkInternalArgs (validation_program referee_args) (swap referee_args)
       (mkStateUpdateMoveArgs state (evidence_program evidence))).

Definition cheating (t : MyTurnReferee) : bool := negb (bool_decide (my_enable_cheating t = None)).

Definition run_validator_for_my_move (t : MyTurnReferee) (referee_args : RefereePuzzleArgs)
    (state : Program) (evidence : Evidence) : result Error Program :=
  match run_state_update referee_args state evidence with
  | Err e => if cheating t then Ok state else Err e
  | Ok None =>
      if cheating t then Ok state else Err (StrErr "pre-send validation rejected our move")
  | Ok (Some new_state) => Ok new_state
  end.

Definition cheat_name : bytes := [x63; x68; x65; x61; x74].
Definition cheat_result (fake_move : bytes) (cheat_share : Amount) (args : RefereePuzzleArgs)
    (handler : GameHandler) : result Error MyTurnResult :=
  let program := validation_program args in
  h ← StateUpdateProgram_sha256tree program;
  mret (mkMyTurnResult cheat_name fake_move program (ph_hash h) program (ph_hash h)
          (max_move_size (basic (game_move args))) cheat_share (Some handler) None).

(** The arguments of the coin after our move, and after theirs. *)
Definition outgoing_args (f : RefereeFixedContext) (args : RefereePuzzleArgs)
    (details : GameMoveDetails) (program : StateUpdateProgram) : RefereePuzzleArgs :=
  args <| mover_pubkey := their_referee_pubkey f |>
       <| waiter_pubkey := public_key (my_identity f) |>
       <| game_move := details |>
       <| validation_program := program |>
       <| previous_validation_info_hash := validation_info_hash (game_move args) |>.
Definition incoming_args (f : RefereeFixedContext) (args : RefereePuzzleArgs)
    (details : GameMoveDetails) (program : StateUpdateProgram) : RefereePuzzleArgs :=
  args <| mover_pubkey := public_key (my_identity f) |>
       <| waiter_pubkey := their_referee_pubkey f |>
       <| game_move := details |>
       <| validation_program := program |>
       <| previous_validation_info_hash := validation_info_hash (game_move args) |>.

Definition accept_this_move (t : MyTurnReferee) (handler : option GameHandler)
    (new_state current : Program) (current_puzzle_args new_puzzle_args : RefereePuzzleArgs)
    (my_turn_result : MyTurnResult) (message_handler : option MessageHandler) (state_number : N)
    : TheirTurnReferee :=
  let outgoing := outgoing_move_state_update_program my_turn_result in
  let move_spend := mkMoveData current outgoing (game_move new_puzzle_args) current_puzzle_args
    new_puzzle_args in
  mkTheirTurn (my_fixed t) (my_finished t) message_handler
    (mkTheirState handler outgoing current
       (incoming_move_state_update_program my_turn_result) new_state current_puzzle_args
       new_puzzle_args (Some move_spend)) state_number.

(** What the game handler, or the cheater, wants to play. *)
Definition my_turn_result (t : MyTurnReferee) (handler : GameHandler)
    (readable_move : ReadableMove) (new_entropy : Hash) : result Error MyTurnResult :=
  let args := my_spend_this_coin (my_state t) in
  match my_enable_cheating t with
  | Some (fake_move, cheat_share) => cheat_result fake_move cheat_share args handler
  | None =>
      call_my_turn_handler handler
        (mkMyTurnInputs readable_move new_entropy (fixed_amount (my_fixed t))
           (mover_share (basic (game_move args))) (state_to_update (my_state t)))
  end.

(** How the move is described to the peer. *)
Definition outgoing_details (res : MyTurnResult) (state : Program)
    : result Error GameMoveDetails :=
  v ← ValidationInfo_new_state_update (outgoing_move_state_update_program res) state;
  program_hash ← (match waiting_handler res with
                  | Some _ =>
                      h ← StateUpdateProgram_sha256tree (outgoing_move_state_update_program res);
                      Ok (Some (ph_hash h))
                  | None => Ok None
                  end);
  let vih := match waiting_handler res with
             | Some _ => VihHash (ValidationInfo_hash v) | None => VihNone end in
  mret (mkMoveDetails
          (mkMoveStateInfo (move_bytes res) (mtr_mover_share res) (mtr_max_move_size res)
             (canonical_atom_from_usize (mtr_max_move_size res)))
          vih program_hash).

(** The state the peer will move from. *)
Definition state_following_my_move (t : MyTurnReferee) (res : MyTurnResult)
    (offchain_puzzle_args : RefereePuzzleArgs) (state : Program) : result Error Program :=
  nil ← Evidence_nil;
  match waiting_handler res with
  | Some _ => run_validator_for_my_move t offchain_puzzle_args state nil
  | None =>
      match run_state_update offchain_puzzle_args state nil with
      | Ok None =>
          if cheating t then Ok state
          else Err (StrErr "pre-send terminal validation rejected our move")
      | _ => Ok state
      end
  end.

Definition MyTurnReferee_my_turn_make_move (t : MyTurnReferee) (readable_move : ReadableMove)
    (new_entropy : Hash) (state_number : N) : result Error (Referee * GameMoveWireData) :=
  handler ← ok_or (StrErr "my_turn_make_move: move attempted after a terminal move (nil validation program); the game is already over")
    (my_game_handler (my_state t));
  let args := my_spend_this_coin (my_state t) in
  let state := state_to_update (my_state t) in
  result ← my_turn_result t handler readable_move new_entropy;
  _ ← check (cheating t || (N.of_nat (length (move_bytes result))
                            <=? max_move_size (basic (game_move args)))%N)
        (StrErr "local move exceeds max_move_size");
  details ← outgoing_details result state;
  let new_args :=
    outgoing_args (my_fixed t) args details (outgoing_move_state_update_program result) in
  new_state ← state_following_my_move t result new_args state;
  let new_self := accept_this_move t (waiting_handler result) new_state state args new_args
    result (message_parser result) state_number in
  let new_curried_referee_puzzle_hash :=
    curry_referee_puzzle_hash (fixed_referee_coin_puzzle_hash (my_fixed t)) args in
  mret (TheirTurn new_self, mkWireData new_curried_referee_puzzle_hash details).

Definition my_turn_make_move (r : Referee) (readable_move : ReadableMove) (new_entropy : Hash)
    (state_number : N) : result Error (Referee * GameMoveWireData) :=
  match r with
  | MyTurn t => MyTurnReferee_my_turn_make_move t readable_move new_entropy state_number
  | TheirTurn _ => Err (Channel "my_turn_make_move called on TheirTurn referee")
  end.

(** ** Their move *)
Definition get_validation_program_for_their_move (t : TheirTurnReferee)
    : Program * StateUpdateProgram :=
  (current_state (their_state t), their_turn_validation_program (their_state t)).
Definition slash_infohash_inputs (t : TheirTurnReferee) : option (StateUpdateProgram * Program) :=
  Some (slash_validation_program (their_state t), slash_state (their_state t)).

Definition accept_their_move (t : TheirTurnReferee) (handler : option GameHandler)
    (new_state : Program) (old_args referee_args : RefereePuzzleArgs) (state_number : N)
    : MyTurnReferee :=
  mkMyTurn (their_fixed t) (their_finished t) None
    (AfterTheirTurn handler new_state old_args referee_args (their_move_spend (their_state t)))
    state_number.

Definition TheirTurnReferee_receive_readable (t : TheirTurnReferee) (message : bytes)
    : result Error ReadableMove :=
  match message_handler t with
  | Some handler =>
      MessageHandler_run handler
        (mkMessageInputs message (current_state (their_state t)) (fixed_amount (their_fixed t)))
  | None => Err (StrErr "no message handler but have a message")
  end.
Definition receive_readable (r : Referee) (message : bytes) : result Error ReadableMove :=
  match r with
  | MyTurn _ => Err (Channel "receive_readable called on MyTurn referee")
  | TheirTurn t => TheirTurnReferee_receive_readable t message
  end.

Definition finish_their_turn (t : TheirTurnReferee) (puzzle_args : RefereePuzzleArgs)
    (res : TheirTurnResult) : TheirTurnMoveResult :=
  mkTheirTurnMoveResult
    (Some (curry_referee_puzzle_hash (fixed_referee_coin_puzzle_hash (their_fixed t)) puzzle_args))
    (ttr_readable_move res) (ttr_mover_share res) (ttr_message res) None.

(** [Some state] when their move is acceptable so far, [None] when the
    validator lets it be slashed without evidence. *)
Definition state_following_their_move (details : GameMoveDetails) (args : RefereePuzzleArgs)
    (state : Program) : result Error (option Program) :=
  nil ← Evidence_nil;
  if bool_decide (validation_info_hash details = VihNone) then
    match run_state_update args state nil with
    | Ok None => Ok None
    | _ => Ok (Some nil_program)
    end
  else run_state_update args state nil.

(** The first piece of evidence with which the validator slashes the move. *)
Definition find_slash (args : RefereePuzzleArgs) (state : Program) (evidence : list Evidence)
    : option Evidence :=
  find_first (fun e => match run_state_update args state e with Ok None => true | _ => false end)
    evidence.

Definition TheirTurnReferee_their_turn_move_off_chain (t : TheirTurnReferee)
    (details : GameMoveDetails) (state_number : N)
    : result Error (option MyTurnReferee * TheirTurnMoveResult) :=
  handler ← ok_or (StrErr "received their move after our final move")
    (their_game_handler (their_state t));
  nil ← Evidence_nil;
  let puzzle_args := their_spend_this_coin (their_state t) in
  let '(state, program) := get_validation_program_for_their_move t in
  pre_state_nodeptr ← Program_to_nodeptr state;
  let new_args := incoming_args (their_fixed t) puzzle_args details program in
  next ← state_following_their_move details new_args state;
  match next with
  | None =>
      Ok (None, mkTheirTurnMoveResult None nil_program (mover_share (basic details)) [] (Some nil))
  | Some new_state =>
      state_nodeptr ← Program_to_nodeptr new_state;
      program_hash ← StateUpdateProgram_sha256tree program;
      result ← call_their_turn_handler handler
        (mkTheirTurnInputs (fixed_amount (their_fixed t)) pre_state_nodeptr state_nodeptr
           (move_made (basic details)) (mover_share (basic details))
           (details <| validation_program_hash := Some (ph_hash program_hash) |>));
      let new_self := accept_their_move t (next_handler result) new_state puzzle_args new_args
        state_number in
      match find_slash new_args state (slash_evidence result) with
      | Some evidence =>
          Ok (None, mkTheirTurnMoveResult None (ttr_readable_move result)
                      (ttr_mover_share result) (ttr_message result) (Some evidence))
      | None => Ok (Some new_self, finish_their_turn t puzzle_args result)
      end
  end.

Definition their_turn_move_off_chain (r : Referee) (details : GameMoveDetails) (state_number : N)
    : result Error (option Referee * TheirTurnMoveResult) :=
  match r with
  | MyTurn _ => Err (Channel "their_turn_move_off_chain called on MyTurn referee")
  | TheirTurn t =>
      prod_map (option_map MyTurn) id
        <$> TheirTurnReferee_their_turn_move_off_chain t details state_number
  end.

(** ** Spends of the game coin *)
Definition get_transaction (r : Referee) (always_produce_transaction : bool) (puzzle : Puzzle)
    (args : OnChainRefereeSolution) (my_mover_share : Amount) : result Error (option Spend) :=
  let as_move := match args with SolMove _ => true | _ => false end in
  if negb as_move && negb always_produce_transaction && (my_mover_share =? 0)%N then Ok None
  else
    let signature := default sig_default (get_signature args) in
    transaction_solution ← OnChainRefereeSolution_to_nodeptr args;
    solution ← Program_from_nodeptr transaction_solution;
    mret (Some (mkSpend puzzle solution signature)).

(** The coin is the one our latest move created, not the one we spent. *)
Definition is_outcome_coin (r : Referee) (coin_ph : option PuzzleHash) : bool :=
  bool_decide (coin_ph = Some (outcome_referee_puzzle_hash r))
  && negb (bool_decide (coin_ph = Some (on_chain_referee_puzzle_hash r))).

Definition i_am_mover (r : Referee) (args : RefereePuzzleArgs) : bool :=
  bool_decide (mover_pubkey args = public_key (my_identity (fixed r))).

Definition timeout_solution (f : RefereeFixedContext) (mine : bool)
    (mover_share waiter_share : Amount) : OnChainRefereeSolution :=
  let '(mover_ph, waiter_ph) :=
    if mine then (reward_puzzle_hash f, their_reward_puzzle_hash f)
    else (their_reward_puzzle_hash f, reward_puzzle_hash f) in
  let '(my_share, their_share) :=
    if mine then (mover_share, waiter_share) else (waiter_share, mover_share) in
  let mover_payout_ph := if (0 <? mover_share)%N then Some mover_ph else None in
  let waiter_payout_ph := if (0 <? waiter_share)%N then Some waiter_ph else None in
  let sig0 := sig_default in
  let sig1 := if (0 <? my_share)%N then sig_add sig0 (my_reward_payout_signature f) else sig0 in
  let sig2 :=
    if (0 <? their_share)%N then sig_add sig1 (their_reward_payout_signature f) else sig1 in
  SolTimeout mover_payout_ph waiter_payout_ph sig2.

Definition get_transaction_for_timeout (r : Referee) (coin_string : CoinString)
    : result Error (option Spend) :=
  let coin_ph := (fun p => p.1.2) <$> to_parts coin_string in
  let outcome := is_outcome_coin r coin_ph in
  puzzle ← (if outcome then outcome_referee_puzzle r else on_chain_referee_puzzle r);
  let timeout_claim_amount := fixed_amount (fixed r) in
  let args := if outcome then spend_this_coin r else args_for_this_coin r in
  let mover_share := mover_share (basic (game_move args)) in
  waiter_share ← Amount_checked_sub (fixed_amount (fixed r)) mover_share;
  get_transaction r false puzzle
    (timeout_solution (fixed r) (i_am_mover r args) mover_share waiter_share) timeout_claim_amount.

Definition get_transaction_for_move (r : Referee) (coin_string : CoinString)
    : result Error Spend :=
  my_turn_spend ← get_last_move_spend r;
  spend_puzzle ← curry_referee_puzzle (referee_coin_puzzle (fixed r)) (before_args my_turn_spend);
  refmove ← to_move my_turn_spend (fixed r) coin_string;
  share ← get_our_current_share r;
  transaction ← get_transaction r true spend_puzzle (SolMove refmove) share;
  ok_or (StrErr "no transaction returned when doing on chain move") transaction.

(** ** Watching the game coin *)

(** The details of a move, as the solution of the coin spend tells them. *)
Definition details_from_solution (f : RefereeFixedContext)
    (new_move vih_raw ms_raw mms_raw : bytes) : result Error GameMoveDetails :=
  vih ← (if bool_decide (vih_raw = []) then Ok VihNone
         else if bool_decide (vih_raw = [x78]) then Ok VihInitial
         else VihHash <$> Hash_from_slice vih_raw);
  share ← ok_or (StrErr "mover share wasn't a properly sized atom") (u64_from_atom ms_raw);
  _ ← check (share <=? fixed_amount f)%N (StrErr "on-chain mover_share exceeds game amount");
  mms ← ok_or (StrErr "max move size wasn't a properly sized atom") (u64_from_atom mms_raw);
  mret (mkMoveDetails (mkMoveStateInfo new_move share (as_usize mms) mms_raw) vih None).

Definition first_create_coin (conditions : list CoinCondition) : option (PuzzleHash * Amount) :=
  head (omap is_create_coin conditions).

Definition make_slash_for_their_turn (t : TheirTurnReferee) (validation_program : StateUpdateProgram)
    (state : Program) (coin_string : CoinString) (puzzle : Puzzle) (evidence : Evidence)
    (cheating_move_mover_share : Amount) : result Error TheirTurnCoinSpentResult :=
  let f := their_fixed t in
  let signature := my_reward_payout_signature f in
  slashing_coin_solution ← OnChainRefereeSolution_to_nodeptr
    (SolSlash (mkOnChainSlash validation_program state evidence (reward_puzzle_hash f) signature));
  let coin_string_of_output_coin :=
    CoinString_from_parts (to_coin_id coin_string) (reward_puzzle_hash f) (fixed_amount f) in
  solution ← Program_from_nodeptr slashing_coin_solution;
  mret (Slash (Reward (mkCoinSpend coin_string (mkSpend puzzle solution signature))
                 coin_string_of_output_coin cheating_move_mover_share)).

(** The slash of a move that [their_turn_move_off_chain] refused. *)
Definition slash_their_move (t : TheirTurnReferee) (referee_coin_string : CoinString)
    (conditions : list CoinCondition) (details : GameMoveDetails) (evidence : Evidence)
    : result Error TheirTurnCoinSpentResult :=
  let f := their_fixed t in
  '(slash_program, slash_state) ←
    ok_or (StrErr "slash: no previous validation info hash inputs available")
      (slash_infohash_inputs t);
  _ ← check (negb (bool_decide (to_parts referee_coin_string = None)))
        (StrErr "slash: could not extract puzzle hash from referee coin string");
  to_spend_ph ← ok_or (StrErr "slash: no CREATE_COIN condition found in referee spend")
    (fst <$> first_create_coin conditions);
  let coin_string_to_spend :=
    CoinString_from_parts (to_coin_id referee_coin_string) to_spend_ph (fixed_amount f) in
  let after_args := their_spend_this_coin (their_state t) in
  let args := mkArgs (public_key (my_identity f)) (their_referee_pubkey f) (fixed_timeout f)
    (fixed_amount f) (fixed_nonce f) details slash_program
    (validation_info_hash (game_move after_args)) (fixed_referee_coin_puzzle_hash f) in
  puzzle ← curry_referee_puzzle (referee_coin_puzzle f) args;
  let new_puzzle_hash := curry_referee_puzzle_hash (fixed_referee_coin_puzzle_hash f) args in
  _ ← check (bool_decide (new_puzzle_hash = to_spend_ph))
        (StrErr "their_turn_coin_spent: curried puzzle hash mismatch");
  make_slash_for_their_turn t slash_program slash_state coin_string_to_spend puzzle evidence
    (mover_share (basic details)).

(** The coin on chain is now the one their move created. *)
Definition adjust_self (t : MyTurnReferee) : MyTurnReferee :=
  match my_state t with
  | AfterTheirTurn handler state _ spend_this_coin move_spend =>
      mkMyTurn (my_fixed t) (my_finished t) (my_enable_cheating t)
        (AfterTheirTurn handler state (my_spend_this_coin (my_state t)) spend_this_coin move_spend)
        (my_state_number t)
  | MyInitial _ _ _ => t
  end.

Definition TheirTurnReferee_their_turn_coin_spent (t : TheirTurnReferee)
    (referee_coin_string : CoinString) (conditions : list CoinCondition) (state_number : N)
    (parsed_solution : ParsedRefereeSolution)
    : result Error (option Referee * TheirTurnCoinSpentResult) :=
  match parsed_solution with
  | ParsedMove new_move vih_raw ms_raw mms_raw =>
      details ← details_from_solution (their_fixed t) new_move vih_raw ms_raw mms_raw;
      moved ← TheirTurnReferee_their_turn_move_off_chain t details state_number;
      let '(new_self, result) := moved in
      match slash result with
      | Some evidence =>
          slash ← slash_their_move t referee_coin_string conditions details evidence;
          Ok (None, slash)
      | None =>
          new_self ← ok_or (StrErr "we didn't slash but also didn't return a new state") new_self;
          let args := my_spend_this_coin (my_state new_self) in
          let new_puzzle_hash :=
            curry_referee_puzzle_hash (fixed_referee_coin_puzzle_hash (their_fixed t)) args in
          Ok (Some (MyTurn (adjust_self new_self)),
              Moved (CoinString_from_parts (to_coin_id referee_coin_string) new_puzzle_hash
                       (fixed_amount (their_fixed t))) state_number
                (mkReadableMove (ttm_readable_move result))
                (mover_share (basic (game_move args))))
      end
  | _ => Err (StrErr "their_turn_coin_spent called with non-Move solution")
  end.

(** Their spend led to the coin we expected. *)
Definition expected_spend (r : Referee) (referee_coin_string : CoinString)
    (conditions : list CoinCondition) : option (PuzzleHash * Amount) :=
  match to_parts referee_coin_string, first_create_coin conditions with
  | Some (_, on_chain_ph, _), Some (ph, amt) =>
      if bool_decide (on_chain_ph = on_chain_referee_puzzle_hash r)
         && bool_decide (ph = outcome_referee_puzzle_hash r)
      then Some (ph, amt) else None
  | _, _ => None
  end.

Definition their_turn_coin_spent (r : Referee) (referee_coin_string : CoinString)
    (conditions : list CoinCondition) (state_number : N) (parsed_solution : ParsedRefereeSolution)
    : result Error (option Referee * TheirTurnCoinSpentResult) :=
  match expected_spend r referee_coin_string conditions with
  | Some (ph, amt) => Ok (Some r, Expected (referee_state_number r) ph amt None)
  | None =>
      match parsed_solution with
      | ParsedTimeout | ParsedSlash =>
          mover_share ← get_our_current_share r;
          let my_reward_coin_string :=
            if (0 <? mover_share)%N then
              Some (CoinString_from_parts (to_coin_id referee_coin_string)
                      (reward_puzzle_hash (fixed r)) mover_share)
            else None in
          Ok (Some r, Timedout my_reward_coin_string)
      | ParsedMove _ _ _ _ =>
          match r with
          | MyTurn _ => Err (Channel "their_turn_coin_spent called on MyTurn referee")
          | TheirTurn t =>
              TheirTurnReferee_their_turn_coin_spent t referee_coin_string conditions state_number
                parsed_solution
          end
      end
  end.
End referee.
