(* ===== verification/ToyGame.v ===== *)
(** * A concrete game

    Two players and a game of two moves, for the witnesses of the referee and
    of the channel: its handlers and validators are constant programs. *)
From S2P Require Import Prelude Extern World Coins Clvm StandardCoin GameHandler RefereeTypes.
From S2P Require Import Referee.

Module ToyGame.
Import Toy.

(** A game of two validators; Alice's opening leaves Bob a share of 30, his
    reply leaves her 60 of the 100 at stake. *)
Definition const (x : sexp) : sexp := Pair (Atom [x01]) x.
Definition prog (x : sexp) : Program := mkProgram (toy_encode x).
Definition validator (next : N) : sexp := const (list_node [num_node 7; num_node next]).
Definition my_handler (move : byte) (share : N) (out inc next : sexp) : sexp :=
  const (list_node [Atom [x61]; Atom [move]; out; hash_node (tree_hash out); inc;
                    hash_node (tree_hash inc); num_node 16; num_node share; next]).
Definition their_handler (next : sexp) : sexp := const (list_node [num_node 9; nil_node; next]).

Definition bob_to_move : sexp :=
  my_handler x22 60 (validator 2) (validator 3) (their_handler nil_node).
Definition bob_waits : sexp := their_handler bob_to_move.
Definition alice_waits : sexp := their_handler (my_handler x33 10 (validator 3) nil_node nil_node).
Definition alice_to_move : sexp := my_handler x11 30 (validator 1) (validator 2) alice_waits.

Definition game : FactoryGame :=
  mkFactoryGame 50 50 100 true (tree_hash (validator 1)) [] 32 nil_program 0 (prog alice_to_move)
    (prog bob_waits) (prog (validator 1)).
Definition coin_node : sexp := const nil_node.
Definition coin_puzzle : Puzzle := mkPuzzle (prog coin_node).
Definition coin_puzzle_hash : PuzzleHash := node_sha256tree coin_node.
Definition sk_alice : PrivateKey := x05.
Definition sk_bob : PrivateKey := x07.
Definition identity (sk : PrivateKey) : ChiaIdentity :=
  mkChiaIdentity sk (sk_public sk) (sk_public sk) sk coin_puzzle coin_puzzle_hash.
Definition ph (b : byte) : PuzzleHash := mkPuzzleHash (toy_digest [b]).
Definition payout (sk : PrivateKey) (to : PuzzleHash) : Aggsig :=
  sk_sign sk (reward_payout_message to).
Definition readable : ReadableMove := mkReadableMove nil_program.

End ToyGame.
