(* ===== verification/RefereeProperties.v ===== *)
(** * What the referee promises

    The two referees of a game stay mirror images of each other, honest moves
    are accepted, slashes are earned, and the spends made on chain pay what the
    off-chain state says. *)
From S2P Require Import Prelude Extern World Coins Clvm StandardCoin GameHandler RefereeTypes.
From S2P Require Import Referee ToyGame.
From stdpp Require Import relations.

Section inversion.
Context {arch : Arch} {sha2 : Sha2} {bigint : BigInt} {clvm : Clvm} {bls : Bls}.

Record made_move (t : MyTurnReferee) (readable : ReadableMove) (entropy : Hash) (n : N)
    (res : MyTurnResult) (details : GameMoveDetails) (next : Program) : Prop := {
  made_handler : exists handler, my_game_handler (my_state t) = Some handler
    /\ my_turn_result t handler readable entropy = Ok res;
  made_size : cheating t = false ->
    (N.of_nat (length (move_bytes res)) <= get_max_move_size (MyTurn t))%N;
  made_details : outgoing_details res (state_to_update (my_state t)) = Ok details;
  made_state : state_following_my_move t res
    (outgoing_args (my_fixed t) (my_spend_this_coin (my_state t)) details
       (outgoing_move_state_update_program res)) (state_to_update (my_state t)) = Ok next;
}.

Definition after_move (t : MyTurnReferee) (res : MyTurnResult) (details : GameMoveDetails)
    (next : Program) (n : N) : TheirTurnReferee :=
  let args := my_spend_this_coin (my_state t) in
  accept_this_move t (waiting_handler res) next (state_to_update (my_state t)) args
    (outgoing_args (my_fixed t) args details (outgoing_move_state_update_program res)) res
    (message_parser res) n.

Lemma my_turn_make_move_Ok r readable entropy n r' w :
  my_turn_make_move r readable entropy n = Ok (r', w) ->
  exists t res next, r = MyTurn t /\ made_move t readable entropy n res (wire_details w) next
    /\ r' = TheirTurn (after_move t res (wire_details w) next n)
    /\ wire_puzzle_hash_for_unroll w = outcome_referee_puzzle_hash r.
Proof.
  destruct r as [t|t]; [|done]. cbn. unfold MyTurnReferee_my_turn_make_move.
  intros (handler & Hh & H)%bind_Ok. apply bind_Ok in H as (res & Hres & H).
  apply bind_Ok in H as (? & Hsize & H). apply bind_Ok in H as (details & Hdet & H).
  apply bind_Ok in H as (next & Hnext & H). injection H as <- <-.
  exists t, res, next. split; [done|]. split; [|done]. apply ok_or_Ok in Hh. split; cbn; try done.
  - by exists handler.
  - intros Hc. apply check_Ok in Hsize. rewrite Hc in Hsize. by apply N.leb_le.
Qed.

(** The move a handler makes is described faithfully. *)
Lemma outgoing_details_Ok res state details :
  outgoing_details res state = Ok details ->
  basic details = mkMoveStateInfo (move_bytes res) (mtr_mover_share res) (mtr_max_move_size res)
                    (canonical_atom_from_usize (mtr_max_move_size res))
  /\ exists v, ValidationInfo_new_state_update (outgoing_move_state_update_program res) state = Ok v
     /\ validation_info_hash details
        = match waiting_handler res with Some _ => VihHash (ValidationInfo_hash v) | None => VihNone end.
Proof.
  unfold outgoing_details. intros (v & Hv & H)%bind_Ok.
  apply bind_Ok in H as (? & _ & H). injection H as <-. eauto.
Qed.

Record took_move (t : TheirTurnReferee) (details : GameMoveDetails) (n : N) (next : Program)
    (res : TheirTurnResult) : Prop := {
  took_state : state_following_their_move details
    (incoming_args (their_fixed t) (their_spend_this_coin (their_state t)) details
       (their_turn_validation_program (their_state t))) (current_state (their_state t))
    = Ok (Some next);
  took_share : ttr_mover_share res = mover_share (basic details);
}.

Definition after_their_move (t : TheirTurnReferee) (details : GameMoveDetails) (next : Program)
    (res : TheirTurnResult) (n : N) : MyTurnReferee :=
  let args := their_spend_this_coin (their_state t) in
  accept_their_move t (next_handler res) next args
    (incoming_args (their_fixed t) args details (their_turn_validation_program (their_state t))) n.

Lemma decode_their_turn_result_share inputs node res :
  decode_their_turn_result inputs node = Ok res ->
  ttr_mover_share res = mover_share (basic (new_move inputs)).
Proof.
  unfold decode_their_turn_result. destruct (proper_list node true) as [[|? [|? rest]]|]; try done.
  - intros (? & _ & H)%bind_Ok. apply bind_Ok in H as (? & _ & H).
    apply bind_Ok in H as (? & _ & H). apply bind_Ok in H as (? & _ & H). by injection H as <-.
  - by intros (? & _ & [=])%bind_Ok.
Qed.

Lemma call_their_turn_handler_share h inputs res :
  call_their_turn_handler h inputs = Ok res ->
  ttr_mover_share res = mover_share (basic (new_move inputs)).
Proof.
  unfold call_their_turn_handler. intros (node & _ & H)%bind_Ok.
  destruct (run_code _ _); [by apply decode_their_turn_result_share in H|].
  apply bind_Ok in H as (? & _ & H). by apply bind_Ok in H as (? & _ & [=]).
Qed.

(** The three ways their move ends: slashed without evidence, slashed with the
    evidence the handler found, accepted. *)
Lemma their_turn_move_Ok t details n out :
  TheirTurnReferee_their_turn_move_off_chain t details n = Ok out ->
  let program := their_turn_validation_program (their_state t) in
  let state := current_state (their_state t) in
  let args := incoming_args (their_fixed t) (their_spend_this_coin (their_state t)) details program in
  (out.1 = None /\ slash out.2 = Some (mkEvidence nil_program)
     /\ state_following_their_move details args state = Ok None)
  \/ exists next res, took_move t details n next res
     /\ ((exists e, out.1 = None /\ slash out.2 = Some e
            /\ find_slash args state (slash_evidence res) = Some e)
         \/ out = (Some (after_their_move t details next res n),
                   finish_their_turn t (their_spend_this_coin (their_state t)) res)
            /\ find_slash args state (slash_evidence res) = None).
Proof.
  unfold TheirTurnReferee_their_turn_move_off_chain. cbn zeta.
  intros (handler & _ & H)%bind_Ok. apply bind_Ok in H as (? & [= <-] & H). cbn in H.
  apply bind_Ok in H as (pre & _ & H). apply bind_Ok in H as ([next|] & Hnext & H).
  - apply bind_Ok in H as (? & _ & H). apply bind_Ok in H as (? & _ & H).
    apply bind_Ok in H as (res & Hres & H). right. exists next, res.
    apply call_their_turn_handler_share in Hres. split; [by split|].
    destruct (find_slash _ _ _) as [e|] eqn:He; injection H as <-; cbn; [left|right]; eauto.
  - left. injection H as <-. done.
Qed.

Lemma find_slash_Some args state evidence e :
  find_slash args state evidence = Some e ->
  e ∈ evidence /\ run_state_update args state e = Ok None.
Proof.
  unfold find_slash. intros [Hin He]%find_first_Some. split; [done|].
  by destruct (run_state_update args state e) as [[?|]|].
Qed.

Lemma find_slash_first args state evidence e :
  find_slash args state evidence = Some e ->
  run_state_update args state e = Ok None
  /\ exists before after, evidence = before ++ e :: after
     /\ forall e', e' ∈ before -> run_state_update args state e' <> Ok None.
Proof.
  intros H. destruct (find_slash_Some _ _ _ _ H) as [_ Hrun]. split; [done|]. revert H.
  unfold find_slash. induction evidence as [|x evidence IH]; cbn; [done|].
  destruct (run_state_update args state x) as [[v|]|] eqn:Hx; cbn.
  2: { intros [= ->]. exists [], evidence. split; [done|]. by intros ? ?%not_elem_of_nil. }
  all: intros (before & after & -> & Hb)%IH; exists (x :: before), after; (split; [done|]);
    intros e' [->|He']%elem_of_cons; [by rewrite Hx|by apply Hb].
Qed.

Lemma find_slash_None args state evidence :
  find_slash args state evidence = None ->
  forall e, e ∈ evidence -> run_state_update args state e <> Ok None.
Proof.
  unfold find_slash. intros H e He Hrun. apply find_first_None with (x := e) in H; [|done].
  by rewrite Hrun in H.
Qed.

Lemma state_following_their_move_None details args state :
  state_following_their_move details args state = Ok None <->
  run_state_update args state (mkEvidence nil_program) = Ok None.
Proof.
  unfold state_following_their_move. cbn.
  destruct (bool_decide _); [|done]. by destruct (run_state_update _ _ _) as [[?|]|].
Qed.
End inversion.

(** ** Mirror images *)
Section mirror.
Context {arch : Arch} {sha2 : Sha2} {bigint : BigInt} {clvm : Clvm} {bls : Bls}.

Record mirror_fixed (f g : RefereeFixedContext) : Prop := {
  mirror_their_key : their_referee_pubkey g = public_key (my_identity f);
  mirror_my_key : public_key (my_identity g) = their_referee_pubkey f;
  mirror_timeout : fixed_timeout g = fixed_timeout f;
  mirror_amount : fixed_amount g = fixed_amount f;
  mirror_puzzle_hash : fixed_referee_coin_puzzle_hash g = fixed_referee_coin_puzzle_hash f;
  mirror_their_reward : their_reward_puzzle_hash g = reward_puzzle_hash f;
  mirror_my_reward : reward_puzzle_hash g = their_reward_puzzle_hash f;
}.

Record mirror (r s : Referee) : Prop := {
  mirror_turn : is_my_turn s = negb (is_my_turn r);
  mirror_context : mirror_fixed (fixed r) (fixed s);
  mirror_create : same_coin_args (args_for_this_coin r) (args_for_this_coin s);
  mirror_spend : same_coin_args (spend_this_coin r) (spend_this_coin s);
}.

#[export] Instance mirror_symmetric : Symmetric mirror.
Proof.
  intros r s [Ht [] Hc Hs]. split; [by rewrite Ht, negb_involutive|by split| |]; by symmetry.
Qed.

Lemma mirror_args f g a b details p q :
  mirror_fixed f g -> same_coin_args a b ->
  same_coin_args (outgoing_args f a details p) (incoming_args g b details q).
Proof.
  intros [Htk Hmk] [program ->]. exists q. unfold outgoing_args, incoming_args, update_field. cbn.
  by rewrite Htk, Hmk.
Qed.

Lemma mirror_outcome r s :
  mirror r s -> outcome_referee_puzzle_hash s = outcome_referee_puzzle_hash r
  /\ on_chain_referee_puzzle_hash s = on_chain_referee_puzzle_hash r.
Proof.
  intros [_ Hf Hc Hs]. unfold outcome_referee_puzzle_hash, on_chain_referee_puzzle_hash.
  by rewrite (mirror_puzzle_hash _ _ Hf), Hc, Hs.
Qed.

Lemma mirror_shares r s a b :
  mirror r s -> get_our_current_share r = Ok a -> get_our_current_share s = Ok b ->
  (a + b = get_amount r)%N.
Proof.
  intros [Ht Hf _ [p Hp]]. unfold get_our_current_share, get_amount, Amount_checked_sub.
  rewrite Ht, (mirror_amount _ _ Hf), Hp. unfold update_field. cbn.
  destruct (is_my_turn r); cbn; intros Ha Hb.
  - injection Ha as <-. apply ok_or_Ok, u64_checked_sub_Some in Hb. lia.
  - injection Hb as <-. apply ok_or_Ok, u64_checked_sub_Some in Ha. lia.
Qed.

Lemma mirror_move r s r' s' readable entropy n w m out :
  mirror r s -> my_turn_make_move r readable entropy n = Ok (r', w) ->
  their_turn_move_off_chain s (wire_details w) m = Ok (Some s', out) -> mirror r' s'.
Proof.
  intros [Ht Hf _ Hs] Hmine Htheirs.
  apply my_turn_make_move_Ok in Hmine as (t & res & next & -> & _ & -> & _).
  destruct s as [u|u]; [done|]. unfold their_turn_move_off_chain in Htheirs.
  destruct (TheirTurnReferee_their_turn_move_off_chain _ _ _) as [o|] eqn:Ho; [|done].
  injection Htheirs as Hnew _. apply their_turn_move_Ok in Ho as [(Hnone & _)|(nx & tr & _ & H)].
  { by rewrite Hnone in Hnew. }
  destruct H as [(e & Hnone & _)|[-> _]]; [by rewrite Hnone in Hnew|].
  injection Hnew as <-. cbn in Hf, Hs. split; [done|done|done|]. cbn. by apply mirror_args.
Qed.

(** One move of a game: whoever is to move makes it, the other accepts it. *)
Inductive play : Referee * Referee -> Referee * Referee -> Prop :=
| play_left r s r' s' readable entropy n w m out :
    my_turn_make_move r readable entropy n = Ok (r', w) ->
    their_turn_move_off_chain s (wire_details w) m = Ok (Some s', out) -> play (r, s) (r', s')
| play_right r s r' s' readable entropy n w m out :
    my_turn_make_move s readable entropy n = Ok (s', w) ->
    their_turn_move_off_chain r (wire_details w) m = Ok (Some r', out) -> play (r, s) (r', s').

Lemma mirror_play p q : play p q -> mirror p.1 p.2 -> mirror q.1 q.2.
Proof.
  intros [r s r' s' readable entropy n w m out Hmine Htheirs
         |r s r' s' readable entropy n w m out Hmine Htheirs] Hm; cbn in *.
  - by eapply mirror_move.
  - symmetry. eapply mirror_move; [by symmetry|done|done].
Qed.

Lemma play_amount p q : play p q -> mirror p.1 p.2 -> get_amount q.1 = get_amount p.1.
Proof.
  intros [r s r' s' readable entropy n w m out Hmine Htheirs
         |r s r' s' readable entropy n w m out Hmine Htheirs] Hm; cbn in *.
  - apply my_turn_make_move_Ok in Hmine as (t & res & next & -> & _ & -> & _). done.
  - destruct r as [u|u]; [done|]. unfold their_turn_move_off_chain in Htheirs.
    destruct (TheirTurnReferee_their_turn_move_off_chain _ _ _) as [o|] eqn:Ho; [|done].
    injection Htheirs as Hnew _. apply their_turn_move_Ok in Ho as [(Hnone & _)|(nx & tr & _ & H)].
    { by rewrite Hnone in Hnew. }
    destruct H as [(e & Hnone & _)|[-> _]]; [by rewrite Hnone in Hnew|]. by injection Hnew as <-.
Qed.

Lemma mirror_plays p q :
  rtc play p q -> mirror p.1 p.2 -> mirror q.1 q.2 /\ get_amount q.1 = get_amount p.1.
Proof.
  induction 1 as [|p1 p2 p3 Hplay _ IH]; [done|]. intros Hm.
  destruct (IH (mirror_play _ _ Hplay Hm)) as [Hq Ha]. split; [done|].
  by rewrite Ha, (play_amount _ _ Hplay).
Qed.

Lemma referee_initial_setup_Ok cp cph info identity their_pk their_ph their_sig ph nonce ad setup :
  referee_initial_setup cp cph info identity their_pk their_ph their_sig ph nonce ad = Ok setup ->
  exists sig v, sign_reward_payout (private_key identity) ph = Ok sig
  /\ ValidationInfo_new_state_update (initial_validation_program info) (initial_state info) = Ok v
  /\ setup_fixed setup = mkFixed cp cph identity ph their_ph their_pk their_sig sig ad
       (gsi_timeout info) (gsi_amount info) nonce
  /\ ref_puzzle_args setup = RefereePuzzleArgs_new (setup_fixed setup)
       (mkMoveDetails
          (mkMoveStateInfo (initial_move info) (initial_mover_share info)
             (initial_max_move_size info)
             (canonical_atom_from_usize (initial_max_move_size info)))
          (VihHash (ValidationInfo_hash v))
          (Some (state_update_program_hash (initial_validation_program info)))) VihInitial
       (initial_validation_program info) (handler_is_my_turn (game_handler info))
  /\ setup_puzzle_hash setup = curry_referee_puzzle_hash cph (ref_puzzle_args setup).
Proof.
  unfold referee_initial_setup. intros (sig & Hsig & H)%bind_Ok.
  apply bind_Ok in H as (v & Hv & H). apply bind_Ok in H as (? & _ & H). injection H as <-.
  by exists sig, v.
Qed.

Lemma Referee_new_Ok cp cph info identity their_pk their_ph their_sig ph nonce ad n r h :
  Referee_new cp cph info identity their_pk their_ph their_sig ph nonce ad n = Ok (r, h) ->
  exists setup,
    referee_initial_setup cp cph info identity their_pk their_ph their_sig ph nonce ad = Ok setup
    /\ fixed r = setup_fixed setup /\ spend_this_coin r = ref_puzzle_args setup
    /\ args_for_this_coin r = ref_puzzle_args setup /\ h = setup_puzzle_hash setup
    /\ is_my_turn r = GameStartInfo_is_my_turn info.
Proof.
  unfold Referee_new, GameStartInfo_is_my_turn. intros (setup & Hs & H)%bind_Ok. exists setup.
  destruct (handler_is_my_turn _) eqn:Ht; injection H as <- <-; done.
Qed.

Lemma Referee_new_mirror cp cph g id timeout idA idB phA phB sigA sigB nonce ad nA nB rA hA rB hB :
  Referee_new cp cph (game_start g id timeout true) idA (public_key idB) phB sigB phA nonce ad nA
    = Ok (rA, hA) ->
  Referee_new cp cph (game_start g id timeout false) idB (public_key idA) phA sigA phB nonce ad nB
    = Ok (rB, hB) ->
  mirror rA rB /\ hA = hB /\ hA = outcome_referee_puzzle_hash rA.
Proof.
  intros (setA & HA & HfA & HsA & HcA & -> & HtA)%Referee_new_Ok.
  intros (setB & HB & HfB & HsB & HcB & -> & HtB)%Referee_new_Ok.
  apply referee_initial_setup_Ok in HA as (sA & vA & _ & HvA & HfixA & HargsA & HphA).
  apply referee_initial_setup_Ok in HB as (sB & vB & _ & HvB & HfixB & HargsB & HphB).
  assert (vB = vA) as ->.
  { revert HvA HvB. unfold game_start. destruct (sender_goes_first g); cbn; congruence. }
  assert (ref_puzzle_args setB = ref_puzzle_args setA) as Hargs.
  { rewrite HargsA, HargsB, HfixA, HfixB. unfold RefereePuzzleArgs_new, game_start.
    by destruct (sender_goes_first g). }
  split; [|rewrite HphA, HphB, Hargs; split; [done|]].
  - split; [| |rewrite HcA, HcB, Hargs; reflexivity|rewrite HsA, HsB, Hargs; reflexivity].
    + rewrite HtA, HtB. unfold game_start, GameStartInfo_is_my_turn.
      by destruct (sender_goes_first g).
    + rewrite HfA, HfB, HfixA, HfixB. unfold game_start.
      by split; destruct (sender_goes_first g).
  - unfold outcome_referee_puzzle_hash. by rewrite HsA, HfA, HfixA.
Qed.
End mirror.

(** ** Validators *)
Section validation.
Context {arch : Arch} {sha2 : Sha2} {bigint : BigInt} {clvm : Clvm} {bls : Bls}.

(** Two validators that run alike: their names do not matter. *)
Definition same_validator (p q : StateUpdateProgram) : Prop :=
  state_update_program p = state_update_program q
  /\ state_update_program_hash p = state_update_program_hash q.

#[export] Instance same_validator_equiv : Equivalence same_validator.
Proof.
  split; [done|by intros p q []; split|].
  intros p q r [Hp Hph] [Hq Hqh]. split; congruence.
Qed.

Lemma run_state_update_same a b state evidence :
  same_coin_args a b -> same_validator (validation_program a) (validation_program b) ->
  run_state_update b state evidence = run_state_update a state evidence.
Proof.
  intros [p ->]. unfold update_field. cbn. intros [Hp Hh].
  unfold run_state_update, InternalStateUpdateArgs_run, InternalStateUpdateArgs_to_nodeptr,
    StateUpdateMoveArgs_to_nodeptr. cbn. by rewrite Hp, Hh.
Qed.

(** What an honest player has checked about its own move. *)
Lemma state_following_my_move_honest t res args state next :
  cheating t = false -> state_following_my_move t res args state = Ok next ->
  run_state_update args state (mkEvidence nil_program) <> Ok None
  /\ (waiting_handler res <> None ->
      run_state_update args state (mkEvidence nil_program) = Ok (Some next)).
Proof.
  intros Hc. unfold state_following_my_move, run_validator_for_my_move. rewrite Hc. cbn.
  destruct (waiting_handler res), (run_state_update _ _ _) as [[s|]|]; try done; cbn.
  by intros [= <-].
Qed.

Lemma terminal_details res state details :
  outgoing_details res state = Ok details ->
  validation_info_hash details = VihNone <-> waiting_handler res = None.
Proof.
  intros (_ & v & _ & ->)%outgoing_details_Ok. by destruct (waiting_handler res).
Qed.

(** The peer of an honest player reaches the same state and cannot slash
    without evidence. *)
Lemma honest_state_following t u res details next :
  mirror (MyTurn t) (TheirTurn u) -> cheating t = false ->
  outgoing_details res (state_to_update (my_state t)) = Ok details ->
  state_following_my_move t res
    (outgoing_args (my_fixed t) (my_spend_this_coin (my_state t)) details
       (outgoing_move_state_update_program res)) (state_to_update (my_state t)) = Ok next ->
  same_validator (their_turn_validation_program (their_state u))
    (outgoing_move_state_update_program res) ->
  current_state (their_state u) = state_to_update (my_state t) ->
  state_following_their_move details
    (incoming_args (their_fixed u) (their_spend_this_coin (their_state u)) details
       (their_turn_validation_program (their_state u))) (current_state (their_state u))
  = Ok (Some (match waiting_handler res with Some _ => next | None => nil_program end)).
Proof.
  intros [_ Hf _ Hs] Hc Hdet Hnext Hval ->. cbn in Hf, Hs.
  pose proof (mirror_args _ _ _ _ details (outgoing_move_state_update_program res)
    (their_turn_validation_program (their_state u)) Hf Hs) as Hargs.
  apply terminal_details in Hdet as Hterm.
  destruct (state_following_my_move_honest _ _ _ _ _ Hc Hnext) as [Hno Hsome].
  unfold state_following_their_move. cbn.
  rewrite (run_state_update_same _ _ _ _ Hargs) by by symmetry.
  destruct (waiting_handler res) as [h|].
  - rewrite bool_decide_eq_false_2 by (intros Hv; by apply Hterm in Hv). by apply Hsome.
  - rewrite bool_decide_eq_true_2 by by apply Hterm.
    by destruct (run_state_update _ _ _) as [[?|]|].
Qed.
End validation.

(** ** Spends of the game coin *)
Section spends.
Context {arch : Arch} {sha2 : Sha2} {bigint : BigInt} {clvm : Clvm} {bls : Bls}.

(** The referee's fixed context names its own puzzle. *)
Definition fixed_wf (f : RefereeFixedContext) : Prop :=
  exists node, Puzzle_to_clvm (referee_coin_puzzle f) = Ok node
  /\ node_sha256tree node = fixed_referee_coin_puzzle_hash f.

(** The tree hash of a stored program. *)
Definition program_hash_is (p : Program) (ph : PuzzleHash) : Prop :=
  exists node, Program_to_clvm p = Ok node /\ node_sha256tree node = ph.

Lemma curry_referee_puzzle_Ok {tree : ClvmTree} f args puz :
  fixed_wf f -> curry_referee_puzzle (referee_coin_puzzle f) args = Ok puz ->
  program_hash_is (puzzle_program puz)
    (curry_referee_puzzle_hash (fixed_referee_coin_puzzle_hash f) args).
Proof.
  intros (node & Hnode & Hhash). unfold curry_referee_puzzle. rewrite Hnode. cbn [mbind result_bind].
  unfold Puzzle_from_nodeptr. destruct (Program_from_nodeptr _) as [p|] eqn:Hp; [|done].
  intros [= <-]. apply Program_from_nodeptr_inv in Hp as [Hc _]. eexists. split; [exact Hc|].
  unfold curry_referee_puzzle_hash. rewrite <-Hhash. symmetry.
  apply (curry_and_treehash_tree node [args_node args]).
Qed.

Lemma get_transaction_Ok r always puz args share spend :
  get_transaction r always puz args share = Ok (Some spend) ->
  exists node, OnChainRefereeSolution_to_nodeptr args = Ok node
  /\ Program_to_nodeptr (solution spend) = Ok node /\ puzzle spend = puz
  /\ signature spend = default sig_default (get_signature args).
Proof.
  unfold get_transaction. cbn zeta. destruct (_ && _ && _); [done|].
  intros (node & Hnode & H)%bind_Ok. apply bind_Ok in H as (sol & Hsol & H). injection H as <-.
  exists node. by apply Program_from_nodeptr_inv in Hsol as [_ ?].
Qed.

Lemma move_solution_list m c :
  move_solution_node m c
  = list_node [Atom (move_made (basic m)); option_node hash_node c;
               num_node (mover_share (basic m)); Atom (max_move_size_raw (basic m))].
Proof. done. Qed.

Lemma parse_move_solution p m c :
  Program_to_nodeptr p = Ok (move_solution_node m c) ->
  ParsedRefereeSolution_parse p
  = Ok (ParsedMove (move_made (basic m)) (default [] (hash_bytes <$> c))
          (encode_number (mover_share (basic m))) (max_move_size_raw (basic m))).
Proof.
  intros Hp. unfold ParsedRefereeSolution_parse. rewrite Hp, move_solution_list. cbn [mbind result_bind].
  rewrite proper_list_list_node. cbn. unfold option_node. by destruct c.
Qed.

Lemma parse_timeout_solution p a b :
  Program_to_nodeptr p = Ok (list_node [a; b]) -> ParsedRefereeSolution_parse p = Ok ParsedTimeout.
Proof.
  intros Hp. unfold ParsedRefereeSolution_parse. rewrite Hp. cbn [mbind result_bind].
  by rewrite proper_list_list_node.
Qed.

Lemma parse_slash_solution p s x y e ph :
  Program_to_nodeptr p = Ok (list_node [s; Pair x y; e; ph]) ->
  ParsedRefereeSolution_parse p = Ok ParsedSlash.
Proof.
  intros Hp. unfold ParsedRefereeSolution_parse. rewrite Hp. cbn [mbind result_bind].
  by rewrite proper_list_list_node.
Qed.

(** Reading back the validation info hash of a move. *)
Lemma read_vih c :
  let raw := default [] (hash_bytes <$> c) in
  (if bool_decide (raw = []) then Ok VihNone
   else if bool_decide (raw = [x78]) then Ok VihInitial
   else VihHash <$> Hash_from_slice raw)
  = Ok (match c with Some h => VihHash h | None => VihNone end).
Proof.
  destruct c as [h|]; [|done]. cbn. pose proof (hash_bytes_length h) as Hl.
  rewrite bool_decide_eq_false_2 by (intros Hn; by rewrite Hn in Hl).
  rewrite bool_decide_eq_false_2 by (intros Hn; by rewrite Hn in Hl).
  by rewrite Hash_from_slice_hash.
Qed.

Lemma details_read_back f m c mms :
  is_u64 (mover_share (basic m)) -> (mover_share (basic m) <= fixed_amount f)%N ->
  (max_move_size (basic m) < usize_modulus)%N ->
  max_move_size_raw (basic m) = canonical_atom_from_usize (max_move_size (basic m)) ->
  mms = max_move_size_raw (basic m) ->
  details_from_solution f (move_made (basic m)) (default [] (hash_bytes <$> c))
    (encode_number (mover_share (basic m))) mms
  = Ok (mkMoveDetails (basic m) (match c with Some h => VihHash h | None => VihNone end) None).
Proof.
  intros Hu Hle Hmms Hraw ->. unfold details_from_solution. rewrite read_vih. cbn [mbind result_bind].
  rewrite u64_from_atom_encode_number by done. cbn [ok_or mbind result_bind].
  apply N.leb_le in Hle. rewrite Hle. cbn [check mbind result_bind].
  pose proof usize_modulus_upper as Hup. pose proof (N.lt_le_trans _ _ _ Hmms Hup) as Hu64.
  rewrite Hraw, canonical_atom_is_canonical, <-encode_number_canonical by done.
  rewrite u64_from_atom_encode_number by done. cbn [ok_or mbind result_bind mret result_ret].
  do 2 f_equal. unfold as_usize. rewrite N.mod_small by done.
  rewrite encode_number_canonical, <-canonical_atom_is_canonical, <-Hraw by done.
  by destruct (basic m).
Qed.
(** *** Timeouts *)
Definition timeout_args (r : Referee) (ph : PuzzleHash) : RefereePuzzleArgs :=
  if is_outcome_coin r (Some ph) then spend_this_coin r else args_for_this_coin r.

Lemma known_coin r ph :
  ph = outcome_referee_puzzle_hash r \/ ph = on_chain_referee_puzzle_hash r ->
  ph = curry_referee_puzzle_hash (fixed_referee_coin_puzzle_hash (fixed r)) (timeout_args r ph).
Proof.
  unfold timeout_args, is_outcome_coin.
  destruct (bool_decide_reflect (Some ph = Some (outcome_referee_puzzle_hash r))) as [Ho|Ho];
    destruct (bool_decide_reflect (Some ph = Some (on_chain_referee_puzzle_hash r))) as [Hc|Hc];
    cbn; intros Hknown; [by injection Hc|by injection Ho|by injection Hc|].
  destruct Hknown; congruence.
Qed.

Lemma timeout_inversion r c parent ph amt o :
  to_parts c = Some (parent, ph, amt) -> get_transaction_for_timeout r c = Ok o ->
  let args := timeout_args r ph in
  let mover := mover_share (basic (game_move args)) in
  exists puz, (mover <= fixed_amount (fixed r))%N
  /\ curry_referee_puzzle (referee_coin_puzzle (fixed r)) args = Ok puz
  /\ get_transaction r false puz
       (timeout_solution (fixed r) (i_am_mover r args) mover (fixed_amount (fixed r) - mover))
       (fixed_amount (fixed r)) = Ok o.
Proof.
  intros Hc. unfold get_transaction_for_timeout. rewrite Hc.
  cbn [fmap option_fmap option_map fst snd]. fold (timeout_args r ph).
  intros (puz & Hpuz & H)%bind_Ok. apply bind_Ok in H as (waiter & Hw & H).
  apply ok_or_Ok, u64_checked_sub_Some in Hw as [Hle ->]. exists puz. split; [done|]. split; [|done].
  rewrite <-Hpuz. unfold timeout_args, outcome_referee_puzzle, on_chain_referee_puzzle.
  by destruct (is_outcome_coin _ _).
Qed.

Lemma get_transaction_None r puz args share :
  get_transaction r false puz args share = Ok None -> share = 0%N.
Proof.
  unfold get_transaction. destruct (negb _); cbn.
  - destruct (N.eqb_spec share 0) as [->|?]; [done|].
    intros (? & _ & H)%bind_Ok. by apply bind_Ok in H as (? & _ & [=]).
  - intros (? & _ & H)%bind_Ok. by apply bind_Ok in H as (? & _ & [=]).
Qed.

Lemma timeout_solution_list f mine mover waiter :
  let sol := timeout_solution f mine mover waiter in
  let my_ph := reward_puzzle_hash f in let their_ph := their_reward_puzzle_hash f in
  let pay (share : N) (to : PuzzleHash) := if (0 <? share)%N then ph_node to else nil_node in
  let sign (share : N) (sig acc : Aggsig) := if (0 <? share)%N then sig_add acc sig else acc in
  OnChainRefereeSolution_to_nodeptr sol
  = Ok (list_node [pay mover (if mine then my_ph else their_ph);
                   pay waiter (if mine then their_ph else my_ph)])
  /\ default sig_default (get_signature sol)
     = sign (if mine then waiter else mover) (their_reward_payout_signature f)
         (sign (if mine then mover else waiter) (my_reward_payout_signature f) sig_default).
Proof. destruct mine; cbn; destruct (0 <? mover)%N, (0 <? waiter)%N; done. Qed.
End spends.

Section watching.
Context {arch : Arch} {sha2 : Sha2} {bigint : BigInt} {clvm : Clvm} {bls : Bls}.

Lemma adjust_self_after t details next res n :
  let a := adjust_self (after_their_move t details next res n) in
  let args := incoming_args (their_fixed t) (their_spend_this_coin (their_state t)) details
    (their_turn_validation_program (their_state t)) in
  my_fixed a = their_fixed t /\ my_args_for_this_coin (my_state a) = args
  /\ my_spend_this_coin (my_state a) = args.
Proof. done. Qed.

Lemma details_from_solution_Ok f new_move vih ms mms details :
  details_from_solution f new_move vih ms mms = Ok details ->
  u64_from_atom ms = Some (mover_share (basic details))
  /\ (mover_share (basic details) <= fixed_amount f)%N /\ move_made (basic details) = new_move.
Proof.
  unfold details_from_solution. intros (v & _ & H)%bind_Ok.
  apply bind_Ok in H as (share & Hs & H). apply bind_Ok in H as (? & Hle & H).
  apply bind_Ok in H as (m & _ & H). injection H as <-. cbn.
  apply ok_or_Ok in Hs. apply check_Ok, N.leb_le in Hle. done.
Qed.

(** The outcomes of their move on chain. *)
Lemma their_coin_spent_Ok t c conds n new_move vih ms mms o res :
  TheirTurnReferee_their_turn_coin_spent t c conds n (ParsedMove new_move vih ms mms) = Ok (o, res) ->
  exists details, details_from_solution (their_fixed t) new_move vih ms mms = Ok details
  /\ ((exists e, o = None /\ slash_their_move t c conds details e = Ok res
         /\ run_state_update (incoming_args (their_fixed t) (their_spend_this_coin (their_state t))
              details (their_turn_validation_program (their_state t)))
              (current_state (their_state t)) e = Ok None)
      \/ exists next tres, took_move t details n next tres
         /\ o = Some (MyTurn (adjust_self (after_their_move t details next tres n)))
         /\ res = Moved (CoinString_from_parts (to_coin_id c)
                    (curry_referee_puzzle_hash (fixed_referee_coin_puzzle_hash (their_fixed t))
                       (incoming_args (their_fixed t) (their_spend_this_coin (their_state t)) details
                          (their_turn_validation_program (their_state t))))
                    (fixed_amount (their_fixed t))) n
                    (mkReadableMove (ttr_readable_move tres)) (mover_share (basic details))).
Proof.
  unfold TheirTurnReferee_their_turn_coin_spent. intros (details & Hd & H)%bind_Ok.
  exists details. split; [done|]. apply bind_Ok in H as ([o1 r1] & Hmove & H).
  apply their_turn_move_Ok in Hmove as [(Ho & Hs & Hnone)|(next & tres & Htook & Hcase)]; cbn in *.
  - left. rewrite Hs in H. apply bind_Ok in H as (x & Hx & H). injection H as <- <-.
    exists (mkEvidence nil_program). split; [done|]. split; [done|].
    by apply state_following_their_move_None in Hnone.
  - destruct Hcase as [(e & Ho & Hs & He)|[Hout _]].
    + left. rewrite Hs in H. apply bind_Ok in H as (x & Hx & H). injection H as <- <-.
      apply find_slash_Some in He as [_ He]. eauto.
    + right. injection Hout as -> ->. cbn in H. injection H as <- <-. by exists next, tres.
Qed.

Lemma slash_their_move_Ok {tree : ClvmTree} t c conds details e tx reward share :
  fixed_wf (their_fixed t) ->
  slash_their_move t c conds details e = Ok (Slash (Reward tx reward share)) ->
  exists ph amt s v en,
    first_create_coin conds = Some (ph, amt)
    /\ coin tx = CoinString_from_parts (to_coin_id c) ph (fixed_amount (their_fixed t))
    /\ program_hash_is (puzzle_program (puzzle (bundle tx))) ph
    /\ reward = CoinString_from_parts (to_coin_id (coin tx)) (reward_puzzle_hash (their_fixed t))
                  (fixed_amount (their_fixed t))
    /\ signature (bundle tx) = my_reward_payout_signature (their_fixed t)
    /\ share = mover_share (basic details)
    /\ Program_to_clvm (slash_state (their_state t)) = Ok s
    /\ Program_to_clvm (state_update_program (slash_validation_program (their_state t))) = Ok v
    /\ Program_to_clvm (evidence_program e) = Ok en
    /\ Program_to_nodeptr (solution (bundle tx))
       = Ok (list_node [s; v; en; ph_node (reward_puzzle_hash (their_fixed t))]).
Proof.
  intros Hwf. unfold slash_their_move. cbn [slash_infohash_inputs ok_or mbind result_bind].
  intros (? & _ & H)%bind_Ok. apply bind_Ok in H as (ph & Hph & H).
  apply bind_Ok in H as (puz & Hpuz & H). apply bind_Ok in H as (? & Heq & H).
  apply ok_or_Ok in Hph. destruct (first_create_coin conds) as [[ph' amt]|]; [|done].
  injection Hph as ->. apply check_Ok, bool_decide_eq_true in Heq.
  apply (curry_referee_puzzle_Ok _ _ _ Hwf) in Hpuz. rewrite Heq in Hpuz. clear Heq.
  unfold make_slash_for_their_turn in H. apply bind_Ok in H as (node & Hnode & H).
  apply bind_Ok in H as (sol & Hsol & H). injection H as <- <- <-. cbn in Hnode.
  apply bind_Ok in Hnode as (s & Hs & Hnode). apply bind_Ok in Hnode as (v & Hv & Hnode).
  apply bind_Ok in Hnode as (en & He & Hnode). injection Hnode as <-.
  apply Program_from_nodeptr_inv in Hsol as [_ Hsol].
  exists ph, amt, s, v, en. cbn. done.
Qed.

Lemma slash_their_move_shape t c conds details e res :
  slash_their_move t c conds details e = Ok res -> exists out, res = Slash out.
Proof.
  unfold slash_their_move. cbn [slash_infohash_inputs ok_or mbind result_bind].
  intros (? & _ & H)%bind_Ok. apply bind_Ok in H as (ph & _ & H).
  apply bind_Ok in H as (puz & _ & H). apply bind_Ok in H as (? & _ & H).
  apply bind_Ok in H as (node & _ & H). apply bind_Ok in H as (sol & _ & H).
  injection H as <-. eauto.
Qed.

Lemma expected_spend_Some r c conds ph amt :
  expected_spend r c conds = Some (ph, amt) ->
  first_create_coin conds = Some (ph, amt) /\ ph = outcome_referee_puzzle_hash r
  /\ exists parent a, to_parts c = Some (parent, on_chain_referee_puzzle_hash r, a).
Proof.
  unfold expected_spend. destruct (to_parts c) as [[[parent p] a]|]; [|done].
  destruct (first_create_coin conds) as [[ph' amt']|]; [|done].
  destruct (bool_decide_reflect (p = on_chain_referee_puzzle_hash r)) as [->|]; [|done].
  destruct (bool_decide_reflect (ph' = outcome_referee_puzzle_hash r)) as [->|]; [|done].
  intros [= <- <-]. eauto.
Qed.

(** *** Moves put on chain *)
Lemma to_move_Ok d f c m :
  to_move d f c = Ok m ->
  exists infohash, infohash_for (validation_info_hash (omd_new_move d)) (omd_validation_program d)
      (omd_state d) = Ok infohash
  /\ ocm_game_move m = omd_new_move d
  /\ sig_verify (ocm_signature m) (private_to_public_key (private_key (my_identity f)))
       (agg_sig_me_message
          (PuzzleHash_bytes (node_sha256tree (move_solution_node (omd_new_move d) infohash)))
          (to_coin_id c) (agg_sig_me_additional_data f)) = true
  /\ OnChainRefereeSolution_to_nodeptr (SolMove m) = Ok (move_solution_node (omd_new_move d) infohash).
Proof.
  unfold to_move. intros (infohash & Hinfo & H)%bind_Ok. cbn zeta in H.
  apply bind_Ok in H as (sig & Hsig & H). injection H as <-. exists infohash.
  split; [done|]. split; [done|]. split.
  - unfold sign_agg_sig_me in Hsig. apply bind_Ok in Hsig as (? & Hc & Hsig).
    apply check_Ok in Hc. by injection Hsig as <-.
  - cbn. rewrite Hinfo. done.
Qed.

Lemma infohash_for_vih details program state v infohash :
  ValidationInfo_new_state_update program state = Ok v ->
  infohash_for (validation_info_hash details) program state = Ok infohash ->
  infohash = if ValidationInfoHash_is_some (validation_info_hash details)
             then Some (ValidationInfo_hash v) else None.
Proof.
  unfold infohash_for. intros Hv. rewrite Hv. destruct (ValidationInfoHash_is_some _); cbn; by intros [= <-].
Qed.
End watching.

(** ** Properties *)
Section properties.
Context {arch : Arch} {sha2 : Sha2} {bigint : BigInt} {clvm : Clvm} {bls : Bls}.

(** C12: The two players that start a proposed game stay mirror images of each
    other through any exchange of moves: they agree on the puzzle hash of the
    coin on chain and of the coin their moves lead to, exactly one of them is
    to move, and their shares add up to the amount of the game. *)
Theorem players_agree cp cph g id timeout idA idB phA phB sigA sigB nonce ad nA nB rA hA rB hB r s
    (HA : Referee_new cp cph (game_start g id timeout true) idA (public_key idB) phB sigB phA nonce
            ad nA = Ok (rA, hA))
    (HB : Referee_new cp cph (game_start g id timeout false) idB (public_key idA) phA sigA phB nonce
            ad nB = Ok (rB, hB))
    (Hplay : rtc play (rA, rB) (r, s)) :
  hA = hB /\ is_my_turn s = negb (is_my_turn r)
  /\ outcome_referee_puzzle_hash s = outcome_referee_puzzle_hash r
  /\ on_chain_referee_puzzle_hash s = on_chain_referee_puzzle_hash r
  /\ get_amount r = fg_amount g
  /\ forall a b, get_our_current_share r = Ok a -> get_our_current_share s = Ok b ->
     (a + b = fg_amount g)%N.
Proof.
  destruct (Referee_new_mirror _ _ _ _ _ _ _ _ _ _ _ _ _ _ _ _ _ _ _ HA HB) as (Hm & Hh & _).
  destruct (mirror_plays _ _ Hplay Hm) as [Hrs Ha]. cbn in Hrs, Ha.
  assert (get_amount rA = fg_amount g) as Hg.
  { apply Referee_new_Ok in HA as (setup & HA & HfA & _).
    apply referee_initial_setup_Ok in HA as (? & ? & _ & _ & HfixA & _).
    unfold get_amount. rewrite HfA, HfixA. unfold game_start. by destruct (sender_goes_first g). }
  destruct (mirror_outcome _ _ Hrs) as [Ho Hc].
  split; [done|]. split; [apply Hrs|]. split; [done|]. split; [done|]. split; [by rewrite Ha|].
  intros a b Hra Hsb. rewrite (mirror_shares _ _ _ _ Hrs Hra Hsb). by rewrite Ha.
Qed.

(** C13: When an honest player's move reaches a peer whose validator and state
    are the ones the move was made for, the peer cannot slash it without
    evidence, and if it takes the move it holds the very state the player
    holds, unless the move ends the game. *)
Theorem honest_move_accepted t u readable entropy n t' w m o out
    (Hmirror : mirror (MyTurn t) (TheirTurn u)) (Hhonest : cheating t = false)
    (Hmove : my_turn_make_move (MyTurn t) readable entropy n = Ok (TheirTurn t', w))
    (Hprog : same_validator (their_turn_validation_program (their_state u))
               (slash_validation_program (their_state t')))
    (Hstate : current_state (their_state u) = state_to_update (my_state t))
    (Htake : TheirTurnReferee_their_turn_move_off_chain u (wire_details w) m = Ok (o, out)) :
  run_state_update (incoming_args (their_fixed u) (their_spend_this_coin (their_state u))
      (wire_details w) (their_turn_validation_program (their_state u)))
    (current_state (their_state u)) (mkEvidence nil_program) <> Ok None
  /\ forall u', o = Some u' ->
     state_to_update (my_state u')
     = if bool_decide (validation_info_hash (wire_details w) = VihNone) then nil_program
       else current_state (their_state t').
Proof.
  apply my_turn_make_move_Ok in Hmove as (t0 & res & next & [= <-] & Hmade & [= ->] & _).
  destruct Hmade as [_ _ Hdet Hnext]. cbn in Hprog.
  pose proof (honest_state_following _ _ _ _ _ Hmirror Hhonest Hdet Hnext Hprog Hstate) as Hfollow.
  apply terminal_details in Hdet as Hterm. split.
  - intros Hrun. apply (state_following_their_move_None (wire_details w)) in Hrun. congruence.
  - intros u' ->. apply their_turn_move_Ok in Htake as [(? & _)|(nx & tres & [Htook _] & Hcase)]; [done|].
    destruct Hcase as [(e & ? & _)|[Hout _]]; [done|]. injection Hout as -> _. cbn.
    rewrite Hfollow in Htook. injection Htook as <-.
    destruct (waiting_handler res).
    + by rewrite bool_decide_eq_false_2 by (intros Hv; by apply Hterm in Hv).
    + by rewrite bool_decide_eq_true_2 by by apply Hterm.
Qed.

(** What a move commits to: the validator the handler calls outgoing, which is
    the one its own move is checked with, and the state the move was made from.
    The guides and the puzzle of the coin ask for the validator of the next
    move and the state the move leads to. *)
Lemma move_commitment t readable entropy n r' w :
  my_turn_make_move (MyTurn t) readable entropy n = Ok (r', w) ->
  validation_info_hash (wire_details w) <> VihNone ->
  exists v, ValidationInfo_new_state_update (validation_program (spend_this_coin r'))
              (state_to_update (my_state t)) = Ok v
  /\ validation_info_hash (wire_details w) = VihHash (ValidationInfo_hash v).
Proof.
  intros (t0 & res & next & [= <-] & Hmade & -> & _)%my_turn_make_move_Ok Hsome.
  destruct Hmade as [_ _ Hdet _].
  destruct (outgoing_details_Ok _ _ _ Hdet) as (_ & v & Hv & Hvih). exists v. split; [done|].
  rewrite Hvih in Hsome |- *. by destruct (waiting_handler res).
Qed.

(** C31: A move we make is the one our handler answers, or the cheater's.
    Unless cheating was enabled it never exceeds the size the coin allows and is
    never one its validator slashes without evidence; while the game goes on, the
    state it leads to is the one that validator computes from the state it was made
    from.  The coin of the move carries its description, the keys swapped and the
    commitment of the coin before it; the game is over for us exactly when the move
    commits to no validator, and the next move of the peer is checked with the
    validator the handler called incoming. *)
Theorem my_move_checked t readable entropy n r' w
    (Hmove : my_turn_make_move (MyTurn t) readable entropy n = Ok (r', w))
    (before := my_spend_this_coin (my_state t)) (f := my_fixed t) :
  exists handler res t', my_game_handler (my_state t) = Some handler /\ r' = TheirTurn t'
  /\ match my_enable_cheating t with
     | Some (fake_move, share) => move_bytes res = fake_move /\ mtr_mover_share res = share
     | None => call_my_turn_handler handler
         (mkMyTurnInputs readable entropy (fixed_amount f) (mover_share (basic (game_move before)))
            (state_to_update (my_state t))) = Ok res
     end
  /\ basic (wire_details w)
     = mkMoveStateInfo (move_bytes res) (mtr_mover_share res) (mtr_max_move_size res)
         (canonical_atom_from_usize (mtr_max_move_size res))
  /\ their_spend_this_coin (their_state t')
     = before <| mover_pubkey := their_referee_pubkey f |>
              <| waiter_pubkey := public_key (my_identity f) |>
              <| game_move := wire_details w |>
              <| validation_program := outgoing_move_state_update_program res |>
              <| previous_validation_info_hash := validation_info_hash (game_move before) |>
  /\ wire_puzzle_hash_for_unroll w = outcome_referee_puzzle_hash (MyTurn t)
  /\ their_turn_validation_program (their_state t') = incoming_move_state_update_program res
  /\ their_game_handler (their_state t') = waiting_handler res
  /\ (is_game_over r' = true <-> validation_info_hash (wire_details w) = VihNone)
  /\ (my_enable_cheating t = None ->
      let verdict := run_state_update (their_spend_this_coin (their_state t'))
                       (state_to_update (my_state t)) (mkEvidence nil_program) in
      (N.of_nat (length (move_made (basic (wire_details w)))) <= get_max_move_size (MyTurn t))%N
      /\ verdict <> Ok None
      /\ (validation_info_hash (wire_details w) <> VihNone ->
          verdict = Ok (Some (current_state (their_state t'))))).
Proof.
  apply my_turn_make_move_Ok in Hmove as (t0 & res & next & [= <-] & Hmade & -> & Hph).
  destruct Hmade as [(h & Hh & Hres) Hsize Hdet Hnext]. apply terminal_details in Hdet as Hterm.
  destruct (outgoing_details_Ok _ _ _ Hdet) as (Hbasic & v & Hv & Hvih).
  exists h, res, (after_move t res (wire_details w) next n). split_and!; try done.
  { unfold my_turn_result in Hres. destruct (my_enable_cheating t) as [[fake share]|]; [|done].
    apply bind_Ok in Hres as (? & _ & Hres). by injection Hres as <-. }
  { cbn. rewrite Hterm. apply bool_decide_eq_true. }
  intros Hc verdict. assert (cheating t = false) as Hch by (unfold cheating; by rewrite Hc).
  rewrite Hbasic. split; [by apply Hsize|].
  destruct (state_following_my_move_honest _ _ _ _ _ Hch Hnext) as [Hno Hsome].
  split; [exact Hno|]. rewrite Hterm. exact Hsome.
Qed.

(** What our handler answers to their move: it is run on the states before and
    after it, the move itself and the hash of the validator it answers to. *)
Definition heard (t : TheirTurnReferee) (details : GameMoveDetails) (after : Program)
    (res : TheirTurnResult) : Prop :=
  exists handler pre post hash,
    their_game_handler (their_state t) = Some handler
    /\ Program_to_nodeptr (current_state (their_state t)) = Ok pre
    /\ Program_to_nodeptr after = Ok post
    /\ StateUpdateProgram_sha256tree (their_turn_validation_program (their_state t)) = Ok hash
    /\ call_their_turn_handler handler
         (mkTheirTurnInputs (fixed_amount (their_fixed t)) pre post (move_made (basic details))
            (mover_share (basic details))
            (details <| validation_program_hash := Some (ph_hash hash) |>)) = Ok res.

(** C30: A move of theirs is refused exactly when there is evidence against it.
    A refused move comes with evidence on which its validator returns nil: none
    at all, or the piece our handler came up with that comes first among those
    on which it does.  An accepted move survives its validator without evidence
    and with every piece of evidence our handler came up with; the state it leads
    to, if the game goes on, is the one the validator computes, the handler of our
    turn and what is shown of the move are the ones our handler answered, and it
    makes it our turn on the coin of the described move. *)
Theorem their_move_verdict t details n o out
    (Hmove : TheirTurnReferee_their_turn_move_off_chain t details n = Ok (o, out))
    (args := incoming_args (their_fixed t) (their_spend_this_coin (their_state t)) details
               (their_turn_validation_program (their_state t)))
    (verdict := run_state_update args (current_state (their_state t))) :
  mover_share (basic details) = ttm_mover_share out
  /\ match o with
     | None => exists e, slash out = Some e /\ verdict e = Ok None
         /\ puzzle_hash_for_unroll out = None
         /\ (e = mkEvidence nil_program
             \/ exists next res before after, heard t details next res
                /\ slash_evidence res = before ++ e :: after
                /\ forall e', e' ∈ before -> verdict e' <> Ok None)
     | Some t' => slash out = None
         /\ verdict (mkEvidence nil_program) <> Ok None
         /\ (exists res, heard t details (state_to_update (my_state t')) res
              /\ (forall e, e ∈ slash_evidence res -> verdict e <> Ok None)
              /\ my_game_handler (my_state t') = next_handler res
              /\ ttm_readable_move out = ttr_readable_move res
              /\ ttm_message out = ttr_message res)
         /\ (validation_info_hash details <> VihNone ->
             verdict (mkEvidence nil_program) = Ok (Some (state_to_update (my_state t'))))
         /\ my_spend_this_coin (my_state t') = args
         /\ puzzle_hash_for_unroll out = Some (outcome_referee_puzzle_hash (TheirTurn t))
         /\ my_enable_cheating t' = None
     end.
Proof.
  revert Hmove. unfold TheirTurnReferee_their_turn_move_off_chain. cbn zeta. fold args.
  intros (h & Hh%ok_or_Ok & H)%bind_Ok. apply bind_Ok in H as (? & [= <-] & H). cbn in H.
  apply bind_Ok in H as (pre & Hpre & H). apply bind_Ok in H as ([next|] & Hnext & H).
  - apply bind_Ok in H as (post & Hpost & H). apply bind_Ok in H as (hash & Hhash & H).
    apply bind_Ok in H as (res & Hres & H).
    assert (heard t details next res) as Hheard by (by exists h, pre, post, hash).
    apply call_their_turn_handler_share in Hres. cbn in Hres. fold args in Hnext, H.
    destruct (find_slash args _ _) as [e|] eqn:He; injection H as <- <-; cbn; (split; [done|]).
    + exists e. destruct (find_slash_first _ _ _ _ He) as (Hrun & before & after & Hev & Hbefore).
      split_and!; try done. right. by exists next, res, before, after.
    + split; [done|]. split.
      { intros Hn. apply (state_following_their_move_None details) in Hn.
        pose proof (eq_trans (eq_sym Hn) Hnext). done. }
      split; [exists res; split_and!; try done; by apply find_slash_None|]. split; [|done].
      intros Hv. unfold state_following_their_move in Hnext. cbn in Hnext.
      by rewrite bool_decide_eq_false_2 in Hnext.
  - injection H as <- <-. cbn. split; [done|]. eexists. split; [done|].
    split; [by apply state_following_their_move_None in Hnext|]. split; [done|by left].
Qed.

(** C23: Claiming a timeout spends the coin it is given (the one our last move
    created or the one on chain), pays the mover its share and the waiter the
    rest, each to the reward address of the player it belongs to and only when
    it is not zero, and carries exactly the payout signatures those payments
    need; it is skipped only for a game about nothing. *)
Theorem timeout_spend_correct {tree : ClvmTree} r c parent ph amt o
    (Hwf : fixed_wf (fixed r)) (Hcoin : to_parts c = Some (parent, ph, amt))
    (Hknown : ph = outcome_referee_puzzle_hash r \/ ph = on_chain_referee_puzzle_hash r)
    (Hspend : get_transaction_for_timeout r c = Ok o) :
  match o with
  | None => fixed_amount (fixed r) = 0%N
  | Some spend =>
      program_hash_is (puzzle_program (puzzle spend)) ph
      /\ ParsedRefereeSolution_parse (solution spend) = Ok ParsedTimeout
      /\ exists args mover waiter,
         (args = spend_this_coin r \/ args = args_for_this_coin r)
         /\ ph = curry_referee_puzzle_hash (fixed_referee_coin_puzzle_hash (fixed r)) args
         /\ mover = mover_share (basic (game_move args))
         /\ (mover + waiter = fixed_amount (fixed r))%N
         /\ let mine := i_am_mover r args in
            let f := fixed r in
            let my_ph := reward_puzzle_hash f in let their_ph := their_reward_puzzle_hash f in
            let pay (share : N) (to : PuzzleHash) :=
              if (0 <? share)%N then ph_node to else nil_node in
            let sign (share : N) (sig acc : Aggsig) :=
              if (0 <? share)%N then sig_add acc sig else acc in
            Program_to_nodeptr (solution spend)
            = Ok (list_node [pay mover (if mine then my_ph else their_ph);
                             pay waiter (if mine then their_ph else my_ph)])
            /\ signature spend
               = sign (if mine then waiter else mover) (their_reward_payout_signature f)
                   (sign (if mine then mover else waiter) (my_reward_payout_signature f) sig_default)
  end.
Proof.
  apply (timeout_inversion _ _ _ _ _ _ Hcoin) in Hspend as (puz & Hle & Hpuz & H).
  set (args := timeout_args r ph) in *.
  destruct o as [spend|]; [|by apply get_transaction_None in H].
  apply get_transaction_Ok in H as (node & Hnode & Hsol & Hpz & Hsig). subst puz.
  destruct (timeout_solution_list (fixed r) (i_am_mover r args) (mover_share (basic (game_move args)))
    (fixed_amount (fixed r) - mover_share (basic (game_move args)))) as [Hlist Hsum].
  rewrite Hlist in Hnode. injection Hnode as <-.
  apply (curry_referee_puzzle_Ok _ _ _ Hwf) in Hpuz. unfold args in Hpuz.
  rewrite <-(known_coin _ _ Hknown) in Hpuz.
  split; [done|]. split; [eapply parse_timeout_solution; exact Hsol|].
  exists args, (mover_share (basic (game_move args))),
    (fixed_amount (fixed r) - mover_share (basic (game_move args)))%N.
  split; [unfold args, timeout_args; destruct (is_outcome_coin _ _); auto|].
  split; [by apply known_coin|]. split; [done|]. split; [lia|]. cbn zeta. split; [done|].
  by rewrite Hsig, Hsum.
Qed.

(** C27: The spend that puts our move on chain spends the coin the move was made
    from, is signed for that very coin and solution, and its solution tells the
    opponent the move we described off chain: what it reads back is the
    description, the hash of the validator aside. *)
Theorem move_spend_roundtrip {tree : ClvmTree} t readable entropy n r' w c spend g
    (Hwf : fixed_wf (my_fixed t))
    (Hmove : my_turn_make_move (MyTurn t) readable entropy n = Ok (r', w))
    (Hspend : get_transaction_for_move r' c = Ok spend)
    (Hshare : is_u64 (mover_share (basic (wire_details w))))
    (Hsize : (max_move_size (basic (wire_details w)) < usize_modulus)%N)
    (Hfair : (mover_share (basic (wire_details w)) <= fixed_amount g)%N) :
  program_hash_is (puzzle_program (puzzle spend)) (outcome_referee_puzzle_hash (MyTurn t))
  /\ (exists new_move vih ms mms,
       ParsedRefereeSolution_parse (solution spend) = Ok (ParsedMove new_move vih ms mms)
       /\ details_from_solution g new_move vih ms mms
          = Ok ((wire_details w) <| validation_program_hash := None |>))
  /\ exists node, Program_to_nodeptr (solution spend) = Ok node
     /\ sig_verify (signature spend)
          (private_to_public_key (private_key (my_identity (my_fixed t))))
          (agg_sig_me_message (PuzzleHash_bytes (node_sha256tree node)) (to_coin_id c)
             (agg_sig_me_additional_data (my_fixed t))) = true.
Proof.
  apply my_turn_make_move_Ok in Hmove as (t0 & res & next & [= <-] & Hmade & -> & _).
  destruct Hmade as [_ _ Hdet _].
  destruct (outgoing_details_Ok _ _ _ Hdet) as (Hbasic & v & Hv & Hvih).
  unfold get_transaction_for_move in Hspend. cbn [get_last_move_spend get_move_info ok_or mbind
    result_bind after_move accept_this_move their_state their_move_spend before_args fixed] in Hspend.
  apply bind_Ok in Hspend as (puz & Hpuz & H). apply bind_Ok in H as (refmove & Hrm & H).
  apply bind_Ok in H as (share & _ & H). apply bind_Ok in H as (o & Htx & H).
  apply ok_or_Ok in H as ->. apply get_transaction_Ok in Htx as (node & Hnode & Hsol & <- & Hsig).
  split; [by apply (curry_referee_puzzle_Ok _ _ _ Hwf) in Hpuz|].
  apply to_move_Ok in Hrm as (infohash & Hinfo & Hgm & Hsigned & Hnode'). cbn in Hgm, Hinfo.
  rewrite Hnode' in Hnode. injection Hnode as <-. split; [|by exists (move_solution_node (wire_details w) infohash); rewrite Hsig].
  apply parse_move_solution in Hsol. do 4 eexists. split; [done|].
  rewrite (details_read_back g (wire_details w) infohash) by (done || by rewrite Hbasic).
  f_equal. unfold update_field. f_equal.
  rewrite (infohash_for_vih (wire_details w) _ _ _ _ Hv Hinfo), Hvih.
  by destruct (waiting_handler res).
Qed.

(** C15: A slash of their on-chain move is only made with evidence on which the
    move's validator returns nil.  It spends the coin their move created,
    revealing our stored validator and state with that evidence, and sends the
    whole amount of the game to our reward address, whatever share the
    cheating move claimed; that share never exceeds the amount. *)
Theorem slash_spend_correct {tree : ClvmTree} t c conds n new_move vih ms mms o tx reward share
    (Hwf : fixed_wf (their_fixed t))
    (Hspent : TheirTurnReferee_their_turn_coin_spent t c conds n (ParsedMove new_move vih ms mms)
              = Ok (o, Slash (Reward tx reward share)))
    (f := their_fixed t) :
  o = None /\ (share <= fixed_amount f)%N
  /\ exists details e ph amt s v en,
    details_from_solution f new_move vih ms mms = Ok details
    /\ run_state_update (incoming_args f (their_spend_this_coin (their_state t)) details
         (their_turn_validation_program (their_state t))) (current_state (their_state t)) e = Ok None
    /\ first_create_coin conds = Some (ph, amt)
    /\ coin tx = CoinString_from_parts (to_coin_id c) ph (fixed_amount f)
    /\ program_hash_is (puzzle_program (puzzle (bundle tx))) ph
    /\ Program_to_nodeptr (solution (bundle tx))
       = Ok (list_node [s; v; en; ph_node (reward_puzzle_hash f)])
    /\ Program_to_clvm (slash_state (their_state t)) = Ok s
    /\ Program_to_clvm (state_update_program (slash_validation_program (their_state t))) = Ok v
    /\ Program_to_clvm (evidence_program e) = Ok en
    /\ signature (bundle tx) = my_reward_payout_signature f
    /\ reward = CoinString_from_parts (to_coin_id (coin tx)) (reward_puzzle_hash f) (fixed_amount f).
Proof.
  apply their_coin_spent_Ok in Hspent as (details & Hd & [(e & -> & Hslash & He)|(nx & tr & _ & _ & [=])]).
  apply (slash_their_move_Ok _ _ _ _ _ _ _ _ Hwf) in Hslash
    as (ph & amt & s & v & en & Hph & Hcoin & Hprog & Hrew & Hsig & -> & Hs & Hv & Hen & Hsol).
  destruct (details_from_solution_Ok _ _ _ _ _ _ Hd) as (_ & Hle & _).
  split; [done|]. split; [done|]. by exists details, e, ph, amt, s, v, en.
Qed.

(** What a spend of the game coin means to us: the coin we expected leaves
    the referee as it is; a timeout or a slash pays us our current share, when
    there is one; a move of theirs is adopted only if its claimed share is
    within the amount, and then the coin it created is the coin our referee
    is at, with our share the one the move left us. *)
Theorem watched_coin r c conds n sol o res
    (Hspent : their_turn_coin_spent r c conds n sol = Ok (o, res)) :
  match res with
  | Expected sn ph amt redo => o = Some r /\ sn = referee_state_number r /\ redo = None
      /\ first_create_coin conds = Some (ph, amt) /\ ph = outcome_referee_puzzle_hash r
      /\ exists parent a, to_parts c = Some (parent, on_chain_referee_puzzle_hash r, a)
  | Timedout reward => o = Some r /\ (sol = ParsedTimeout \/ sol = ParsedSlash)
      /\ exists share, get_our_current_share r = Ok share
      /\ reward = if (0 <? share)%N
                  then Some (CoinString_from_parts (to_coin_id c) (reward_puzzle_hash (fixed r)) share)
                  else None
  | Moved c' sn readable share => is_my_turn r = false
      /\ exists t', o = Some (MyTurn t') /\ my_fixed t' = fixed r /\ sn = n
      /\ (share <= get_amount r)%N /\ get_our_current_share (MyTurn t') = Ok share
      /\ outcome_referee_puzzle_hash (MyTurn t') = on_chain_referee_puzzle_hash (MyTurn t')
      /\ c' = CoinString_from_parts (to_coin_id c) (on_chain_referee_puzzle_hash (MyTurn t'))
                (get_amount r)
  | Slash _ => is_my_turn r = false /\ o = None
  end.
Proof.
  unfold their_turn_coin_spent in Hspent.
  destruct (expected_spend r c conds) as [[ph amt]|] eqn:Hexp.
  { injection Hspent as <- <-. apply expected_spend_Some in Hexp as (? & ? & ?). done. }
  clear Hexp. destruct sol as [|nm vih ms mms|].
  - apply bind_Ok in Hspent as (share & Hshare & H). injection H as <- <-.
    split; [done|]. split; [auto|]. by exists share.
  - destruct r as [t|t]; [done|]. apply their_coin_spent_Ok in Hspent as (details & Hd & H).
    destruct H as [(e & -> & Hslash & He)|(nx & tr & _ & -> & ->)].
    + apply slash_their_move_shape in Hslash as [out ->]. done.
    + apply details_from_solution_Ok in Hd as (_ & Hle & _). split; [done|].
      eexists. by repeat (split; [done|]).
  - apply bind_Ok in Hspent as (share & Hshare & H). injection H as <- <-.
    split; [done|]. split; [auto|]. by exists share.
Qed.
End properties.

Module Witnesses.
Import Toy ToyGame.

Abbreviation alice_start :=
  (Referee_new coin_puzzle coin_puzzle_hash (game_start game 0 15 true) (identity sk_alice)
    (public_key (identity sk_bob)) (ph xbb) (payout sk_bob (ph xbb)) (ph xaa) 0 zero_hash 1).
Abbreviation bob_start :=
  (Referee_new coin_puzzle coin_puzzle_hash (game_start game 0 15 false) (identity sk_bob)
    (public_key (identity sk_alice)) (ph xaa) (payout sk_alice (ph xaa)) (ph xbb) 0 zero_hash 1).
Definition took (r : result Error (option Referee * TheirTurnMoveResult)) : bool :=
  match r with Ok (Some _, _) => true | _ => false end.
Lemma took_ok r : took r = true -> { p | r = Ok (Some p.1, p.2) }.
Proof. destruct r as [[[a|] b]|]; [by exists (a, b)|done|done]. Defined.

Lemma alice0_ok : is_ok alice_start = true.
Proof. vm_compute. reflexivity. Qed.
Definition alice0_ran := ran _ alice0_ok.
Abbreviation alice0 := (proj1_sig alice0_ran).
Lemma bob0_ok : is_ok bob_start = true.
Proof. vm_compute. reflexivity. Qed.
Definition bob0_ran := ran _ bob0_ok.
Abbreviation bob0 := (proj1_sig bob0_ran).
Lemma opening_ok : is_ok (my_turn_make_move alice0.1 readable zero_hash 2) = true.
Proof. vm_compute. reflexivity. Qed.
Definition opening_ran := ran _ opening_ok.
Abbreviation opening := (proj1_sig opening_ran).
Lemma bob1_ok : took (their_turn_move_off_chain bob0.1 (wire_details opening.2) 2) = true.
Proof. vm_compute. reflexivity. Qed.
Definition bob1_ran := took_ok _ bob1_ok.
Abbreviation bob1 := (proj1_sig bob1_ran).
Lemma reply_ok : is_ok (my_turn_make_move bob1.1 readable zero_hash 3) = true.
Proof. vm_compute. reflexivity. Qed.
Definition reply_ran := ran _ reply_ok.
Abbreviation reply := (proj1_sig reply_ran).
Lemma alice2_ok : took (their_turn_move_off_chain opening.1 (wire_details reply.2) 3) = true.
Proof. vm_compute. reflexivity. Qed.
Definition alice2_ran := took_ok _ alice2_ok.
Abbreviation alice2 := (proj1_sig alice2_ran).

Lemma plays : rtc play (alice0.1, bob0.1) (alice2.1, reply.1).
Proof.
  apply (rtc_l _ _ (opening.1, bob1.1)).
  - exact (play_left _ _ _ _ _ _ _ _ _ _ (proj2_sig opening_ran) (proj2_sig bob1_ran)).
  - apply rtc_once.
    exact (play_right _ _ _ _ _ _ _ _ _ _ (proj2_sig reply_ran) (proj2_sig alice2_ran)).
Qed.

Lemma players_agree_witness :
  alice0.2 = bob0.2 /\ is_my_turn reply.1 = negb (is_my_turn alice2.1)
  /\ outcome_referee_puzzle_hash reply.1 = outcome_referee_puzzle_hash alice2.1
  /\ on_chain_referee_puzzle_hash reply.1 = on_chain_referee_puzzle_hash alice2.1
  /\ get_amount alice2.1 = fg_amount game
  /\ forall a b, get_our_current_share alice2.1 = Ok a -> get_our_current_share reply.1 = Ok b ->
     (a + b = fg_amount game)%N.
Proof.
  exact (players_agree _ _ _ _ _ _ _ _ _ _ _ _ _ _ _ _ _ _ _ _ _
           (proj2_sig alice0_ran) (proj2_sig bob0_ran) plays).
Defined.

(** The two sides of the opening, and the states they are in. *)
Definition mine (r : Referee) : is_my_turn r = true -> { t | r = MyTurn t }.
Proof. destruct r as [t|t]; [by exists t|done]. Defined.
Definition theirs (r : Referee) : is_my_turn r = false -> { t | r = TheirTurn t }.
Proof. destruct r as [t|t]; [done|by exists t]. Defined.

Lemma alice_mine : is_my_turn alice0.1 = true.
Proof. vm_compute. reflexivity. Qed.
Definition alice_ran := mine alice0.1 alice_mine.
Abbreviation alice := (proj1_sig alice_ran).
Lemma bob_theirs : is_my_turn bob0.1 = false.
Proof. vm_compute. reflexivity. Qed.
Definition bob_ran := theirs bob0.1 bob_theirs.
Abbreviation bob := (proj1_sig bob_ran).
Lemma move_ok : is_ok (my_turn_make_move (MyTurn alice) readable zero_hash 2) = true.
Proof. vm_compute. reflexivity. Qed.
Definition move_ran := ran _ move_ok.
Abbreviation move := (proj1_sig move_ran).
Lemma moved_theirs : is_my_turn move.1 = false.
Proof. vm_compute. reflexivity. Qed.
Definition moved_ran := theirs move.1 moved_theirs.
Abbreviation alice1 := (proj1_sig moved_ran).
Lemma take_ok :
  is_ok (TheirTurnReferee_their_turn_move_off_chain bob (wire_details move.2) 2) = true.
Proof. vm_compute. reflexivity. Qed.
Definition take_ran := ran _ take_ok.
Abbreviation take := (proj1_sig take_ran).

Lemma mirrored : mirror (MyTurn alice) (TheirTurn bob).
Proof.
  destruct (Referee_new_mirror _ _ _ _ _ _ _ _ _ _ _ _ _ _ _ _ _ _ _
    (proj2_sig alice0_ran) (proj2_sig bob0_ran)) as [Hm _].
  rewrite (proj2_sig alice_ran), (proj2_sig bob_ran) in Hm. exact Hm.
Qed.

Lemma move_eq :
  my_turn_make_move (MyTurn alice) readable zero_hash 2 = Ok (TheirTurn alice1, move.2).
Proof. exact (eq_trans (proj2_sig move_ran) (f_equal (fun x => Ok (x, move.2)) (proj2_sig moved_ran))). Qed.

Lemma honest_move_accepted_witness :
  run_state_update (incoming_args (their_fixed bob) (their_spend_this_coin (their_state bob))
      (wire_details move.2) (their_turn_validation_program (their_state bob)))
    (current_state (their_state bob)) (mkEvidence nil_program) <> Ok None
  /\ forall u', take.1 = Some u' ->
     state_to_update (my_state u')
     = if bool_decide (validation_info_hash (wire_details move.2) = VihNone) then nil_program
       else current_state (their_state alice1).
Proof.
  apply (honest_move_accepted alice bob readable zero_hash 2 alice1 move.2 2 take.1 take.2).
  - exact mirrored.
  - by_evaluation.
  - exact move_eq.
  - split; by_evaluation.
  - by_evaluation.
  - exact (proj2_sig take_ran).
Defined.

Lemma my_move_checked_witness : is_my_turn move.1 = false.
Proof.
  destruct (my_move_checked alice readable zero_hash 2 move.1 move.2 (proj2_sig move_ran))
    as (handler & res & t' & _ & Ht' & _). exact (f_equal is_my_turn Ht').
Defined.

Lemma their_move_verdict_witness : mover_share (basic (wire_details move.2)) = ttm_mover_share take.2.
Proof.
  destruct (their_move_verdict bob (wire_details move.2) 2 take.1 take.2 (proj2_sig take_ran)) as [H _].
  exact H.
Defined.

(** Alice's opening goes on chain, or times out. *)
Definition parent : CoinID := mkCoinID zero_hash.
Definition start_coin : CoinString :=
  CoinString_from_parts parent (outcome_referee_puzzle_hash (MyTurn alice)) 100.
Definition opened_coin : CoinString :=
  CoinString_from_parts parent (outcome_referee_puzzle_hash (TheirTurn alice1)) 100.

Lemma alice_wf : fixed_wf (my_fixed alice).
Proof. exists coin_node. split; by_evaluation. Qed.

Lemma claim_ok : is_ok (get_transaction_for_timeout (TheirTurn alice1) opened_coin) = true.
Proof. vm_compute. reflexivity. Qed.
Definition claim_ran := ran_value _ claim_ok.

Lemma timeout_spend_correct_witness :
  exists spend, proj1_sig claim_ran = Some spend
  /\ program_hash_is (puzzle_program (puzzle spend)) (outcome_referee_puzzle_hash (TheirTurn alice1)).
Proof.
  assert (fixed_wf (fixed (TheirTurn alice1))) as Hwf by (exists coin_node; split; by_evaluation).
  assert (to_parts opened_coin
          = Some (parent, outcome_referee_puzzle_hash (TheirTurn alice1), 100%N)) as Hcoin
    by by_evaluation.
  pose proof (timeout_spend_correct _ _ _ _ _ _ Hwf Hcoin (or_introl eq_refl)
    (proj2_sig claim_ran)) as H.
  assert (is_Some (proj1_sig claim_ran)) as [spend Hspend] by by_evaluation.
  rewrite Hspend in H. exists spend. split; [exact Hspend|apply H].
Defined.

Lemma onchain_ok : is_ok (get_transaction_for_move move.1 start_coin) = true.
Proof. vm_compute. reflexivity. Qed.
Definition onchain_ran := ran_value _ onchain_ok.

Lemma move_spend_roundtrip_witness :
  program_hash_is (puzzle_program (puzzle (proj1_sig onchain_ran)))
    (outcome_referee_puzzle_hash (MyTurn alice)).
Proof.
  destruct (move_spend_roundtrip alice readable zero_hash 2 move.1 move.2 start_coin
    (proj1_sig onchain_ran) (my_fixed alice) alice_wf (proj2_sig move_ran) (proj2_sig onchain_ran))
    as [H _]; [by_evaluation..|]. exact H.
Defined.

(** Bob watches the opening arrive, and a move his validator always slashes. *)
Definition opening_solution : ParsedRefereeSolution :=
  ParsedMove [x11] (replicate 32 x01) [x1e] [x10].
Definition opening_conditions : list CoinCondition := [CreateCoin (ph x99) 100].
Abbreviation watched :=
  (their_turn_coin_spent (TheirTurn bob) start_coin opening_conditions 5 opening_solution).
Definition coin_moved (r : result Error (option Referee * TheirTurnCoinSpentResult)) : bool :=
  match r with Ok (_, Moved _ _ _ _) => true | _ => false end.
Lemma coin_moved_inv r :
  coin_moved r = true -> exists o c' sn rd share, r = Ok (o, Moved c' sn rd share).
Proof. destruct r as [[o [| | |]]|]; try done. by eexists _, _, _, _, _. Qed.
Definition coin_slashed (r : result Error (option Referee * TheirTurnCoinSpentResult)) : bool :=
  match r with Ok (_, Slash (Reward _ _ _)) => true | _ => false end.
Lemma coin_slashed_inv r :
  coin_slashed r = true -> exists o tx reward share, r = Ok (o, Slash (Reward tx reward share)).
Proof. destruct r as [[o [| | |[|]]]|]; try done. by eexists _, _, _, _. Qed.

Lemma watched_move : coin_moved watched = true.
Proof. vm_compute. reflexivity. Qed.

Lemma watched_coin_witness :
  exists t' c' rd share, watched = Ok (Some (MyTurn t'), Moved c' 5 rd share)
  /\ (share <= get_amount (TheirTurn bob))%N.
Proof.
  destruct (coin_moved_inv _ watched_move) as (o & c' & sn & rd & share & Hres).
  destruct (watched_coin _ _ _ _ _ _ _ Hres) as (_ & t' & Ho & _ & Hn & Hle & _).
  rewrite Hres, Ho, Hn. exists t', c', rd, share. split; [reflexivity|exact Hle].
Defined.

Definition bad_game : FactoryGame :=
  mkFactoryGame 50 50 100 true (tree_hash (const nil_node)) [] 32 nil_program 0 (prog alice_to_move)
    (prog bob_waits) (prog (const nil_node)).
Abbreviation victim_start :=
  (Referee_new coin_puzzle coin_puzzle_hash (game_start bad_game 0 15 false) (identity sk_bob)
    (public_key (identity sk_alice)) (ph xaa) (payout sk_alice (ph xaa)) (ph xbb) 0 zero_hash 1).
Lemma victim_ok : is_ok victim_start = true.
Proof. vm_compute. reflexivity. Qed.
Definition victim_ran := ran _ victim_ok.
Lemma victim_theirs : is_my_turn (proj1_sig victim_ran).1 = false.
Proof. vm_compute. reflexivity. Qed.
Definition victim_state := theirs _ victim_theirs.
Abbreviation victim := (proj1_sig victim_state).
Lemma cheat_read : is_ok (details_from_solution (their_fixed victim) [x11] (replicate 32 x01) [x1e] [x10]) = true.
Proof. vm_compute. reflexivity. Qed.
Definition cheat_ph : PuzzleHash :=
  curry_referee_puzzle_hash coin_puzzle_hash
    (incoming_args (their_fixed victim) (their_spend_this_coin (their_state victim))
       (the_ok _ cheat_read) (their_turn_validation_program (their_state victim))).
Abbreviation caught := (TheirTurnReferee_their_turn_coin_spent victim start_coin
    [CreateCoin cheat_ph 100] 5 (ParsedMove [x11] (replicate 32 x01) [x1e] [x10])).
Lemma caught_slash : coin_slashed caught = true.
Proof. vm_compute. reflexivity. Qed.

Lemma slash_spend_correct_witness :
  exists tx reward share,
    caught = Ok (None, Slash (Reward tx reward share)) /\ (share <= fixed_amount (their_fixed victim))%N.
Proof.
  assert (fixed_wf (their_fixed victim)) as Hwf by (exists coin_node; split; by_evaluation).
  destruct (coin_slashed_inv _ caught_slash) as (o & tx & reward & share & Hc).
  destruct (slash_spend_correct _ _ _ _ _ _ _ _ _ _ _ _ Hwf Hc) as (Ho & Hle & _).
  rewrite Hc, Ho. exists tx, reward, share. split; [reflexivity|exact Hle].
Defined.
End Witnesses.
