(* ===== verification/LiveGame.v ===== *)
(** * Live games

    [src/channel_state/types/{live_game, proposed_game, potato, on_chain_game_state,
    on_chain_game_coin, coin_spent, channel_coin, result, timeout_claim_state}.rs]:
    a referee with the puzzle hash of the coin its game is at, and the records
    the channel state is made of. *)
From S2P Require Import Prelude Extern World Coins Clvm StandardCoin GameHandler RefereeTypes.
From S2P Require Import Referee UnrollCoin.

Section live_game.
Context {arch : Arch} {sha2 : Sha2} {bigint : BigInt} {clvm : Clvm} {bls : Bls}.

Record LiveGame := mkLiveGame {
  lg_game_id : GameID;
  last_referee_puzzle_hash : PuzzleHash;
  referee_maker : Referee;
  lg_my_contribution : Amount;
  lg_their_contribution : Amount;
}.
#[export] Instance LiveGame_eta : RecordEta LiveGame := fun g =>
  mkLiveGame (lg_game_id g) (last_referee_puzzle_hash g) (referee_maker g)
    (lg_my_contribution g) (lg_their_contribution g).

Definition LiveGame_is_my_turn (g : LiveGame) : bool := is_my_turn (referee_maker g).
Definition LiveGame_is_game_over (g : LiveGame) : bool := is_game_over (referee_maker g).
Definition LiveGame_get_max_move_size (g : LiveGame) : N := get_max_move_size (referee_maker g).
Definition LiveGame_get_game_timeout (g : LiveGame) : Timeout := get_game_timeout (referee_maker g).
Definition LiveGame_get_amount (g : LiveGame) : Amount := get_amount (referee_maker g).
Definition LiveGame_get_our_current_share (g : LiveGame) : result Error Amount :=
  get_our_current_share (referee_maker g).
Definition save_referee_state (g : LiveGame) : Referee * PuzzleHash :=
  (referee_maker g, last_referee_puzzle_hash g).
Definition restore_referee_state (referee : Referee) (last_ph : PuzzleHash) (g : LiveGame)
    : LiveGame :=
  g <| referee_maker := referee |> <| last_referee_puzzle_hash := last_ph |>.
Definition current_puzzle_hash (g : LiveGame) : PuzzleHash :=
  on_chain_referee_puzzle_hash (referee_maker g).
Definition outcome_puzzle_hash (g : LiveGame) : PuzzleHash :=
  outcome_referee_puzzle_hash (referee_maker g).

Definition LiveGame_enable_cheating (make_move : bytes) (mover_share : Amount)
    : eff LiveGame bool :=
  g ← get_state;
  match enable_cheating (referee_maker g) make_move mover_share with
  | Some new_ref => _ ← put_state (g <| referee_maker := new_ref |>); mret true
  | None => mret false
  end.

Definition internal_make_move (readable_move : ReadableMove) (new_entropy : Hash)
    (state_number : N) : eff LiveGame GameMoveWireData :=
  g ← get_state;
  _ ← guard_or (is_my_turn (referee_maker g))
        (StrErr "internal_make_move called when it is not our turn");
  moved ← lift_result (my_turn_make_move (referee_maker g) readable_move new_entropy state_number);
  let new_ref : Referee := moved.1 in
  let new_ph := outcome_referee_puzzle_hash new_ref in
  _ ← put_state (g <| referee_maker := new_ref |> <| last_referee_puzzle_hash := new_ph |>);
  mret moved.2.

Definition internal_their_move (game_move : GameMoveDetails) (state_number : N)
    : eff LiveGame TheirTurnMoveResult :=
  g ← get_state;
  _ ← guard_or (negb (is_my_turn (referee_maker g)))
        (Channel "received opponent move but it is our turn");
  moved ← lift_result (their_turn_move_off_chain (referee_maker g) game_move state_number);
  let their_move_result : TheirTurnMoveResult := moved.2 in
  _ ← (match moved.1 with
       | Some r =>
           let g :=
             match puzzle_hash_for_unroll their_move_result with
             | Some _ => g <| last_referee_puzzle_hash := outcome_referee_puzzle_hash r |>
             | None => g
             end in
           put_state (g <| referee_maker := r |>)
       | None => mret tt
       end);
  mret their_move_result.

Definition LiveGame_get_transaction_for_move (g : LiveGame) (game_coin : CoinString)
    : result Error Spend :=
  get_transaction_for_move (referee_maker g) game_coin.
Definition LiveGame_receive_readable (g : LiveGame) (data : bytes) : result Error ReadableMove :=
  receive_readable (referee_maker g) data.

Definition LiveGame_their_turn_coin_spent (coin_string : CoinString)
    (conditions : list CoinCondition) (current_state : N) (parsed_solution : ParsedRefereeSolution)
    : eff LiveGame TheirTurnCoinSpentResult :=
  g ← get_state;
  spent ← lift_result (their_turn_coin_spent (referee_maker g) coin_string conditions
                         current_state parsed_solution);
  let new_ref : option Referee := spent.1 in
  let new_ph :=
    match spent.2 with
    | Expected _ expected_ph _ _ => expected_ph
    | _ => on_chain_referee_puzzle_hash (default (referee_maker g) new_ref)
    end in
  _ ← put_state (g <| referee_maker := default (referee_maker g) new_ref |>
                   <| last_referee_puzzle_hash := new_ph |>);
  mret spent.2.

Definition LiveGame_get_transaction_for_timeout (g : LiveGame) (coin : CoinString)
    : result Error (option Spend) :=
  get_transaction_for_timeout (referee_maker g) coin.

(** ** The other records of the channel *)
Record ProposedGame := mkProposedGame {
  pg_game_id : GameID;
  group_id : GameID;
  initial_puzzle_hash : PuzzleHash;
  referee : Referee;
  pg_my_contribution : Amount;
  pg_their_contribution : Amount;
}.

Record CachedAcceptSettlement := mkCachedAccept {
  ca_game_id : GameID;
  ca_puzzle_hash : PuzzleHash;
  ca_live_game : LiveGame;
  at_stake_amount : Amount;
  our_share_amount : Amount;
  ca_game_finished : bool;
}.

Inductive CachedRedoActions : Type :=
| RedoAcceptSettlement (accept : CachedAcceptSettlement)
| RedoSendMove (move : CachedSendMove)
| ProposalAccepted (game_id : GameID).

Record ChannelMoveResult := mkChannelMoveResult {
  cmr_state_number : N;
  readable_their_move : Program;
  cmr_message : bytes;
  cmr_mover_share : Amount;
}.

Record MoveResult := mkMoveResult {
  mr_game_move : GameMoveDetails;
  mr_state_number : N;
  is_finished : bool;
}.

Record ChannelCoinSpendInfo := mkChannelCoinSpendInfo {
  ccs_solution : Program;
  ccs_conditions : Program;
  ccs_aggsig : Aggsig;
}.

Record HandshakeResult := mkHandshakeResult {
  channel_puzzle_reveal : Puzzle;
  hr_amount : Amount;
  hr_spend : ChannelCoinSpendInfo;
}.

Record ChannelInitiationResult := mkChannelInitiation {
  channel_puzzle_hash_up : PuzzleHash;
  my_initial_channel_half_signature_peer : Aggsig;
}.

Record ChannelCoinSpentResult := mkChannelCoinSpent {
  csr_transaction : Spend;
  csr_timeout : bool;
  games_canceled : list GameID;
  unrolling_state_number : N;
}.
#[export] Instance ChannelCoinSpentResult_eta : RecordEta ChannelCoinSpentResult := fun r =>
  mkChannelCoinSpent (csr_transaction r) (csr_timeout r) (games_canceled r)
    (unrolling_state_number r).

Inductive TimeoutClaimState : Type := Waiting | Finished.

Record OnChainGameState := mkOnChainGameState {
  og_game_id : GameID;
  og_puzzle_hash : PuzzleHash;
  our_turn : bool;
  og_state_number : N;
  timeout_claim : TimeoutClaimState;
  pending_slash_amount : option Amount;
  cheating_move_mover_share : option Amount;
  timeout_claim_armed : bool;
  notification_sent : bool;
  og_game_timeout : Timeout;
  og_game_finished : bool;
}.

#[export] Instance OnChainGameState_eta : RecordEta OnChainGameState := fun g =>
  mkOnChainGameState (og_game_id g) (og_puzzle_hash g) (our_turn g) (og_state_number g)
    (timeout_claim g) (pending_slash_amount g) (cheating_move_mover_share g)
    (timeout_claim_armed g) (notification_sent g) (og_game_timeout g) (og_game_finished g).

Record OnChainGameCoin := mkOnChainGameCoin {
  game_id_up : GameID;
  coin_string_up : option CoinString;
}.

Inductive CoinSpentInformation : Type :=
| OurReward (ph : PuzzleHash) (amount : Amount)
| TheirSpend (result : TheirTurnCoinSpentResult).

(** ** Lemmas *)

(** The amount of a game never changes. *)
Lemma my_turn_make_move_amount r readable entropy n r' w :
  my_turn_make_move r readable entropy n = Ok (r', w) -> fixed r' = fixed r.
Proof.
  destruct r as [t|t]; [|done]. cbn. unfold MyTurnReferee_my_turn_make_move.
  intros (? & _ & H)%bind_Ok. apply bind_Ok in H as (? & _ & H).
  apply bind_Ok in H as (? & _ & H). apply bind_Ok in H as (? & _ & H).
  apply bind_Ok in H as (? & _ & H). by injection H as <- _.
Qed.

Lemma their_move_fixed t details n t' out :
  TheirTurnReferee_their_turn_move_off_chain t details n = Ok (Some t', out) ->
  my_fixed t' = their_fixed t.
Proof.
  unfold TheirTurnReferee_their_turn_move_off_chain.
  intros (? & _ & H)%bind_Ok. apply bind_Ok in H as (? & _ & H). cbn in H.
  apply bind_Ok in H as (? & _ & H). apply bind_Ok in H as ([?|] & _ & H); [|done].
  apply bind_Ok in H as (? & _ & H). apply bind_Ok in H as (? & _ & H).
  apply bind_Ok in H as (? & _ & H). destruct (find_slash _ _ _); [done|]. by injection H as <- _.
Qed.

Lemma their_turn_move_amount r details n r' out :
  their_turn_move_off_chain r details n = Ok (Some r', out) -> fixed r' = fixed r.
Proof.
  destruct r as [t|t]; [done|]. cbn.
  destruct (TheirTurnReferee_their_turn_move_off_chain _ _ _) as [[[t'|] o]|] eqn:Hm; try done.
  intros [= <- _]. by apply their_move_fixed in Hm.
Qed.

Lemma their_coin_spent_fixed r c conds n sol r' res :
  their_turn_coin_spent r c conds n sol = Ok (Some r', res) -> fixed r' = fixed r.
Proof.
  unfold their_turn_coin_spent. destruct (expected_spend r c conds) as [[ph amt]|].
  { by intros [= <- _]. }
  destruct sol as [|nm vih ms mms|].
  - intros (? & _ & H)%bind_Ok. by injection H as <- _.
  - destruct r as [t|t]; [done|]. cbn [fixed]. unfold TheirTurnReferee_their_turn_coin_spent.
    intros (d & _ & H)%bind_Ok. apply bind_Ok in H as ([o out] & Hm & H). destruct (slash out).
    + apply bind_Ok in H as (? & _ & H). by injection H.
    + apply bind_Ok in H as (t' & Ht' & H). injection H as <- _. apply ok_or_Ok in Ht' as ->.
      apply their_move_fixed in Hm. cbn. by destruct t' as [? ? ? [] ?].
  - intros (? & _ & H)%bind_Ok. by injection H as <- _.
Qed.
End live_game.
