(* ===== verification/ChannelState.v ===== *)
(** * The channel state

    [src/channel_state/mod.rs]: what one player knows of the channel: balances,
    games, proposals, the latest signed unrolls.  A method on [&mut self] is an
    [eff ChannelState]; a method on [&self] is a function of the state.  The
    allocator inside [ChannelEnv] is not modelled, the rest of it is an
    argument. *)
From S2P Require Import Prelude Extern World Coins Clvm StandardCoin GameHandler RefereeTypes.
From S2P Require Import Referee UnrollCoin LiveGame.

Section channel.
Context {arch : Arch} {sha2 : Sha2} {bigint : BigInt} {clvm : Clvm} {bls : Bls}.
Context {puzzles : ChiaPuzzles} {order : HashOrder}.

Record ChannelState := mkChannelState {
  private_keys : ChannelPrivateKeys;
  their_channel_coin_public_key : PublicKey;
  their_unroll_coin_public_key : PublicKey;
  ch_their_referee_pubkey : PublicKey;
  ch_their_reward_puzzle_hash : PuzzleHash;
  ch_their_reward_payout_signature : Aggsig;
  ch_reward_puzzle_hash : PuzzleHash;
  my_out_of_game_balance : Amount;
  their_out_of_game_balance : Amount;
  my_allocated_balance : Amount;
  their_allocated_balance : Amount;
  have_potato : bool;
  unroll_advance_timeout : Timeout;
  cached_redo_actions : list CachedRedoActions;
  state_number : N;
  my_next_nonce : N;
  their_next_nonce : N;
  channel_coin_spend : CoinSpend;
  latest_sent_unroll : ChannelUnrollSpendInfo;
  latest_received_unroll : option ChannelUnrollSpendInfo;
  unroll_puzzle_hash_map : gmap PuzzleHash HistoricalUnrollSpendInfo;
  live_games : list LiveGame;
  pending_settlements : list LiveGame;
  proposed_games : list ProposedGame;
}.
#[export] Instance ChannelState_eta : RecordEta ChannelState := fun s =>
  mkChannelState (private_keys s) (their_channel_coin_public_key s)
    (their_unroll_coin_public_key s) (ch_their_referee_pubkey s) (ch_their_reward_puzzle_hash s)
    (ch_their_reward_payout_signature s) (ch_reward_puzzle_hash s) (my_out_of_game_balance s)
    (their_out_of_game_balance s) (my_allocated_balance s) (their_allocated_balance s)
    (have_potato s) (unroll_advance_timeout s) (cached_redo_actions s) (state_number s)
    (my_next_nonce s) (their_next_nonce s) (channel_coin_spend s) (latest_sent_unroll s)
    (latest_received_unroll s) (unroll_puzzle_hash_map s) (live_games s) (pending_settlements s)
    (proposed_games s).

(** ** Observations *)
Definition is_initial_potato (s : ChannelState) : bool :=
  started_with_potato (unroll_coin (latest_sent_unroll s)).
Definition is_our_nonce_parity (s : ChannelState) (game_id : GameID) : bool :=
  (game_id mod 2 =? my_next_nonce s mod 2)%N.
Definition timeout_state_number (s : ChannelState) : option N :=
  (fun t => unroll_state_number (unroll_coin t)) <$> latest_received_unroll s.
Definition live_game_ids (s : ChannelState) : list GameID := lg_game_id <$> live_games s.
Definition all_game_ids (s : ChannelState) : list GameID :=
  lg_game_id <$> live_games s ++ pending_settlements s.
Definition pending_proposal_accept_game_ids (s : ChannelState) : list GameID :=
  omap (fun entry => match entry with ProposalAccepted gid => Some gid | _ => None end)
    (cached_redo_actions s).
Definition has_id (game_id : GameID) (g : LiveGame) : bool := (lg_game_id g =? game_id)%N.
Definition find_live_game (s : ChannelState) (game_id : GameID) : option LiveGame :=
  find_first (has_id game_id) (live_games s).
Definition amount (s : ChannelState) (on_chain : bool) : Amount :=
  let allocated := Amount_add (my_allocated_balance s) (their_allocated_balance s) in
  if on_chain then allocated
  else Amount_add (Amount_add allocated (my_out_of_game_balance s)) (their_out_of_game_balance s).
Definition channel_coin (s : ChannelState) : CoinString := coin (channel_coin_spend s).
Definition has_active_games (s : ChannelState) : bool := negb (bool_decide (length (live_games s) = 0)).
Definition has_zero_payout (s : ChannelState) : bool :=
  (my_out_of_game_balance s =? 0)%N && negb (has_active_games s).

(** The first entry, in whatever order the map is visited. *)
Definition get_historical_unroll_for_state (s : ChannelState) (n : N)
    : result Error HistoricalUnrollSpendInfo :=
  ok_or (StrErr "No stored unroll matches on-chain state")
    (snd <$> find_first (fun kv => (historical_state_number kv.2 =? n)%N)
               (hm_iter (unroll_puzzle_hash_map s))).

Definition unroll_coin_condition_inputs (s : ChannelState) (mine theirs : Amount)
    (coins : list (PuzzleHash * Amount)) : UnrollCoinConditionInputs :=
  mkUnrollInputs (ch_reward_puzzle_hash s) (ch_their_reward_puzzle_hash s) mine theirs coins
    (unroll_advance_timeout s).

Definition get_aggregate_unroll_public_key (s : ChannelState) : PublicKey :=
  pk_add (private_to_public_key (my_unroll_coin_private_key (private_keys s)))
    (their_unroll_coin_public_key s).
Definition get_aggregate_channel_public_key (s : ChannelState) : PublicKey :=
  pk_add (private_to_public_key (my_channel_coin_private_key (private_keys s)))
    (their_channel_coin_public_key s).

(** ** Spending the channel coin *)
Definition get_solution_and_signature_from_conditions (coin_id : CoinID) (env : ChannelEnv)
    (private_key : PrivateKey) (aggregate_public_key : PublicKey) (conditions : Program)
    : result Error BrokenOutCoinSpendInfo :=
  conditions_nodeptr ← Program_to_nodeptr conditions;
  standard_solution_partial private_key coin_id conditions_nodeptr aggregate_public_key
    (env_agg_sig_me_additional_data env) true.

Definition get_solution_and_signature (coin_id : CoinID) (env : ChannelEnv)
    (private_key : PrivateKey) (aggregate_channel_public_key aggregate_unroll_public_key : PublicKey)
    (amount : Amount) (unroll : UnrollCoin) : result Error BrokenOutCoinSpendInfo :=
  unroll_puzzle ← make_curried_unroll_puzzle env aggregate_unroll_public_key unroll;
  let unroll_puzzle_hash := node_sha256tree unroll_puzzle in
  let create_conditions := list_node [create_coin_node unroll_puzzle_hash amount] in
  conditions_program ← Program_from_nodeptr create_conditions;
  get_solution_and_signature_from_conditions coin_id env private_key aggregate_channel_public_key
    conditions_program.

Definition create_conditions_and_signature_of_channel_coin (s : ChannelState) (env : ChannelEnv)
    (unroll : UnrollCoin) : result Error BrokenOutCoinSpendInfo :=
  amount ← ok_or (StrErr "state channel coin has no amount") (CoinString_amount (channel_coin s));
  get_solution_and_signature (to_coin_id (channel_coin s)) env
    (my_channel_coin_private_key (private_keys s)) (get_aggregate_channel_public_key s)
    (get_aggregate_unroll_public_key s) amount unroll.

Definition verify_channel_coin_from_peer_signatures (s : ChannelState) (env : ChannelEnv)
    (their_channel_half_signature : Aggsig) (conditions : Program)
    : result Error BrokenOutCoinSpendInfo :=
  let aggregate_public_key := get_aggregate_channel_public_key s in
  spend ← get_solution_and_signature_from_conditions (to_coin_id (channel_coin s)) env
    (my_channel_coin_private_key (private_keys s)) aggregate_public_key conditions;
  let full_signature := sig_add (broken_signature spend) their_channel_half_signature in
  if sig_verify full_signature aggregate_public_key (message spend) then
    Ok (mkBroken (broken_solution spend) (broken_conditions spend) (message spend) full_signature)
  else Err (StrErr "failed to verify signature").

Definition send_potato_clean_shutdown (s : ChannelState) (env : ChannelEnv) (conditions : sexp)
    : result Error Spend :=
  let aggregate_public_key := get_aggregate_channel_public_key s in
  conditions_program ← Program_from_nodeptr conditions;
  spend ← get_solution_and_signature_from_conditions (to_coin_id (channel_coin s)) env
    (my_channel_coin_private_key (private_keys s)) aggregate_public_key conditions_program;
  puzzle ← puzzle_for_pk aggregate_public_key;
  mret (mkSpend puzzle (broken_solution spend) (broken_signature spend)).

Definition received_potato_clean_shutdown (s : ChannelState) (env : ChannelEnv)
    (their_channel_half_signature : Aggsig) (conditions : sexp)
    : result Error BrokenOutCoinSpendInfo :=
  conditions_program ← Program_from_nodeptr conditions;
  verify_channel_coin_from_peer_signatures s env their_channel_half_signature conditions_program.

(** ** Unrolls *)
Definition record_unroll_puzzle_hash_for (env : ChannelEnv) (info : ChannelUnrollSpendInfo)
    : eff ChannelState unit :=
  s ← get_state;
  puzzle_node ← lift_result (make_curried_unroll_puzzle env (get_aggregate_unroll_public_key s)
                               (unroll_coin info));
  let puzzle_hash := node_sha256tree puzzle_node in
  conditions_hash ← lift_result (get_conditions_hash_for_unroll_puzzle (unroll_coin info));
  timeout ← lift_result (get_conditions_for_unroll_coin_spend (unroll_coin info));
  modify_state (fun s => s <| unroll_puzzle_hash_map :=
    <[puzzle_hash := mkHistorical (unroll_state_number (unroll_coin info)) conditions_hash timeout]>
      (unroll_puzzle_hash_map s) |>).

Definition record_unroll_puzzle_hash (env : ChannelEnv) : eff ChannelState unit :=
  s ← get_state; record_unroll_puzzle_hash_for env (latest_sent_unroll s).

Definition sent_coin (s : ChannelState) : UnrollCoin := unroll_coin (latest_sent_unroll s).
Definition set_sent_coin (u : UnrollCoin) (s : ChannelState) : ChannelState :=
  s <| latest_sent_unroll := mkUnrollSpendInfo u (signatures (latest_sent_unroll s)) |>.

Definition update_sent_coin (env : ChannelEnv) (inputs : UnrollCoinConditionInputs)
    : eff ChannelState Aggsig :=
  s ← get_state;
  on_part sent_coin set_sent_coin
    (UnrollCoin_update (my_unroll_coin_private_key (private_keys s))
       (their_unroll_coin_public_key s) inputs).

Definition compute_game_coin_unroll_data (unroll_coin : option CoinID) (skip_game : list GameID)
    (skip_coin_id : option GameID) (games : list LiveGame) : list OnChainGameCoin :=
  let parent_coin_id := default CoinID_default unroll_coin in
  (fun game =>
     mkOnChainGameCoin (lg_game_id game)
       (if bool_decide (skip_coin_id = Some (lg_game_id game)) then None
        else Some (CoinString_from_parts parent_coin_id (last_referee_puzzle_hash game)
                     (LiveGame_get_amount game))))
  <$> retain (fun game => negb (bool_decide (lg_game_id game ∈ skip_game))) games.

Definition compute_unroll_data_for_games (skip_game : list GameID) (skip_coin_id : option GameID)
    (games : list LiveGame) : list (PuzzleHash * Amount) :=
  (fun p => (p.1.2, p.2))
  <$> omap (fun ngc => coin_string_up ngc ≫= to_parts)
        (compute_game_coin_unroll_data None skip_game skip_coin_id games).

(** What the current balances and games unroll to. *)
Definition current_inputs (s : ChannelState) : UnrollCoinConditionInputs :=
  unroll_coin_condition_inputs s (my_out_of_game_balance s) (their_out_of_game_balance s)
    (compute_unroll_data_for_games [] None (live_games s)).

Definition get_initial_signatures (s : ChannelState) : result Error StateUpdateSignatures :=
  half ← get_unroll_coin_signature (sent_coin s);
  mret (mkStateUpdateSignatures (signature (bundle (channel_coin_spend s))) half).

Definition spend_info (spend : BrokenOutCoinSpendInfo) : ChannelCoinSpendInfo :=
  mkChannelCoinSpendInfo (broken_solution spend) (broken_conditions spend) (broken_signature spend).

(** ** The handshake *)
Definition initial_channel_state (keys : ChannelPrivateKeys) (launcher_coin_id : CoinID)
    (we_start_with_potato : bool)
    (their_channel_pubkey their_unroll_pubkey their_referee_pubkey : PublicKey)
    (their_reward_puzzle_hash : PuzzleHash) (their_reward_payout_signature : Aggsig)
    (my_contribution their_contribution : Amount) (unroll_timeout : Timeout)
    (reward_puzzle_hash channel_coin_puzzle_hash : PuzzleHash) : ChannelState :=
  mkChannelState keys their_channel_pubkey their_unroll_pubkey their_referee_pubkey
    their_reward_puzzle_hash their_reward_payout_signature reward_puzzle_hash
    my_contribution their_contribution 0 0 we_start_with_potato unroll_timeout [] 0
    (if we_start_with_potato then 0 else 1)%N (if we_start_with_potato then 1 else 0)%N
    (mkCoinSpend (CoinString_from_parts launcher_coin_id channel_coin_puzzle_hash
                    (Amount_add my_contribution their_contribution)) Spend_default)
    (mkUnrollSpendInfo (mkUnrollCoin we_start_with_potato 0 None) StateUpdateSignatures_default)
    None ∅ [] [] [].

(** The part of [new] that works on the value it has built. *)
Definition set_up_channel (env : ChannelEnv) (channel_coin_puzzle_hash : PuzzleHash)
    : eff ChannelState ChannelInitiationResult :=
  s ← get_state;
  let inputs := unroll_coin_condition_inputs s (my_out_of_game_balance s)
    (their_out_of_game_balance s) [] in
  _ ← update_sent_coin env inputs;
  _ ← record_unroll_puzzle_hash env;
  s ← get_state;
  spend ← lift_result (create_conditions_and_signature_of_channel_coin s env (sent_coin s));
  puzzle ← lift_result (puzzle_for_synthetic_public_key (standard_puzzle env)
                          (get_aggregate_channel_public_key s));
  _ ← put_state (s <| channel_coin_spend := mkCoinSpend (channel_coin s)
                   (mkSpend puzzle (broken_solution spend) (broken_signature spend)) |>);
  mret (mkChannelInitiation channel_coin_puzzle_hash (broken_signature spend)).

Definition ChannelState_new (env : ChannelEnv) (keys : ChannelPrivateKeys)
    (launcher_coin_id : CoinID) (we_start_with_potato : bool)
    (their_channel_pubkey their_unroll_pubkey their_referee_pubkey : PublicKey)
    (their_reward_puzzle_hash : PuzzleHash) (their_reward_payout_signature : Aggsig)
    (my_contribution their_contribution : Amount) (unroll_timeout : Timeout)
    (reward_puzzle_hash : PuzzleHash) : result Error (ChannelState * ChannelInitiationResult) :=
  let our_channel_pubkey := private_to_public_key (my_channel_coin_private_key keys) in
  let our_unroll_pubkey := private_to_public_key (my_unroll_coin_private_key keys) in
  _ ← check (negb (bool_decide (their_channel_pubkey = our_channel_pubkey)))
        (Channel "Duplicated channel coin public key");
  _ ← check (negb (bool_decide (their_unroll_pubkey = our_unroll_pubkey)))
        (Channel "Duplicated unroll coin public key");
  _ ← check (negb (unroll_timeout =? 0)%N) (Channel "unroll_advance_timeout must be positive");
  let aggregate_public_key := pk_add our_channel_pubkey their_channel_pubkey in
  let channel_coin_puzzle_hash := puzzle_hash_for_synthetic_public_key aggregate_public_key in
  match set_up_channel env channel_coin_puzzle_hash
          (initial_channel_state keys launcher_coin_id we_start_with_potato their_channel_pubkey
             their_unroll_pubkey their_referee_pubkey their_reward_puzzle_hash
             their_reward_payout_signature my_contribution their_contribution unroll_timeout
             reward_puzzle_hash channel_coin_puzzle_hash) with
  | (Ok initiation, myself) => Ok (myself, initiation)
  | (Err e, _) => Err e
  end.

Definition set_launcher_coin_id (launcher_coin_id : CoinID) : eff ChannelState unit :=
  s ← get_state;
  parts ← lift_result (ok_or (StrErr "channel coin not initialized") (to_parts (channel_coin s)));
  let '(_, ph, amt) := parts in
  put_state (s <| channel_coin_spend :=
    mkCoinSpend (CoinString_from_parts launcher_coin_id ph amt) (bundle (channel_coin_spend s)) |>).

Definition verify_and_store_initial_peer_signatures (env : ChannelEnv)
    (sigs : StateUpdateSignatures) : eff ChannelState ChannelCoinSpendInfo :=
  s ← get_state;
  ok ← lift_result (UnrollCoin_verify (get_aggregate_unroll_public_key s)
                      (unroll_preempt_half_sig sigs) (sent_coin s));
  _ ← guard_or ok (StrErr "bad initial unroll signature");
  spend ← lift_result (create_conditions_and_signature_of_channel_coin s env (sent_coin s));
  verified ← lift_result (verify_channel_coin_from_peer_signatures s env (channel_half_sig sigs)
                            (broken_conditions spend));
  puzzle ← lift_result (puzzle_for_synthetic_public_key (standard_puzzle env)
                          (get_aggregate_channel_public_key s));
  _ ← put_state (s <| channel_coin_spend := mkCoinSpend (channel_coin s)
                   (mkSpend puzzle (broken_solution verified) (broken_signature verified)) |>
                   <| latest_received_unroll := Some (mkUnrollSpendInfo (sent_coin s) sigs) |>);
  mret (spend_info verified).

Definition finish_handshake (s : ChannelState) (env : ChannelEnv)
    (their_initial_channel_half_signature : Aggsig) : result Error HandshakeResult :=
  spend ← create_conditions_and_signature_of_channel_coin s env (sent_coin s);
  let combined_signature := sig_add (broken_signature spend) their_initial_channel_half_signature in
  channel_coin_puzzle ← puzzle_for_synthetic_public_key (standard_puzzle env)
    (get_aggregate_channel_public_key s);
  amount ← ok_or (StrErr "state channel coin has no amount") (CoinString_amount (channel_coin s));
  mret (mkHandshakeResult channel_coin_puzzle amount
          (mkChannelCoinSpendInfo (broken_solution spend) (broken_conditions spend)
             combined_signature)).

(** ** Passing the potato *)
Definition update_cached_unroll_state (env : ChannelEnv) : eff ChannelState StateUpdateSignatures :=
  s ← get_state;
  let unroll_inputs := current_inputs s in
  let n := usize_add (state_number s) 1 in
  _ ← put_state (set_sent_coin ((sent_coin s) <| unroll_state_number := n |>)
                   (s <| state_number := n |>));
  _ ← update_sent_coin env unroll_inputs;
  _ ← record_unroll_puzzle_hash env;
  _ ← modify_state (fun s => s
        <| latest_sent_unroll := mkUnrollSpendInfo (sent_coin s) StateUpdateSignatures_default |>
        <| have_potato := false |>);
  s ← get_state;
  spend ← lift_result (create_conditions_and_signature_of_channel_coin s env (sent_coin s));
  our_half ← lift_result (get_unroll_coin_signature (sent_coin s));
  mret (mkStateUpdateSignatures (broken_signature spend) our_half).

Definition send_empty_potato (env : ChannelEnv) : eff ChannelState StateUpdateSignatures :=
  update_cached_unroll_state env.

Definition received_potato_verify_signatures (env : ChannelEnv) (sigs : StateUpdateSignatures)
    (inputs : UnrollCoinConditionInputs) : eff ChannelState BrokenOutCoinSpendInfo :=
  _ ← modify_state (fun s => s <| pending_settlements := [] |>);
  s ← get_state;
  let test_unroll := (sent_coin s) <| unroll_state_number := usize_add (state_number s) 1 |> in
  let '(updated, test_unroll) :=
    UnrollCoin_update (my_unroll_coin_private_key (private_keys s)) (their_unroll_coin_public_key s)
      inputs test_unroll in
  _ ← lift_result updated;
  ok ← lift_result (UnrollCoin_verify (get_aggregate_unroll_public_key s)
                      (unroll_preempt_half_sig sigs) test_unroll);
  _ ← guard_or ok (StrErr "bad unroll signature verify");
  spend ← lift_result (create_conditions_and_signature_of_channel_coin s env test_unroll);
  _ ← lift_result (verify_channel_coin_from_peer_signatures s env (channel_half_sig sigs)
                     (broken_conditions spend));
  _ ← modify_state (fun s => s <| state_number := usize_add (state_number s) 1 |>);
  let received_info := mkUnrollSpendInfo test_unroll sigs in
  _ ← record_unroll_puzzle_hash_for env received_info;
  _ ← modify_state (fun s => s <| latest_received_unroll := Some received_info |>
                               <| have_potato := true |>);
  mret (mkBroken (broken_solution spend) (broken_conditions spend) (message spend)
          (sig_add (broken_signature spend) (channel_half_sig sigs))).

Definition is_cached_accept (entry : CachedRedoActions) : bool :=
  match entry with RedoAcceptSettlement _ => true | _ => false end.

Definition verify_received_batch_signatures (env : ChannelEnv) (sigs : StateUpdateSignatures)
    : eff ChannelState ChannelCoinSpendInfo :=
  s ← get_state;
  spend ← received_potato_verify_signatures env sigs (current_inputs s);
  _ ← modify_state (fun s => s <| cached_redo_actions :=
        retain is_cached_accept (cached_redo_actions s) |>);
  mret (spend_info spend).

(** [received_empty_potato] has the same body. *)
Definition received_empty_potato (env : ChannelEnv) (sigs : StateUpdateSignatures)
    : eff ChannelState ChannelCoinSpendInfo :=
  s ← get_state;
  spend ← received_potato_verify_signatures env sigs (current_inputs s);
  _ ← modify_state (fun s => s <| cached_redo_actions :=
        retain is_cached_accept (cached_redo_actions s) |>);
  mret (spend_info spend).
End channel.
