(* ===== verification/ChannelGames.v ===== *)
(** * Proposals, games and settlements of a channel

    The second half of [src/channel_state/mod.rs]: what changes the balances
    and the games between two potatoes, and what happens to them on chain. *)
From S2P Require Import Prelude Extern World Coins Clvm StandardCoin GameHandler RefereeTypes.
From S2P Require Import Referee UnrollCoin LiveGame ChannelState.

Section games.
Context {arch : Arch} {sha2 : Sha2} {bigint : BigInt} {clvm : Clvm} {bls : Bls}.
Context {puzzles : ChiaPuzzles} {order : HashOrder}.

(** ** Draining *)
Definition allocate_my_nonce : eff ChannelState N :=
  s ← get_state;
  _ ← put_state (s <| my_next_nonce := u64_add (my_next_nonce s) 2 |>);
  mret (my_next_nonce s).

Definition take_live_games : eff ChannelState (list LiveGame) :=
  s ← get_state; _ ← put_state (s <| live_games := [] |>); mret (live_games s).
Definition take_pending_settlements : eff ChannelState (list LiveGame) :=
  s ← get_state; _ ← put_state (s <| pending_settlements := [] |>); mret (pending_settlements s).
Definition take_cached_redo_actions : eff ChannelState (list CachedRedoActions) :=
  s ← get_state; _ ← put_state (s <| cached_redo_actions := [] |>); mret (cached_redo_actions s).

Definition accept_summary (entry : CachedRedoActions) : option (GameID * Amount * bool) :=
  match entry with
  | RedoAcceptSettlement acc => Some (ca_game_id acc, our_share_amount acc, ca_game_finished acc)
  | _ => None
  end.

Definition drain_cached_accept_settlements : eff ChannelState (list (GameID * Amount * bool)) :=
  s ← get_state;
  _ ← put_state (s <| cached_redo_actions :=
        retain (fun e => negb (is_cached_accept e)) (cached_redo_actions s) |>);
  mret (omap accept_summary (cached_redo_actions s)).

(** A cached settlement whose game is not among the survivors. *)
Definition resolved_accept (surviving_ids : gset GameID) (entry : CachedRedoActions) : bool :=
  match entry with
  | RedoAcceptSettlement acc => negb (bool_decide (ca_game_id acc ∈ surviving_ids))
  | _ => false
  end.

Definition drain_preempt_resolved_accept_settlements (surviving_ids : gset GameID)
    : eff ChannelState (list (GameID * Amount * bool)) :=
  s ← get_state;
  let resolved := omap accept_summary
    (retain (resolved_accept surviving_ids) (cached_redo_actions s)) in
  _ ← put_state (s
        <| cached_redo_actions :=
             retain (fun e => negb (resolved_accept surviving_ids e)) (cached_redo_actions s) |>
        <| pending_settlements :=
             fold_left (fun pending r => retain (fun g => negb (has_id r.1.1 g)) pending) resolved
               (pending_settlements s) |>);
  mret resolved.

Definition push_cached_action (entry : CachedRedoActions) : eff ChannelState unit :=
  modify_state (fun s => s <| cached_redo_actions := cached_redo_actions s ++ [entry] |>).

(** ** Proposals *)
Definition is_proposal (game_id : GameID) (p : ProposedGame) : bool := (pg_game_id p =? game_id)%N.

Definition new_referee (env : ChannelEnv) (start_info : GameStartInfo) (s : ChannelState)
    : result Error (Referee * PuzzleHash) :=
  referee_identity ← ChiaIdentity_new (my_referee_private_key (private_keys s));
  Referee_new (env_referee_coin_puzzle env) (env_referee_coin_puzzle_hash env) start_info
    referee_identity (ch_their_referee_pubkey s) (ch_their_reward_puzzle_hash s)
    (ch_their_reward_payout_signature s) (ch_reward_puzzle_hash s) (gsi_game_id start_info)
    (env_agg_sig_me_additional_data env) (state_number s).

Definition push_proposal (start_info : GameStartInfo) (group_id : GameID)
    (referee : Referee * PuzzleHash) : eff ChannelState unit :=
  modify_state (fun s => s <| proposed_games := proposed_games s ++
    [mkProposedGame (gsi_game_id start_info) group_id referee.2 referee.1
       (my_contribution_this_game start_info) (their_contribution_this_game start_info)] |>).

Definition send_propose_game (env : ChannelEnv) (start_info : GameStartInfo) (group_id : GameID)
    : eff ChannelState unit :=
  s ← get_state;
  r ← lift_result (new_referee env start_info s);
  push_proposal start_info group_id r.

Definition propose_game (env : ChannelEnv) (start_info : GameStartInfo)
    : eff ChannelState StateUpdateSignatures :=
  _ ← send_propose_game env start_info (gsi_game_id start_info);
  update_cached_unroll_state env.

Definition MAX_NONCE_GAP : N := 1000.
Definition MAX_PROPOSALS : nat := 100.

Definition apply_received_proposal (env : ChannelEnv) (start_info : GameStartInfo)
    (group_id : GameID) : eff ChannelState unit :=
  s ← get_state;
  let new_game_nonce := gsi_game_id start_info in
  let expected_parity := (their_next_nonce s mod 2)%N in
  _ ← guard_or (new_game_nonce mod 2 =? expected_parity)%N (StrErr "received nonce has wrong parity");
  _ ← guard_or (their_next_nonce s <=? new_game_nonce)%N (StrErr "received nonce < minimum expected");
  _ ← guard_or (new_game_nonce <=? u64_add (their_next_nonce s) MAX_NONCE_GAP)%N
        (StrErr "received nonce too far ahead of expected");
  sum ← lift_result (ok_or (StrErr "proposal contributions overflow")
          (u64_checked_add (my_contribution_this_game start_info)
             (their_contribution_this_game start_info)));
  _ ← guard_or (gsi_amount start_info =? sum)%N
        (StrErr "proposal amount != my_contribution + their_contribution");
  _ ← guard_or (negb (gsi_timeout start_info =? 0)%N)
        (StrErr "proposal game_timeout must be positive");
  _ ← guard_or (length (proposed_games s) <? MAX_PROPOSALS)%nat
        (StrErr "too many outstanding proposals");
  r ← lift_result (new_referee env start_info s);
  _ ← modify_state (fun s => s <| their_next_nonce := u64_add new_game_nonce 2 |>);
  push_proposal start_info group_id r.

Definition accept_proposal_inner (game_id : GameID) : eff ChannelState unit :=
  s ← get_state;
  idx ← lift_result (ok_or (StrErr "no proposal with id")
                       (position (is_proposal game_id) (proposed_games s)));
  proposal ← lift_result (ok_or (Panicked "removal index out of bounds") (proposed_games s !! idx));
  _ ← modify_state (fun s => s <| proposed_games := delete idx (proposed_games s) |>);
  if (my_out_of_game_balance s <? pg_my_contribution proposal)%N
     || (their_out_of_game_balance s <? pg_their_contribution proposal)%N then
    _ ← modify_state (fun s => s <| proposed_games := vec_insert idx proposal (proposed_games s) |>);
    throw (StrErr "insufficient balance to accept proposal")
  else
    _ ← modify_state (fun s => s
          <| my_allocated_balance := Amount_add (my_allocated_balance s) (pg_my_contribution proposal) |>
          <| their_allocated_balance :=
               Amount_add (their_allocated_balance s) (pg_their_contribution proposal) |>);
    mine ← lift_result (Amount_checked_sub (my_out_of_game_balance s) (pg_my_contribution proposal));
    _ ← modify_state (fun s => s <| my_out_of_game_balance := mine |>);
    theirs ← lift_result
      (Amount_checked_sub (their_out_of_game_balance s) (pg_their_contribution proposal));
    _ ← modify_state (fun s => s <| their_out_of_game_balance := theirs |>);
    modify_state (fun s => s <| live_games := live_games s ++
      [mkLiveGame (pg_game_id proposal) (initial_puzzle_hash proposal) (referee proposal)
         (pg_my_contribution proposal) (pg_their_contribution proposal)] |>).

Definition send_accept_proposal (game_id : GameID) : eff ChannelState unit :=
  _ ← accept_proposal_inner game_id; push_cached_action (ProposalAccepted game_id).

Definition apply_received_accept_proposal (game_id : GameID) : eff ChannelState unit :=
  s ← get_state;
  _ ← guard_or (is_our_nonce_parity s game_id)
        (StrErr "peer attempted to accept their own proposal");
  accept_proposal_inner game_id.

(** [send_cancel_proposal] and [received_cancel_proposal] differ in the text
    of their error. *)
Definition remove_proposal (missing : string) (game_id : GameID) : eff ChannelState unit :=
  s ← get_state;
  idx ← lift_result (ok_or (StrErr missing) (position (is_proposal game_id) (proposed_games s)));
  put_state (s <| proposed_games := delete idx (proposed_games s) |>).
Definition send_cancel_proposal : GameID -> eff ChannelState unit :=
  remove_proposal "no proposal with id".
Definition received_cancel_proposal : GameID -> eff ChannelState unit :=
  remove_proposal "cancel for unknown proposal".

Definition cancel_all_proposals : eff ChannelState (list GameID) :=
  s ← get_state;
  _ ← put_state (s <| proposed_games := [] |>);
  mret (pg_game_id <$> proposed_games s).

Definition has_our_outstanding_proposals (s : ChannelState) : bool :=
  existsb (fun p => is_our_nonce_parity s (pg_game_id p)) (proposed_games s).
Definition find_proposal (s : ChannelState) (game_id : GameID) : option ProposedGame :=
  find_first (is_proposal game_id) (proposed_games s).
Definition is_game_proposed (s : ChannelState) (game_id : GameID) : bool :=
  existsb (is_proposal game_id) (proposed_games s).
Definition group_member_ids (s : ChannelState) (game_id : GameID) : result Error (list GameID) :=
  gid ← ok_or (StrErr "group_member_ids: no proposal with id")
    (group_id <$> find_first (is_proposal game_id) (proposed_games s));
  mret (pg_game_id <$> retain (fun p => (group_id p =? gid)%N) (proposed_games s)).
Definition pending_peer_proposal_ids (s : ChannelState) : list GameID :=
  pg_game_id <$> retain (fun p => negb (is_our_nonce_parity s (pg_game_id p))) (proposed_games s).

(** ** Live games *)
Definition has_live_game (s : ChannelState) (game_id : GameID) : bool :=
  existsb (has_id game_id) (live_games s).
Definition get_game_by_id (s : ChannelState) (game_id : GameID) : result Error nat :=
  ok_or (StrErr "no live game with the given game id") (position (has_id game_id) (live_games s)).
(** [self.live_games[idx]] *)
Definition game_at (s : ChannelState) (idx : nat) : result Error LiveGame :=
  ok_or (Panicked "index out of bounds") (live_games s !! idx).
Definition on_game {A} (idx : nat) (op : eff LiveGame A) : eff ChannelState A := fun s =>
  match live_games s !! idx with
  | Some g =>
      let '(r, g') := op g in (r, s <| live_games := <[idx := g']> (live_games s) |>)
  | None => (Err (Panicked "index out of bounds"), s)
  end.

Definition is_game_finished (s : ChannelState) (game_id : GameID) : result Error bool :=
  idx ← get_game_by_id s game_id;
  g ← game_at s idx;
  mret (LiveGame_is_my_turn g && LiveGame_is_game_over g).

(** A live game, or else one whose settlement is pending. *)
Definition find_game (s : ChannelState) (game_id : GameID) : option LiveGame :=
  match find_first (has_id game_id) (live_games s) with
  | Some g => Some g
  | None => find_first (has_id game_id) (pending_settlements s)
  end.
Definition get_game_our_current_share (s : ChannelState) (game_id : GameID) : result Error Amount :=
  g ← ok_or (StrErr "get_game_our_current_share: game not found") (find_game s game_id);
  LiveGame_get_our_current_share g.
Definition get_game_amount (s : ChannelState) (game_id : GameID) : result Error Amount :=
  g ← ok_or (StrErr "get_game_amount: game not found") (find_game s game_id);
  mret (LiveGame_get_amount g).

Definition game_is_my_turn (s : ChannelState) (game_id : GameID) : option bool :=
  match find_first (has_id game_id) (live_games s) with
  | Some g => Some (LiveGame_is_my_turn g)
  | None => (fun p => is_my_turn (referee p)) <$> find_first (is_proposal game_id) (proposed_games s)
  end.

Definition send_move_no_finalize (game_id : GameID) (readable_move : ReadableMove)
    (new_entropy : Hash) : eff ChannelState MoveResult :=
  s ← get_state;
  game_idx ← lift_result (get_game_by_id s game_id);
  referee_result ← on_game game_idx (internal_make_move readable_move new_entropy (state_number s));
  let match_puzzle_hash := wire_puzzle_hash_for_unroll referee_result in
  _ ← on_game game_idx (modify_state (fun g =>
        g <| last_referee_puzzle_hash := outcome_puzzle_hash g |>));
  saved ← on_game game_idx (gets save_referee_state);
  let puzzle_hash := wire_puzzle_hash_for_unroll referee_result in
  let amount := mover_share (basic (wire_details referee_result)) in
  _ ← push_cached_action (RedoSendMove (mkCachedSendMove (state_number s) game_id puzzle_hash
        match_puzzle_hash amount (Some saved.1) (Some saved.2)));
  finished ← on_game game_idx (gets LiveGame_is_game_over);
  mret (mkMoveResult (wire_details referee_result) (state_number s) finished).

Definition apply_received_move (game_id : GameID) (game_move : GameMoveDetails)
    : eff ChannelState ChannelMoveResult :=
  s ← get_state;
  game_idx ← lift_result (get_game_by_id s game_id);
  game ← lift_result (game_at s game_idx);
  _ ← guard_or (mover_share (basic game_move) <=? LiveGame_get_amount game)%N
        (StrErr "received move with mover_share exceeding game amount");
  _ ← guard_or (N.of_nat (length (move_made (basic game_move))) <=? LiveGame_get_max_move_size game)%N
        (StrErr "received move exceeds max_move_size");
  their_move_result ← on_game game_idx (internal_their_move game_move (state_number s));
  _ ← guard_or (bool_decide (slash their_move_result = None))
        (StrErr "slash when off chain: go on chain");
  mret (mkChannelMoveResult (state_number s) (ttm_readable_move their_move_result)
          (ttm_message their_move_result) (ttm_mover_share their_move_result)).

Definition received_message (s : ChannelState) (game_id : GameID) (message : bytes)
    : result Error ReadableMove :=
  game_idx ← get_game_by_id s game_id;
  game ← game_at s game_idx;
  LiveGame_receive_readable game message.

Definition enable_cheating_for_game (game_id : GameID) (make_move : bytes) (mover_share : Amount)
    : eff ChannelState bool :=
  s ← get_state;
  game_idx ← lift_result (get_game_by_id s game_id);
  on_game game_idx (LiveGame_enable_cheating make_move mover_share).

Definition save_game_state (s : ChannelState) (game_id : GameID) : result Error (Referee * PuzzleHash) :=
  idx ← get_game_by_id s game_id; g ← game_at s idx; mret (save_referee_state g).
Definition restore_game_state (game_id : GameID) (referee : Referee) (last_ph : PuzzleHash)
    : eff ChannelState unit :=
  s ← get_state;
  idx ← lift_result (get_game_by_id s game_id);
  on_game idx (modify_state (restore_referee_state referee last_ph)).

(** ** Settlements *)
Definition release_contributions (g : LiveGame) : eff ChannelState unit :=
  s ← get_state;
  mine ← lift_result (Amount_checked_sub (my_allocated_balance s) (lg_my_contribution g));
  _ ← modify_state (fun s => s <| my_allocated_balance := mine |>);
  theirs ← lift_result (Amount_checked_sub (their_allocated_balance s) (lg_their_contribution g));
  modify_state (fun s => s <| their_allocated_balance := theirs |>).

Definition send_accept_settlement_no_finalize (game_id : GameID) : eff ChannelState Amount :=
  s ← get_state;
  _ ← guard_or (have_potato s) (StrErr "send_accept_settlement_no_finalize: must have potato");
  game_idx ← lift_result (get_game_by_id s game_id);
  live_game ← lift_result (game_at s game_idx);
  _ ← guard_or (LiveGame_is_my_turn live_game)
        (StrErr "accept_settlement requires it to be our turn");
  _ ← modify_state (fun s => s <| live_games := delete game_idx (live_games s) |>);
  _ ← release_contributions live_game;
  amount ← lift_result (LiveGame_get_our_current_share live_game);
  let at_stake := LiveGame_get_amount live_game in
  let '(ref_clone, ph_clone) := save_referee_state live_game in
  _ ← modify_state (fun s => s <| pending_settlements := pending_settlements s ++
        [mkLiveGame game_id ph_clone ref_clone (lg_my_contribution live_game)
           (lg_their_contribution live_game)] |>);
  _ ← modify_state (fun s => s
        <| my_out_of_game_balance := Amount_add (my_out_of_game_balance s) amount |>);
  rest ← lift_result (Amount_checked_sub at_stake amount);
  _ ← modify_state (fun s => s
        <| their_out_of_game_balance := Amount_add (their_out_of_game_balance s) rest |>);
  let game_finished := LiveGame_is_game_over live_game in
  _ ← push_cached_action (RedoAcceptSettlement (mkCachedAccept game_id
        (last_referee_puzzle_hash live_game) live_game at_stake amount game_finished));
  mret amount.

Definition apply_received_accept_settlement (game_id : GameID) : eff ChannelState (Amount * bool) :=
  s ← get_state;
  game_idx ← lift_result (get_game_by_id s game_id);
  game ← lift_result (game_at s game_idx);
  _ ← guard_or (negb (LiveGame_is_my_turn game))
        (StrErr "received AcceptSettlement for game but it is our turn");
  let game_finished := LiveGame_is_game_over game in
  game_amount_for_me ← lift_result (LiveGame_get_our_current_share game);
  game_amount_for_them ← lift_result
    (Amount_checked_sub (LiveGame_get_amount game) game_amount_for_me);
  _ ← release_contributions game;
  _ ← modify_state (fun s => s
        <| my_out_of_game_balance := Amount_add (my_out_of_game_balance s) game_amount_for_me |>
        <| their_out_of_game_balance :=
             Amount_add (their_out_of_game_balance s) game_amount_for_them |>
        <| live_games := delete game_idx (live_games s) |>
        <| pending_settlements := pending_settlements s ++ [game] |>);
  mret (game_amount_for_me, game_finished).
End games.
