(* ===== verification/ChannelOnChain.v ===== *)
(** * The channel on chain

    The last part of [src/channel_state/mod.rs]: which unroll the channel coin
    was spent to and how to answer it, which coins the games are at, and what
    a spend of such a coin means. *)
From S2P Require Import Prelude Extern World Coins Clvm StandardCoin GameHandler RefereeTypes.
From S2P Require Import Referee UnrollCoin LiveGame ChannelState ChannelGames.

Section on_chain.
Context {arch : Arch} {sha2 : Sha2} {bigint : BigInt} {clvm : Clvm} {bls : Bls}.
Context {puzzles : ChiaPuzzles} {order : HashOrder}.

(** ** The channel coin was spent *)

(** The first created coin that is one of our unrolls. *)
Definition resolve_unroll_from_conditions (s : ChannelState) (conditions : sexp)
    : result Error (N * PuzzleHash) :=
  all_conditions ← CoinCondition_from_nodeptr conditions;
  info ← ok_or (StrErr "No CREATE_COIN in channel spend matches a known unroll puzzle hash")
    (head (omap (fun c => '(ph, _) ← is_create_coin c; unroll_puzzle_hash_map s !! ph)
             all_conditions));
  mret (historical_state_number info, conditions_hash info).

(** A full state that may supersede the old one: it differs in parity and the
    peer signed it. *)
Definition preempts (old_state_number : N) (info : ChannelUnrollSpendInfo) : bool :=
  (N.land (N.lxor (unroll_state_number (unroll_coin info)) old_state_number) 1 =? 1)%N
  && negb (bool_decide (unroll_preempt_half_sig (signatures info) = sig_default)).

Definition preemption_source (s : ChannelState) (old_state_number : N)
    : option ChannelUnrollSpendInfo :=
  if preempts old_state_number (latest_sent_unroll s) then Some (latest_sent_unroll s)
  else
    match latest_received_unroll s with
    | Some info => if preempts old_state_number info then Some info else None
    | None => None
    end.

(** The puzzle of the unroll coin on chain. *)
Definition curried_unroll (s : ChannelState) (env : ChannelEnv) (n : N) (conditions_hash : PuzzleHash)
    : result Error sexp :=
  program ← Puzzle_to_clvm (unroll_puzzle env);
  mret (curry_program program
          [pk_node (get_aggregate_unroll_public_key s); num_node n; ph_node conditions_hash]).

Definition make_timeout_unroll_spend (s : ChannelState) (env : ChannelEnv) (n : N)
    (conditions_hash : PuzzleHash) : result Error ChannelCoinSpentResult :=
  historical ← get_historical_unroll_for_state s n;
  _ ← check (bool_decide (UnrollCoin.conditions_hash historical = conditions_hash))
        (StrErr "historical unroll conditions hash mismatch");
  curried_puzzle ← curried_unroll s env n conditions_hash;
  solution ← Program_to_nodeptr (timeout_conditions historical);
  puzzle ← Puzzle_from_nodeptr curried_puzzle;
  solution_program ← Program_from_nodeptr solution;
  mret (mkChannelCoinSpent (mkSpend puzzle solution_program sig_default) true [] 0).

Definition make_preemption_unroll_spend (s : ChannelState) (env : ChannelEnv)
    (unrolling_state_number : N) (conditions_hash : PuzzleHash)
    : result Error ChannelCoinSpentResult :=
  preempt_source ← ok_or (StrErr "No stored state satisfies parity+signature for preemption")
    (preemption_source s unrolling_state_number);
  curried_puzzle ← curried_unroll s env unrolling_state_number conditions_hash;
  solution ← make_unroll_puzzle_solution (unroll_coin preempt_source);
  our_half ← get_unroll_coin_signature (unroll_coin preempt_source);
  let peer_half := unroll_preempt_half_sig (signatures preempt_source) in
  puzzle ← Puzzle_from_nodeptr curried_puzzle;
  solution_program ← Program_from_nodeptr solution;
  mret (mkChannelCoinSpent (mkSpend puzzle solution_program (sig_add our_half peer_half)) false [] 0).

Definition channel_coin_spent (s : ChannelState) (env : ChannelEnv) (myself : bool)
    (conditions : sexp) : result Error ChannelCoinSpentResult :=
  resolved ← resolve_unroll_from_conditions s conditions;
  let n : N := resolved.1 in
  let conditions_hash : PuzzleHash := resolved.2 in
  r ← (match myself, (n ?= state_number s)%N with
       | true, _ | _, Eq => make_timeout_unroll_spend s env n conditions_hash
       | _, Gt => Err (StrErr "Reply from the future onchain")
       | _, Lt =>
           match preemption_source s n with
           | Some _ => make_preemption_unroll_spend s env n conditions_hash
           | None => make_timeout_unroll_spend s env n conditions_hash
           end
       end);
  mret (r <| unrolling_state_number := n |>).

(** ** The games after the unroll *)
Definition cached_moves (s : ChannelState) : list (GameID * PuzzleHash) :=
  omap (fun entry => match entry with
                     | RedoSendMove d => Some (csm_game_id d, match_puzzle_hash d)
                     | _ => None
                     end) (cached_redo_actions s).

Definition on_chain_game (s : ChannelState) (ph : PuzzleHash) (g : LiveGame)
    (our_turn armed finished : bool) : OnChainGameState :=
  mkOnChainGameState (lg_game_id g) ph our_turn (state_number s) Waiting None None armed false
    (LiveGame_get_game_timeout g) finished.

Definition live_latest (s : ChannelState) (matched : gset GameID) (ph : PuzzleHash) (amt : Amount)
    : option LiveGame :=
  find_first (fun g => negb (bool_decide (lg_game_id g ∈ matched))
                       && bool_decide (last_referee_puzzle_hash g = ph)
                       && (LiveGame_get_amount g =? amt)%N) (live_games s).

Definition live_redo (s : ChannelState) (matched : gset GameID) (ph : PuzzleHash) (amt : Amount)
    : option LiveGame :=
  head (omap (fun '(gid, mph) =>
          if bool_decide (mph = ph) && negb (bool_decide (gid ∈ matched)) then
            find_first (fun g => has_id gid g && (LiveGame_get_amount g =? amt)%N) (live_games s)
          else None) (cached_moves s)).

Definition pending_match (s : ChannelState) (ph : PuzzleHash) (amt : Amount) : option LiveGame :=
  find_first (fun p => bool_decide (last_referee_puzzle_hash p = ph)
                       && (LiveGame_get_amount p =? amt)%N) (pending_settlements s).

(** One turn of the loop over the coins. *)
Definition match_coin (s : ChannelState) (unroll_coin_id : CoinID)
    (acc : gset GameID * gmap CoinString OnChainGameState) (c : PuzzleHash * Amount)
    : gset GameID * gmap CoinString OnChainGameState :=
  let '(matched, res) := acc in
  let '(ph, amt) := c in
  let coin_id := CoinString_from_parts unroll_coin_id ph amt in
  match live_latest s matched ph amt with
  | Some g =>
      ({[lg_game_id g]} ∪ matched,
       <[coin_id := on_chain_game s ph g (LiveGame_is_my_turn g) false (LiveGame_is_game_over g)]> res)
  | None =>
      match live_redo s matched ph amt with
      | Some g =>
          ({[lg_game_id g]} ∪ matched,
           <[coin_id := on_chain_game s ph g true false (LiveGame_is_game_over g)]> res)
      | None =>
          match pending_match s ph amt with
          | Some p => (matched, <[coin_id := on_chain_game s ph p true true false]> res)
          | None => (matched, res)
          end
      end
  end.

Definition set_state_for_coins (s : ChannelState) (unroll_coin : CoinString)
    (coins : list (PuzzleHash * Amount)) : gmap CoinString OnChainGameState :=
  (fold_left (match_coin s (to_coin_id unroll_coin)) coins (∅, ∅)).2.

(** ** Acting on a game coin *)
Definition get_transaction_for_game_move (s : ChannelState) (game_id : GameID)
    (game_coin : CoinString) : result Error Spend :=
  idx ← get_game_by_id s game_id;
  g ← game_at s idx;
  LiveGame_get_transaction_for_move g game_coin.

Definition get_game_outcome_puzzle_hash (s : ChannelState) (game_id : GameID)
    : result Error PuzzleHash :=
  idx ← get_game_by_id s game_id; g ← game_at s idx; mret (outcome_puzzle_hash g).

Definition is_cached_move_for (game_id : GameID) (entry : CachedRedoActions) : bool :=
  match entry with RedoSendMove d => (csm_game_id d =? game_id)%N | _ => false end.

Definition take_cached_move_for_game (game_id : GameID) : eff ChannelState (option CachedSendMove) :=
  s ← get_state;
  match position (is_cached_move_for game_id) (cached_redo_actions s) with
  | Some idx =>
      _ ← put_state (s <| cached_redo_actions := delete idx (cached_redo_actions s) |>);
      mret (match cached_redo_actions s !! idx with Some (RedoSendMove d) => Some d | _ => None end)
  | None => mret None
  end.

Definition has_cached_move_for_game (s : ChannelState) (game_id : GameID) : bool :=
  existsb (is_cached_move_for game_id) (cached_redo_actions s).

(** The loop over the cached actions: the first saved referee decides. *)
Fixpoint redo_zero_reward (game_id : GameID) (entries : list CachedRedoActions) : result Error bool :=
  match entries with
  | [] => Ok false
  | RedoSendMove move_data :: entries =>
      match (if (csm_game_id move_data =? game_id)%N then saved_post_move_referee move_data else None) with
      | Some saved_ref => share ← get_our_current_share saved_ref; mret (share =? 0)%N
      | None => redo_zero_reward game_id entries
      end
  | _ :: entries => redo_zero_reward game_id entries
  end.
Definition is_redo_zero_reward (s : ChannelState) (game_id : GameID) : result Error bool :=
  if has_cached_move_for_game s game_id then redo_zero_reward game_id (cached_redo_actions s)
  else Ok false.

Definition on_chain_our_move (game_id : GameID) (readable_move : ReadableMove) (entropy : Hash)
    (existing_coin : CoinString)
    : eff ChannelState (PuzzleHash * PuzzleHash * N * GameMoveDetails * Spend) :=
  s ← get_state;
  game_idx ← lift_result (get_game_by_id s game_id);
  last_puzzle_hash ← on_game game_idx (gets last_referee_puzzle_hash);
  move_result ← on_game game_idx (internal_make_move readable_move entropy (state_number s));
  tx ← on_game game_idx (fun g => (LiveGame_get_transaction_for_move g existing_coin, g));
  post_outcome ← on_game game_idx (gets outcome_puzzle_hash);
  mret (last_puzzle_hash, post_outcome, state_number s, wire_details move_result, tx).

Definition game_coin_spent (game_id : GameID) (coin_string : CoinString)
    (conditions : list CoinCondition) (parsed_solution : ParsedRefereeSolution)
    : eff ChannelState CoinSpentInformation :=
  s ← get_state;
  created ← lift_result (ok_or (StrErr "bad coin") (first_create_coin conditions));
  let ph : PuzzleHash := created.1 in
  let amt : Amount := created.2 in
  if bool_decide (ch_reward_puzzle_hash s = ph) then mret (OurReward ph amt)
  else
    live_game_idx ← lift_result (get_game_by_id s game_id);
    g ← lift_result (game_at s live_game_idx);
    let coin_being_spent_ph := (fun p => p.1.2) <$> to_parts coin_string in
    if (bool_decide (ph = current_puzzle_hash g) || bool_decide (ph = outcome_puzzle_hash g))
       && negb (bool_decide (coin_being_spent_ph = Some ph)) then
      _ ← on_game live_game_idx (modify_state (fun g => g <| last_referee_puzzle_hash := ph |>));
      mret (TheirSpend (Expected (state_number s) ph amt None))
    else
      spent_result ← on_game live_game_idx
        (LiveGame_their_turn_coin_spent coin_string conditions (state_number s) parsed_solution);
      mret (TheirSpend spent_result).

Definition build_game_timeout_claim_spend (game_id : GameID) (coin : CoinString)
    : eff ChannelState (option Spend) :=
  s ← get_state;
  match position (has_id game_id) (live_games s) with
  | Some game_idx =>
      tx ← on_game game_idx (fun g => (LiveGame_get_transaction_for_timeout g coin, g));
      _ ← modify_state (fun s => s <| live_games := delete game_idx (live_games s) |>);
      mret tx
  | None =>
      match position (has_id game_id) (pending_settlements s) with
      | Some idx =>
          g ← lift_result (ok_or (Panicked "index out of bounds") (pending_settlements s !! idx));
          tx ← lift_result (LiveGame_get_transaction_for_timeout g coin);
          _ ← modify_state (fun s => s
                <| pending_settlements := delete idx (pending_settlements s) |>);
          mret tx
      | None => throw (StrErr "build_game_timeout_claim_spend: no live or pending game")
      end
  end.

Definition get_game_state_id (s : ChannelState) : Hash :=
  Sha256Input_hash (Sha_Bytes
    (List.concat ((fun l => PuzzleHash_bytes (current_puzzle_hash l)) <$> live_games s))).
End on_chain.
