(* ===== verification/ToyChannel.v ===== *)
(** * A concrete channel

    Two players' channel states over the concrete world, right after
    [ChannelState::new], for the witnesses about channels. *)
From S2P Require Import Prelude Extern World Coins Clvm StandardCoin GameHandler RefereeTypes.
From S2P Require Import Referee ToyGame UnrollCoin LiveGame ChannelState ChannelGames.

Module ToyChannel.
Import Toy ToyGame.

#[export] Instance toy_puzzles : ChiaPuzzles :=
  {| P2_DELEGATED_PUZZLE_OR_HIDDEN_PUZZLE := toy_encode (Atom [x99]) |}.

Definition env : ChannelEnv :=
  mkChannelEnv (mkPuzzle (prog (const (num_node 3)))) coin_puzzle coin_puzzle_hash
    (mkPuzzle (prog (Atom [x99]))) zero_hash.
Definition key (b : byte) : PrivateKey := b.
Definition alice_keys : ChannelPrivateKeys := mkChannelPrivateKeys (key x11) (key x13) sk_alice.
Definition bob_keys : ChannelPrivateKeys := mkChannelPrivateKeys (key x17) (key x19) sk_bob.
Definition launcher : CoinID := mkCoinID (toy_digest [x77]).

Abbreviation alice_new :=
  (ChannelState_new env alice_keys launcher true (sk_public (key x17)) (sk_public (key x19))
     (sk_public sk_bob) (ph xbb) (payout sk_bob (ph xbb)) 300 200 15 (ph xaa)).
Abbreviation bob_new :=
  (ChannelState_new env bob_keys launcher false (sk_public (key x11)) (sk_public (key x13))
     (sk_public sk_alice) (ph xaa) (payout sk_alice (ph xaa)) 200 300 15 (ph xbb)).

Lemma alice_new_ok : is_ok alice_new = true.
Proof. vm_compute. reflexivity. Qed.
Lemma bob_new_ok : is_ok bob_new = true.
Proof. vm_compute. reflexivity. Qed.

(** The two states, evaluated once. *)
Definition alice_started : ChannelState * ChannelInitiationResult :=
  Eval vm_compute in the_ok _ alice_new_ok.
Definition bob_started : ChannelState * ChannelInitiationResult :=
  Eval vm_compute in the_ok _ bob_new_ok.
Lemma alice_new_run : alice_new = Ok (alice_started.1, alice_started.2).
Proof. by_running. Qed.
Lemma bob_new_run : bob_new = Ok (bob_started.1, bob_started.2).
Proof. by_running. Qed.
Abbreviation alice0 := alice_started.1.
Abbreviation bob0 := bob_started.1.

(** A run of a stateful operation that succeeds. *)
Lemma eff_ok {A} (op : eff ChannelState A) s (H : is_ok (op s).1 = true) :
  op s = (Ok (the_ok _ H), (op s).2).
Proof. apply eff_run, the_ok_eq. Qed.
Lemma eff_done (op : eff ChannelState unit) s :
  is_ok (op s).1 = true -> op s = (Ok tt, (op s).2).
Proof. intros H. apply eff_run. by destruct (op s) as [[[]|] ?]. Qed.
End ToyChannel.
