(* ===== verification/ChannelLemmas.v ===== *)
(** * What each channel operation leaves behind

    Inversion lemmas for the operations of [ChannelState], shared by the
    properties of the channel, and the step relation of what one player does
    off chain. *)
From S2P Require Import Prelude Extern World Coins Clvm StandardCoin GameHandler RefereeTypes.
From S2P Require Import Referee UnrollCoin LiveGame ChannelState ChannelGames.
From S2P Require Import RefereeProperties.

Section operations.
Context {arch : Arch} {sha2 : Sha2} {bigint : BigInt} {clvm : Clvm} {bls : Bls}.
Context {puzzles : ChiaPuzzles} {order : HashOrder}.

(** ** Proposals *)
Definition accepted (idx : nat) (p : ProposedGame) (s : ChannelState) : ChannelState :=
  s <| proposed_games := delete idx (proposed_games s) |>
    <| my_allocated_balance := Amount_add (my_allocated_balance s) (pg_my_contribution p) |>
    <| their_allocated_balance := Amount_add (their_allocated_balance s) (pg_their_contribution p) |>
    <| my_out_of_game_balance := (my_out_of_game_balance s - pg_my_contribution p)%N |>
    <| their_out_of_game_balance := (their_out_of_game_balance s - pg_their_contribution p)%N |>
    <| live_games := live_games s ++
         [mkLiveGame (pg_game_id p) (initial_puzzle_hash p) (referee p) (pg_my_contribution p)
            (pg_their_contribution p)] |>.

Lemma accept_proposal_inner_spec id s :
  match accept_proposal_inner id s with
  | (Ok _, s') => exists idx p, position (is_proposal id) (proposed_games s) = Some idx
      /\ proposed_games s !! idx = Some p /\ (pg_my_contribution p <= my_out_of_game_balance s)%N
      /\ (pg_their_contribution p <= their_out_of_game_balance s)%N /\ s' = accepted idx p s
  | (Err _, s') => s' = s
  end.
Proof.
  unfold accept_proposal_inner. run_eff.
  destruct (position _ _) as [idx|]; [|done]. cbn [ok_or].
  destruct (proposed_games s !! idx) as [p|] eqn:Hp; [|done]. cbn [ok_or].
  unfold Amount_checked_sub, u64_checked_sub. cbn.
  destruct (N.ltb_spec (my_out_of_game_balance s) (pg_my_contribution p)) as [|Hm]; cbn.
  { rewrite (vec_insert_delete _ _ _ Hp). by destruct s. }
  destruct (N.ltb_spec (their_out_of_game_balance s) (pg_their_contribution p)) as [|Ht]; cbn.
  { rewrite (vec_insert_delete _ _ _ Hp). by destruct s. }
  apply N.leb_le in Hm as Hm'. apply N.leb_le in Ht as Ht'. rewrite Hm'. cbn. rewrite Ht'. cbn.
  by exists idx, p.
Qed.

Definition proposed (info : GameStartInfo) (gid : GameID) (r : Referee * PuzzleHash) : ProposedGame :=
  mkProposedGame (gsi_game_id info) gid r.2 r.1 (my_contribution_this_game info)
    (their_contribution_this_game info).

Lemma send_propose_game_Ok env info gid s s' :
  send_propose_game env info gid s = (Ok tt, s') ->
  exists r, new_referee env info s = Ok r
  /\ s' = s <| proposed_games := proposed_games s ++ [proposed info gid r] |>.
Proof.
  unfold send_propose_game. run_eff. destruct (new_referee _ _ _) as [r|]; [|done].
  intros [= <-]. by exists r.
Qed.

Lemma apply_received_proposal_spec env info gid s :
  match apply_received_proposal env info gid s with
  | (Ok _, s') => exists r, new_referee env info s = Ok r
      /\ (gsi_game_id info mod 2 = their_next_nonce s mod 2)%N
      /\ (their_next_nonce s <= gsi_game_id info
                              <= u64_add (their_next_nonce s) MAX_NONCE_GAP)%N
      /\ (my_contribution_this_game info + their_contribution_this_game info < u64_modulus)%N
      /\ gsi_amount info = (my_contribution_this_game info + their_contribution_this_game info)%N
      /\ gsi_timeout info <> 0%N /\ length (proposed_games s) < MAX_PROPOSALS
      /\ s' = s <| their_next_nonce := u64_add (gsi_game_id info) 2 |>
                <| proposed_games := proposed_games s ++ [proposed info gid r] |>
  | (Err _, s') => s' = s
  end.
Proof.
  unfold apply_received_proposal. run_eff.
  destruct (N.eqb_spec (gsi_game_id info mod 2) (their_next_nonce s mod 2)); [|done].
  destruct (N.leb_spec (their_next_nonce s) (gsi_game_id info)); [|done].
  destruct (N.leb_spec (gsi_game_id info) (u64_add (their_next_nonce s) MAX_NONCE_GAP)); [|done].
  destruct (u64_checked_add _ _) as [sum|] eqn:Hsum; [|done]. cbn [ok_or].
  apply u64_checked_add_Some in Hsum as [Hsum ->].
  destruct (N.eqb_spec (gsi_amount info)
    (my_contribution_this_game info + their_contribution_this_game info)); [|done].
  destruct (N.eqb_spec (gsi_timeout info) 0); [done|]. cbn [negb].
  destruct (Nat.ltb_spec (length (proposed_games s)) MAX_PROPOSALS); [|done].
  destruct (new_referee _ _ _) as [r|]; [|done]. by exists r.
Qed.

Lemma remove_proposal_Ok missing id s s' :
  remove_proposal missing id s = (Ok tt, s') ->
  exists idx, position (is_proposal id) (proposed_games s) = Some idx
  /\ s' = s <| proposed_games := delete idx (proposed_games s) |>.
Proof.
  unfold remove_proposal. run_eff. destruct (position _ _) as [idx|]; [|done]. intros [= <-].
  by exists idx.
Qed.

(** ** Games and settlements *)
Lemma get_game_by_id_Some id s i :
  get_game_by_id s id = Ok i -> exists g, live_games s !! i = Some g /\ lg_game_id g = id.
Proof.
  unfold get_game_by_id. intros (g & Hg & Hid)%ok_or_Ok%position_Some. exists g.
  by apply N.eqb_eq in Hid.
Qed.

Lemma release_contributions_Ok g s s' :
  release_contributions g s = (Ok tt, s') ->
  s' = s <| my_allocated_balance := (my_allocated_balance s - lg_my_contribution g)%N |>
         <| their_allocated_balance := (their_allocated_balance s - lg_their_contribution g)%N |>.
Proof.
  unfold release_contributions. run_eff. unfold Amount_checked_sub, u64_checked_sub. cbn.
  destruct (_ <=? _)%N; cbn; [|done]. destruct (_ <=? _)%N; cbn; [|done]. by intros [= <-].
Qed.

(** A settled game: the state it leaves, but for the redo cache. *)
Definition settled (i : nat) (g : LiveGame) (mine : Amount) (s : ChannelState) : ChannelState :=
  s <| live_games := delete i (live_games s) |>
    <| my_allocated_balance := (my_allocated_balance s - lg_my_contribution g)%N |>
    <| their_allocated_balance := (their_allocated_balance s - lg_their_contribution g)%N |>
    <| my_out_of_game_balance := Amount_add (my_out_of_game_balance s) mine |>
    <| their_out_of_game_balance :=
         Amount_add (their_out_of_game_balance s) (LiveGame_get_amount g - mine) |>
    <| pending_settlements := pending_settlements s ++ [g] |>.

Lemma send_accept_settlement_Ok id s a s' :
  send_accept_settlement_no_finalize id s = (Ok a, s') ->
  exists i g entry, get_game_by_id s id = Ok i /\ live_games s !! i = Some g
  /\ have_potato s = true /\ LiveGame_is_my_turn g = true
  /\ LiveGame_get_our_current_share g = Ok a /\ (a <= LiveGame_get_amount g)%N
  /\ s' = (settled i g a s) <| cached_redo_actions := cached_redo_actions s ++ [entry] |>.
Proof.
  unfold send_accept_settlement_no_finalize.
  intros (s0 & ? & [= <- <-] & H)%eff_bind_Ok. apply eff_bind_Ok in H as (? & ? & Hpot & H).
  unfold guard_or in Hpot. destruct (have_potato s) eqn:Hhp; [|done]. injection Hpot as <- <-.
  apply eff_bind_Ok in H as (i & ? & [= Hi <-] & H).
  apply eff_bind_Ok in H as (g & ? & [= Hg <-] & H).
  apply eff_bind_Ok in H as (? & ? & Hturn & H). unfold guard_or in Hturn.
  destruct (LiveGame_is_my_turn g) eqn:Hmt; [|done]. injection Hturn as <- <-.
  apply eff_bind_Ok in H as (? & s1 & [= <- <-] & H).
  apply eff_bind_Ok in H as ([] & s2 & Hrel & H). apply release_contributions_Ok in Hrel as ->.
  apply eff_bind_Ok in H as (a' & ? & [= Ha <-] & H). cbn zeta in H.
  unfold save_referee_state in H.
  apply eff_bind_Ok in H as (? & s3 & [= <- <-] & H).
  apply eff_bind_Ok in H as (? & s4 & [= <- <-] & H).
  apply eff_bind_Ok in H as (rest & ? & [= Hrest <-] & H).
  apply eff_bind_Ok in H as (? & s5 & [= <- <-] & H).
  apply eff_bind_Ok in H as (? & s6 & [= <- <-] & H). injection H as <- <-.
  apply ok_or_Ok, u64_checked_sub_Some in Hrest as [Hle ->].
  destruct (get_game_by_id_Some _ _ _ Hi) as (g' & Hg' & Hid).
  apply ok_or_Ok in Hg. assert (g' = g) as -> by congruence.
  exists i, g. eexists. do 6 (split; [done|]). unfold settled.
  assert (mkLiveGame id (last_referee_puzzle_hash g) (referee_maker g) (lg_my_contribution g)
    (lg_their_contribution g) = g) as -> by (destruct g; cbn in *; congruence).
  done.
Qed.

Lemma apply_accept_settlement_Ok id s a b s' :
  apply_received_accept_settlement id s = (Ok (a, b), s') ->
  exists i g, get_game_by_id s id = Ok i /\ live_games s !! i = Some g
  /\ LiveGame_is_my_turn g = false /\ LiveGame_get_our_current_share g = Ok a
  /\ (a <= LiveGame_get_amount g)%N /\ b = LiveGame_is_game_over g /\ s' = settled i g a s.
Proof.
  unfold apply_received_accept_settlement.
  intros (s0 & ? & [= <- <-] & H)%eff_bind_Ok.
  apply eff_bind_Ok in H as (i & ? & [= Hi <-] & H).
  apply eff_bind_Ok in H as (g & ? & [= Hg <-] & H).
  apply eff_bind_Ok in H as (? & ? & Hturn & H). unfold guard_or in Hturn.
  destruct (LiveGame_is_my_turn g) eqn:Hmt; [done|]. injection Hturn as <- <-.
  apply eff_bind_Ok in H as (a' & ? & [= Ha <-] & H).
  apply eff_bind_Ok in H as (rest & ? & [= Hrest <-] & H).
  apply eff_bind_Ok in H as ([] & s2 & Hrel & H). apply release_contributions_Ok in Hrel as ->.
  apply eff_bind_Ok in H as (? & s3 & [= <- <-] & H). injection H as <- <- <-.
  apply ok_or_Ok, u64_checked_sub_Some in Hrest as [Hle ->]. apply ok_or_Ok in Hg.
  by exists i, g.
Qed.

(** ** Moves *)

(** The game [i] after a move that leads to the referee [r]. *)
Definition moved_game (g : LiveGame) (r : Referee) : LiveGame :=
  g <| referee_maker := r |> <| last_referee_puzzle_hash := outcome_referee_puzzle_hash r |>.
Definition with_game (i : nat) (g : LiveGame) (s : ChannelState) : ChannelState :=
  s <| live_games := <[i := g]> (live_games s) |>.

Lemma on_game_Ok {A} i (op : eff LiveGame A) s a s' :
  on_game i op s = (Ok a, s') ->
  exists g g', live_games s !! i = Some g /\ op g = (Ok a, g') /\ s' = with_game i g' s.
Proof.
  unfold on_game. destruct (live_games s !! i) as [g|]; [|done].
  destruct (op g) as [r g'] eqn:Hop. intros [= -> <-]. by exists g, g'.
Qed.

Lemma internal_make_move_Ok readable entropy n g w g' :
  internal_make_move readable entropy n g = (Ok w, g') ->
  exists r, my_turn_make_move (referee_maker g) readable entropy n = Ok (r, w)
  /\ g' = moved_game g r.
Proof.
  unfold internal_make_move. run_eff. destruct (is_my_turn _); [|done].
  destruct (my_turn_make_move _ _ _ _) as [[r w']|] eqn:Hm; [|done]. intros [= -> <-]. by exists r.
Qed.

Lemma internal_their_move_Ok details n g out g' :
  internal_their_move details n g = (Ok out, g') -> slash out = None ->
  exists r, their_turn_move_off_chain (referee_maker g) details n = Ok (Some r, out)
  /\ g' = moved_game g r.
Proof.
  unfold internal_their_move. run_eff. destruct (is_my_turn _) eqn:Ht; [done|]. cbn [negb].
  destruct (their_turn_move_off_chain _ _ _) as [[o out']|] eqn:Hm; [|done].
  destruct (referee_maker g) as [t|t] eqn:Hr; [done|]. cbn in Hm.
  destruct (TheirTurnReferee_their_turn_move_off_chain t details n) as [[o1 out1]|] eqn:Ho; [|done].
  injection Hm as <- <-. apply their_turn_move_Ok in Ho. cbn [fst snd] in Ho.
  destruct Ho as [(-> & Hs & _)|(next & res & _ & [(e & -> & Hs & _)|[[= -> ->] _]])]; cbn.
  1, 2: intros [= <- _] Hslash; congruence.
  intros [= <- <-] _. by eexists.
Qed.

Lemma send_move_Ok id readable entropy s res s' :
  send_move_no_finalize id readable entropy s = (Ok res, s') ->
  exists i g r w entries, get_game_by_id s id = Ok i /\ live_games s !! i = Some g
  /\ my_turn_make_move (referee_maker g) readable entropy (state_number s) = Ok (r, w)
  /\ mr_game_move res = wire_details w
  /\ s' = (with_game i (moved_game g r) s) <| cached_redo_actions := entries |>.
Proof.
  unfold send_move_no_finalize.
  intros (s0 & ? & [= <- <-] & H)%eff_bind_Ok. apply eff_bind_Ok in H as (i & ? & [= Hi <-] & H).
  apply eff_bind_Ok in H as (w & s1 & Hmove & H). cbn zeta in H.
  apply on_game_Ok in Hmove as (g & g' & Hg & Hmove & ->).
  apply internal_make_move_Ok in Hmove as (r & Hr & ->).
  apply eff_bind_Ok in H as (? & s2 & Hset & H).
  apply on_game_Ok in Hset as (g1 & ? & Hg1 & [= _ <-] & ->).
  cbn in Hg1. rewrite list_lookup_insert_eq in Hg1 by by eapply lookup_lt_Some.
  injection Hg1 as <-.
  apply eff_bind_Ok in H as (saved & s3 & Hsave & H).
  apply on_game_Ok in Hsave as (g2 & ? & Hg2 & [= _ <-] & ->).
  apply eff_bind_Ok in H as (? & s4 & [= <- <-] & H).
  apply eff_bind_Ok in H as (fin & s5 & Hfin & H). injection H as <- <-.
  apply on_game_Ok in Hfin as (g3 & ? & Hg3 & [= _ <-] & ->).
  exists i, g, r, w. eexists. do 4 (split; [done|]).
  cbn in Hg2, Hg3. unfold with_game. cbn.
  by rewrite (list_insert_id _ i g3), (list_insert_id _ i g2), list_insert_insert_eq.
Qed.

Lemma apply_received_move_Ok id details s res s' :
  apply_received_move id details s = (Ok res, s') ->
  exists i g r out, get_game_by_id s id = Ok i /\ live_games s !! i = Some g
  /\ their_turn_move_off_chain (referee_maker g) details (state_number s) = Ok (Some r, out)
  /\ s' = with_game i (moved_game g r) s.
Proof.
  unfold apply_received_move.
  intros (s0 & ? & [= <- <-] & H)%eff_bind_Ok. apply eff_bind_Ok in H as (i & ? & [= Hi <-] & H).
  apply eff_bind_Ok in H as (g0 & ? & [= Hg0 <-] & H).
  apply eff_bind_Ok in H as (? & s1 & Hshare & H). injection Hshare as _ <-.
  apply eff_bind_Ok in H as (? & s1 & Hsize & H). injection Hsize as _ <-.
  apply eff_bind_Ok in H as (out & s1 & Hmove & H).
  apply on_game_Ok in Hmove as (g & g' & Hg & Hmove & ->).
  apply eff_bind_Ok in H as (? & s2 & Hslash & H). injection Hslash as Hslash <-.
  injection H as <- <-.
  apply internal_their_move_Ok in Hmove as (r & Hr & ->); [by exists i, g, r, out|].
  destruct (bool_decide_reflect (slash out = None)); done.
Qed.

(** ** Unrolls *)
Lemma to_parts_from_parts parent ph amt :
  is_u64 amt -> to_parts (CoinString_from_parts parent ph amt) = Some (parent, ph, amt).
Proof. intros H. apply to_parts_Some. eexists. split; [done|]. by apply u64_from_atom_encode_number. Qed.

Lemma unroll_data_games games :
  Forall (fun g => is_u64 (LiveGame_get_amount g)) games ->
  compute_unroll_data_for_games [] None games
  = (fun g => (last_referee_puzzle_hash g, LiveGame_get_amount g)) <$> games.
Proof.
  unfold compute_unroll_data_for_games, compute_game_coin_unroll_data.
  rewrite retain_true by done. induction 1 as [|g games Hg _ IH]; [done|].
  cbn -[to_parts CoinString_from_parts]. rewrite (bool_decide_eq_false_2 (None = _)) by done.
  cbn -[to_parts CoinString_from_parts]. rewrite to_parts_from_parts by done. cbn. f_equal. exact IH.
Qed.

Lemma enable_cheating_Ok id move share s b s' :
  enable_cheating_for_game id move share s = (Ok b, s') ->
  exists games, s' = s <| live_games := games |>.
Proof.
  unfold enable_cheating_for_game. intros (s0 & ? & [= <- <-] & H)%eff_bind_Ok.
  apply eff_bind_Ok in H as (i & ? & [= Hi <-] & H).
  apply on_game_Ok in H as (g & g' & _ & _ & ->). by eexists.
Qed.

(** *** Passing the potato *)

(** The unroll coin of the next state, before it is signed. *)
Definition next_unroll (s : ChannelState) : UnrollCoin :=
  (sent_coin s) <| unroll_state_number := usize_add (state_number s) 1 |>.
Definition sign_next (s : ChannelState) : result Error Aggsig * UnrollCoin :=
  UnrollCoin_update (my_unroll_coin_private_key (private_keys s)) (their_unroll_coin_public_key s)
    (current_inputs s) (next_unroll s).

(** The entry an unroll leaves in the map of puzzle hashes. *)
Definition recorded (env : ChannelEnv) (s : ChannelState) (u : UnrollCoin) (ph : PuzzleHash)
    (h : HistoricalUnrollSpendInfo) : Prop :=
  exists node o, make_curried_unroll_puzzle env (get_aggregate_unroll_public_key s) u = Ok node
  /\ ph = node_sha256tree node /\ outcome u = Some o
  /\ h = mkHistorical (unroll_state_number u) (outcome_hash o) (conditions o).

Lemma record_Ok env info s s' :
  record_unroll_puzzle_hash_for env info s = (Ok tt, s') ->
  exists ph h, recorded env s (unroll_coin info) ph h
  /\ s' = s <| unroll_puzzle_hash_map := <[ph := h]> (unroll_puzzle_hash_map s) |>.
Proof.
  unfold record_unroll_puzzle_hash_for. intros (s0 & ? & [= <- <-] & H)%eff_bind_Ok.
  apply eff_bind_Ok in H as (node & ? & [= Hnode <-] & H).
  apply eff_bind_Ok in H as (h & ? & [= Hh <-] & H).
  apply eff_bind_Ok in H as (tc & ? & [= Htc <-] & H). injection H as <-.
  unfold get_conditions_hash_for_unroll_puzzle, get_conditions_for_unroll_coin_spend,
    from_outcome in Hh, Htc.
  destruct (outcome (unroll_coin info)) as [o|] eqn:Ho; [|done].
  injection Hh as <-. injection Htc as <-. do 2 eexists. split; [|done].
  by exists node, o.
Qed.

Definition sent_potato (u : UnrollCoin) (ph : PuzzleHash) (h : HistoricalUnrollSpendInfo)
    (s : ChannelState) : ChannelState :=
  s <| state_number := usize_add (state_number s) 1 |>
    <| latest_sent_unroll := mkUnrollSpendInfo u StateUpdateSignatures_default |>
    <| unroll_puzzle_hash_map := <[ph := h]> (unroll_puzzle_hash_map s) |>
    <| have_potato := false |>.

Lemma update_cached_Ok env s sigs s' :
  update_cached_unroll_state env s = (Ok sigs, s') ->
  exists u half spend ph h, sign_next s = (Ok half, u)
  /\ create_conditions_and_signature_of_channel_coin s env u = Ok spend
  /\ sigs = mkStateUpdateSignatures (broken_signature spend) half
  /\ recorded env s u ph h /\ s' = sent_potato u ph h s.
Proof.
  unfold update_cached_unroll_state. intros (s0 & ? & [= <- <-] & H)%eff_bind_Ok. cbn zeta in H.
  apply eff_bind_Ok in H as (? & s1 & [= _ <-] & H).
  apply eff_bind_Ok in H as (half & s2 & Hup & H). unfold update_sent_coin in Hup.
  apply eff_bind_Ok in Hup as (? & ? & [= <- <-] & Hup). unfold on_part in Hup.
  destruct (UnrollCoin_update _ _ _ _) as [r u] eqn:Hsign in Hup. injection Hup as -> <-.
  apply eff_bind_Ok in H as ([] & s3 & Hrec & H). unfold record_unroll_puzzle_hash in Hrec.
  apply eff_bind_Ok in Hrec as (? & ? & [= <- <-] & Hrec).
  apply record_Ok in Hrec as (ph & h & Hrec & ->).
  apply eff_bind_Ok in H as (? & s4 & [= _ <-] & H).
  apply eff_bind_Ok in H as (? & ? & [= <- <-] & H).
  apply eff_bind_Ok in H as (spend & ? & [= Hspend <-] & H).
  apply eff_bind_Ok in H as (half' & ? & [= Hhalf <-] & H). injection H as <- <-.
  exists u, half, spend, ph, h. split; [exact Hsign|]. split; [exact Hspend|].
  split; [|by split].
  change (get_unroll_coin_signature u = Ok half') in Hhalf.
  apply UnrollCoin_update_Ok in Hsign as (? & ? & ? & ? & _ & _ & _ & _ & _ & ->).
  by injection Hhalf as <-.
Qed.

Definition received_potato (info : ChannelUnrollSpendInfo) (ph : PuzzleHash)
    (h : HistoricalUnrollSpendInfo) (s : ChannelState) : ChannelState :=
  let s := s <| pending_settlements := [] |> in
  let s := s <| state_number := usize_add (state_number s) 1 |> in
  let s := s <| unroll_puzzle_hash_map := <[ph := h]> (unroll_puzzle_hash_map s) |> in
  let s := s <| latest_received_unroll := Some info |> <| have_potato := true |> in
  s <| cached_redo_actions := retain is_cached_accept (cached_redo_actions s) |>.

Definition accepts_potato (env : ChannelEnv) (sigs : StateUpdateSignatures) (s : ChannelState)
    (info : ChannelCoinSpendInfo) (s' : ChannelState) : Prop :=
  exists u half spend full ph h, sign_next s = (Ok half, u)
  /\ UnrollCoin_verify (get_aggregate_unroll_public_key s) (unroll_preempt_half_sig sigs) u = Ok true
  /\ create_conditions_and_signature_of_channel_coin s env u = Ok spend
  /\ verify_channel_coin_from_peer_signatures s env (channel_half_sig sigs) (broken_conditions spend)
     = Ok full
  /\ recorded env s u ph h
  /\ info = mkChannelCoinSpendInfo (broken_solution spend) (broken_conditions spend)
              (sig_add (broken_signature spend) (channel_half_sig sigs))
  /\ s' = received_potato (mkUnrollSpendInfo u sigs) ph h s.

Lemma verify_received_Ok env sigs s info s' :
  verify_received_batch_signatures env sigs s = (Ok info, s') -> accepts_potato env sigs s info s'.
Proof.
  unfold verify_received_batch_signatures, accepts_potato.
  intros (s0 & ? & [= <- <-] & H)%eff_bind_Ok.
  apply eff_bind_Ok in H as (spend0 & s1 & Hver & H).
  apply eff_bind_Ok in H as (? & s2 & [= _ <-] & H). injection H as <- <-.
  unfold received_potato_verify_signatures in Hver.
  apply eff_bind_Ok in Hver as (? & s2 & [= _ <-] & H).
  apply eff_bind_Ok in H as (? & ? & [= <- <-] & H). cbn zeta in H.
  destruct (UnrollCoin_update _ _ _ _) as [r u] eqn:Hsign in H.
  apply eff_bind_Ok in H as (half & ? & [= -> <-] & H).
  apply eff_bind_Ok in H as (ok & ? & [= Hok <-] & H).
  apply eff_bind_Ok in H as (? & ? & Hg & H). unfold guard_or in Hg. destruct ok; [|done].
  injection Hg as _ <-.
  apply eff_bind_Ok in H as (spend & ? & [= Hspend <-] & H).
  apply eff_bind_Ok in H as (full & ? & [= Hfull <-] & H).
  apply eff_bind_Ok in H as (? & s3 & [= _ <-] & H).
  apply eff_bind_Ok in H as ([] & s4 & Hrec & H).
  apply record_Ok in Hrec as (ph & h & Hrec & ->).
  apply eff_bind_Ok in H as (? & s5 & [= _ <-] & H). injection H as <- <-.
  by exists u, half, spend, full, ph, h.
Qed.

Lemma eff_bind_step {S A B} (m : eff S A) (f : A -> eff S B) s a s1 r :
  m s = (Ok a, s1) -> f a s1 = r -> (m ≫= f) s = r.
Proof. unfold mbind, eff_bind. intros ->. done. Qed.

Lemma record_run env info s ph h :
  recorded env s (unroll_coin info) ph h ->
  record_unroll_puzzle_hash_for env info s
  = (Ok tt, s <| unroll_puzzle_hash_map := <[ph := h]> (unroll_puzzle_hash_map s) |>).
Proof.
  intros (node & o & Hnode & -> & Ho & ->). unfold record_unroll_puzzle_hash_for.
  eapply eff_bind_step; [reflexivity|]. unfold lift_result.
  eapply eff_bind_step; [by rewrite Hnode|].
  unfold get_conditions_hash_for_unroll_puzzle, get_conditions_for_unroll_coin_spend, from_outcome.
  rewrite Ho. reflexivity.
Qed.

(** What checks the signatures looks at neither settlements nor numbers. *)
Lemma frame_checks env sigs s u conditions :
  let s1 := s <| pending_settlements := [] |> in
  sign_next s1 = sign_next s
  /\ get_aggregate_unroll_public_key s1 = get_aggregate_unroll_public_key s
  /\ create_conditions_and_signature_of_channel_coin s1 env u
     = create_conditions_and_signature_of_channel_coin s env u
  /\ verify_channel_coin_from_peer_signatures s1 env (channel_half_sig sigs) conditions
     = verify_channel_coin_from_peer_signatures s env (channel_half_sig sigs) conditions.
Proof. done. Qed.

Lemma verify_received_run env sigs s info s' :
  accepts_potato env sigs s info s' -> verify_received_batch_signatures env sigs s = (Ok info, s').
Proof.
  intros (u & half & spend & full & ph & h & Hsign & Hok & Hspend & Hfull & Hrec & -> & ->).
  unfold verify_received_batch_signatures.
  eapply eff_bind_step; [reflexivity|].
  destruct (frame_checks env sigs s u (broken_conditions spend)) as (_ & _ & Hf3 & Hf4).
  eapply eff_bind_step.
  { unfold received_potato_verify_signatures.
    eapply eff_bind_step; [reflexivity|]. eapply eff_bind_step; [reflexivity|]. cbn zeta.
    change (UnrollCoin_update _ _ _ _) with (sign_next s). rewrite Hsign. cbn beta iota zeta.
    eapply eff_bind_step; [reflexivity|].
    eapply eff_bind_step; [unfold lift_result; f_equal; exact Hok|].
    eapply eff_bind_step; [reflexivity|].
    eapply eff_bind_step; [unfold lift_result; rewrite Hf3, Hspend; reflexivity|].
    eapply eff_bind_step; [unfold lift_result; rewrite Hf4, Hfull; reflexivity|].
    eapply eff_bind_step; [reflexivity|].
    eapply eff_bind_step; [apply record_run; exact Hrec|].
    eapply eff_bind_step; reflexivity. }
  reflexivity.
Qed.

(** *** Setting up *)
Lemma verify_initial_Ok env sigs s info s' :
  verify_and_store_initial_peer_signatures env sigs s = (Ok info, s') ->
  exists spend,
    UnrollCoin_verify (get_aggregate_unroll_public_key s) (unroll_preempt_half_sig sigs) (sent_coin s)
    = Ok true
    /\ s' = s <| channel_coin_spend := spend |>
              <| latest_received_unroll := Some (mkUnrollSpendInfo (sent_coin s) sigs) |>.
Proof.
  unfold verify_and_store_initial_peer_signatures. intros (s0 & ? & [= <- <-] & H)%eff_bind_Ok.
  apply eff_bind_Ok in H as (ok & ? & [= Hok <-] & H).
  apply eff_bind_Ok in H as (? & ? & Hg & H). unfold guard_or in Hg. destruct ok; [|done].
  injection Hg as _ <-.
  apply eff_bind_Ok in H as (spend & ? & [= Hspend <-] & H).
  apply eff_bind_Ok in H as (full & ? & [= Hfull <-] & H).
  apply eff_bind_Ok in H as (puz & ? & [= Hpuz <-] & H).
  apply eff_bind_Ok in H as (? & ? & [= _ <-] & H). injection H as _ <-. by eexists.
Qed.

Lemma ChannelState_new_Ok env keys launcher potato tc tu tr tph tsig mine theirs timeout ph s i :
  ChannelState_new env keys launcher potato tc tu tr tph tsig mine theirs timeout ph = Ok (s, i) ->
  let coin_ph := puzzle_hash_for_synthetic_public_key
    (pk_add (private_to_public_key (my_channel_coin_private_key keys)) tc) in
  let s0 := initial_channel_state keys launcher potato tc tu tr tph tsig mine theirs timeout ph
              coin_ph in
  timeout <> 0%N /\ exists half u uph h spend puz,
    UnrollCoin_update (my_unroll_coin_private_key keys) tu
      (unroll_coin_condition_inputs s0 mine theirs []) (mkUnrollCoin potato 0 None) = (Ok half, u)
    /\ recorded env s0 u uph h
    /\ create_conditions_and_signature_of_channel_coin s0 env u = Ok spend
    /\ s = s0 <| latest_sent_unroll := mkUnrollSpendInfo u StateUpdateSignatures_default |>
              <| unroll_puzzle_hash_map := <[uph := h]> ∅ |>
              <| channel_coin_spend := mkCoinSpend (channel_coin s0)
                   (mkSpend puz (broken_solution spend) (broken_signature spend)) |>.
Proof.
  unfold ChannelState_new. intros (? & _ & H)%bind_Ok. apply bind_Ok in H as (? & _ & H).
  apply bind_Ok in H as (? & Ht & H). cbn zeta in H |- *.
  apply check_Ok, negb_true_iff, N.eqb_neq in Ht. split; [done|].
  set (s0 := initial_channel_state _ _ _ _ _ _ _ _ _ _ _ _ _) in *.
  destruct (set_up_channel _ _ s0) as [[i'|] s'] eqn:Hrun; [|done]. injection H as <- <-.
  unfold set_up_channel in Hrun. apply eff_bind_Ok in Hrun as (? & ? & [= <- <-] & H). cbn zeta in H.
  apply eff_bind_Ok in H as (half & s1 & Hup & H). unfold update_sent_coin in Hup.
  apply eff_bind_Ok in Hup as (? & ? & [= <- <-] & Hup). unfold on_part in Hup.
  destruct (UnrollCoin_update _ _ _ _) as [r u] eqn:Hsign in Hup. injection Hup as -> <-.
  apply eff_bind_Ok in H as ([] & s2 & Hrec & H). unfold record_unroll_puzzle_hash in Hrec.
  apply eff_bind_Ok in Hrec as (? & ? & [= <- <-] & Hrec).
  apply record_Ok in Hrec as (uph & h & Hrec & ->).
  apply eff_bind_Ok in H as (? & ? & [= <- <-] & H).
  apply eff_bind_Ok in H as (spend & ? & [= Hspend <-] & H).
  apply eff_bind_Ok in H as (puz & ? & [= Hpuz <-] & H).
  apply eff_bind_Ok in H as (? & ? & [= _ <-] & H). injection H as _ <-.
  exists half, u, uph, h, spend, puz. split; [exact Hsign|]. split; [exact Hrec|].
  split; [exact Hspend|]. reflexivity.
Qed.

(** ** What the players do off chain *)
Inductive channel_step (env : ChannelEnv) : ChannelState -> ChannelState -> Prop :=
| step_nonce s s' n : allocate_my_nonce s = (Ok n, s') -> channel_step env s s'
| step_propose s s' info gid :
    gsi_amount info = (my_contribution_this_game info + their_contribution_this_game info)%N ->
    send_propose_game env info gid s = (Ok tt, s') -> channel_step env s s'
| step_proposed s s' info gid :
    apply_received_proposal env info gid s = (Ok tt, s') -> channel_step env s s'
| step_accept s s' id : send_accept_proposal id s = (Ok tt, s') -> channel_step env s s'
| step_accepted s s' id : apply_received_accept_proposal id s = (Ok tt, s') -> channel_step env s s'
| step_cancel s s' id : send_cancel_proposal id s = (Ok tt, s') -> channel_step env s s'
| step_cancelled s s' id : received_cancel_proposal id s = (Ok tt, s') -> channel_step env s s'
| step_cancel_all s s' ids : cancel_all_proposals s = (Ok ids, s') -> channel_step env s s'
| step_move s s' id readable entropy res :
    send_move_no_finalize id readable entropy s = (Ok res, s') -> channel_step env s s'
| step_moved s s' id details res :
    apply_received_move id details s = (Ok res, s') -> channel_step env s s'
| step_cheat s s' id move share b :
    enable_cheating_for_game id move share s = (Ok b, s') -> channel_step env s s'
| step_settle s s' id a :
    send_accept_settlement_no_finalize id s = (Ok a, s') -> channel_step env s s'
| step_settled s s' id r :
    apply_received_accept_settlement id s = (Ok r, s') -> channel_step env s s'
| step_send s s' sigs : update_cached_unroll_state env s = (Ok sigs, s') -> channel_step env s s'
| step_receive s s' sigs info :
    verify_received_batch_signatures env sigs s = (Ok info, s') -> channel_step env s s'
| step_drain s s' l : drain_cached_accept_settlements s = (Ok l, s') -> channel_step env s s'.

(** ** What leaves the unrolls and the potato alone *)
Definition unroll_part (s : ChannelState) :=
  (private_keys s, their_unroll_coin_public_key s, state_number s, have_potato s,
   latest_sent_unroll s, latest_received_unroll s, unroll_puzzle_hash_map s, channel_coin s,
   their_channel_coin_public_key s).

Definition quiet {A} (op : eff ChannelState A) : Prop := forall s a s',
  op s = (Ok a, s') -> unroll_part s' = unroll_part s.

Lemma quiet_nonce : quiet allocate_my_nonce.
Proof. intros s a s' H. by injection H as _ <-. Qed.

Lemma quiet_propose env info gid : quiet (send_propose_game env info gid).
Proof. by intros s [] s' (r & _ & ->)%send_propose_game_Ok. Qed.

Lemma quiet_proposed env info gid : quiet (apply_received_proposal env info gid).
Proof.
  intros s a s' H. pose proof (apply_received_proposal_spec env info gid s) as Hspec.
  rewrite H in Hspec. by destruct Hspec as (r & _ & _ & _ & _ & _ & _ & _ & ->).
Qed.

Lemma quiet_accept_inner id : quiet (accept_proposal_inner id).
Proof.
  intros s a s' H. pose proof (accept_proposal_inner_spec id s) as Hspec.
  rewrite H in Hspec. by destruct Hspec as (i & p & _ & _ & _ & _ & ->).
Qed.

Lemma quiet_accept id : quiet (send_accept_proposal id).
Proof.
  intros s a s' H. unfold send_accept_proposal in H.
  apply eff_bind_Ok in H as ([] & s1 & H & [= _ <-]). by apply quiet_accept_inner in H.
Qed.

Lemma quiet_accepted id : quiet (apply_received_accept_proposal id).
Proof.
  intros s a s' H. unfold apply_received_accept_proposal in H.
  apply eff_bind_Ok in H as (? & ? & [= <- <-] & H).
  apply eff_bind_Ok in H as (? & ? & Hg & H). injection Hg as _ <-.
  by apply quiet_accept_inner in H.
Qed.

Lemma quiet_remove missing id : quiet (remove_proposal missing id).
Proof. by intros s [] s' (i & _ & ->)%remove_proposal_Ok. Qed.

Lemma quiet_cancel_all : quiet cancel_all_proposals.
Proof. intros s a s' H. by injection H as _ <-. Qed.

Lemma quiet_move id readable entropy : quiet (send_move_no_finalize id readable entropy).
Proof. by intros s a s' (i & g & r & w & entries & _ & _ & _ & _ & ->)%send_move_Ok. Qed.

Lemma quiet_moved id details : quiet (apply_received_move id details).
Proof. by intros s a s' (i & g & r & out & _ & _ & _ & ->)%apply_received_move_Ok. Qed.

Lemma quiet_cheat id move share : quiet (enable_cheating_for_game id move share).
Proof. by intros s a s' (games & ->)%enable_cheating_Ok. Qed.

Lemma quiet_settle id : quiet (send_accept_settlement_no_finalize id).
Proof.
  by intros s a s' (i & g & entry & _ & _ & _ & _ & _ & _ & ->)%send_accept_settlement_Ok.
Qed.

Lemma quiet_settled id : quiet (apply_received_accept_settlement id).
Proof.
  by intros s [a b] s' (i & g & _ & _ & _ & _ & _ & _ & ->)%apply_accept_settlement_Ok.
Qed.

Lemma quiet_drain : quiet drain_cached_accept_settlements.
Proof. intros s a s' H. by injection H as _ <-. Qed.
End operations.

#[export] Hint Resolve quiet_nonce quiet_propose quiet_proposed quiet_accept quiet_accepted
  quiet_remove quiet_cancel_all quiet_move quiet_moved quiet_cheat quiet_settle quiet_settled
  quiet_drain : chia.
