(* ===== verification/ChannelBalances.v ===== *)
(** * The money of a channel

    Through every operation the two players perform off chain, the balances of
    a [ChannelState] and the stakes of its games add up to what was put into
    the channel, and that is what every unroll pays out. *)
From S2P Require Import Prelude Extern World Coins Clvm StandardCoin GameHandler RefereeTypes.
From S2P Require Import Referee ToyGame UnrollCoin LiveGame ChannelState ChannelGames.
From S2P Require Import ToyChannel ChannelLemmas.
From stdpp Require Import relations.

Section books.
Context {arch : Arch} {sha2 : Sha2} {bigint : BigInt} {clvm : Clvm} {bls : Bls}.
Context {puzzles : ChiaPuzzles} {order : HashOrder}.

(** What the accounts see of a game, of a proposal and of the state. *)
Record stake := mkStake { stake_id : GameID; stake_mine : N; stake_theirs : N; stake_amount : N }.

Definition game_stake (g : LiveGame) : stake :=
  mkStake (lg_game_id g) (lg_my_contribution g) (lg_their_contribution g) (LiveGame_get_amount g).
Definition proposal_stake (p : ProposedGame) : stake :=
  mkStake (pg_game_id p) (pg_my_contribution p) (pg_their_contribution p) (get_amount (referee p)).

Record books := mkBooks {
  free_mine : N; free_theirs : N; staked_mine : N; staked_theirs : N;
  live_stakes : list stake; proposed_stakes : list stake;
}.
Definition books_of (s : ChannelState) : books :=
  mkBooks (my_out_of_game_balance s) (their_out_of_game_balance s) (my_allocated_balance s)
    (their_allocated_balance s) (game_stake <$> live_games s) (proposal_stake <$> proposed_games s).

Definition fair (k : stake) : Prop := stake_amount k = (stake_mine k + stake_theirs k)%N.

Record balanced (total : N) (b : books) : Prop := {
  fair_live : Forall fair (live_stakes b);
  fair_proposed : Forall fair (proposed_stakes b);
  sum_mine : staked_mine b = sum_N (stake_mine <$> live_stakes b);
  sum_theirs : staked_theirs b = sum_N (stake_theirs <$> live_stakes b);
  sum_total : (free_mine b + free_theirs b + staked_mine b + staked_theirs b)%N = total;
  total_fits : is_u64 total;
}.

(** *** The accounts, without the code *)
Lemma books_open total b k props :
  balanced total b -> fair k -> (stake_mine k <= free_mine b)%N -> (stake_theirs k <= free_theirs b)%N ->
  Forall fair props ->
  balanced total (mkBooks (free_mine b - stake_mine k) (free_theirs b - stake_theirs k)
    (Amount_add (staked_mine b) (stake_mine k)) (Amount_add (staked_theirs b) (stake_theirs k))
    (live_stakes b ++ [k]) props).
Proof.
  intros [Hl _ Hm Ht Hs Hf] Hk Hmine Htheirs Hp. unfold is_u64 in Hf.
  unfold Amount_add. rewrite !u64_add_small by lia.
  split; cbn; [apply Forall_app; by repeat constructor|done| | |lia|done];
    rewrite fmap_app, sum_N_app; cbn; lia.
Qed.

Lemma books_close total b i k mine :
  balanced total b -> live_stakes b !! i = Some k -> (mine <= stake_amount k)%N ->
  balanced total (mkBooks (Amount_add (free_mine b) mine)
    (Amount_add (free_theirs b) (stake_amount k - mine)) (staked_mine b - stake_mine k)
    (staked_theirs b - stake_theirs k) (delete i (live_stakes b)) (proposed_stakes b)).
Proof.
  intros [Hl Hp Hm Ht Hs Hf] Hk Hle. unfold is_u64 in Hf.
  pose proof (Forall_lookup_1 _ _ _ _ Hl Hk) as Hfair. unfold fair in Hfair.
  rewrite (sum_N_map_delete stake_mine _ _ _ Hk) in Hm.
  rewrite (sum_N_map_delete stake_theirs _ _ _ Hk) in Ht.
  unfold Amount_add. rewrite !u64_add_small by lia.
  split; cbn -[sum_N fmap delete]; [|done|lia|lia|lia|done].
  by apply Forall_delete.
Qed.

(** *** Operations that do not touch the accounts *)
Definition same_books {A} (op : eff ChannelState A) : Prop :=
  forall s, books_of (op s).2 = books_of s.

Lemma same_books_modify f : (forall s, books_of (f s) = books_of s) -> same_books (modify_state f).
Proof. intros H s. exact (H s). Qed.

Lemma same_books_bind {A B} (m : eff ChannelState A) (f : A -> eff ChannelState B) :
  same_books m -> (forall a, same_books (f a)) -> same_books (m ≫= f).
Proof.
  intros Hm Hf s. specialize (Hm s). unfold mbind, eff_bind. destruct (m s) as [[a|e] s1]; [|done].
  by rewrite (Hf a s1).
Qed.

Lemma same_books_get {B} (f : ChannelState -> eff ChannelState B) :
  (forall a, same_books (f a)) -> same_books (get_state ≫= f).
Proof. intros Hf s. apply Hf. Qed.

Lemma same_books_pure {A} (op : eff ChannelState A) :
  (forall s, (op s).2 = s) -> same_books op.
Proof. intros H s. by rewrite H. Qed.

Lemma same_books_record env info : same_books (record_unroll_puzzle_hash_for env info).
Proof.
  unfold record_unroll_puzzle_hash_for. apply same_books_get. intros s0.
  repeat (apply same_books_bind; [by apply same_books_pure|intros ?]).
  by apply same_books_modify.
Qed.

Lemma same_books_update_sent env inputs : same_books (update_sent_coin env inputs).
Proof.
  unfold update_sent_coin. apply same_books_get. intros s0 s. unfold on_part.
  by destruct (UnrollCoin_update _ _ _ _).
Qed.

Lemma same_books_get_put {B} (g : ChannelState -> ChannelState) (f : ChannelState -> eff ChannelState B) :
  (forall s, books_of (g s) = books_of s) -> (forall s, same_books (f s)) ->
  same_books (s ← get_state; _ ← put_state (g s); f s).
Proof. intros Hg Hf s. transitivity (books_of (g s)); [apply Hf|apply Hg]. Qed.

Ltac same_books :=
  repeat (apply same_books_bind; [first [by apply same_books_pure|by apply same_books_modify
    |apply same_books_record|apply same_books_update_sent]|intros ?]);
  try by apply same_books_pure.

Lemma same_books_send env : same_books (update_cached_unroll_state env).
Proof.
  unfold update_cached_unroll_state. cbv zeta.
  apply (same_books_get_put (fun s => set_sent_coin _ _)); [done|intros s0].
  apply same_books_bind; [apply same_books_update_sent|intros _].
  apply same_books_bind; [apply same_books_get; intros; apply same_books_record|intros _].
  apply same_books_bind; [by apply same_books_modify|intros _].
  apply same_books_get. intros s1. same_books.
Qed.

Lemma same_books_verify env sigs inputs :
  same_books (received_potato_verify_signatures env sigs inputs).
Proof.
  unfold received_potato_verify_signatures.
  apply same_books_bind; [by apply same_books_modify|intros _]. apply same_books_get. intros s.
  destruct (UnrollCoin_update _ _ _ _) as [r u].
  repeat (apply same_books_bind; [first [by apply same_books_pure|by apply same_books_modify
    |apply same_books_record]|intros ?]).
  by apply same_books_pure.
Qed.

Lemma same_books_receive env sigs : same_books (verify_received_batch_signatures env sigs).
Proof.
  unfold verify_received_batch_signatures. apply same_books_get. intros s.
  apply same_books_bind; [apply same_books_verify|intros ?].
  apply same_books_bind; [by apply same_books_modify|intros ?]. by apply same_books_pure.
Qed.

(** An operation on one game that keeps its stake. *)
Lemma same_books_on_game {A} i (op : eff LiveGame A) :
  (forall g, game_stake (op g).2 = game_stake g) -> same_books (on_game i op).
Proof.
  intros H s. unfold on_game. destruct (live_games s !! i) as [g|] eqn:Hg; [|done].
  specialize (H g). destruct (op g) as [r g']. cbn in *. unfold books_of. cbn. f_equal.
  rewrite list_fmap_insert, H. apply list_insert_id. by rewrite list_lookup_fmap, Hg.
Qed.

(** *** Moves *)
Lemma game_stake_fixed g r ph :
  fixed r = fixed (referee_maker g) ->
  game_stake (g <| referee_maker := r |> <| last_referee_puzzle_hash := ph |>) = game_stake g.
Proof. intros H. unfold game_stake, LiveGame_get_amount, get_amount. cbn. by rewrite H. Qed.

Lemma internal_make_move_stake readable entropy n g :
  game_stake (internal_make_move readable entropy n g).2 = game_stake g.
Proof.
  unfold internal_make_move. run_eff. destruct (is_my_turn _); [|done].
  destruct (my_turn_make_move _ _ _ _) as [[r w]|] eqn:Hm; [|done].
  apply my_turn_make_move_amount in Hm. by apply game_stake_fixed.
Qed.

Lemma internal_their_move_stake details n g :
  game_stake (internal_their_move details n g).2 = game_stake g.
Proof.
  unfold internal_their_move. run_eff. destruct (is_my_turn _); [done|]. cbn [negb].
  destruct (their_turn_move_off_chain _ _ _) as [[[r|] w]|] eqn:Hm; [|done|done].
  apply their_turn_move_amount in Hm. cbn. unfold game_stake, LiveGame_get_amount, get_amount.
  destruct (puzzle_hash_for_unroll w); cbn; by rewrite Hm.
Qed.

Lemma same_books_move id readable entropy : same_books (send_move_no_finalize id readable entropy).
Proof.
  unfold send_move_no_finalize. apply same_books_get. intros s.
  apply same_books_bind; [by apply same_books_pure|intros i].
  apply same_books_bind; [apply same_books_on_game, internal_make_move_stake|intros res].
  apply same_books_bind; [by apply same_books_on_game|intros _].
  apply same_books_bind; [by apply same_books_on_game|intros saved].
  apply same_books_bind; [by apply same_books_modify|intros _].
  apply same_books_bind; [by apply same_books_on_game|intros ?]. by apply same_books_pure.
Qed.

Lemma same_books_their_move id details : same_books (apply_received_move id details).
Proof.
  unfold apply_received_move. apply same_books_get. intros s.
  do 4 (apply same_books_bind; [by apply same_books_pure|intros ?]).
  apply same_books_bind; [apply same_books_on_game; intros; apply internal_their_move_stake|intros ?].
  same_books.
Qed.

Lemma same_books_cheat id move share : same_books (enable_cheating_for_game id move share).
Proof.
  unfold enable_cheating_for_game. apply same_books_get. intros s.
  apply same_books_bind; [by apply same_books_pure|intros i].
  apply same_books_on_game. intros g. unfold LiveGame_enable_cheating. run_eff.
  destruct (enable_cheating _ _ _) as [r|] eqn:Hr; [|done]. unfold enable_cheating in Hr.
  destruct (referee_maker g) as [t|t] eqn:Hg; [|done]. injection Hr as <-.
  unfold game_stake, LiveGame_get_amount, get_amount. cbn. by rewrite Hg.
Qed.

Lemma accept_balanced total id s s' :
  accept_proposal_inner id s = (Ok tt, s') -> balanced total (books_of s) ->
  balanced total (books_of s').
Proof.
  intros Hrun Hb. pose proof (accept_proposal_inner_spec id s) as Hspec. rewrite Hrun in Hspec.
  destruct Hspec as (idx & p & _ & Hp & Hm & Ht & ->).
  pose proof (fair_proposed _ _ Hb) as Hfair. cbn in Hfair.
  assert (proposal_stake <$> proposed_games s !! idx = Some (proposal_stake p)) as Hps
    by by rewrite Hp.
  assert (fair (proposal_stake p)) as Hfp.
  { eapply Forall_lookup_1; [exact Hfair|]. by rewrite list_lookup_fmap. }
  pose proof (books_open total (books_of s) (proposal_stake p)
    (proposal_stake <$> delete idx (proposed_games s)) Hb Hfp Hm Ht) as Hopen.
  unfold books_of, accepted. cbn. rewrite fmap_app. apply Hopen.
  rewrite Forall_fmap in Hfair |- *. by apply Forall_delete.
Qed.

Lemma new_referee_amount env info s r :
  new_referee env info s = Ok r -> get_amount r.1 = gsi_amount info.
Proof.
  unfold new_referee. intros (identity & _ & H)%bind_Ok. unfold Referee_new in H.
  apply bind_Ok in H as (setup & Hs & H). unfold referee_initial_setup in Hs.
  apply bind_Ok in Hs as (? & _ & Hs). apply bind_Ok in Hs as (? & _ & Hs).
  apply bind_Ok in Hs as (? & _ & Hs). injection Hs as <-.
  destruct (handler_is_my_turn _); injection H as <-; done.
Qed.

Lemma push_proposal_balanced total info gid r s s' :
  push_proposal info gid r s = (Ok tt, s') -> get_amount r.1 = gsi_amount info ->
  gsi_amount info = (my_contribution_this_game info + their_contribution_this_game info)%N ->
  balanced total (books_of s) -> balanced total (books_of s').
Proof.
  intros [= <-] Hr Hfair [Hl Hp Hm Ht Hs Hf]. split; try done. cbn in *. rewrite fmap_app.
  apply Forall_app. split; [done|]. constructor; [|done]. unfold fair. cbn. congruence.
Qed.

Lemma delete_proposal_balanced total idx s :
  balanced total (books_of s) ->
  balanced total (books_of (s <| proposed_games := delete idx (proposed_games s) |>)).
Proof.
  intros [Hl Hp Hm Ht Hs Hf]. split; try done. cbn in *.
  rewrite Forall_fmap in Hp |- *. by apply Forall_delete.
Qed.

(** *** Settlements *)
Lemma settled_balanced total i g mine s :
  balanced total (books_of s) -> live_games s !! i = Some g -> (mine <= LiveGame_get_amount g)%N ->
  balanced total (books_of (settled i g mine s)).
Proof.
  intros Hb Hg Hle.
  assert (live_stakes (books_of s) !! i = Some (game_stake g)) as Hk.
  { cbn. by rewrite list_lookup_fmap, Hg. }
  pose proof (books_close _ _ _ _ mine Hb Hk Hle) as Hclose.
  unfold books_of, settled. cbn. cbn in Hclose. by rewrite list_fmap_delete.
Qed.

Lemma books_of_cached s entries : books_of (s <| cached_redo_actions := entries |>) = books_of s.
Proof. done. Qed.

Lemma same_books_run {A} (op : eff ChannelState A) total s r s' :
  same_books op -> op s = (r, s') -> balanced total (books_of s) -> balanced total (books_of s').
Proof. intros Hop Hrun. specialize (Hop s). rewrite Hrun in Hop. cbn in Hop. by rewrite Hop. Qed.

Lemma channel_step_balanced env total s s' :
  channel_step env s s' -> balanced total (books_of s) -> balanced total (books_of s').
Proof.
  destruct 1 as [s s' n H|s s' info gid Hfair H|s s' info gid H|s s' id H|s s' id H|s s' id H|s s' id H
    |s s' ids H|s s' id rd e res H|s s' id d res H|s s' id mv sh b H|s s' id a H|s s' id r H
    |s s' sigs H|s s' sigs info H|s s' l H]; intros Hb.
  - injection H as _ <-. by destruct Hb.
  - apply send_propose_game_Ok in H as (r & Hr & ->).
    eapply push_proposal_balanced; [reflexivity|by eapply new_referee_amount|done|done].
  - pose proof (apply_received_proposal_spec env info gid s) as Hspec. rewrite H in Hspec.
    destruct Hspec as (r & Hr & _ & _ & _ & Hfair & _ & _ & ->).
    apply (push_proposal_balanced total info gid r
             (s <| their_next_nonce := u64_add (gsi_game_id info) 2 |>));
      [reflexivity|by eapply new_referee_amount|done|done].
  - unfold send_accept_proposal in H. apply eff_bind_Ok in H as ([] & s1 & H & [= <-]).
    by apply (accept_balanced total _ _ _ H) in Hb.
  - unfold apply_received_accept_proposal in H. apply eff_bind_Ok in H as (? & ? & [= <- <-] & H).
    apply eff_bind_Ok in H as (? & ? & Hg & H). unfold guard_or in Hg.
    injection Hg as _ <-. by apply (accept_balanced total _ _ _ H) in Hb.
  - apply remove_proposal_Ok in H as (idx & _ & ->). by apply delete_proposal_balanced.
  - apply remove_proposal_Ok in H as (idx & _ & ->). by apply delete_proposal_balanced.
  - injection H as _ <-. destruct Hb. by split; cbn.
  - by eapply same_books_run; [apply same_books_move|..].
  - by eapply same_books_run; [apply same_books_their_move|..].
  - by eapply same_books_run; [apply same_books_cheat|..].
  - apply send_accept_settlement_Ok in H as (i & g & entry & _ & Hg & _ & _ & _ & Hle & ->).
    rewrite books_of_cached. by apply settled_balanced.
  - destruct r as [a b]. apply apply_accept_settlement_Ok in H as (i & g & _ & Hg & _ & _ & Hle & _ & ->).
    by apply settled_balanced.
  - by eapply same_books_run; [apply same_books_send|..].
  - by eapply same_books_run; [apply same_books_receive|..].
  - by injection H as _ <-.
Qed.

(** *** The unroll of the current state *)
Lemma sum_N_cons a l : sum_N (a :: l) = (a + sum_N l)%N.
Proof. done. Qed.

Lemma sum_stakes l :
  Forall fair l -> sum_N (stake_amount <$> l) = (sum_N (stake_mine <$> l) + sum_N (stake_theirs <$> l))%N.
Proof. induction 1 as [|k l Hk _ IH]; [done|]. unfold fair in Hk. unfold sum_N in *. cbn in *. lia. Qed.

Lemma balanced_payouts total s started :
  balanced total (books_of s) ->
  amount s false = total
  /\ sum_N (snd <$> unroll_payouts started (current_inputs s)) = total
  /\ Forall (fun p => is_u64 p.2) (unroll_payouts started (current_inputs s)).
Proof.
  intros [Hl _ Hm Ht Hs Hf]. unfold is_u64 in Hf. cbn -[sum_N fmap] in *.
  pose proof (sum_stakes _ Hl) as Hsum.
  assert (sum_N (LiveGame_get_amount <$> live_games s)
          = (my_allocated_balance s + their_allocated_balance s)%N) as Hgames.
  { rewrite Hm, Ht, <-Hsum. by rewrite <-!list_fmap_compose. }
  assert (Forall (fun g => is_u64 (LiveGame_get_amount g)) (live_games s)) as Hu.
  { apply Forall_forall. intros g Hg. pose proof (sum_N_elem_le LiveGame_get_amount _ _ Hg).
    unfold is_u64. lia. }
  split.
  - unfold amount, Amount_add. rewrite (u64_add_small (my_allocated_balance s)) by lia.
    rewrite (u64_add_small _ (my_out_of_game_balance s)) by lia. rewrite u64_add_small by lia. lia.
  - unfold current_inputs, unroll_payouts, unroll_coin_condition_inputs. cbn -[sum_N fmap].
    rewrite (unroll_data_games _ Hu). split.
    + assert (snd <$> ((fun g => (last_referee_puzzle_hash g, LiveGame_get_amount g))
                        <$> live_games s) = LiveGame_get_amount <$> live_games s) as Hsnd
        by by rewrite <-list_fmap_compose.
      destruct started; rewrite !fmap_cons, Hsnd, !sum_N_cons; cbn [snd]; lia.
    + assert (is_u64 (my_out_of_game_balance s) /\ is_u64 (their_out_of_game_balance s)) as [? ?]
        by (unfold is_u64; lia).
      destruct started; repeat constructor; try done; by apply Forall_fmap.
Qed.

Lemma same_books_set_up env ph : same_books (set_up_channel env ph).
Proof.
  unfold set_up_channel. apply same_books_get. intros s.
  apply same_books_bind; [apply same_books_update_sent|intros _].
  apply same_books_bind; [apply same_books_get; intros; apply same_books_record|intros _].
  intros s1. unfold mbind, eff_bind, get_state, lift_result.
  destruct (create_conditions_and_signature_of_channel_coin _ _ _); [|done].
  by destruct (puzzle_for_synthetic_public_key _ _).
Qed.

Lemma ChannelState_new_balanced env keys launcher potato tc tu tr tph tsig mine theirs timeout ph s i :
  ChannelState_new env keys launcher potato tc tu tr tph tsig mine theirs timeout ph = Ok (s, i) ->
  (mine + theirs < u64_modulus)%N -> balanced (mine + theirs) (books_of s).
Proof.
  unfold ChannelState_new. intros (? & _ & H)%bind_Ok Hfit. apply bind_Ok in H as (? & _ & H).
  apply bind_Ok in H as (? & _ & H). cbn zeta in H.
  set (s0 := initial_channel_state _ _ _ _ _ _ _ _ _ _ _ _ _) in H.
  assert (balanced (mine + theirs) (books_of s0)) as H0 by (split; try done; cbn; lia).
  pose proof (same_books_set_up env (puzzle_hash_for_synthetic_public_key
    (pk_add (private_to_public_key (my_channel_coin_private_key keys)) tc)) s0) as Hb.
  destruct (set_up_channel _ _ s0) as [[i'|] s'] eqn:Hrun; [|done]. injection H as <- <-.
  cbn in Hb. by rewrite Hb.
Qed.
End books.

(** ** Properties *)

(** C4: Whatever the two players do off chain (proposing, accepting, playing,
    cheating, settling, passing the potato), no money appears or disappears:
    the free and the allocated balances always add up to the two
    contributions, and the unroll of every state pays out exactly that. *)
Theorem balances_conserved {arch : Arch} {sha2 : Sha2} {bigint : BigInt} {clvm : Clvm} {bls : Bls}
    {puzzles : ChiaPuzzles} {order : HashOrder} env keys launcher potato tc tu tr tph tsig
    mine theirs timeout ph s0 initiation s started
    (Hnew : ChannelState_new env keys launcher potato tc tu tr tph tsig mine theirs timeout ph
            = Ok (s0, initiation))
    (Hfits : (mine + theirs < u64_modulus)%N) (Hsteps : rtc (channel_step env) s0 s) :
  amount s false = (mine + theirs)%N
  /\ sum_N (snd <$> unroll_payouts started (current_inputs s)) = (mine + theirs)%N
  /\ Forall (fun p => is_u64 p.2) (unroll_payouts started (current_inputs s))
  /\ my_allocated_balance s = sum_N (lg_my_contribution <$> live_games s)
  /\ their_allocated_balance s = sum_N (lg_their_contribution <$> live_games s).
Proof.
  assert (balanced (mine + theirs) (books_of s)) as Hb.
  { pose proof (ChannelState_new_balanced _ _ _ _ _ _ _ _ _ _ _ _ _ _ _ Hnew Hfits) as H0. revert H0.
    clear Hnew. induction Hsteps as [|x y z Hxy _ IH]; [done|]. intros Hx.
    apply IH. by eapply channel_step_balanced. }
  destruct (balanced_payouts _ _ started Hb) as (Ha & Hp & Hu).
  destruct Hb as [_ _ Hm Ht _ _]. cbn in Hm, Ht. by rewrite <-!list_fmap_compose in Hm, Ht.
Qed.

Module Witnesses.
Import Toy ToyGame ToyChannel.

(** Alice proposes the game, both accept, and she passes the potato. *)
Definition alice_info : GameStartInfo := game_start game 0 15 true.
Abbreviation alice1 := (send_propose_game env alice_info 0 alice0).2.
Abbreviation alice2 := (apply_received_accept_proposal 0 alice1).2.
Abbreviation alice3 := (update_cached_unroll_state env alice2).2.

Lemma proposed_ok : is_ok (send_propose_game env alice_info 0 alice0).1 = true.
Proof. vm_compute. reflexivity. Qed.
Lemma accepted_ok : is_ok (apply_received_accept_proposal 0 alice1).1 = true.
Proof. vm_compute. reflexivity. Qed.
Lemma sent_ok : is_ok (update_cached_unroll_state env alice2).1 = true.
Proof. vm_compute. reflexivity. Qed.

Lemma steps : rtc (channel_step env) alice0 alice3.
Proof.
  apply (rtc_l _ _ alice1).
  { exact (step_propose env _ _ alice_info 0 eq_refl (eff_done _ _ proposed_ok)). }
  apply (rtc_l _ _ alice2).
  { exact (step_accepted env _ _ 0 (eff_done _ _ accepted_ok)). }
  apply rtc_once. exact (step_send env _ _ _ (eff_ok _ _ sent_ok)).
Qed.

Lemma balances_conserved_witness :
  amount alice3 false = 500%N
  /\ sum_N (snd <$> unroll_payouts true (current_inputs alice3)) = 500%N
  /\ Forall (fun p => is_u64 p.2) (unroll_payouts true (current_inputs alice3))
  /\ my_allocated_balance alice3 = sum_N (lg_my_contribution <$> live_games alice3)
  /\ their_allocated_balance alice3 = sum_N (lg_their_contribution <$> live_games alice3).
Proof.
  exact (balances_conserved _ _ _ _ _ _ _ _ _ _ _ _ _ _ _ _ true ToyChannel.alice_new_run
           eq_refl steps).
Defined.
End Witnesses.
