(* ===== verification/ChannelMirror.v ===== *)
(** * Two players, one channel

    The [ChannelState]s of the two players of a channel mirror each other:
    what is mine for one is theirs for the other, and the games, proposals and
    state numbers agree.  Every operation that one player performs and the
    other applies keeps them so, and in mirrored states the signatures of the
    one are accepted by the other. *)
From S2P Require Import Prelude Extern World Coins Clvm StandardCoin GameHandler RefereeTypes.
From S2P Require Import Referee ToyGame UnrollCoin LiveGame ChannelState ChannelGames.
From S2P Require Import RefereeProperties ToyChannel ChannelLemmas.
From stdpp Require Import relations.

Section mirror.
Context {arch : Arch} {sha2 : Sha2} {bigint : BigInt} {clvm : Clvm} {bls : Bls}.
Context {puzzles : ChiaPuzzles} {order : HashOrder}.

Record game_mirror (g h : LiveGame) : Prop := {
  gm_id : lg_game_id h = lg_game_id g;
  gm_coin : last_referee_puzzle_hash h = last_referee_puzzle_hash g;
  gm_referee : mirror (referee_maker g) (referee_maker h);
  gm_mine : lg_my_contribution h = lg_their_contribution g;
  gm_theirs : lg_their_contribution h = lg_my_contribution g;
}.

Record proposal_mirror (p q : ProposedGame) : Prop := {
  pm_id : pg_game_id q = pg_game_id p;
  pm_coin : initial_puzzle_hash q = initial_puzzle_hash p;
  pm_referee : mirror (referee p) (referee q);
  pm_mine : pg_my_contribution q = pg_their_contribution p;
  pm_theirs : pg_their_contribution q = pg_my_contribution p;
}.

(** One player knows the public keys of the other's private keys. *)
Record knows_keys (s t : ChannelState) : Prop := {
  knows_channel : their_channel_coin_public_key t
    = private_to_public_key (my_channel_coin_private_key (private_keys s));
  knows_unroll : their_unroll_coin_public_key t
    = private_to_public_key (my_unroll_coin_private_key (private_keys s));
  knows_referee : ch_their_referee_pubkey t
    = private_to_public_key (my_referee_private_key (private_keys s));
  knows_reward : ch_their_reward_puzzle_hash t = ch_reward_puzzle_hash s;
}.

(** What the set-up of the channel fixes. *)
Record same_channel (s t : ChannelState) : Prop := {
  sc_keys : knows_keys s t;
  sc_keys' : knows_keys t s;
  sc_coin : channel_coin t = channel_coin s;
  sc_started : started_with_potato (sent_coin t) = negb (started_with_potato (sent_coin s));
  sc_timeout : unroll_advance_timeout t = unroll_advance_timeout s;
}.

Record channel_mirror (s t : ChannelState) : Prop := {
  cm_same : same_channel s t;
  cm_number : state_number t = state_number s;
  cm_potato : have_potato t = negb (have_potato s);
  cm_free_mine : my_out_of_game_balance t = their_out_of_game_balance s;
  cm_free_theirs : their_out_of_game_balance t = my_out_of_game_balance s;
  cm_alloc_mine : my_allocated_balance t = their_allocated_balance s;
  cm_alloc_theirs : their_allocated_balance t = my_allocated_balance s;
  cm_games : Forall2 game_mirror (live_games s) (live_games t);
  cm_proposals : Forall2 proposal_mirror (proposed_games s) (proposed_games t);
}.

#[export] Instance game_mirror_symmetric : Symmetric game_mirror.
Proof. intros g h []. split; try congruence. by symmetry. Qed.
#[export] Instance proposal_mirror_symmetric : Symmetric proposal_mirror.
Proof. intros p q []. split; try congruence. by symmetry. Qed.
#[export] Instance same_channel_symmetric : Symmetric same_channel.
Proof. intros s t [? ? ? Hs]. split; try done. by rewrite Hs, negb_involutive. Qed.

#[export] Instance channel_mirror_symmetric : Symmetric channel_mirror.
Proof.
  intros s t [? ? Hp]. split; try done; try by symmetry.
  by rewrite Hp, negb_involutive.
Qed.

(** ** Looking up the same game on both sides *)
Lemma Forall2_position {A} (R : A -> A -> Prop) (p : A -> bool) l k :
  (forall x y, R x y -> p y = p x) -> Forall2 R l k -> position p k = position p l.
Proof. intros Hp. induction 1 as [|x y l k Hxy _ IH]; [done|]. cbn. by rewrite (Hp _ _ Hxy), IH. Qed.

Lemma game_position id s t :
  channel_mirror s t -> get_game_by_id t id = get_game_by_id s id.
Proof.
  intros Hm. unfold get_game_by_id. f_equal.
  eapply Forall2_position; [|apply (cm_games _ _ Hm)]. intros g h Hg. unfold has_id.
  by rewrite (gm_id _ _ Hg).
Qed.

Lemma proposal_position id s t :
  channel_mirror s t ->
  position (is_proposal id) (proposed_games t) = position (is_proposal id) (proposed_games s).
Proof.
  intros Hm. eapply Forall2_position; [|apply (cm_proposals _ _ Hm)]. intros g h Hg.
  unfold is_proposal. by rewrite (pm_id _ _ Hg).
Qed.

Lemma game_lookup s t i g h :
  channel_mirror s t -> live_games s !! i = Some g -> live_games t !! i = Some h -> game_mirror g h.
Proof. intros Hm. apply Forall2_lookup_lr, Hm. Qed.

Lemma Forall2_delete_at {A B} (R : A -> B -> Prop) l k i :
  Forall2 R l k -> Forall2 R (delete i l) (delete i k).
Proof. intros H. revert i. induction H; intros [|i]; cbn; try done. by constructor. Qed.

(** ** The unroll of mirrored states *)
Lemma game_amount_mirror g h : game_mirror g h -> LiveGame_get_amount h = LiveGame_get_amount g.
Proof.
  intros [_ _ [_ Hf _ _] _ _]. unfold LiveGame_get_amount, get_amount. apply (mirror_amount _ _ Hf).
Qed.

Lemma unroll_data_mirror games games' :
  Forall2 game_mirror games games' ->
  compute_unroll_data_for_games [] None games' = compute_unroll_data_for_games [] None games.
Proof.
  unfold compute_unroll_data_for_games, compute_game_coin_unroll_data.
  rewrite !retain_true by done. induction 1 as [|g h games games' Hg _ IH]; [done|].
  cbn -[to_parts CoinString_from_parts].
  rewrite !(bool_decide_eq_false_2 (None = _)) by done. cbn -[to_parts CoinString_from_parts].
  rewrite (gm_coin _ _ Hg), (game_amount_mirror _ _ Hg).
  destruct (to_parts _); cbn -[to_parts CoinString_from_parts]; [f_equal|]; exact IH.
Qed.

Lemma current_inputs_mirror s t :
  channel_mirror s t -> current_inputs t = mirror_inputs (current_inputs s).
Proof.
  intros [[Hk Hk' _ _ Ht] _ _ Hfm Hft _ _ Hg _].
  unfold current_inputs, unroll_coin_condition_inputs, mirror_inputs. cbn.
  rewrite Hfm, Hft, Ht, (unroll_data_mirror _ _ Hg), (knows_reward _ _ Hk), (knows_reward _ _ Hk').
  done.
Qed.

Lemma next_unroll_mirror s t :
  channel_mirror s t -> mirror_coins (next_unroll s) (next_unroll t).
Proof. intros [[_ _ _ Hs _] Hn]. split; [done|]. unfold next_unroll. cbn. by rewrite Hn. Qed.

Lemma aggregate_unroll_mirror s t :
  same_channel s t -> get_aggregate_unroll_public_key t = get_aggregate_unroll_public_key s.
Proof.
  intros [Hk Hk' _ _ _]. unfold get_aggregate_unroll_public_key.
  rewrite (knows_unroll _ _ Hk), (knows_unroll _ _ Hk'). apply pk_add_comm.
Qed.

Lemma aggregate_channel_mirror s t :
  same_channel s t -> get_aggregate_channel_public_key t = get_aggregate_channel_public_key s.
Proof.
  intros [Hk Hk' _ _ _]. unfold get_aggregate_channel_public_key.
  rewrite (knows_channel _ _ Hk), (knows_channel _ _ Hk'). apply pk_add_comm.
Qed.

(** ** Spending the channel coin together *)

(** Two coins that commit to the same conditions and number are one puzzle. *)
Definition same_commitment (u v : UnrollCoin) : Prop := exists o o',
  outcome u = Some o /\ outcome v = Some o' /\ outcome_hash o' = outcome_hash o
  /\ outcome_state_number o' = outcome_state_number o.

Lemma curried_mirror env s t u v :
  same_channel s t -> same_commitment u v ->
  make_curried_unroll_puzzle env (get_aggregate_unroll_public_key t) v
  = make_curried_unroll_puzzle env (get_aggregate_unroll_public_key s) u.
Proof.
  intros Hsame (o & o' & Ho & Ho' & Hh & Hn). unfold make_curried_unroll_puzzle,
    get_conditions_hash_for_unroll_puzzle, get_old_state_number, from_outcome.
  by rewrite Ho, Ho', (aggregate_unroll_mirror _ _ Hsame), Hh, Hn.
Qed.

(** A signature that lets the channel coin be spent to these conditions. *)
Definition spends_channel (s : ChannelState) (env : ChannelEnv) (conditions : Program) (sig : Aggsig)
    : Prop := exists node quoted qh,
  Program_to_nodeptr conditions = Ok node /\ to_quoted_program node = Ok quoted
  /\ Program_sha256tree quoted = Ok qh
  /\ sig_verify sig (get_aggregate_channel_public_key s)
       (agg_sig_me_message (PuzzleHash_bytes qh) (to_coin_id (channel_coin s))
          (env_agg_sig_me_additional_data env)) = true.

Lemma create_conditions_mirror env s t u v spend :
  same_channel s t -> same_commitment u v ->
  create_conditions_and_signature_of_channel_coin s env u = Ok spend ->
  exists spend' full, create_conditions_and_signature_of_channel_coin t env v = Ok spend'
  /\ verify_channel_coin_from_peer_signatures t env (broken_signature spend)
       (broken_conditions spend') = Ok full
  /\ spends_channel t env (broken_conditions spend')
       (sig_add (broken_signature spend') (broken_signature spend)).
Proof.
  intros Hsame Hcommit.
  unfold create_conditions_and_signature_of_channel_coin, get_solution_and_signature.
  rewrite (sc_coin _ _ Hsame). intros (amt & Hamt & H)%bind_Ok. rewrite Hamt. cbn [mbind result_bind].
  rewrite (curried_mirror env s t u v Hsame Hcommit).
  apply bind_Ok in H as (node & Hnode & H). cbn zeta in H. rewrite Hnode. cbn [mbind result_bind].
  cbn zeta.
  set (creates := list_node _) in *. apply bind_Ok in H as (cp & Hcp & H). rewrite Hcp.
  cbn [mbind result_bind]. unfold get_solution_and_signature_from_conditions in *.
  apply Program_from_nodeptr_inv in Hcp as [_ Hcp]. rewrite Hcp in *. cbn [mbind result_bind] in *.
  assert (CoinCondition_from_nodeptr creates = Ok [CreateCoin (node_sha256tree node) amt]) as Hparse.
  { unfold CoinCondition_from_nodeptr, creates. rewrite proper_list_list_node. cbn [ok_or mbind result_bind].
    apply (parse_conditions_create_coins [(node_sha256tree node, amt)]). constructor; [|constructor]. cbn.
    apply ok_or_Ok in Hamt. unfold CoinString_amount in Hamt.
    destruct (to_parts (channel_coin s)) as [[[parent ph] a]|] eqn:Hparts; [|done].
    injection Hamt as <-. apply to_parts_Some in Hparts as (? & _ & Ha).
    by apply u64_from_atom_Some in Ha as [? _]. }
  destruct (standard_solution_partial_other
    (my_channel_coin_private_key (private_keys s)) (my_channel_coin_private_key (private_keys t))
    _ _ _ _ _ _ Hparse ltac:(repeat constructor) H) as (Hsig & Hcp' & Hother).
  pose proof (aggregate_channel_mirror _ _ Hsame) as Hagg.
  rewrite Hagg, Hother. apply Program_from_nodeptr_inv in Hcp' as [_ Hcp'].
  assert (sig_verify (sig_add
    (partial_signer (my_channel_coin_private_key (private_keys t)) (get_aggregate_channel_public_key s)
       (message spend)) (broken_signature spend)) (get_aggregate_channel_public_key s) (message spend)
    = true) as Hverify.
  { rewrite Hsig, !partial_signer_sign_raw. unfold get_aggregate_channel_public_key.
    rewrite (knows_channel _ _ (sc_keys' _ _ Hsame)). unfold private_to_public_key.
    rewrite sig_add_comm. apply partial_signatures_verify. }
  do 2 eexists. split; [reflexivity|]. split.
  - unfold verify_channel_coin_from_peer_signatures, get_solution_and_signature_from_conditions.
    cbn [broken_conditions]. rewrite Hcp'. cbn [mbind result_bind].
    rewrite (sc_coin _ _ Hsame), Hagg, Hother.
    cbn [mbind result_bind broken_signature message broken_solution broken_conditions].
    by rewrite Hverify.
  - apply standard_solution_partial_Ok in H as (quoted & qh & _ & _ & _ & Hq & Hqh & _ & Hm & _).
    exists creates, quoted, qh. cbn. rewrite Hagg, (sc_coin _ _ Hsame), <-Hm. done.
Qed.

(** ** Passing the potato *)
Lemma potato_mirror s t u v ph h ph' h' info :
  channel_mirror s t -> started_with_potato u = started_with_potato (sent_coin s) ->
  channel_mirror (sent_potato u ph h s) (received_potato (mkUnrollSpendInfo v info) ph' h' t).
Proof.
  intros [[Hk Hk' Hc Hs Ht] Hn _ Hfm Hft Ham Hat Hg Hp] Hu.
  split; cbn; try done.
  - split; cbn; try done; [by destruct Hk|by destruct Hk'|by rewrite Hu].
  - by rewrite Hn.
Qed.

(** The signatures of one player are accepted by the other. *)
Lemma honest_potato env s t sigs s' :
  channel_mirror s t -> update_cached_unroll_state env s = (Ok sigs, s') ->
  exists info t', verify_received_batch_signatures env sigs t = (Ok info, t')
  /\ channel_mirror s' t' /\ spends_channel t' env (ccs_conditions info) (ccs_aggsig info).
Proof.
  intros Hm H. pose proof (cm_same _ _ Hm) as Hsame.
  apply update_cached_Ok in H as (u & half & spend & ph & h & Hsign & Hspend & -> & Hrec & ->).
  unfold sign_next in Hsign.
  destruct (UnrollCoin_update_other _ (my_unroll_coin_private_key (private_keys t)) _
    (their_unroll_coin_public_key t) _ _ (next_unroll t) _ _ (next_unroll_mirror _ _ Hm) Hsign)
    as (o & half' & Ho & Hon & Hsign').
  set (v := (next_unroll t) <| outcome := _ |>) in Hsign'.
  assert (same_commitment u v) as Hcommit by by do 2 eexists.
  destruct (create_conditions_mirror env s t u v spend Hsame Hcommit Hspend)
    as (spend' & full & Hspend' & Hfull & Hok).
  destruct Hrec as (node & o' & Hnode & -> & Ho' & ->).
  rewrite <-(curried_mirror env s t u v Hsame Hcommit) in Hnode.
  do 2 eexists. split; [|split].
  - apply verify_received_run. exists v, half', spend', full. do 2 eexists.
    split; [unfold sign_next; by rewrite (current_inputs_mirror _ _ Hm)|].
    split; [|split; [exact Hspend'|split; [exact Hfull|split; [|by split]]]].
    + unfold get_aggregate_unroll_public_key. cbn [unroll_preempt_half_sig].
      rewrite (knows_unroll _ _ (sc_keys _ _ Hsame)) in Hsign' |- *.
      rewrite (knows_unroll _ _ (sc_keys' _ _ Hsame)) in Hsign.
      eapply exchange_verifies; [|exact Hsign'|by rewrite mirror_inputs_twice].
      by apply mirror_coins_sym, next_unroll_mirror.
    + eexists _, _. by split; [exact Hnode|].
  - apply potato_mirror; [done|].
    apply UnrollCoin_update_Ok in Hsign as (? & ? & ? & ? & _ & _ & _ & _ & _ & ->). done.
  - exact Hok.
Qed.

(** ** Proposals, moves, settlements *)

(** The parts of a state that mirroring does not look at may change freely. *)
Lemma mirror_frame s s' t :
  channel_mirror s t ->
  private_keys s' = private_keys s -> 
  (their_channel_coin_public_key s', their_unroll_coin_public_key s', ch_their_referee_pubkey s')
  = (their_channel_coin_public_key s, their_unroll_coin_public_key s, ch_their_referee_pubkey s) ->
  (ch_their_reward_puzzle_hash s', ch_reward_puzzle_hash s', channel_coin s', sent_coin s')
  = (ch_their_reward_puzzle_hash s, ch_reward_puzzle_hash s, channel_coin s, sent_coin s) ->
  (unroll_advance_timeout s', state_number s', have_potato s')
  = (unroll_advance_timeout s, state_number s, have_potato s) ->
  (my_out_of_game_balance s', their_out_of_game_balance s', my_allocated_balance s',
   their_allocated_balance s')
  = (my_out_of_game_balance s, their_out_of_game_balance s, my_allocated_balance s,
     their_allocated_balance s) ->
  Forall2 game_mirror (live_games s') (live_games t) ->
  Forall2 proposal_mirror (proposed_games s') (proposed_games t) -> channel_mirror s' t.
Proof.
  intros [[[] [] ? ? ?] ? ? ? ? ? ? ? ?] Hk [= H1 H2 H3] [= H4 H5 H6 H7] [= H8 H9 H10]
    [= H11 H12 H13 H14] Hg Hp.
  repeat split; rewrite ?Hk, ?H1, ?H2, ?H3, ?H4, ?H5, ?H6, ?H7, ?H8, ?H9, ?H10, ?H11, ?H12, ?H13, ?H14;
    done.
Qed.

Lemma ChiaIdentity_new_key sk identity :
  ChiaIdentity_new sk = Ok identity -> public_key identity = private_to_public_key sk.
Proof. unfold ChiaIdentity_new. intros H. inv_ok. done. Qed.

Lemma propose_mirror env g id timeout gid s t s' t' :
  channel_mirror s t ->
  send_propose_game env (game_start g id timeout true) gid s = (Ok tt, s') ->
  apply_received_proposal env (game_start g id timeout false) gid t = (Ok tt, t') ->
  channel_mirror s' t'.
Proof.
  intros Hm (r & Hr & ->)%send_propose_game_Ok H.
  pose proof (apply_received_proposal_spec env (game_start g id timeout false) gid t) as Hspec.
  rewrite H in Hspec. destruct Hspec as (r' & Hr' & _ & _ & _ & _ & _ & _ & ->).
  unfold new_referee in Hr, Hr'. apply bind_Ok in Hr as (idA & HA & Hr).
  apply bind_Ok in Hr' as (idB & HB & Hr').
  apply ChiaIdentity_new_key in HA, HB.
  destruct Hm as [[Hk Hk' Hc Hs Ht] Hn Hpot Hfm Hft Ham Hat Hg Hp].
  rewrite (knows_referee _ _ Hk), <-HA, (knows_reward _ _ Hk) in Hr'.
  rewrite (knows_referee _ _ Hk'), <-HB, (knows_reward _ _ Hk') in Hr.
  destruct r as [rA hA], r' as [rB hB].
  destruct (Referee_new_mirror _ _ _ _ _ _ _ _ _ _ _ _ _ _ _ _ _ _ _ Hr Hr') as (Hmirror & Hh & _).
  split; cbn; try done; [|].
  - split; cbn; try done; [by destruct Hk|by destruct Hk'].
  - apply Forall2_app; [done|]. constructor; [|done]. unfold proposed, game_start.
    by split; destruct (sender_goes_first g).
Qed.

Lemma accept_mirror id s t s' t' :
  channel_mirror s t -> accept_proposal_inner id s = (Ok tt, s') ->
  accept_proposal_inner id t = (Ok tt, t') -> channel_mirror s' t'.
Proof.
  intros Hm H H'. pose proof (accept_proposal_inner_spec id s) as Hs.
  pose proof (accept_proposal_inner_spec id t) as Ht. rewrite H in Hs. rewrite H' in Ht.
  destruct Hs as (i & p & Hi & Hp & _ & _ & ->), Ht as (j & q & Hj & Hq & _ & _ & ->).
  rewrite (proposal_position _ _ _ Hm), Hi in Hj. injection Hj as <-.
  destruct Hm as [[Hk Hk' Hc Hst Htm] Hn Hpot Hfm Hft Ham Hat Hg Hpr].
  destruct (Forall2_lookup_lr _ _ _ _ _ _ Hpr Hp Hq) as [Hid Hcoin Href Hmine Htheirs].
  unfold accepted. split; cbn; try congruence.
  - split; cbn; try done; [by destruct Hk|by destruct Hk'].
  - apply Forall2_app; [done|]. constructor; [by split|constructor].
  - by apply Forall2_delete_at.
Qed.

Lemma cancel_mirror m1 m2 id s t s' t' :
  channel_mirror s t -> remove_proposal m1 id s = (Ok tt, s') ->
  remove_proposal m2 id t = (Ok tt, t') -> channel_mirror s' t'.
Proof.
  intros Hm (i & Hi & ->)%remove_proposal_Ok (j & Hj & ->)%remove_proposal_Ok.
  rewrite (proposal_position _ _ _ Hm), Hi in Hj. injection Hj as <-.
  destruct Hm as [[Hk Hk' Hc Hst Htm] Hn Hpot Hfm Hft Ham Hat Hg Hpr].
  split; cbn; try done.
  - split; cbn; try done; [by destruct Hk|by destruct Hk'].
  - by apply Forall2_delete_at.
Qed.

Lemma moves_mirror id readable entropy s t s' t' res res' :
  channel_mirror s t -> send_move_no_finalize id readable entropy s = (Ok res, s') ->
  apply_received_move id (mr_game_move res) t = (Ok res', t') -> channel_mirror s' t'.
Proof.
  intros Hm (i & g & r & w & entries & Hi & Hg & Hmine & -> & ->)%send_move_Ok.
  intros (j & h & r' & out & Hj & Hh & Htheirs & ->)%apply_received_move_Ok.
  rewrite (game_position _ _ _ Hm), Hi in Hj. injection Hj as <-.
  destruct (game_lookup _ _ _ _ _ Hm Hg Hh) as [Hid Hcoin Href Hmn Hth].
  pose proof (mirror_move _ _ _ _ _ _ _ _ _ _ Href Hmine Htheirs) as Hnew.
  destruct Hm as [[Hk Hk' Hc Hst Htm] Hn Hpot Hfm Hft Ham Hat Hgs Hpr].
  split; cbn; try done.
  - split; cbn; try done; [by destruct Hk|by destruct Hk'].
  - apply Forall2_insert; [done|]. split; cbn; try done.
    by destruct (mirror_outcome _ _ Hnew) as [-> _].
Qed.

Lemma settle_mirror id s t s' t' a b over :
  channel_mirror s t -> send_accept_settlement_no_finalize id s = (Ok a, s') ->
  apply_received_accept_settlement id t = (Ok (b, over), t') -> channel_mirror s' t'.
Proof.
  intros Hm (i & g & entry & Hi & Hg & _ & _ & Ha & Hale & ->)%send_accept_settlement_Ok.
  intros (j & h & Hj & Hh & _ & Hb & Hble & _ & ->)%apply_accept_settlement_Ok.
  rewrite (game_position _ _ _ Hm), Hi in Hj. injection Hj as <-.
  pose proof (game_lookup _ _ _ _ _ Hm Hg Hh) as Hgh.
  pose proof (game_amount_mirror _ _ Hgh) as Hamt.
  destruct Hgh as [Hid Hcoin Href Hmn Hth].
  pose proof (mirror_shares _ _ _ _ Href Ha Hb) as Hsum. unfold LiveGame_get_amount in *.
  destruct Hm as [[Hk Hk' Hc Hst Htm] Hn Hpot Hfm Hft Ham Hat Hgs Hpr].
  unfold settled. split; cbn; try congruence.
  - split; cbn; try done; [by destruct Hk|by destruct Hk'].
  - rewrite Hfm. f_equal. unfold LiveGame_get_amount. lia.
  - rewrite Hft. f_equal. unfold LiveGame_get_amount. lia.
  - by apply Forall2_delete_at.
Qed.

(** ** The two players together *)

(** The first player acts; the second applies what it is told. *)
Inductive act (env : ChannelEnv) : ChannelState * ChannelState -> ChannelState * ChannelState -> Prop :=
| act_nonce s s' t n : allocate_my_nonce s = (Ok n, s') -> act env (s, t) (s', t)
| act_propose s s' t t' g id timeout gid :
    send_propose_game env (game_start g id timeout true) gid s = (Ok tt, s') ->
    apply_received_proposal env (game_start g id timeout false) gid t = (Ok tt, t') ->
    act env (s, t) (s', t')
| act_accept s s' t t' id :
    send_accept_proposal id s = (Ok tt, s') -> apply_received_accept_proposal id t = (Ok tt, t') ->
    act env (s, t) (s', t')
| act_cancel s s' t t' id :
    send_cancel_proposal id s = (Ok tt, s') -> received_cancel_proposal id t = (Ok tt, t') ->
    act env (s, t) (s', t')
| act_move s s' t t' id readable entropy res res' :
    send_move_no_finalize id readable entropy s = (Ok res, s') ->
    apply_received_move id (mr_game_move res) t = (Ok res', t') -> act env (s, t) (s', t')
| act_settle s s' t t' id a b :
    send_accept_settlement_no_finalize id s = (Ok a, s') ->
    apply_received_accept_settlement id t = (Ok b, t') -> act env (s, t) (s', t')
| act_pass s s' t t' sigs info :
    update_cached_unroll_state env s = (Ok sigs, s') ->
    verify_received_batch_signatures env sigs t = (Ok info, t') -> act env (s, t) (s', t')
| act_drain s s' t l : drain_cached_accept_settlements s = (Ok l, s') -> act env (s, t) (s', t).

Definition joint_step (env : ChannelEnv) (p q : ChannelState * ChannelState) : Prop :=
  act env p q \/ act env (p.2, p.1) (q.2, q.1).

Lemma first_acts env s t s' t' : act env (s, t) (s', t') -> joint_step env (s, t) (s', t').
Proof. by left. Qed.
Lemma second_acts env s t s' t' : act env (t, s) (t', s') -> joint_step env (s, t) (s', t').
Proof. by right. Qed.

Lemma act_mirror env p q : act env p q -> channel_mirror p.1 p.2 -> channel_mirror q.1 q.2.
Proof.
  destruct 1 as [s s' t n H|s s' t t' g id timeout gid H H'|s s' t t' id H H'|s s' t t' id H H'
    |s s' t t' id rd e res res' H H'|s s' t t' id a [b over] H H'|s s' t t' sigs info H H'|s s' t l H];
    cbn; intros Hm.
  - injection H as _ <-. by apply (mirror_frame s); destruct Hm.
  - by eapply propose_mirror.
  - unfold send_accept_proposal in H. apply eff_bind_Ok in H as ([] & s1 & H & [= <-]).
    unfold apply_received_accept_proposal in H'. apply eff_bind_Ok in H' as (? & ? & [= <- <-] & H').
    apply eff_bind_Ok in H' as (? & ? & Hg & H'). injection Hg as _ <-.
    pose proof (accept_mirror _ _ _ _ _ Hm H H') as Hm'. by apply (mirror_frame s1); destruct Hm'.
  - by eapply cancel_mirror.
  - by eapply moves_mirror.
  - by eapply settle_mirror.
  - destruct (honest_potato _ _ _ _ _ Hm H) as (info' & t1 & Hrun & Hm' & _). congruence.
  - injection H as _ <-. by apply (mirror_frame s); destruct Hm.
Qed.

Lemma joint_mirror env p q :
  rtc (joint_step env) p q -> channel_mirror p.1 p.2 -> channel_mirror q.1 q.2.
Proof.
  induction 1 as [|p1 p2 p3 [H|H] _ IH]; [done| |]; intros Hm; apply IH.
  - by eapply act_mirror.
  - symmetry. apply (act_mirror _ _ _ H). by symmetry.
Qed.

(** The public half of a player's keys. *)
Definition channel_pk (keys : ChannelPrivateKeys) : PublicKey :=
  private_to_public_key (my_channel_coin_private_key keys).
Definition unroll_pk (keys : ChannelPrivateKeys) : PublicKey :=
  private_to_public_key (my_unroll_coin_private_key keys).
Definition referee_pk (keys : ChannelPrivateKeys) : PublicKey :=
  private_to_public_key (my_referee_private_key keys).

Lemma new_mirror env keysA keysB launcher potato sigA sigB mine theirs timeout phA phB s t iA iB :
  ChannelState_new env keysA launcher potato (channel_pk keysB) (unroll_pk keysB) (referee_pk keysB)
    phB sigB mine theirs timeout phA = Ok (s, iA) ->
  ChannelState_new env keysB launcher (negb potato) (channel_pk keysA) (unroll_pk keysA)
    (referee_pk keysA) phA sigA theirs mine timeout phB = Ok (t, iB) ->
  channel_mirror s t.
Proof.
  intros (_ & ? & u & ? & ? & ? & ? & Hu & _ & _ & ->)%ChannelState_new_Ok.
  intros (_ & ? & v & ? & ? & ? & ? & Hv & _ & _ & ->)%ChannelState_new_Ok.
  apply UnrollCoin_update_Ok in Hu as (? & ? & ? & ? & _ & _ & _ & _ & _ & ->).
  apply UnrollCoin_update_Ok in Hv as (? & ? & ? & ? & _ & _ & _ & _ & _ & ->).
  split; cbn; try done; [|by constructor..].
  split; cbn; try done. unfold channel_coin. cbn. unfold channel_pk.
  rewrite (pk_add_comm (private_to_public_key (my_channel_coin_private_key keysB))).
  unfold Amount_add, u64_add. by rewrite (N.add_comm theirs mine).
Qed.
End mirror.

(** ** Properties *)

(** C1: Two players that set up a channel together and then only do what the
    other applies stay mirror images of each other, through any exchange of
    proposals, moves, settlements and potatoes: their balances are swapped,
    their games and proposals agree, exactly one of them holds the potato, and
    both would unroll to the very same conditions. *)
Theorem channels_stay_mirrored {arch : Arch} {sha2 : Sha2} {bigint : BigInt} {clvm : Clvm} {bls : Bls}
    {puzzles : ChiaPuzzles} {order : HashOrder} env keysA keysB launcher potato sigA sigB mine theirs
    timeout phA phB s0 t0 iA iB s t
    (HA : ChannelState_new env keysA launcher potato (channel_pk keysB) (unroll_pk keysB)
            (referee_pk keysB) phB sigB mine theirs timeout phA = Ok (s0, iA))
    (HB : ChannelState_new env keysB launcher (negb potato) (channel_pk keysA) (unroll_pk keysA)
            (referee_pk keysA) phA sigA theirs mine timeout phB = Ok (t0, iB))
    (Hsteps : rtc (joint_step env) (s0, t0) (s, t)) :
  my_out_of_game_balance t = their_out_of_game_balance s
  /\ their_out_of_game_balance t = my_out_of_game_balance s
  /\ state_number t = state_number s /\ have_potato t = negb (have_potato s)
  /\ live_game_ids t = live_game_ids s
  /\ last_referee_puzzle_hash <$> live_games t = last_referee_puzzle_hash <$> live_games s
  /\ Forall2 (fun g h => LiveGame_is_my_turn h = negb (LiveGame_is_my_turn g))
       (live_games s) (live_games t)
  /\ Forall2 proposal_mirror (proposed_games s) (proposed_games t)
  /\ compute_unroll_coin_conditions (current_inputs t) (next_unroll t)
     = compute_unroll_coin_conditions (current_inputs s) (next_unroll s).
Proof.
  assert (channel_mirror s t) as Hm by exact (joint_mirror _ _ _ Hsteps (new_mirror _ _ _ _ _ _ _ _ _ _ _ _ _ _ _ _ HA HB)).
  split_and!; try by destruct Hm.
  - unfold live_game_ids. induction (cm_games _ _ Hm) as [|g h ? ? [Hid _ _ _ _] _ IH]; [done|].
    cbn. by rewrite Hid, IH.
  - induction (cm_games _ _ Hm) as [|g h ? ? [_ Hc _ _ _] _ IH]; [done|]. cbn. by rewrite Hc, IH.
  - eapply Forall2_impl; [exact (cm_games _ _ Hm)|]. intros g h [_ _ [Ht _ _ _] _ _]. exact Ht.
  - rewrite (current_inputs_mirror _ _ Hm). by apply compute_mirror, next_unroll_mirror.
Qed.


Module Witnesses.
Import Toy ToyGame ToyChannel.

(** Alice proposes the game, Bob accepts it, Alice passes the potato. *)
Abbreviation alice_info := (game_start game 0 15 true).
Abbreviation bob_info := (game_start game 0 15 false).
Abbreviation alice1 := (send_propose_game env alice_info 0 alice0).2.
Abbreviation bob1 := (apply_received_proposal env bob_info 0 bob0).2.
Abbreviation bob2 := (send_accept_proposal 0 bob1).2.
Abbreviation alice2 := (apply_received_accept_proposal 0 alice1).2.
Abbreviation sent := (update_cached_unroll_state env alice2).

Lemma mirror_proposed_ok : is_ok (send_propose_game env alice_info 0 alice0).1 = true.
Proof. vm_compute. reflexivity. Qed.
Lemma taken_ok : is_ok (apply_received_proposal env bob_info 0 bob0).1 = true.
Proof. vm_compute. reflexivity. Qed.
Lemma accept_ok : is_ok (send_accept_proposal 0 bob1).1 = true.
Proof. vm_compute. reflexivity. Qed.
Lemma mirror_accepted_ok : is_ok (apply_received_accept_proposal 0 alice1).1 = true.
Proof. vm_compute. reflexivity. Qed.

Lemma mirror_steps : rtc (joint_step env) (alice0, bob0) (alice2, bob2).
Proof.
  apply (rtc_l _ _ (alice1, bob1)).
  { apply first_acts. refine (act_propose env alice0 alice1 bob0 bob1 game 0 15 0 _ _).
    - exact (eff_done (send_propose_game env alice_info 0) alice0 mirror_proposed_ok).
    - exact (eff_done (apply_received_proposal env bob_info 0) bob0 taken_ok). }
  apply rtc_once, second_acts. refine (act_accept env bob1 bob2 alice1 alice2 0 _ _).
  - exact (eff_done (send_accept_proposal 0) bob1 accept_ok).
  - exact (eff_done (apply_received_accept_proposal 0) alice1 mirror_accepted_ok).
Qed.

Lemma channels_stay_mirrored_witness :
  my_out_of_game_balance bob2 = their_out_of_game_balance alice2
  /\ live_game_ids bob2 = live_game_ids alice2.
Proof.
  destruct (channels_stay_mirrored env alice_keys bob_keys launcher true _ _ _ _ _ _ _ _ _ _ _ _ _
    alice_new_run bob_new_run mirror_steps) as (H1 & _ & _ & _ & H2 & _).
  exact (conj H1 H2).
Defined.

End Witnesses.
