(* ===== verification/ChannelUnrolls.v ===== *)
(** * Answering an unroll

    What a player keeps about the unrolls it has signed, and why the spend it
    answers a channel coin spend with is the right one: it reveals the puzzle
    of the unroll coin that was created, and it either takes the agreed timeout
    path or supersedes the state with a newer one both players signed. *)
From S2P Require Import Prelude Extern World Coins Clvm StandardCoin GameHandler RefereeTypes.
From S2P Require Import Referee ToyGame UnrollCoin LiveGame ChannelState ChannelGames ChannelOnChain.
From S2P Require Import RefereeProperties ToyChannel ChannelLemmas.
From stdpp Require Import relations.

Section unrolls.
Context {arch : Arch} {sha2 : Sha2} {bigint : BigInt} {clvm : Clvm} {bls : Bls}.
Context {puzzles : ChiaPuzzles} {order : HashOrder}.

(** ** What is kept *)

(** A signed unroll coin: its outcome is the one of its own state number. *)
Definition signed_coin (u : UnrollCoin) : Prop := exists o i,
  outcome u = Some o /\ compute_unroll_coin_conditions i u = Ok (conditions_without_hash o)
  /\ outcome_state_number o = unroll_state_number u
  /\ Program_sha256tree (conditions o) = Ok (outcome_hash o).

(** The puzzle of an unroll, and what takes its timeout path. *)
Definition known_unroll (env : ChannelEnv) (s : ChannelState) (ph : PuzzleHash)
    (h : HistoricalUnrollSpendInfo) : Prop :=
  (exists node, curried_unroll s env (historical_state_number h) (conditions_hash h) = Ok node
                /\ node_sha256tree node = ph)
  /\ Program_sha256tree (timeout_conditions h) = Ok (conditions_hash h)
  /\ (historical_state_number h <= state_number s)%N.

(** A state the peer signed, and how old it may be. *)
Definition peer_signed (s : ChannelState) (info : ChannelUnrollSpendInfo) : Prop :=
  signed_coin (unroll_coin info)
  /\ UnrollCoin_verify (get_aggregate_unroll_public_key s)
       (unroll_preempt_half_sig (signatures info)) (unroll_coin info) = Ok true
  /\ (unroll_state_number (unroll_coin info) = state_number s
      \/ have_potato s = false /\ (unroll_state_number (unroll_coin info) + 1)%N = state_number s).

Record unrolls_ok (env : ChannelEnv) (s : ChannelState) : Prop := {
  uo_map : forall ph h, unroll_puzzle_hash_map s !! ph = Some h -> known_unroll env s ph h;
  uo_sent : signed_coin (sent_coin s) /\ signatures (latest_sent_unroll s) = StateUpdateSignatures_default;
  uo_sent_number : (unroll_state_number (sent_coin s) <= state_number s)%N;
  uo_received : forall info, latest_received_unroll s = Some info -> peer_signed s info;
}.

Lemma unroll_part_ok env s s' : unroll_part s' = unroll_part s -> unrolls_ok env s -> unrolls_ok env s'.
Proof.
  intros [= H1 H2 H3 H4 H5 H6 H7 _ _] [Hm Hs Hn Hr]. split.
  - intros ph h. rewrite H7. intros Hh. apply Hm in Hh. revert Hh.
    unfold known_unroll, curried_unroll, get_aggregate_unroll_public_key. by rewrite H1, H2, H3.
  - unfold sent_coin in *. by rewrite H5.
  - unfold sent_coin in *. by rewrite H5, H3.
  - intros info. rewrite H6. intros Hh. apply Hr in Hh. revert Hh.
    unfold peer_signed, get_aggregate_unroll_public_key. by rewrite H1, H2, H3, H4.
Qed.

(** ** Signing *)
Lemma update_signed sk their i u half u' :
  UnrollCoin_update sk their i u = (Ok half, u') ->
  signed_coin u' /\ unroll_state_number u' = unroll_state_number u.
Proof.
  intros (base & tc & th & bh & Hb & _ & Hth & _ & _ & ->)%UnrollCoin_update_Ok.
  split; [|done]. by eexists _, i.
Qed.

Lemma recorded_known env s u ph h :
  recorded env s u ph h -> signed_coin u ->
  (exists node, curried_unroll s env (historical_state_number h) (conditions_hash h) = Ok node
                /\ node_sha256tree node = ph)
  /\ Program_sha256tree (timeout_conditions h) = Ok (conditions_hash h)
  /\ historical_state_number h = unroll_state_number u.
Proof.
  intros (node & o & Hnode & -> & Ho & ->) (o' & i & Ho' & _ & Hn & Hh).
  assert (o' = o) as -> by congruence. split; [|done]. exists node. split; [|done].
  cbn. rewrite <-Hnode, <-Hn. unfold curried_unroll, make_curried_unroll_puzzle,
    get_conditions_hash_for_unroll_puzzle, get_old_state_number, from_outcome.
  by rewrite Ho.
Qed.

Lemma usize_add_one n : (n + 1 < usize_modulus)%N -> usize_add n 1 = (n + 1)%N.
Proof. apply N.mod_small. Qed.

Lemma insert_known env s s' ph h u :
  unrolls_ok env s -> (state_number s <= state_number s')%N ->
  private_keys s' = private_keys s -> their_unroll_coin_public_key s' = their_unroll_coin_public_key s ->
  recorded env s u ph h -> signed_coin u -> unroll_state_number u = state_number s' ->
  forall ph' h', <[ph := h]> (unroll_puzzle_hash_map s) !! ph' = Some h' -> known_unroll env s' ph' h'.
Proof.
  intros Hok Hle Hk Ht Hrec Hu Hn ph' h' Hin. unfold known_unroll, curried_unroll,
    get_aggregate_unroll_public_key. rewrite Hk, Ht.
  apply lookup_insert_Some in Hin as [[<- <-]|[_ Hin]].
  - destruct (recorded_known _ _ _ _ _ Hrec Hu) as (Hnode & Htree & Hnum).
    split; [exact Hnode|]. split; [done|]. rewrite Hnum, Hn. done.
  - destruct (uo_map _ _ Hok _ _ Hin) as (Hnode & Htree & Hnum).
    split; [exact Hnode|]. split; [done|]. lia.
Qed.

(** Who sends has the potato, or sends the first one: until then the flag of the
    channel says which player does not start. *)
Definition may_send (s : ChannelState) : Prop := have_potato s = true \/ state_number s = 0%N.

Lemma send_ok env s sigs s' :
  update_cached_unroll_state env s = (Ok sigs, s') -> may_send s ->
  (state_number s + 1 < usize_modulus)%N -> unrolls_ok env s -> unrolls_ok env s'.
Proof.
  intros (u & half & spend & ph & h & Hsign & _ & _ & Hrec & ->)%update_cached_Ok Hpot Hfit Hok.
  apply update_signed in Hsign as [Hu Hn]. cbn in Hn. pose proof (usize_add_one _ Hfit) as Hadd.
  split; cbn.
  - eapply (insert_known env s); [done|cbn; lia|done|done|done|done|by cbn].
  - done.
  - unfold sent_coin. cbn. lia.
  - intros info Hinfo. destruct (uo_received _ _ Hok _ Hinfo) as (H1 & H2 & H3).
    split; [done|]. split; [exact H2|]. right. cbn. split; [done|].
    destruct H3 as [H3|[H3 H4]]; [lia|]. destruct Hpot as [Hpot|Hpot]; [congruence|lia].
Qed.

Lemma receive_ok env s sigs info s' :
  verify_received_batch_signatures env sigs s = (Ok info, s') ->
  (state_number s + 1 < usize_modulus)%N -> unrolls_ok env s -> unrolls_ok env s'.
Proof.
  intros (u & half & spend & full & ph & h & Hsign & Hver & _ & _ & Hrec & _ & ->)%verify_received_Ok
    Hfit Hok.
  apply update_signed in Hsign as [Hu Hn]. cbn in Hn. pose proof (usize_add_one _ Hfit) as Hadd.
  pose proof (uo_sent _ _ Hok) as Hs. pose proof (uo_sent_number _ _ Hok) as Hns. split; cbn.
  - eapply (insert_known env s); [done|cbn; lia|done|done|done|done|by cbn].
  - exact Hs.
  - unfold sent_coin in *. cbn. lia.
  - intros ? [= <-]. split; [done|]. split; [exact Hver|]. by left.
Qed.

(** ** Runs *)

(** Apart from the potato itself, nothing the players do off chain touches
    the unrolls. *)
Lemma channel_step_part env s s' :
  channel_step env s s' ->
  unroll_part s' = unroll_part s
  \/ (exists sigs, update_cached_unroll_state env s = (Ok sigs, s'))
  \/ (exists sigs info, verify_received_batch_signatures env sigs s = (Ok info, s')).
Proof.
  destruct 1 as [| | | | | | | | | | | | |s s' sigs H|s s' sigs info H|];
    [left..|right; left; by exists sigs|right; right; by exists sigs, info|left].
  all: first [by eapply quiet_nonce|by eapply quiet_propose|by eapply quiet_proposed
    |by eapply quiet_accept|by eapply quiet_accepted|by eapply quiet_cancel_all|by eapply quiet_move
    |by eapply quiet_moved|by eapply quiet_cheat|by eapply quiet_settle|by eapply quiet_settled
    |by eapply quiet_drain|by eapply quiet_remove].
Qed.

(** What a session does with a channel: it finishes the handshake on the
    first state, and after that sends the potato only when it has it.  The numbers of the
    states fit a [usize]. *)
Inductive session_step (env : ChannelEnv) : ChannelState -> ChannelState -> Prop :=
| session_handshake s s' sigs info :
    state_number s = 0%N ->
    verify_and_store_initial_peer_signatures env sigs s = (Ok info, s') -> session_step env s s'
| session_off_chain s s' :
    channel_step env s s' -> (state_number s + 1 < usize_modulus)%N ->
    (forall sigs, update_cached_unroll_state env s = (Ok sigs, s') -> may_send s) ->
    session_step env s s'.

Lemma session_step_ok env s s' : session_step env s s' -> unrolls_ok env s -> unrolls_ok env s'.
Proof.
  destruct 1 as [s s' sigs info Hzero H|s s' H Hfit Hpot]; intros Hok.
  - apply verify_initial_Ok in H as (spend & Hver & ->).
    pose proof (uo_sent _ _ Hok) as [Hsigned _].
    pose proof (uo_sent_number _ _ Hok) as Hnum. split; cbn.
    + intros ph h Hin. exact (uo_map _ _ Hok _ _ Hin).
    + exact (uo_sent _ _ Hok).
    + exact Hnum.
    + intros ? [= <-]. split; [done|]. split; [exact Hver|]. left. cbn. unfold sent_coin in *. lia.
  - destruct (channel_step_part _ _ _ H) as [Hpart|[[sigs Hsend]|(sigs & info & Hrecv)]].
    + by apply (unroll_part_ok env s).
    + apply (send_ok env s sigs); [done|by eapply Hpot|done|done].
    + by eapply receive_ok.
Qed.

Lemma ChannelState_new_unrolls env keys launcher potato tc tu tr tph tsig mine theirs timeout ph s i :
  ChannelState_new env keys launcher potato tc tu tr tph tsig mine theirs timeout ph = Ok (s, i) ->
  unrolls_ok env s.
Proof.
  intros (_ & half & u & uph & h & spend & puz & Hu & Hrec & _ & ->)%ChannelState_new_Ok.
  apply update_signed in Hu as [Hu Hn]. cbn in Hn.
  split; cbn; [|by split|unfold sent_coin; cbn; lia|done].
  intros ph' h' Hin. apply lookup_insert_Some in Hin as [[<- <-]|[_ Hin]]; [|done].
  destruct (recorded_known _ _ _ _ _ Hrec Hu) as (Hnode & Htree & Hnum).
  split; [exact Hnode|]. split; [done|]. cbn. lia.
Qed.

Lemma session_run_ok env s s' : rtc (session_step env) s s' -> unrolls_ok env s -> unrolls_ok env s'.
Proof. induction 1 as [|x y z Hxy _ IH]; [done|]. intros Hx. apply IH. by eapply session_step_ok. Qed.

(** ** The answer *)
Lemma parity_bit a b : N.land (N.lxor a b) 1 = 1%N -> N.odd a <> N.odd b.
Proof.
  intros H Heq. assert (N.testbit (N.land (N.lxor a b) 1) 0 = true) as Hbit by by rewrite H.
  rewrite N.land_spec, N.lxor_spec, !N.bit0_odd, Heq, xorb_nilpotent in Hbit. done.
Qed.

Lemma resolve_known env s conds n ch :
  unrolls_ok env s -> resolve_unroll_from_conditions s conds = Ok (n, ch) ->
  exists all ph amt h, CoinCondition_from_nodeptr conds = Ok all /\ CreateCoin ph amt ∈ all
  /\ unroll_puzzle_hash_map s !! ph = Some h /\ known_unroll env s ph h
  /\ historical_state_number h = n /\ conditions_hash h = ch.
Proof.
  intros Hok. unfold resolve_unroll_from_conditions. intros (all & Hall & H)%bind_Ok.
  apply bind_Ok in H as (h & Hh & H). injection H as <- <-. apply ok_or_Ok in Hh.
  apply head_Some_elem_of, list_elem_of_omap in Hh as (c & Hc & Hh).
  destruct (is_create_coin c) as [[ph amt]|] eqn:Ec; [|done]. cbn in Hh.
  destruct c; try done. injection Ec as -> ->.
  exists all, ph, amt, h. split_and!; try done. by apply (uo_map _ _ Hok).
Qed.

Lemma Program_to_nodeptr_tree p n :
  Program_to_nodeptr p = Ok n -> Program_sha256tree p = Ok (node_sha256tree n).
Proof.
  unfold Program_to_nodeptr, Program_sha256tree, Program_to_clvm.
  destruct (node_from_bytes (program_bytes p)); cbn; [|done]. intros [= ->].
  by rewrite clone_to_encoder_id.
Qed.

(** What the spend of the unroll coin must reveal. *)
Definition reveals (env : ChannelEnv) (s : ChannelState) (n : N) (ch ph : PuzzleHash) (p : Puzzle)
    : Prop := exists node,
  curried_unroll s env n ch = Ok node /\ Puzzle_to_clvm p = Ok node /\ node_sha256tree node = ph.

(** The timeout path: the committed conditions, no signature. *)
Definition takes_timeout (ch : PuzzleHash) (tx : Spend) : Prop :=
  Program_sha256tree (solution tx) = Ok ch /\ signature tx = sig_default.

(** The other path: the conditions of a newer state of opposite parity, signed
    by both players. *)
Definition supersedes (s : ChannelState) (n : N) (tx : Spend) : Prop := exists r coins,
  (n < r <= state_number s)%N /\ N.odd r <> N.odd n
  /\ Program_to_nodeptr (solution tx) = Ok (prepend_rem_conditions r coins)
  /\ sig_verify (signature tx) (get_aggregate_unroll_public_key s)
       (PuzzleHash_bytes (node_sha256tree (prepend_rem_conditions r coins))) = true.

Lemma known_revealed env s n ch ph h node puz :
  unrolls_ok env s -> unroll_puzzle_hash_map s !! ph = Some h -> historical_state_number h = n ->
  conditions_hash h = ch -> curried_unroll s env n ch = Ok node -> Puzzle_from_nodeptr node = Ok puz ->
  reveals env s n ch ph puz.
Proof.
  intros Hok Hin <- <- Hnode Hpuz. exists node. split; [done|].
  destruct (uo_map _ _ Hok _ _ Hin) as ((node' & Hnode' & Hph) & _). split; [|congruence].
  unfold Puzzle_from_nodeptr in Hpuz.
  destruct (Program_from_nodeptr node) as [p|] eqn:Hp; [|done]. injection Hpuz as <-.
  by apply Program_from_nodeptr_inv in Hp as [Hp _].
Qed.

Lemma timeout_spend_Ok env s n ch ph h res :
  unrolls_ok env s -> unroll_puzzle_hash_map s !! ph = Some h -> historical_state_number h = n ->
  conditions_hash h = ch -> make_timeout_unroll_spend s env n ch = Ok res ->
  csr_timeout res = true /\ reveals env s n ch ph (puzzle (csr_transaction res))
  /\ takes_timeout ch (csr_transaction res).
Proof.
  intros Hok Hin Hn Hch H. unfold make_timeout_unroll_spend in H.
  apply bind_Ok in H as (h' & Hh' & H). apply bind_Ok in H as (? & Heq & H).
  apply check_Ok, bool_decide_eq_true in Heq. apply bind_Ok in H as (node & Hnode & H).
  apply bind_Ok in H as (sol & Hsol & H). apply bind_Ok in H as (puz & Hpuz & H).
  apply bind_Ok in H as (sp & Hsp & H). injection H as <-. cbn. split; [done|]. split.
  - by eapply known_revealed.
  - split; [|done]. cbn. unfold get_historical_unroll_for_state in Hh'. apply ok_or_Ok in Hh'.
    destruct (find_first _ _) as [[ph' ?]|] eqn:Hf; [|done]. injection Hh' as ->.
    apply find_first_Some in Hf as [Hf _]. apply elem_of_hm_iter in Hf.
    destruct (uo_map _ _ Hok _ _ Hf) as (_ & Htree & _).
    apply Program_to_nodeptr_tree in Hsol as Htree'.
    apply Program_from_nodeptr_inv in Hsp as [_ Hsp]. apply Program_to_nodeptr_tree in Hsp.
    rewrite Hsp, <-Htree', Htree. by rewrite Heq.
Qed.

Lemma preemption_source_Ok env s n info :
  unrolls_ok env s -> (n < state_number s)%N -> preemption_source s n = Some info ->
  peer_signed s info /\ (n < unroll_state_number (unroll_coin info) <= state_number s)%N
  /\ N.odd (unroll_state_number (unroll_coin info)) <> N.odd n.
Proof.
  intros Hok Hlt. unfold preemption_source.
  assert (preempts n (latest_sent_unroll s) = false) as ->.
  { unfold preempts. destruct (uo_sent _ _ Hok) as [_ ->]. cbn.
    rewrite bool_decide_eq_true_2 by done. apply andb_false_r. }
  destruct (latest_received_unroll s) as [info'|] eqn:Hr; [|done].
  destruct (preempts n info') eqn:Hp; [|done]. intros [= ->].
  destruct (uo_received _ _ Hok _ Hr) as (H1 & H2 & H3). split; [done|].
  unfold preempts in Hp. apply andb_true_iff in Hp as [Hp _]. apply N.eqb_eq, parity_bit in Hp.
  split; [|exact Hp]. destruct H3 as [H3|[_ H3]]; [lia|].
  assert (n <> unroll_state_number (unroll_coin info)) by congruence. lia.
Qed.

Lemma preemption_spend_Ok env s n ch ph h res :
  unrolls_ok env s -> unroll_puzzle_hash_map s !! ph = Some h -> historical_state_number h = n ->
  conditions_hash h = ch -> (n < state_number s)%N ->
  make_preemption_unroll_spend s env n ch = Ok res ->
  csr_timeout res = false /\ reveals env s n ch ph (puzzle (csr_transaction res))
  /\ supersedes s n (csr_transaction res).
Proof.
  intros Hok Hin Hn Hch Hlt H. unfold make_preemption_unroll_spend in H.
  apply bind_Ok in H as (info & Hinfo & H). apply ok_or_Ok in Hinfo.
  destruct (preemption_source_Ok _ _ _ _ Hok Hlt Hinfo)
    as (((o & i & Ho & Hb & _) & Hver & _) & Hbound & Hodd).
  apply bind_Ok in H as (node & Hnode & H). apply bind_Ok in H as (sol & Hsol & H).
  apply bind_Ok in H as (half & Hhalf & H). cbn zeta in H. apply bind_Ok in H as (puz & Hpuz & H).
  apply bind_Ok in H as (sp & Hsp & H). injection H as <-. cbn. split; [done|]. split.
  - by eapply known_revealed.
  - unfold compute_unroll_coin_conditions in Hb. apply Program_from_nodeptr_inv in Hb as [_ Hb].
    unfold make_unroll_puzzle_solution, get_internal_conditions_for_unroll_coin_spend,
      from_outcome in Hsol. rewrite Ho in Hsol. cbn [mbind result_bind] in Hsol.
    rewrite Hb in Hsol. injection Hsol as <-.
    eexists _, _. split; [exact Hbound|]. split; [exact Hodd|].
    apply Program_from_nodeptr_inv in Hsp as [_ Hsp]. split; [exact Hsp|]. cbn.
    unfold UnrollCoin_verify, get_internal_conditions_for_unroll_coin_spend, from_outcome in Hver.
    rewrite Ho in Hver. cbn [mbind result_bind] in Hver.
    rewrite (Program_to_nodeptr_tree _ _ Hb) in Hver. cbn [mbind result_bind] in Hver.
    rewrite Hhalf in Hver. cbn [mbind result_bind] in Hver. injection Hver as Hver.
    by rewrite sig_add_comm.
Qed.

End unrolls.

(** ** Properties *)

(** C3: When the channel coin is spent to one of the states of the channel, the
    answer spends the unroll coin that was created: the puzzle it reveals has
    the very hash of that coin.  It either takes the timeout path, without a
    signature and with the conditions the coin committed to, or it supersedes
    the state with a strictly newer one of opposite parity, under a signature
    of both players.  The latter happens whenever the opponent unrolled to an
    older state and the newest state the peer signed is of opposite parity. *)
Theorem unroll_answer_correct {arch : Arch} {sha2 : Sha2} {bigint : BigInt} {clvm : Clvm} {bls : Bls}
    {puzzles : ChiaPuzzles} {order : HashOrder} env keys launcher potato tc tu tr tph tsig
    mine theirs timeout ph s0 i s myself conds res
    (Hnew : ChannelState_new env keys launcher potato tc tu tr tph tsig mine theirs timeout ph
            = Ok (s0, i))
    (Hsteps : rtc (session_step env) s0 s)
    (Hspent : channel_coin_spent s env myself conds = Ok res) :
  let tx := csr_transaction res in
  let n := unrolling_state_number res in
  (n <= state_number s)%N
  /\ exists all coin_ph amt ch, CoinCondition_from_nodeptr conds = Ok all
     /\ CreateCoin coin_ph amt ∈ all /\ reveals env s n ch coin_ph (puzzle tx)
     /\ (csr_timeout res = true -> takes_timeout ch tx
         /\ (myself = true \/ n = state_number s \/ preemption_source s n = None))
     /\ (csr_timeout res = false -> supersedes s n tx /\ myself = false).
Proof.
  assert (unrolls_ok env s) as Hok
    by exact (session_run_ok _ _ _ Hsteps (ChannelState_new_unrolls _ _ _ _ _ _ _ _ _ _ _ _ _ _ _ Hnew)).
  unfold channel_coin_spent in Hspent. apply bind_Ok in Hspent as ([n ch] & Hres & H).
  cbn [fst snd] in H. cbn zeta in H. apply bind_Ok in H as (r & Hr & H). injection H as <-.
  destruct (resolve_known _ _ _ _ _ Hok Hres) as (all & cph & amt & h & Hall & Hin & Hm & Hk & Hn & Hch).
  destruct Hk as (_ & _ & Hle). rewrite Hn in Hle. cbn. split; [exact Hle|].
  exists all, cph, amt, ch. split; [done|]. split; [done|].
  assert (make_timeout_unroll_spend s env n ch = Ok r ->
    myself = true \/ n = state_number s \/ preemption_source s n = None ->
    reveals env s n ch cph (puzzle (csr_transaction r))
    /\ (csr_timeout r = true -> takes_timeout ch (csr_transaction r)
        /\ (myself = true \/ n = state_number s \/ preemption_source s n = None))
    /\ (csr_timeout r = false -> supersedes s n (csr_transaction r) /\ myself = false)) as Htimeout.
  { intros Hrun Hwhy. by destruct (timeout_spend_Ok _ _ _ _ _ _ _ Hok Hm Hn Hch Hrun) as (-> & H1 & H2). }
  destruct myself.
  { apply Htimeout; [by destruct (n ?= state_number s)%N|by left]. }
  destruct (N.compare_spec n (state_number s)) as [Heq|Hlt|Hgt]; [by apply Htimeout; auto| |done].
  destruct (preemption_source s n) as [info|] eqn:Hsrc; [|by apply Htimeout; auto].
  by destruct (preemption_spend_Ok _ _ _ _ _ _ _ Hok Hm Hn Hch Hlt Hr) as (-> & H1 & H2).
Qed.

Module Witnesses.
Import Toy ToyGame ToyChannel.

(** Bob receives state 1 from Alice; then state 0 lands on chain. *)
Definition ok_or_default (r : result Error StateUpdateSignatures) : StateUpdateSignatures :=
  match r with Ok sigs => sigs | Err _ => StateUpdateSignatures_default end.
Definition alice_sigs : StateUpdateSignatures :=
  Eval vm_compute in ok_or_default (update_cached_unroll_state env alice0).1.
Abbreviation received := (verify_received_batch_signatures env alice_sigs bob0).
Abbreviation bob1 := received.2.
Lemma received_ok : is_ok received.1 = true.
Proof. by_running. Qed.

(** The spend of the channel coin to state 0. *)
Definition old_unroll : PuzzleHash :=
  Eval vm_compute in default PuzzleHash_default
    (fst <$> find_first (fun kv => (historical_state_number kv.2 =? 0)%N)
               (map_to_list (unroll_puzzle_hash_map bob0))).
Definition landed : sexp := list_node [create_coin_node old_unroll 500].

Abbreviation answered := (channel_coin_spent bob1 env false landed).
Lemma answer_ok : is_ok answered = true.
Proof. by_running. Qed.
Abbreviation answer := (the_ok _ answer_ok).
Lemma answer_newer : csr_timeout answer = false.
Proof. by_running. Qed.

Lemma fits_at (s : ChannelState) : (state_number s <? 1000)%N = true ->
  (state_number s + 1 < usize_modulus)%N.
Proof. intros H%N.ltb_lt. pose proof usize_modulus_lower. lia. Qed.

Lemma holder_did_not_send (s s' : ChannelState) sigs (P : Prop) :
  have_potato s' = true -> update_cached_unroll_state env s = (Ok sigs, s') -> P.
Proof. by intros H (u & half & spend & ph & h & _ & _ & _ & _ & ->)%update_cached_Ok. Qed.

Lemma unroll_steps : rtc (session_step env) bob0 bob1.
Proof.
  apply rtc_once.
  refine (session_off_chain env bob0 bob1 (step_receive env _ _ _ _ (eff_ok _ _ received_ok)) _ _).
  - by apply fits_at.
  - intros sigs. apply holder_did_not_send. by_running.
Qed.

Lemma unroll_answer_correct_witness :
  supersedes bob1 (unrolling_state_number answer) (csr_transaction answer)
  /\ exists ch coin_ph,
     reveals env bob1 (unrolling_state_number answer) ch coin_ph (puzzle (csr_transaction answer)).
Proof.
  destruct (unroll_answer_correct _ _ _ _ _ _ _ _ _ _ _ _ _ _ _ bob1 false landed _
    bob_new_run unroll_steps (the_ok_eq _ answer_ok)) as (_ & all & cph & amt & ch & _ & _ & H & _ & Hnewer).
  split; [destruct (Hnewer answer_newer) as [Hs _]; exact Hs|]. exists ch, cph. exact H.
Defined.
End Witnesses.
