(* ===== verification/Effects.v ===== *)
(** * Messages, notifications and effects

    [src/session_phases/{types, proposal, handshake, effects}.rs]: what the two
    peers send each other, the actions a player queues, what the host is told,
    and the effects by which every phase of a session acts on the world.  Of a
    log line the leading tag is kept; a reason is kept without the values
    formatted into it. *)
From S2P Require Import Prelude Extern World Coins Clvm StandardCoin TransactionManager UnrollCoin.
From S2P Require Import GameHandler RefereeTypes Referee LiveGame.

(** ** [proposal.rs], [game_type.rs] *)
Abbreviation GameType := bytes (only parsing).
Record GameProposal := mkGameProposal {
  game_type : GameType;
  proposal_timeout : Timeout;
  parameters : Program;
}.

Section messages.
Context {arch : Arch} {sha2 : Sha2} {bigint : BigInt} {clvm : Clvm} {bls : Bls}.

(** ** [types.rs]: the messages between the peers *)
Record WireGameSpec := mkWireGameSpec {
  w_game_id : GameID;
  w_amount : Amount;
  w_sender_contribution : Amount;
  w_receiver_contribution : Amount;
  w_sender_goes_first : bool;
  w_initial_validation_program_hash : Hash;
  w_initial_move : bytes;
  w_initial_max_move_size : N;
  w_initial_state : Program;
  w_initial_mover_share : Amount;
}.
Record WireProposalGroup := mkWireProposalGroup {
  start : GameProposal;
  members : list WireGameSpec;
  wire_group_id : GameID;
}.

Inductive BatchAction : Type :=
| ProposeGroup (group : WireProposalGroup)
| AcceptProposal (id : GameID)
| CancelProposal (id : GameID)
| BatchMove (id : GameID) (details : GameMoveDetails)
| BatchAcceptSettlement (id : GameID) (amount : Amount).

Record HandshakePayloadB := mkHandshakePayloadB {
  hs_channel_public_key : PublicKey;
  hs_unroll_public_key : PublicKey;
  hs_reward_puzzle_hash : PuzzleHash;
  hs_referee_pubkey : PublicKey;
  reward_payout_signature : Aggsig;
  channel_key_pop : Aggsig;
  unroll_key_pop : Aggsig;
  hs_my_contribution : Amount;
  hs_their_contribution : Amount;
}.
Record HandshakePayloadC := mkHandshakePayloadC { launcher_coin : CoinString }.
Record HandshakePayloadD := mkHandshakePayloadD { d_signatures : StateUpdateSignatures }.
Record HandshakePayloadE := mkHandshakePayloadE {
  e_bundle : SpendBundle;
  e_signatures : StateUpdateSignatures;
}.
Record HandshakePayloadF := mkHandshakePayloadF { f_bundle : SpendBundle }.
Record RawCoinCondition := mkRawCoinCondition { opcode : N; raw_args : list bytes }.
Record CoinSpendRequest := mkCoinSpendRequest {
  req_amount : Amount;
  req_conditions : list RawCoinCondition;
  req_coin_id : option CoinID;
  req_max_height : option N;
}.

Inductive PeerMessage : Type :=
| HandshakeA (payload : HandshakePayloadB)
| HandshakeB (payload : HandshakePayloadB)
| HandshakeC (payload : HandshakePayloadC)
| HandshakeD (payload : HandshakePayloadD)
| HandshakeE (payload : HandshakePayloadE)
| HandshakeF (payload : HandshakePayloadF)
| Batch (actions : list BatchAction) (signatures : StateUpdateSignatures)
    (clean_shutdown : option (Aggsig * Program))
| CleanShutdownComplete (spend : CoinSpend)
| RequestPotato
| Message (id : GameID) (message : bytes).

Definition is_handshake (m : PeerMessage) : bool :=
  match m with
  | HandshakeA _ | HandshakeB _ | HandshakeC _ | HandshakeD _ | HandshakeE _ | HandshakeF _ => true
  | _ => false
  end.

Inductive PotatoState : Type := Absent | Requested | Present.
#[export] Instance PotatoState_eq_dec : EqDecision PotatoState.
Proof. solve_decision. Defined.

(** The constructor [ForcedSelfAccept] exists in test builds only. *)
Inductive GameAction : Type :=
| Move (id : GameID) (readable : ReadableMove) (entropy : Hash)
| AcceptSettlement (id : GameID)
| CleanShutdown
| SendPotato
| QueuedProposalGroup (games : list GameStartInfo) (wire : WireProposalGroup)
| QueuedAcceptProposal (id : GameID)
| QueuedCancelProposal (id : GameID)
| QueuedCancelProposalSilently (id : GameID)
| Cheat (id : GameID) (mover_share : Amount) (entropy : Hash).

Record GameFactory := mkGameFactory { factory_program : option Program }.

(** ** [effects.rs]: what the host is told *)
Record ResyncInfo := mkResyncInfo { resync_state_number : N; resync_is_my_turn : bool }.

Inductive ChannelStatusKind : Type :=
| Handshaking | WaitingForHeightToOffer | WaitingForHeightToAccept | OurWalletMakingOffer
| OurWalletMakingOfferAcceptance | OfferSent | TransactionPending | Active | ShuttingDown
| ShutdownTransactionPending | GoingOnChain | Unrolling | ResolvedClean | ResolvedUnrolled
| ResolvedStale | Failed.
#[export] Instance ChannelStatusKind_eq_dec : EqDecision ChannelStatusKind.
Proof. solve_decision. Defined.

Inductive SessionDisposition : Type := AwaitOutboundTerminal | Abandoned.
#[export] Instance SessionDisposition_eq_dec : EqDecision SessionDisposition.
Proof. solve_decision. Defined.
Inductive UnrollInitiator : Type := Us | Opponent.
#[export] Instance UnrollInitiator_eq_dec : EqDecision UnrollInitiator.
Proof. solve_decision. Defined.
Inductive ChannelSemanticPhase : Type :=
| SubmittingChannelSpend | ResolvingOpponentChannelSpend | Preempting | WaitingTimeout
| SubmittingTimeoutFinish | Resolving.
#[export] Instance ChannelSemanticPhase_eq_dec : EqDecision ChannelSemanticPhase.
Proof. solve_decision. Defined.

Record ChannelStatusSnapshot := mkChannelStatusSnapshot {
  snap_state : ChannelStatusKind;
  snap_session_disposition : option SessionDisposition;
  snap_advisory : option string;
  snap_coin : option CoinString;
  snap_our_balance : option Amount;
  snap_their_balance : option Amount;
  snap_game_allocated : option Amount;
  snap_have_potato : option bool;
  snap_zero_payout : option bool;
  snap_unroll_initiator : option UnrollInitiator;
  snap_semantic_phase : option ChannelSemanticPhase;
}.
#[export] Instance ChannelStatusSnapshot_eq_dec : EqDecision ChannelStatusSnapshot.
Proof. solve_decision. Defined.
#[export] Instance ChannelStatusSnapshot_eta : RecordEta ChannelStatusSnapshot := fun s =>
  mkChannelStatusSnapshot (snap_state s) (snap_session_disposition s) (snap_advisory s)
    (snap_coin s) (snap_our_balance s) (snap_their_balance s) (snap_game_allocated s)
    (snap_have_potato s) (snap_zero_payout s) (snap_unroll_initiator s) (snap_semantic_phase s).

Inductive GameStatusKind : Type :=
| MyTurnStatus | TheirTurnStatus | OnChainMyTurn | OnChainTheirTurn | Replaying
| IllegalMoveDetected | EndedCancelled | EndedError.

Inductive SettlementOutcome : Type :=
| SettledByAccept | SettledCleanly | OpponentTimedOut | ForfeitedSkippedReveal
| ForfeitedOpponentWon | ForfeitedWeAccepted | WeAccepted | AttemptToMoveFailed
| TimedOutWaitingForOurMove | SlashedOpponent | OpponentSlashedUs | OpponentCheated.
#[export] Instance SettlementOutcome_eq_dec : EqDecision SettlementOutcome.
Proof. solve_decision. Defined.

Inductive FailedGameAction : Type := MakeMove | FailedAcceptSettlement.

Record GameStatusOtherParams := mkOtherParams {
  op_readable : option ReadableMove;
  op_mover_share : option Amount;
  op_illegal_move_detected : option bool;
  op_moved_by_us : option bool;
  op_game_finished : option bool;
  op_forfeited : option bool;
  op_submitting_timeout_claim : option bool;
}.
#[export] Instance GameStatusOtherParams_eta : RecordEta GameStatusOtherParams := fun p =>
  mkOtherParams (op_readable p) (op_mover_share p) (op_illegal_move_detected p) (op_moved_by_us p)
    (op_game_finished p) (op_forfeited p) (op_submitting_timeout_claim p).
Definition GameStatusOtherParams_default : GameStatusOtherParams :=
  mkOtherParams None None None None None None None.

Inductive CancelReason : Type :=
| SupersededByIncoming | PeerProposalPending | GameActive | CancelledByPeer | CancelledByUs
| ChannelError | WentOnChain | CleanShutdownReason.
Definition is_local (r : CancelReason) : bool :=
  match r with SupersededByIncoming | PeerProposalPending | GameActive => true | _ => false end.

Inductive GameNotification : Type :=
| GameStatus (id : GameID) (status : GameStatusKind) (my_reward : option Amount)
    (coin_id : option CoinString) (reason : option string)
    (other_params : option GameStatusOtherParams)
| GameSettled (id : GameID) (outcome : SettlementOutcome) (our_share : Amount)
    (coin_id : option CoinString)
| ProposalMade (id : GameID) (group_ids : list GameID) (my_contribution their_contribution : Amount)
    (timeout : Timeout) (initial_validation_program_hash : Hash) (initial_state : Program)
    (game_type : GameType)
| ProposalAcceptedNote (id : GameID) (amount : Amount)
| ProposalCancelled (id : GameID) (reason : CancelReason)
| InsufficientBalance (id : GameID) (our_balance_short their_balance_short : bool)
| ActionFailed (id : option GameID) (action : option FailedGameAction) (reason : string)
| MoveRejected (id : GameID) (tag message : bytes)
| ChannelStatus (snapshot : ChannelStatusSnapshot).

Definition game_status (id : GameID) (status : GameStatusKind) : GameNotification :=
  GameStatus id status None None None None.

Inductive CoinOfInterest : Type :=
| ChannelCoin | UnrollCoinOfInterest | UnrollPayout | CurrentGame | GamePayout.

(** ** Effects *)
Inductive Effect : Type :=
| Notify (n : GameNotification)
| PeerHandshakeA (msg : HandshakePayloadB)
| PeerHandshakeB (msg : HandshakePayloadB)
| PeerHandshakeC (msg : HandshakePayloadC)
| PeerHandshakeD (msg : HandshakePayloadD)
| PeerHandshakeE (msg : HandshakePayloadE)
| PeerHandshakeF (msg : HandshakePayloadF)
| NeedLauncherCoinId
| EffNeedCoinSpend (request : CoinSpendRequest)
| PeerBatch (actions : list BatchAction) (signatures : StateUpdateSignatures)
    (clean_shutdown : option (Aggsig * Program))
| PeerCleanShutdownComplete (spend : CoinSpend)
| QueueTerminalHandoff (spend : CoinSpend)
| CompleteZeroPayoutShutdown
| GoOnChainAfterPeerError
| PeerRequestPotato
| PeerGameMessage (id : GameID) (message : bytes)
| SpendTransaction (bundle : SpendBundle) (expiry : option N)
| RegisterCoin (coin : CoinString) (timeout : Timeout) (name : option string)
    (spend : option SpendBundle) (semantic : option TimeoutClaimSemantic)
| RequestPuzzleAndSolution (coin : CoinString)
| ChannelPuzzleHash (ph : PuzzleHash)
| ReceivedChannelOffer (bundle : SpendBundle)
| EffLog (line : string).

(** ** [apply_effects]

    The four traits of the system the effects act on ([ToLocalUI],
    [PacketSender], [WalletSpendInterface], [ChannelFundingWallet]). *)
Class EffectSystem (Sys : Type) := {
  sys_notification : GameNotification -> eff Sys unit;
  sys_log : string -> eff Sys unit;
  sys_send_message : PeerMessage -> eff Sys unit;
  sys_spend_transaction_and_add_fee : SpendBundle -> option N -> eff Sys unit;
  sys_register_coin : CoinString -> Timeout -> option string -> option SpendBundle ->
    option TimeoutClaimSemantic -> eff Sys unit;
  sys_request_puzzle_and_solution : CoinString -> eff Sys unit;
  sys_channel_puzzle_hash : PuzzleHash -> eff Sys unit;
  sys_received_channel_offer : SpendBundle -> eff Sys unit;
}.

Definition apply_effect {Sys} `{!EffectSystem Sys} (e : Effect) : eff Sys unit :=
  match e with
  | Notify n => sys_notification n
  | PeerHandshakeA msg => sys_send_message (HandshakeA msg)
  | PeerHandshakeB msg => sys_send_message (HandshakeB msg)
  | PeerHandshakeC msg => sys_send_message (HandshakeC msg)
  | PeerHandshakeD msg => sys_send_message (HandshakeD msg)
  | PeerHandshakeE msg => sys_send_message (HandshakeE msg)
  | PeerHandshakeF msg => sys_send_message (HandshakeF msg)
  | NeedLauncherCoinId => mret tt
  | EffNeedCoinSpend _ => mret tt
  | PeerBatch actions signatures clean_shutdown =>
      sys_send_message (Batch actions signatures clean_shutdown)
  | PeerCleanShutdownComplete cs => sys_send_message (CleanShutdownComplete cs)
  | QueueTerminalHandoff _ =>
      throw (StrErr "terminal handoff must be intercepted by GameSession")
  | CompleteZeroPayoutShutdown => mret tt
  | GoOnChainAfterPeerError =>
      throw (StrErr "peer-error escalation must be intercepted by GameSession")
  | PeerRequestPotato => sys_send_message RequestPotato
  | PeerGameMessage id message => sys_send_message (Message id message)
  | SpendTransaction bundle expiry => sys_spend_transaction_and_add_fee bundle expiry
  | RegisterCoin coin timeout name spend semantic =>
      sys_register_coin coin timeout name spend semantic
  | RequestPuzzleAndSolution coin => sys_request_puzzle_and_solution coin
  | ChannelPuzzleHash ph => sys_channel_puzzle_hash ph
  | ReceivedChannelOffer bundle => sys_received_channel_offer bundle
  | EffLog line => sys_log line
  end.

Fixpoint apply_effects {Sys} `{!EffectSystem Sys} (effects : list Effect) : eff Sys unit :=
  match effects with
  | [] => mret tt
  | e :: effects => _ ← apply_effect e; apply_effects effects
  end.
End messages.
