(* ===== verification/OnChainPhase.v ===== *)
(** * The on-chain phase

    [src/session_phases/on_chain.rs]: the games that survived the unroll, each
    at its coin on chain.  A spend of a game coin is a move, a timeout or a
    slash of either player; the phase updates the game, claims timeouts,
    slashes, replays moves and reports how each game settles. *)
From S2P Require Import Prelude Extern World Coins Clvm StandardCoin TransactionManager UnrollCoin.
From S2P Require Import GameHandler RefereeTypes Referee LiveGame ChannelState ChannelGames.
From S2P Require Import ChannelOnChain Effects.

Section on_chain_phase.
Context {arch : Arch} {sha2 : Sha2} {bigint : BigInt} {clvm : Clvm} {bls : Bls}.
Context {puzzles : ChiaPuzzles} {order : HashOrder}.

(** [PendingMoveKind::OurMove] is the only kind. *)
Record PendingMoveSavedState := mkPendingMove {
  expected_ph : PuzzleHash;
  pm_game_id : GameID;
  post_move_referee : Referee;
  post_move_last_ph : PuzzleHash;
}.

Record OnChainPhase := mkOnChainPhase {
  oc_have_potato : PotatoState;
  oc_channel_timeout : Timeout;
  oc_game_action_queue : list GameAction;
  game_map : gmap CoinString OnChainGameState;
  pending_moves : gmap CoinString PendingMoveSavedState;
  oc_private_keys : ChannelPrivateKeys;
  oc_reward_puzzle_hash : PuzzleHash;
  oc_their_reward_puzzle_hash : PuzzleHash;
  oc_my_out_of_game_balance : Amount;
  oc_their_out_of_game_balance : Amount;
  oc_my_allocated_balance : Amount;
  oc_their_allocated_balance : Amount;
  oc_live_games : list LiveGame;
  oc_pending_settlements : list LiveGame;
  oc_unroll_advance_timeout : Timeout;
  oc_is_initial_potato : bool;
  oc_state_number : N;
  oc_was_stale : bool;
  resolved_clean : bool;
  oc_terminal_reward_coin : option CoinString;
  current_game_coins : list (GameID * CoinString);
  game_payout_coins : list (GameID * CoinString);
  oc_advisory : option string;
}.
#[export] Instance OnChainPhase_eta : RecordEta OnChainPhase := fun p =>
  mkOnChainPhase (oc_have_potato p) (oc_channel_timeout p) (oc_game_action_queue p) (game_map p)
    (pending_moves p) (oc_private_keys p) (oc_reward_puzzle_hash p)
    (oc_their_reward_puzzle_hash p) (oc_my_out_of_game_balance p)
    (oc_their_out_of_game_balance p) (oc_my_allocated_balance p) (oc_their_allocated_balance p)
    (oc_live_games p) (oc_pending_settlements p) (oc_unroll_advance_timeout p)
    (oc_is_initial_potato p) (oc_state_number p) (oc_was_stale p) (resolved_clean p)
    (oc_terminal_reward_coin p) (current_game_coins p) (game_payout_coins p) (oc_advisory p).

(** ** Construction *)
Record OnChainPhaseArgs := mkOnChainPhaseArgs {
  arg_have_potato : PotatoState;
  arg_channel_timeout : Timeout;
  arg_game_action_queue : list GameAction;
  arg_game_map : gmap CoinString OnChainGameState;
  arg_pending_moves : gmap CoinString PendingMoveSavedState;
  arg_private_keys : ChannelPrivateKeys;
  arg_reward_puzzle_hash : PuzzleHash;
  arg_their_reward_puzzle_hash : PuzzleHash;
  arg_my_out_of_game_balance : Amount;
  arg_their_out_of_game_balance : Amount;
  arg_my_allocated_balance : Amount;
  arg_their_allocated_balance : Amount;
  arg_live_games : list LiveGame;
  arg_pending_settlements : list LiveGame;
  arg_unroll_advance_timeout : Timeout;
  arg_is_initial_potato : bool;
  arg_state_number : N;
  arg_was_stale : bool;
  arg_resolved_clean : bool;
  arg_terminal_reward_coin : option CoinString;
  arg_game_payout_coins : list (GameID * CoinString);
}.

Definition game_coins_of (games : gmap CoinString OnChainGameState) : list (GameID * CoinString) :=
  (fun kv => (og_game_id kv.2, kv.1)) <$> hm_iter games.

Definition OnChainPhase_new (args : OnChainPhaseArgs) : OnChainPhase :=
  mkOnChainPhase (arg_have_potato args) (arg_channel_timeout args) (arg_game_action_queue args)
    (arg_game_map args) (arg_pending_moves args) (arg_private_keys args)
    (arg_reward_puzzle_hash args) (arg_their_reward_puzzle_hash args)
    (arg_my_out_of_game_balance args) (arg_their_out_of_game_balance args)
    (arg_my_allocated_balance args) (arg_their_allocated_balance args) (arg_live_games args)
    (arg_pending_settlements args) (arg_unroll_advance_timeout args) (arg_is_initial_potato args)
    (arg_state_number args) (arg_was_stale args) (arg_resolved_clean args)
    (arg_terminal_reward_coin args) (game_coins_of (arg_game_map args))
    (arg_game_payout_coins args) None.

(** The channel state given is the one before its games are taken out of it. *)
Definition OnChainPhase_new_terminal (ch : ChannelState) (was_stale resolved_clean : bool)
    (terminal_reward_coin : option CoinString) (advisory : option string) : OnChainPhase :=
  mkOnChainPhase Present 0 [] ∅ ∅ (private_keys ch)
    (ch_reward_puzzle_hash ch) (ch_their_reward_puzzle_hash ch) (my_out_of_game_balance ch)
    (their_out_of_game_balance ch) (my_allocated_balance ch) (their_allocated_balance ch)
    (live_games ch) (pending_settlements ch) (unroll_advance_timeout ch) (is_initial_potato ch)
    (state_number ch) was_stale resolved_clean terminal_reward_coin [] [] advisory.

(** ** Coins of the games *)
Definition is_known (id : GameID) (kv : GameID * CoinString) : bool := (kv.1 =? id)%N.
Definition remember_current_game_coin (id : GameID) (coin : CoinString) : eff OnChainPhase unit :=
  modify_state (fun p => p <| current_game_coins :=
    retain (fun kv => negb (is_known id kv)) (current_game_coins p) ++ [(id, coin)] |>).

Definition positive_coin (coin : CoinString) : bool :=
  match CoinString_amount coin with Some amount => (0 <? amount)%N | None => false end.

Definition try_emit_terminal (n : GameNotification) : eff OnChainPhase (list Effect) :=
  _ ← (match n with
       | GameSettled id _ _ (Some coin) =>
           if positive_coin coin then
             modify_state (fun p => p <| game_payout_coins :=
               retain (fun kv => negb (is_known id kv)) (game_payout_coins p) ++ [(id, coin)] |>)
           else mret tt
       | _ => mret tt
       end);
  mret [Notify n].

(** ** Observations *)
Definition OnChainPhase_amount (p : OnChainPhase) : Amount :=
  Amount_add (oc_my_allocated_balance p) (oc_their_allocated_balance p).
Definition oc_get_game_by_id (p : OnChainPhase) (id : GameID) : result Error nat :=
  ok_or (StrErr "no live game with the given game id") (position (has_id id) (oc_live_games p)).
Definition oc_has_live_game (p : OnChainPhase) (id : GameID) : bool :=
  existsb (has_id id) (oc_live_games p).
Definition oc_game_is_my_turn (p : OnChainPhase) (id : GameID) : option bool :=
  LiveGame_is_my_turn <$> find_first (has_id id) (oc_live_games p).
Definition oc_game_at (p : OnChainPhase) (idx : nat) : result Error LiveGame :=
  ok_or (Panicked "index out of bounds") (oc_live_games p !! idx).
Definition oc_is_game_over (p : OnChainPhase) (id : GameID) : result Error bool :=
  idx ← oc_get_game_by_id p id; g ← oc_game_at p idx; mret (LiveGame_is_game_over g).

(** A live game, or else one whose settlement is pending. *)
Definition oc_find_game (p : OnChainPhase) (id : GameID) : option LiveGame :=
  match find_first (has_id id) (oc_live_games p) with
  | Some g => Some g
  | None => find_first (has_id id) (oc_pending_settlements p)
  end.
Definition oc_get_game_amount (p : OnChainPhase) (id : GameID) : result Error Amount :=
  g ← ok_or (StrErr "get_game_amount: game not found") (oc_find_game p id);
  mret (LiveGame_get_amount g).
Definition oc_get_game_our_current_share (p : OnChainPhase) (id : GameID) : result Error Amount :=
  g ← ok_or (StrErr "get_game_our_current_share: game not found") (oc_find_game p id);
  LiveGame_get_our_current_share g.

Definition should_auto_settle (p : OnChainPhase) (id : GameID) (is_my_turn : bool)
    : result Error bool :=
  if negb is_my_turn then Ok false
  else
    our_share ← oc_get_game_our_current_share p id;
    game_amt ← oc_get_game_amount p id;
    if (our_share =? game_amt)%N then Ok true
    else game_over ← oc_is_game_over p id; mret (game_over && (0 <? our_share)%N).

Definition is_game (id : GameID) (kv : CoinString * OnChainGameState) : bool :=
  (og_game_id kv.2 =? id)%N.
Definition get_game_coin (p : OnChainPhase) (id : GameID) : option CoinString :=
  fst <$> find_first (is_game id) (hm_iter (game_map p)).
Definition my_move_in_game (p : OnChainPhase) (id : GameID) : option bool :=
  (fun kv => our_turn kv.2) <$> find_first (is_game id) (hm_iter (game_map p)).
Definition game_map_is_empty (p : OnChainPhase) : bool := bool_decide (game_map p = ∅).
Definition oc_get_game_state_id (p : OnChainPhase) : Hash :=
  Sha256Input_hash (Sha_Bytes
    (List.concat ((fun l => PuzzleHash_bytes (current_puzzle_hash l)) <$> oc_live_games p))).
Definition has_active_on_chain_games (p : OnChainPhase) : bool := negb (game_map_is_empty p).

(** ** Operations on a live game *)
Definition oc_on_game {A} (idx : nat) (op : eff LiveGame A) : eff OnChainPhase A := fun p =>
  match oc_live_games p !! idx with
  | Some g =>
      let '(r, g') := op g in (r, p <| oc_live_games := <[idx := g']> (oc_live_games p) |>)
  | None => (Err (Panicked "index out of bounds"), p)
  end.

Definition oc_enable_cheating_for_game (id : GameID) (make_move : bytes) (mover_share : Amount)
    : eff OnChainPhase bool :=
  p ← get_state;
  idx ← lift_result (oc_get_game_by_id p id);
  oc_on_game idx (LiveGame_enable_cheating make_move mover_share).
Definition oc_save_game_state (id : GameID) : eff OnChainPhase (Referee * PuzzleHash) :=
  p ← get_state;
  idx ← lift_result (oc_get_game_by_id p id);
  oc_on_game idx (gets save_referee_state).
Definition oc_restore_game_state (id : GameID) (referee : Referee) (last_ph : PuzzleHash)
    : eff OnChainPhase unit :=
  p ← get_state;
  idx ← lift_result (oc_get_game_by_id p id);
  oc_on_game idx (modify_state (restore_referee_state referee last_ph)).

Definition remove_game_coin_info (coin_id : CoinString) : eff OnChainPhase (option (GameID * bool)) :=
  p ← get_state;
  _ ← put_state (p <| game_map := delete coin_id (game_map p) |>);
  mret ((fun d => (og_game_id d, our_turn d)) <$> game_map p !! coin_id).

Definition oc_on_chain_our_move (id : GameID) (readable_move : ReadableMove) (entropy : Hash)
    (existing_coin : CoinString)
    : eff OnChainPhase (PuzzleHash * PuzzleHash * GameMoveDetails * Spend) :=
  p ← get_state;
  idx ← lift_result (oc_get_game_by_id p id);
  last ← oc_on_game idx (gets last_referee_puzzle_hash);
  moved ← oc_on_game idx (internal_make_move readable_move entropy (oc_state_number p));
  tx ← oc_on_game idx (fun g => (LiveGame_get_transaction_for_move g existing_coin, g));
  post_outcome ← oc_on_game idx (gets outcome_puzzle_hash);
  mret (last, post_outcome, wire_details moved, tx).

(** What a spend of the coin of a live game means. *)
Definition oc_game_coin_spent (id : GameID) (coin_string : CoinString)
    (conditions : list CoinCondition) (parsed_solution : ParsedRefereeSolution)
    : eff OnChainPhase CoinSpentInformation :=
  p ← get_state;
  created ← lift_result (ok_or (StrErr "bad coin") (first_create_coin conditions));
  let ph : PuzzleHash := created.1 in
  let amt : Amount := created.2 in
  if bool_decide (oc_reward_puzzle_hash p = ph) then mret (OurReward ph amt)
  else
    idx ← lift_result (oc_get_game_by_id p id);
    g ← lift_result (oc_game_at p idx);
    let expected :=
      _ ← oc_on_game idx (modify_state (fun g => g <| last_referee_puzzle_hash := ph |>));
      mret (TheirSpend (Expected (oc_state_number p) ph amt None)) in
    let coin_being_spent_ph := (fun q => q.1.2) <$> to_parts coin_string in
    if (bool_decide (ph = current_puzzle_hash g) || bool_decide (ph = outcome_puzzle_hash g))
       && negb (bool_decide (coin_being_spent_ph = Some ph)) then expected
    else if LiveGame_is_game_over g
            && negb (bool_decide (parsed_solution = ParsedTimeout)
                     || bool_decide (parsed_solution = ParsedSlash)) then expected
    else
      spent_result ← oc_on_game idx
        (LiveGame_their_turn_coin_spent coin_string conditions (oc_state_number p) parsed_solution);
      mret (TheirSpend spent_result).

(** A terminal move of theirs that leaves us nothing. *)
Definition emit_loser_forfeit_terminal (id : GameID) (readable : option (ReadableMove * Amount))
    : eff OnChainPhase (list Effect) :=
  _ ← modify_state (fun p => p <| game_map :=
        filter (fun kv => og_game_id kv.2 <> id) (game_map p) |>);
  mret ((match readable with
         | Some (readable, mover_share) =>
             [Notify (GameStatus id MyTurnStatus None None None
                (Some (GameStatusOtherParams_default <| op_readable := Some readable |>
                         <| op_mover_share := Some mover_share |>
                         <| op_game_finished := Some true |>)))]
         | None => []
         end)
        ++ [Notify (GameSettled id ForfeitedOpponentWon 0 None)]).

(** ** Timeout claims *)
Definition pays (ph : PuzzleHash) (conditions : list CoinCondition) : bool :=
  existsb (fun c => match is_create_coin c with
                    | Some (to_ph, amt) => bool_decide (to_ph = ph) && (0 <? amt)%N
                    | None => false
                    end) conditions.

Definition build_timeout_claim (id : GameID) (coin : CoinString)
    : eff OnChainPhase (option SpendBundle) :=
  p ← get_state;
  tx ← (match oc_get_game_by_id p id with
        | Ok idx => oc_on_game idx (fun g => (LiveGame_get_transaction_for_timeout g coin, g))
        | Err _ =>
            match find_first (has_id id) (oc_pending_settlements p) with
            | Some g => lift_result (LiveGame_get_transaction_for_timeout g coin)
            | None => throw (StrErr "build_timeout_claim: no live or pending game")
            end
        end);
  match tx with
  | None => mret None
  | Some tx =>
      conditions ← lift_result (from_puzzle_and_solution (puzzle_program (puzzle tx)) (solution tx));
      if pays (oc_reward_puzzle_hash p) conditions
      then mret (Some (mkSpendBundle (Some "timeout claim"%string) [mkCoinSpend coin tx]))
      else mret None
  end.

Definition opponent_timeout_claim_semantic (id : GameID) (our_turn game_finished : bool)
    : option TimeoutClaimSemantic :=
  if negb our_turn && negb game_finished then Some (GameOpponentTurn id) else None.

Definition timeout_claim_status (p : OnChainPhase) (id : GameID) (submitting : bool)
    : option GameNotification :=
  '(coin, g) ← find_first (is_game id) (hm_iter (game_map p));
  if our_turn g || og_game_finished g then None
  else Some (GameStatus id OnChainTheirTurn None (Some coin) None
         (Some (GameStatusOtherParams_default <| op_submitting_timeout_claim := Some submitting |>))).

Fixpoint register_game_coins (coins : list (CoinString * OnChainGameState))
    : eff OnChainPhase (list Effect) :=
  match coins with
  | [] => mret []
  | (coin, g) :: coins =>
      claim ← build_timeout_claim (og_game_id g) coin;
      rest ← register_game_coins coins;
      mret (RegisterCoin coin (og_game_timeout g) (Some "game coin"%string) claim
              (opponent_timeout_claim_semantic (og_game_id g) (our_turn g) (og_game_finished g))
            :: rest)
  end.
Definition register_initial_game_coins : eff OnChainPhase (list Effect) :=
  p ← get_state; register_game_coins (hm_iter (game_map p)).
End on_chain_phase.
