(* ===== verification/OnChainActions.v ===== *)
(** * Acting on chain

    [src/session_phases/on_chain.rs], the actions a player queues or takes
    during the on-chain phase: moves, settlements, and the queue they wait in. *)
From S2P Require Import Prelude Extern World Coins Clvm StandardCoin TransactionManager UnrollCoin.
From S2P Require Import GameHandler RefereeTypes Referee LiveGame ChannelState ChannelGames.
From S2P Require Import ChannelOnChain Effects OnChainPhase.

Section actions.
Context {arch : Arch} {sha2 : Sha2} {bigint : BigInt} {clvm : Clvm} {bls : Bls}.
Context {puzzles : ChiaPuzzles} {order : HashOrder}.

Definition spend_of (label : string) (coin : CoinString) (transaction : Spend) : Effect :=
  SpendTransaction (mkSpendBundle (Some label) [mkCoinSpend coin transaction]) None.

Definition has_pending_slash (p : OnChainPhase) (id : GameID) : bool :=
  existsb (fun kv => is_game id kv && negb (bool_decide (pending_slash_amount kv.2 = None)))
    (hm_iter (game_map p)).

(** A move that leaves us nothing is not made: the game is given up. *)
Definition do_on_chain_move (current_coin : CoinString) (id : GameID)
    (readable_move : ReadableMove) (entropy : Hash) : eff OnChainPhase (list Effect) :=
  p ← get_state;
  _ ← (match my_move_in_game p id with
       | None => throw (StrErr "do_on_chain_move: Move for game has no turn mapping.")
       | Some false => throw (StrErr "do_on_chain_move: Move for game deferred (not our turn).")
       | Some true => mret tt
       end);
  game_amount ← lift_result (oc_get_game_amount p id);
  let pending_slash := has_pending_slash p id in
  pre ← oc_save_game_state id;
  moved ← oc_on_chain_our_move id readable_move entropy current_coin;
  let '(old_ph, new_ph, details, transaction) := moved in
  if negb pending_slash && (mover_share (basic details) =? game_amount)%N then
    _ ← oc_restore_game_state id pre.1 pre.2;
    _ ← modify_state (fun p => p <| game_map :=
          filter (fun kv => og_game_id kv.2 <> id) (game_map p) |>);
    mret [Notify (GameSettled id ForfeitedSkippedReveal 0 None)]
  else
    post ← oc_save_game_state id;
    _ ← oc_restore_game_state id pre.1 pre.2;
    _ ← (match to_parts current_coin with
         | Some parts => guard_or (bool_decide (old_ph = parts.1.2))
                           (StrErr "do_on_chain_move: pre-move puzzle hash mismatch")
         | None => mret tt
         end);
    _ ← modify_state (fun p => p <| pending_moves :=
          <[current_coin := mkPendingMove new_ph id post.1 post.2]> (pending_moves p) |>);
    mret [spend_of "on chain move" current_coin transaction].

Definition get_current_coin (p : OnChainPhase) (id : GameID) : result Error CoinString :=
  ok_or (StrErr "no matching game in") (get_game_coin p id).

Definition cheat_readable : ReadableMove := mkReadableMove (mkProgram [x80]).

(** Each action of the queue. *)
Definition do_accept_settlement (id : GameID) : eff OnChainPhase (list Effect) :=
  p ← get_state;
  current_coin ← lift_result (get_current_coin p id);
  if bool_decide (my_move_in_game p id = Some true)
     && bool_decide (oc_get_game_our_current_share p id = Ok 0%N) then
    _ ← modify_state (fun p => p <| game_map := delete current_coin (game_map p) |>);
    mret [Notify (GameSettled id ForfeitedWeAccepted 0 None)]
  else
    gt ← lift_result (og_game_timeout <$>
           ok_or (StrErr "do_on_chain_action: AcceptSettlement missing game_map entry")
             (game_map p !! current_coin));
    claim ← build_timeout_claim id current_coin;
    _ ← modify_state (fun p => p <| game_map :=
          alter (fun d => d <| timeout_claim_armed := true |> <| og_game_finished := true |>)
            current_coin (game_map p) |>);
    mret (match claim with
          | Some claim =>
              [RegisterCoin current_coin gt (Some "timeout claim"%string) (Some claim) None]
          | None => []
          end).

Definition do_move (id : GameID) (readable_move : ReadableMove) (entropy : Hash)
    : eff OnChainPhase (list Effect) :=
  p ← get_state;
  current_coin ← lift_result (get_current_coin p id);
  _ ← guard_or (bool_decide (pending_moves p !! current_coin = None))
        (StrErr "do_on_chain_action: Move for game blocked by pending_moves on coin");
  do_on_chain_move current_coin id readable_move entropy.

Definition do_cheat (id : GameID) (share : Amount) (entropy : Hash)
    : eff OnChainPhase (list Effect) :=
  p ← get_state;
  current_coin ← lift_result (get_current_coin p id);
  _ ← guard_or (bool_decide (pending_moves p !! current_coin = None))
        (Panicked "do_on_chain_action: Cheat for game blocked by pending_moves on coin");
  match my_move_in_game p id with
  | Some true =>
      _ ← oc_enable_cheating_for_game id [x80] share;
      do_on_chain_move current_coin id cheat_readable entropy
  | None => throw (StrErr "do_on_chain_action: Cheat for game has no turn mapping.")
  | Some false => throw (Panicked "do_on_chain_action: Cheat for game deferred (not our turn)")
  end.

Definition do_on_chain_action (action : GameAction) : eff OnChainPhase (list Effect) :=
  match action with
  | Move id readable_move entropy => do_move id readable_move entropy
  | Cheat id share entropy => do_cheat id share entropy
  | AcceptSettlement id => do_accept_settlement id
  | CleanShutdown => mret []
  | SendPotato => throw (StrErr "SendPotato action is obsolete and must not appear in the queue")
  | QueuedProposalGroup _ _ | QueuedAcceptProposal _ | QueuedCancelProposal _
  | QueuedCancelProposalSilently _ => mret []
  end.

(** The loop pops actions until one has effects.  No action touches the queue
    ([do_on_chain_action_queue]), so its length bounds the turns. *)
Fixpoint process_queue (fuel : nat) : eff OnChainPhase (list Effect) :=
  match fuel with
  | O => mret []
  | S fuel =>
      p ← get_state;
      match oc_game_action_queue p with
      | [] => mret []
      | action :: queue =>
          _ ← put_state (p <| oc_game_action_queue := queue |>);
          result ← do_on_chain_action action;
          match result with [] => process_queue fuel | _ => mret result end
      end
  end.
Definition process_queued_action : eff OnChainPhase (list Effect) :=
  p ← get_state; process_queue (length (oc_game_action_queue p)).

Definition has_queued_action (p : OnChainPhase) : bool :=
  negb (bool_decide (length (oc_game_action_queue p) = 0)).

(** The player's moves act at once. *)
Definition OnChainPhase_make_move (id : GameID) (readable : ReadableMove) (entropy : Hash)
    : eff OnChainPhase (list Effect) :=
  do_on_chain_action (Move id readable entropy).
Definition OnChainPhase_accept_settlement (id : GameID) : eff OnChainPhase (list Effect) :=
  do_on_chain_action (AcceptSettlement id).
Definition OnChainPhase_cheat_game (id : GameID) (share : Amount) (entropy : Hash)
    : eff OnChainPhase (list Effect) :=
  do_on_chain_action (Cheat id share entropy).
End actions.
