(* ===== verification/OnChainSpend.v ===== *)
(** * A game coin is spent

    [src/session_phases/on_chain.rs], [handle_game_coin_spent]: the spend of a
    watched game coin, read as our pending move, a slash of ours, a timeout we
    armed, or the opponent's doing; and the coin events of the phase. *)
From S2P Require Import Prelude Extern World Coins Clvm StandardCoin TransactionManager UnrollCoin.
From S2P Require Import GameHandler RefereeTypes Referee LiveGame ChannelState ChannelGames.
From S2P Require Import ChannelOnChain Effects OnChainPhase OnChainActions.

Section spend.
Context {arch : Arch} {sha2 : Sha2} {bigint : BigInt} {clvm : Clvm} {bls : Bls}.
Context {puzzles : ChiaPuzzles} {order : HashOrder}.

Definition insert_game (coin : CoinString) (g : OnChainGameState) : eff OnChainPhase unit :=
  modify_state (fun p => p <| game_map := <[coin := g]> (game_map p) |>).

(** Remove the coin and hold the potato; nothing happens when it is unknown. *)
Definition take_game (coin_id : CoinString) : eff OnChainPhase (option OnChainGameState) :=
  p ← get_state;
  match game_map p !! coin_id with
  | Some old =>
      _ ← put_state (p <| game_map := delete coin_id (game_map p) |> <| oc_have_potato := Present |>);
      mret (Some old)
  | None => mret None
  end.

(** The rest of the queue runs after the effects so far. *)
Definition then_queue (effects : list Effect) : eff OnChainPhase (list Effect) :=
  more ← process_queued_action; mret (effects ++ more).

(** ** Our pending move *)
Definition our_move_landed (pending : PendingMoveSavedState) (old : OnChainGameState)
    (new_coin : CoinString) (create_ph : PuzzleHash) : eff OnChainPhase (list Effect) :=
  let id := pm_game_id pending in
  _ ← oc_restore_game_state id (post_move_referee pending) (post_move_last_ph pending);
  p ← get_state;
  game_over ← lift_result (oc_is_game_over p id);
  _ ← insert_game new_coin (old <| og_puzzle_hash := create_ph |> <| our_turn := false |>
                                <| og_game_finished := game_over |>);
  _ ← remember_current_game_coin id new_coin;
  claim ← build_timeout_claim id new_coin;
  then_queue
    [Notify (GameStatus id OnChainTheirTurn None (Some new_coin) None
       (Some (GameStatusOtherParams_default <| op_moved_by_us := Some true |>
                <| op_game_finished := if (game_over : bool) then Some true else None |>)));
     RegisterCoin new_coin (og_game_timeout old) (Some "our on-chain move confirmed"%string) claim
       (opponent_timeout_claim_semantic id false game_over)].

(** [Some effects]: the handler returns; [None]: it goes on with the coin. *)
Definition pending_move_spent (coin_id : CoinString) (puzzle solution : Program)
    : eff OnChainPhase (option (list Effect)) :=
  p ← get_state;
  match pending_moves p !! coin_id with
  | None => mret None
  | Some pending =>
      _ ← put_state (p <| pending_moves := delete coin_id (pending_moves p) |>);
      conditions ← lift_result (from_puzzle_and_solution puzzle solution);
      match first_create_coin conditions with
      | None => mret None
      | Some (create_ph, create_amt) =>
          taken ← take_game coin_id;
          old ← lift_result (ok_or (StrErr "pending move coin not in game_map") taken);
          let new_coin := CoinString_from_parts (to_coin_id coin_id) create_ph create_amt in
          if bool_decide (create_ph = expected_ph pending) then
            effects ← our_move_landed pending old new_coin create_ph; mret (Some effects)
          else if bool_decide (create_ph = oc_their_reward_puzzle_hash p) then
            let outcome := if og_game_finished old then SettledCleanly else AttemptToMoveFailed in
            effects ← try_emit_terminal (GameSettled (og_game_id old) outcome 0 None);
            effects ← then_queue effects; mret (Some effects)
          else
            _ ← insert_game coin_id (old <| our_turn := false |>);
            mret None
      end
  end.

(** ** A coin we slashed *)
Definition reward_coin_of (reward_ph : PuzzleHash) (parent : CoinID)
    (conditions : list CoinCondition) : option CoinString :=
  head (omap (fun c => match is_create_coin c with
                       | Some (ph, amt) =>
                           if bool_decide (ph = reward_ph) && (0 <? amt)%N
                           then Some (CoinString_from_parts parent ph amt) else None
                       | None => None
                       end) conditions).

Definition slashed_coin_spent (p : OnChainPhase) (old : OnChainGameState) (coin_id : CoinString)
    (conditions : list CoinCondition) : list Effect * GameNotification :=
  let parent := to_coin_id coin_id in
  let reward_ph := oc_reward_puzzle_hash p in
  let reward_coin := reward_coin_of reward_ph parent conditions in
  let logged := match reward_coin with Some _ => [EffLog "[slash-on-chain]"] | None => [] end in
  if pays (oc_their_reward_puzzle_hash p) conditions then
    let our_reward : Amount := default 0%N (cheating_move_mover_share old) in
    (logged ++ [EffLog "[timeout-on-chain]"],
     GameSettled (og_game_id old) OpponentCheated our_reward
       (if (0 <? our_reward)%N then Some (CoinString_from_parts parent reward_ph our_reward)
        else None))
  else
    match reward_coin with
    | Some coin =>
        (logged, GameSettled (og_game_id old) SlashedOpponent
                   (default 0%N (CoinString_amount coin)) (Some coin))
    | None =>
        (logged ++ [EffLog "[game-error]"],
         GameStatus (og_game_id old) EndedError None None
           (Some "slash coin spent with no recognizable reward"%string) None)
    end.

(** ** A coin whose timeout we armed *)
Definition first_to (reward_ph : PuzzleHash) (conditions : list CoinCondition)
    : option (PuzzleHash * Amount) :=
  head (omap (fun c => '(ph, amt) ← is_create_coin c;
                       if bool_decide (ph = reward_ph) then Some (ph, amt) else None) conditions).

Definition advanced_by_redo (old : OnChainGameState) (coin_id : CoinString) (ph : PuzzleHash)
    (amt : Amount) : eff OnChainPhase (list Effect) :=
  let new_coin := CoinString_from_parts (to_coin_id coin_id) ph amt in
  let id := og_game_id old in
  _ ← insert_game new_coin (old <| og_puzzle_hash := ph |> <| our_turn := negb (our_turn old) |>
                                <| timeout_claim_armed := true |>);
  _ ← remember_current_game_coin id new_coin;
  claim ← build_timeout_claim id new_coin;
  mret [Notify (GameStatus id (if our_turn old then OnChainTheirTurn else OnChainMyTurn) None
                  (Some new_coin) None None);
        RegisterCoin new_coin (og_game_timeout old)
          (Some "timeout-claim-armed game coin advanced by redo"%string) claim
          (opponent_timeout_claim_semantic id (negb (our_turn old)) (og_game_finished old))].

Definition armed_coin_spent (old : OnChainGameState) (coin_id : CoinString)
    (conditions : list CoinCondition) : eff OnChainPhase (list Effect) :=
  p ← get_state;
  let id := og_game_id old in
  let outcome := if og_game_finished old then SettledCleanly else WeAccepted in
  match first_to (oc_reward_puzzle_hash p) conditions with
  | Some (ph, amt) =>
      if notification_sent old then mret []
      else
        try_emit_terminal (GameSettled id outcome amt
          (if (0 <? amt)%N then Some (CoinString_from_parts (to_coin_id coin_id) ph amt) else None))
  | None =>
      match first_to (oc_their_reward_puzzle_hash p) conditions with
      | Some _ =>
          if notification_sent old then mret []
          else try_emit_terminal (GameSettled id outcome 0 None)
      | None =>
          match first_create_coin conditions with
          | Some (ph, amt) => advanced_by_redo old coin_id ph amt
          | None => mret []
          end
      end
  end.

(** ** The opponent's doing *)
Definition game_error (id : GameID) (reason : string) : eff OnChainPhase (list Effect) :=
  effects ← try_emit_terminal (GameStatus id EndedError None None (Some reason) None);
  mret (EffLog "[game-error]" :: effects).

(** The new coin is put in the map; a game that must end is marked finished. *)
Definition track_new_coin (id : GameID) (coin : CoinString) (g : OnChainGameState)
    : eff OnChainPhase bool :=
  _ ← insert_game coin g;
  _ ← remember_current_game_coin id coin;
  p ← get_state;
  auto_settle ← lift_result (should_auto_settle p id (our_turn g));
  _ ← (if (auto_settle : bool) then
         modify_state (fun p => p <| game_map :=
           alter (fun d => d <| og_game_finished := true |>) coin (game_map p) |>)
       else mret tt);
  mret auto_settle.

Definition zero_reward_terminal (p : OnChainPhase) (id : GameID) (candidate : bool)
    : result Error bool :=
  if candidate then share ← oc_get_game_our_current_share p id; mret (share =? 0)%N else Ok false.

Definition queue_settlement (id : GameID) (auto_settle : bool) : eff OnChainPhase unit :=
  if auto_settle then
    modify_state (fun p => p <| oc_game_action_queue :=
      oc_game_action_queue p ++ [AcceptSettlement id] |>)
  else mret tt.

Definition expected_move (old : OnChainGameState) (coin_id : CoinString) (state_number : N)
    (ph : PuzzleHash) (amt : Amount) : eff OnChainPhase (list Effect * option ResyncInfo) :=
  let new_coin := CoinString_from_parts (to_coin_id coin_id) ph amt in
  let id := og_game_id old in
  let is_my_turn := negb (our_turn old) in
  p ← get_state;
  game_over ← lift_result (oc_is_game_over p id);
  let terminal := og_game_finished old || game_over in
  auto_settle ← track_new_coin id new_coin
    (old <| og_puzzle_hash := ph |> <| our_turn := is_my_turn |> <| og_game_finished := terminal |>);
  p ← get_state;
  lost ← lift_result (zero_reward_terminal p id (negb auto_settle && is_my_turn && game_over));
  effects ←
    (if (lost : bool) then emit_loser_forfeit_terminal id None
     else
       claim ← build_timeout_claim id new_coin;
       _ ← queue_settlement id auto_settle;
       mret [Notify (GameStatus id (if is_my_turn then OnChainMyTurn else OnChainTheirTurn) None
               (Some new_coin) None
               (Some (GameStatusOtherParams_default
                        <| op_game_finished := if terminal then Some true else None |>)));
             RegisterCoin new_coin (og_game_timeout old)
               (Some (if is_my_turn then "expected spend - my turn"
                      else "expected spend - their turn")%string) claim
               (opponent_timeout_claim_semantic id is_my_turn terminal)]);
  mret (EffLog "[move-on-chain]" :: effects,
        Some (mkResyncInfo state_number is_my_turn)).

Definition settled_by_timeout (old : OnChainGameState) : SettlementOutcome :=
  if og_game_finished old then SettledCleanly
  else if our_turn old then TimedOutWaitingForOurMove else OpponentTimedOut.

Definition timed_out (old : OnChainGameState) (parsed_solution : ParsedRefereeSolution)
    (my_reward_coin : option CoinString) : eff OnChainPhase (list Effect) :=
  let amount : Amount := default 0%N ((fun q => q.2) <$> (my_reward_coin ≫= to_parts)) in
  let is_slash := negb (our_turn old) && bool_decide (parsed_solution = ParsedSlash) in
  let id := og_game_id old in
  effects ←
    (if notification_sent old then mret []
     else if is_slash then try_emit_terminal (GameSettled id OpponentSlashedUs 0 None)
     else try_emit_terminal (GameSettled id (settled_by_timeout old) amount my_reward_coin));
  mret (EffLog (if is_slash then "[slash-on-chain]" else "[timeout-on-chain]") :: effects).

Definition they_moved (old : OnChainGameState) (coin_id new_coin : CoinString)
    (readable : ReadableMove) (share : Amount) : eff OnChainPhase (list Effect) :=
  parts ← lift_result (ok_or (StrErr "bad coin explode") (to_parts new_coin));
  _ ← guard_or (bool_decide (to_coin_id coin_id = parts.1.1))
        (StrErr "coin parent mismatch in their spend");
  let id := og_game_id old in
  p ← get_state;
  game_over ← lift_result (oc_is_game_over p id);
  let terminal := og_game_finished old || game_over in
  auto_settle ← track_new_coin id new_coin
    (old <| og_puzzle_hash := parts.1.2 |> <| our_turn := true |> <| og_game_finished := terminal |>);
  p ← get_state;
  lost ← lift_result (zero_reward_terminal p id (negb auto_settle && game_over));
  let finished_flag := if terminal then Some true else None in
  effects ←
    (if (lost : bool) then emit_loser_forfeit_terminal id (Some (readable, share))
     else
       claim ← build_timeout_claim id new_coin;
       _ ← queue_settlement id auto_settle;
       mret [Notify (GameStatus id OnChainMyTurn None (Some new_coin) None
               (Some (GameStatusOtherParams_default <| op_game_finished := finished_flag |>)));
             Notify (GameStatus id MyTurnStatus None None None
               (Some (GameStatusOtherParams_default <| op_readable := Some readable |>
                        <| op_mover_share := Some share |> <| op_game_finished := finished_flag |>)));
             RegisterCoin new_coin (og_game_timeout old) (Some "coin gives my turn"%string) claim
               None]);
  mret (EffLog "[move-on-chain]" :: effects).

Definition illegal_move (id : GameID) (coin : option CoinString) (share : option Amount)
    : Effect :=
  Notify (GameStatus id IllegalMoveDetected None coin None
    (Some (GameStatusOtherParams_default <| op_mover_share := share |>
             <| op_illegal_move_detected := Some true |>))).

Definition slash_opponent (old : OnChainGameState) (outcome : SlashOutcome)
    : eff OnChainPhase (list Effect) :=
  let id := og_game_id old in
  _ ← modify_state (fun p => p <| oc_have_potato := Present |>);
  effects ←
    (match outcome with
     | Reward transaction my_reward_coin share =>
         let amount : Amount := default 0%N ((fun q => q.2) <$> to_parts my_reward_coin) in
         let slash_coin := coin transaction in
         _ ← insert_game slash_coin
               (old <| pending_slash_amount := Some amount |>
                    <| cheating_move_mover_share := Some share |> <| our_turn := false |>);
         _ ← remember_current_game_coin id slash_coin;
         mret [SpendTransaction (mkSpendBundle (Some "slash move"%string) [transaction]) None;
               illegal_move id (Some slash_coin) (Some share);
               RegisterCoin slash_coin (og_game_timeout old) (Some "pending slash"%string) None None]
     | NoReward =>
         ended ← try_emit_terminal (GameSettled id OpponentSlashedUs 0 None);
         mret (illegal_move id None None :: ended)
     end);
  mret (EffLog "[slash-on-chain]" :: effects).

Definition our_reward (old : OnChainGameState) (coin_id : CoinString) (ph : PuzzleHash)
    (amt : Amount) : eff OnChainPhase (list Effect) :=
  effects ←
    (if notification_sent old then mret []
     else
       try_emit_terminal (GameSettled (og_game_id old) (settled_by_timeout old) amt
         (if (0 <? amt)%N then Some (CoinString_from_parts (to_coin_id coin_id) ph amt) else None)));
  mret (EffLog "[timeout-on-chain]" :: effects).

(** A coin of our turn may only be spent by a move we know, or by a timeout. *)
Definition is_expected (spent : CoinSpentInformation) : bool :=
  match spent with
  | TheirSpend (Expected _ _ _ _) | TheirSpend (Timedout _) | OurReward _ _ => true
  | _ => false
  end.

Definition opponent_spent (old : OnChainGameState) (coin_id : CoinString)
    (conditions : list CoinCondition) (parsed_solution : ParsedRefereeSolution)
    (spent : CoinSpentInformation) : eff OnChainPhase (list Effect * option ResyncInfo) :=
  match spent with
  | TheirSpend (Expected state_number ph amt _) =>
      moved ← expected_move old coin_id state_number ph amt;
      effects ← then_queue moved.1;
      mret (effects, moved.2)
  | TheirSpend (Timedout my_reward_coin) =>
      effects ← timed_out old parsed_solution my_reward_coin;
      effects ← then_queue effects;
      mret (effects, None)
  | TheirSpend (Moved new_coin _ readable share) =>
      effects ← they_moved old coin_id new_coin readable share;
      effects ← then_queue effects;
      mret (effects, None)
  | TheirSpend (Slash outcome) =>
      effects ← slash_opponent old outcome; mret (effects, None)
  | OurReward ph amt =>
      effects ← our_reward old coin_id ph amt;
      effects ← then_queue effects;
      mret (effects, None)
  end.

Definition live_coin_spent (old : OnChainGameState) (coin_id : CoinString)
    (conditions : list CoinCondition) (solution : Program)
    : eff OnChainPhase (list Effect * option ResyncInfo) :=
  parsed_solution ← lift_result (ParsedRefereeSolution_parse solution);
  result ← attempt (oc_game_coin_spent (og_game_id old) coin_id conditions parsed_solution);
  match result with
  | Err (Panicked msg) => throw (Panicked msg)
  | Err _ =>
      effects ← game_error (og_game_id old) "game_coin_spent failed";
      effects ← then_queue effects;
      mret (effects, None)
  | Ok spent =>
      if our_turn old && negb (is_expected spent) then
        effects ← game_error (og_game_id old) "our turn coin spent unexpectedly";
        effects ← then_queue effects;
        mret (effects, None)
      else opponent_spent old coin_id conditions parsed_solution spent
  end.

Definition handle_game_coin_spent (coin_id : CoinString) (puzzle solution : Program)
    : eff OnChainPhase (list Effect * option ResyncInfo) :=
  returned ← pending_move_spent coin_id puzzle solution;
  match returned with
  | Some effects => mret (effects, None)
  | None =>
      taken ← take_game coin_id;
      match taken with
      | None => mret ([], None)
      | Some old =>
          conditions ← lift_result (from_puzzle_and_solution puzzle solution);
          p ← get_state;
          if negb (bool_decide (pending_slash_amount old = None)) then
            let '(logged, n) := slashed_coin_spent p old coin_id conditions in
            ended ← try_emit_terminal n;
            effects ← then_queue (logged ++ ended);
            mret (effects, None)
          else if timeout_claim_armed old then
            effects ← armed_coin_spent old coin_id conditions;
            effects ← then_queue effects;
            mret (effects, None)
          else if negb (oc_has_live_game p (og_game_id old)) then
            effects ← then_queue [];
            mret (effects, None)
          else live_coin_spent old coin_id conditions solution
      end
  end.

(** ** Coin events *)
Definition check_game_coin_spent (p : OnChainPhase) (coin_id : CoinString) : bool * option Effect :=
  match game_map p !! coin_id with
  | Some _ => (true, Some (RequestPuzzleAndSolution coin_id))
  | None => (false, None)
  end.

Definition OnChainPhase_coin_spent (p : OnChainPhase) (coin_id : CoinString) : list Effect :=
  let '(matched, e) := check_game_coin_spent p coin_id in
  if matched then EffLog "[on-chain:game-coin-spent]" :: option_list e
  else option_list e ++ [EffLog "[on-chain:coin-spent]"].

Definition OnChainPhase_coin_puzzle_and_solution (coin_id : CoinString)
    (puzzle_and_solution : option (Program * Program))
    : eff OnChainPhase (list Effect * option ResyncInfo) :=
  match puzzle_and_solution with
  | Some (puzzle, solution) => handle_game_coin_spent coin_id puzzle solution
  | None =>
      removed ← remove_game_coin_info coin_id;
      match removed with
      | Some (id, ours) =>
          let reason : string := if (ours : bool) then "our turn coin spent unexpectedly"
                                 else "opponent made impossible spend" in
          effects ← then_queue
            [EffLog "[game-error]"; Notify (GameStatus id EndedError None None (Some reason) None)];
          mret (effects, None)
      | None => mret ([], None)
      end
  end.

(** ** What the host sees *)
Definition OnChainPhase_status_snapshot (p : OnChainPhase) : ChannelStatusSnapshot :=
  let state :=
    match oc_advisory p with
    | Some _ => Failed
    | None => if resolved_clean p then ResolvedClean
              else if oc_was_stale p then ResolvedStale else ResolvedUnrolled
    end in
  mkChannelStatusSnapshot state None (oc_advisory p) (oc_terminal_reward_coin p)
    (Some (oc_my_out_of_game_balance p)) (Some (oc_their_out_of_game_balance p)) None None None
    None None.

Definition OnChainPhase_coins_of_interest (p : OnChainPhase) : list (CoinOfInterest * CoinString) :=
  ((fun kv => (CurrentGame, kv.2)) <$> current_game_coins p)
  ++ (match oc_terminal_reward_coin p with
      | Some reward => if positive_coin reward then [(UnrollPayout, reward)] else []
      | None => []
      end)
  ++ ((fun kv => (GamePayout, kv.2)) <$> retain (fun kv => positive_coin kv.2) (game_payout_coins p)).
End spend.
