(* ===== verification/HandlerBase.v ===== *)
(** * What the phases share

    [src/session_phases/handler_base.rs] and [src/shutdown.rs]: the answer to an
    unroll, the spend of the channel coin to its unroll, the conditions of a
    clean shutdown, and the state of a phase that holds a channel and parks the
    player's actions while the chain decides. *)
From S2P Require Import Prelude Extern World Coins Clvm StandardCoin TransactionManager UnrollCoin.
From S2P Require Import GameHandler RefereeTypes Referee LiveGame ChannelState ChannelGames.
From S2P Require Import ChannelOnChain Effects.

Section base.
Context {arch : Arch} {sha2 : Sha2} {bigint : BigInt} {clvm : Clvm} {bls : Bls}.
Context {puzzles : ChiaPuzzles} {order : HashOrder}.

(** The decoder of a peer's message, [bencodex::from_slice::<PeerMessage>]:
    derived by a macro, so a parameter. *)
Class PeerCodec := { decode_peer_message : bytes -> result Error PeerMessage }.

(** ** [shutdown.rs] *)
Definition compute_shutdown_conditions (our_reward_ph : PuzzleHash) (our_share : Amount)
    (their_reward_ph : PuzzleHash) (their_share : Amount) : sexp :=
  list_node
    ((if (our_share =? 0)%N then [] else [create_coin_node our_reward_ph our_share])
     ++ (if (their_share =? 0)%N then [] else [create_coin_node their_reward_ph their_share])).

Definition get_conditions_with_channel_state (ch : ChannelState) : sexp :=
  compute_shutdown_conditions (ch_reward_puzzle_hash ch) (my_out_of_game_balance ch)
    (ch_their_reward_puzzle_hash ch) (their_out_of_game_balance ch).

(** ** Unrolls *)
Inductive UnrollOutcome : Type :=
| Preempted (bundle : SpendBundle)
| WaitForTimeout
| Unrecoverable (reason : string).

Definition classify_unroll (ch : ChannelState) (env : ChannelEnv) (conditions : sexp)
    (unroll_coin : CoinString) (on_chain_state : N) : result Error UnrollOutcome :=
  match channel_coin_spent ch env false conditions with
  | Ok result =>
      if csr_timeout result then Ok WaitForTimeout
      else Ok (Preempted (mkSpendBundle (Some "preempt unroll"%string)
                            [mkCoinSpend unroll_coin (csr_transaction result)]))
  | Err (Panicked msg) => Err (Panicked msg)
  | Err _ =>
      if is_ok (get_historical_unroll_for_state ch on_chain_state) then Ok WaitForTimeout
      else Ok (Unrecoverable "cannot preempt and no stored state for timeout")
  end.

Definition build_channel_to_unroll_bundle (env : ChannelEnv) (ch : ChannelState)
    (channel_coin : CoinString) (saved : ChannelCoinSpendInfo) (name : string)
    : result Error SpendBundle :=
  channel_coin_puzzle ← puzzle_for_synthetic_public_key (standard_puzzle env)
    (get_aggregate_channel_public_key ch);
  mret (mkSpendBundle (Some name)
          [mkCoinSpend channel_coin
             (mkSpend channel_coin_puzzle (ccs_solution saved) (ccs_aggsig saved))]).

(** ** [ChannelStateBase] *)
Record ChannelStateBase := mkChannelStateBase {
  channel_state : option ChannelState;
  game_action_queue : list GameAction;
  base_have_potato : PotatoState;
  channel_timeout : Timeout;
  unroll_timeout : Timeout;
}.
#[export] Instance ChannelStateBase_eta : RecordEta ChannelStateBase := fun b =>
  mkChannelStateBase (channel_state b) (game_action_queue b) (base_have_potato b)
    (channel_timeout b) (unroll_timeout b).

Definition base_amount (b : ChannelStateBase) : Amount :=
  match channel_state b with Some ch => amount ch true | None => 0%N end.
Definition base_our_current_share (b : ChannelStateBase) : option Amount :=
  my_out_of_game_balance <$> channel_state b.
Definition base_their_current_share (b : ChannelStateBase) : option Amount :=
  their_out_of_game_balance <$> channel_state b.
Definition base_has_potato (b : ChannelStateBase) : bool :=
  bool_decide (base_have_potato b = Present).
Definition channel_of (ch : option ChannelState) : result Error ChannelState :=
  ok_or (StrErr "no channel handler") ch.
Definition base_reward_puzzle_hash (b : ChannelStateBase) : result Error PuzzleHash :=
  ch_reward_puzzle_hash <$> channel_of (channel_state b).
Definition base_game_state_id (b : ChannelStateBase) : option Hash :=
  get_game_state_id <$> channel_state b.

(** [self.channel_state_mut()?.op()?] *)
Definition on_channel {A} (op : eff ChannelState A) : eff ChannelStateBase A := fun b =>
  match channel_state b with
  | None => (Err (StrErr "no channel handler"), b)
  | Some ch => let '(r, ch') := op ch in (r, b <| channel_state := Some ch' |>)
  end.

Definition cancelled (reason : CancelReason) (ids : list GameID) : list Effect :=
  (fun id => Notify (ProposalCancelled id reason)) <$> ids.

Definition emit_failure_cleanup : eff ChannelStateBase (list Effect) :=
  b ← get_state;
  match channel_state b with
  | None => mret []
  | Some _ =>
      ids ← on_channel cancel_all_proposals;
      games ← on_channel (gets all_game_ids);
      mret (cancelled ChannelError ids
            ++ ((fun id => Notify (GameStatus id EndedError None None
                                     (Some "channel error"%string) None)) <$> games))
  end.

Definition received_message_passive `{PeerCodec} (msg : bytes) : result Error (list Effect) :=
  match decode_peer_message msg with
  | Ok (CleanShutdownComplete coin_spend) =>
      Ok [SpendTransaction (mkSpendBundle (Some "Create unroll"%string) [coin_spend]) None]
  | Ok _ => Ok []
  | Err _ => Err (StrErr "bencodex deserialize error")
  end.

Definition park (action : GameAction) : eff ChannelStateBase unit :=
  modify_state (fun b => b <| game_action_queue := game_action_queue b ++ [action] |>).
Definition park_move (id : GameID) (readable : ReadableMove) (entropy : Hash)
    : eff ChannelStateBase unit := park (Move id readable entropy).
Definition park_accept_settlement (id : GameID) : eff ChannelStateBase unit :=
  park (AcceptSettlement id).
Definition park_cheat (id : GameID) (share : Amount) (entropy : Hash) : eff ChannelStateBase unit :=
  park (Cheat id share entropy).
End base.
