(* ===== verification/SpendChannelCoin.v ===== *)
(** * Spending the channel coin

    [src/session_phases/spend_channel_coin_phase.rs]: from the moment the
    channel coin is to be spent, or was, to the clean end of the session or to
    the games on chain: a state machine driven by the spends of the channel
    coin and of its unroll coin. *)
From S2P Require Import Prelude Extern World Coins Clvm StandardCoin TransactionManager UnrollCoin.
From S2P Require Import GameHandler RefereeTypes Referee LiveGame ChannelState ChannelGames.
From S2P Require Import ChannelOnChain Effects OnChainPhase OnChainActions OnChainSpend HandlerBase.

Section spend_channel_coin.
Context {arch : Arch} {sha2 : Sha2} {bigint : BigInt} {clvm : Clvm} {bls : Bls}.
Context {puzzles : ChiaPuzzles} {order : HashOrder} {codec : PeerCodec}.

Inductive SpendChannelCoinState : Type :=
| ChannelSpend (channel_coin : CoinString)
| ChannelConditions (channel_coin : CoinString)
| UnrollTimeoutOrSpend (unroll_coin : CoinString) (state_number : N)
| UnrollSpend (unroll_coin : CoinString) (state_number : N) (reward_coin : option CoinString)
| UnrollConditions (unroll_coin : CoinString) (state_number : N).

Record SpendChannelCoinPhase := mkSpendChannelCoinPhase {
  sc_state : SpendChannelCoinState;
  base : ChannelStateBase;
  advisory : option string;
  was_stale : bool;
  terminal_reward_coin : option CoinString;
  channel_spend_started_locally : option bool;
  unroll_initiator : option UnrollInitiator;
  timeout_finish_submitted : bool;
  expected_clean_shutdown_solution : option Program;
  last_channel_coin_spend_info : option ChannelCoinSpendInfo;
  replacement : option OnChainPhase;
}.
#[export] Instance SpendChannelCoinPhase_eta : RecordEta SpendChannelCoinPhase := fun p =>
  mkSpendChannelCoinPhase (sc_state p) (base p) (advisory p) (was_stale p) (terminal_reward_coin p)
    (channel_spend_started_locally p) (unroll_initiator p) (timeout_finish_submitted p)
    (expected_clean_shutdown_solution p) (last_channel_coin_spend_info p) (replacement p).

Abbreviation Phase := SpendChannelCoinPhase.

(** ** The three ways in *)
Definition SpendChannelCoinPhase_new (ch : option ChannelState) (channel_coin : CoinString)
    (queue : list GameAction) (potato : PotatoState) (channel_timeout unroll_timeout : Timeout)
    (saved : option ChannelCoinSpendInfo) : Phase :=
  mkSpendChannelCoinPhase (ChannelSpend channel_coin)
    (mkChannelStateBase ch queue potato channel_timeout unroll_timeout)
    None false None (Some true) None false None saved None.

Definition new_at_channel_conditions (ch : option ChannelState) (channel_coin : CoinString)
    (queue : list GameAction) (potato : PotatoState) (channel_timeout unroll_timeout : Timeout)
    (expected : option Program) : Phase :=
  mkSpendChannelCoinPhase (ChannelConditions channel_coin)
    (mkChannelStateBase ch queue potato channel_timeout unroll_timeout)
    None false None (Some false) None false expected None None.

Definition new_for_clean_shutdown (ch : option ChannelState) (channel_coin : CoinString)
    (clean_shutdown_solution : Program) (queue : list GameAction) (potato : PotatoState)
    (channel_timeout unroll_timeout : Timeout) (saved : option ChannelCoinSpendInfo) : Phase :=
  mkSpendChannelCoinPhase (ChannelSpend channel_coin)
    (mkChannelStateBase ch queue potato channel_timeout unroll_timeout)
    None false None None None false (Some clean_shutdown_solution) saved None.

Definition set_advisory (a : option string) (p : Phase) : Phase := p <| advisory := a |>.

(** [self.base.op()] and [self.base.channel_state_mut()?.op()] *)
Definition on_base {A} (op : eff ChannelStateBase A) : eff Phase A :=
  on_part base (fun b p => p <| base := b |>) op.
Definition on_ch {A} (op : eff ChannelState A) : eff Phase A := on_base (on_channel op).
Definition ch_of (p : Phase) : result Error ChannelState := channel_of (channel_state (base p)).

Definition timeout_claim_submitted (semantic : TimeoutClaimSemantic) : eff Phase bool :=
  p ← get_state;
  match semantic, sc_state p with
  | ChannelTimeoutFinish, UnrollTimeoutOrSpend _ _ =>
      if timeout_finish_submitted p then mret false
      else _ ← put_state (p <| timeout_finish_submitted := true |>); mret true
  | _, _ => mret false
  end.
Definition timeout_claim_rearmed (semantic : TimeoutClaimSemantic) : eff Phase bool :=
  p ← get_state;
  match semantic with
  | ChannelTimeoutFinish =>
      if timeout_finish_submitted p
      then _ ← put_state (p <| timeout_finish_submitted := false |>); mret true
      else mret false
  | GameOpponentTurn _ => mret false
  end.

(** The latest unroll, broadcast while the channel coin is still watched. *)
Definition SpendChannelCoinPhase_go_on_chain (env : ChannelEnv) : eff Phase (list Effect) :=
  p ← get_state;
  match sc_state p with
  | ChannelSpend coin | ChannelConditions coin =>
      match last_channel_coin_spend_info p with
      | None => mret []
      | Some saved =>
          _ ← put_state (p <| last_channel_coin_spend_info := None |>);
          ch ← lift_result (ch_of p);
          bundle ← lift_result (build_channel_to_unroll_bundle env ch coin saved "impatience unroll");
          mret [SpendTransaction bundle None]
      end
  | _ => mret []
  end.

(** ** A watched coin is spent *)
Definition request_spend (tag : string) (coin_id : CoinString) : list Effect :=
  [EffLog tag; RequestPuzzleAndSolution coin_id].

Definition SpendChannelCoinPhase_coin_spent (coin_id : CoinString) : eff Phase (list Effect) :=
  p ← get_state;
  let other : eff Phase (list Effect) := mret [EffLog "[spend-channel:coin-spent]"] in
  let unroll_spent (coin : CoinString) (n : N) : eff Phase (list Effect) :=
    if bool_decide (coin_id = coin) then
      _ ← put_state (p <| sc_state := UnrollConditions coin n |>);
      mret (request_spend "[spend-channel:unroll-coin-spent]" coin_id)
    else other in
  match sc_state p with
  | ChannelSpend coin =>
      if bool_decide (coin_id = coin) then
        _ ← put_state (p <| sc_state := ChannelConditions coin |>);
        mret (request_spend "[spend-channel:channel-coin-spent]" coin_id)
      else other
  | UnrollSpend coin n _ => unroll_spent coin n
  | UnrollTimeoutOrSpend coin n => unroll_spent coin n
  | _ => other
  end.

(** ** Terminal phases: the channel gives up its games *)
Definition transition_to_terminal (missing : string) (clean : bool) (note : option string)
    : eff Phase unit :=
  p ← get_state;
  ch ← lift_result (ok_or (StrErr missing) (channel_state (base p)));
  _ ← on_ch take_live_games;
  _ ← on_ch take_pending_settlements;
  modify_state (fun p => p <| replacement :=
    Some (OnChainPhase_new_terminal ch (was_stale p) clean (terminal_reward_coin p) note) |>).
Definition transition_to_failed_terminal : eff Phase unit :=
  p ← get_state;
  transition_to_terminal "transition_to_failed_terminal: channel_state required" false (advisory p).
Definition transition_to_completed_terminal (resolved_clean : bool) : eff Phase unit :=
  transition_to_terminal "transition_to_completed_terminal: channel_state required" resolved_clean
    None.

(** [emit_failure_cleanup], the reason, the failed terminal phase. *)
Definition fail_session (tag reason : string) : eff Phase (list Effect) :=
  cleanup ← on_base emit_failure_cleanup;
  _ ← modify_state (set_advisory (Some reason));
  _ ← transition_to_failed_terminal;
  mret (EffLog tag :: cleanup).

Definition build_unroll_timeout_spend (p : Phase) (env : ChannelEnv) (unroll_coin : CoinString)
    (on_chain_state : N) : result Error SpendBundle :=
  ch ← ch_of p;
  matching ← get_historical_unroll_for_state ch on_chain_state;
  curried ← curried_unroll ch env (historical_state_number matching) (conditions_hash matching);
  puzzle ← Puzzle_from_nodeptr curried;
  timeout_solution ← Program_to_nodeptr (timeout_conditions matching);
  solution ← Program_from_nodeptr timeout_solution;
  mret (mkSpendBundle (Some "create unroll (timeout)"%string)
          [mkCoinSpend unroll_coin (mkSpend puzzle solution sig_default)]).

(** ** The spend of the channel coin *)
Definition settled_accepts (accepts : list (GameID * Amount * bool)) (coin : option CoinString)
    : list Effect :=
  (fun a => Notify (GameSettled a.1.1 SettledByAccept a.1.2 coin)) <$> accepts.

Definition clean_shutdown_landed (coin_id : CoinString) (puzzle solution : Program)
    : eff Phase (list Effect) :=
  accepts ← on_ch drain_cached_accept_settlements;
  conditions ← lift_result (from_puzzle_and_solution puzzle solution);
  p ← get_state;
  ch ← lift_result (ch_of p);
  _ ← put_state (p <| terminal_reward_coin :=
        reward_coin_of (ch_reward_puzzle_hash ch) (to_coin_id coin_id) conditions |>);
  _ ← transition_to_completed_terminal true;
  mret (EffLog "[clean-end]" :: settled_accepts accepts None).

Definition handle_unroll_from_channel_conditions (env : ChannelEnv) (conditions : sexp)
    (unroll_coin : CoinString) : eff Phase (list Effect) :=
  p ← get_state;
  ch ← lift_result (ch_of p);
  resolved ← lift_result (resolve_unroll_from_conditions ch conditions);
  let on_chain_state : N := resolved.1 in
  outcome ← lift_result (classify_unroll ch env conditions unroll_coin on_chain_state);
  let timeout := unroll_timeout (base p) in
  effects ←
    (match outcome with
     | Preempted bundle =>
         _ ← put_state (p <| sc_state := UnrollSpend unroll_coin on_chain_state None |>);
         mret [SpendTransaction bundle None; EffLog "[unroll-preempt]";
               RegisterCoin unroll_coin timeout (Some "unroll"%string) None None]
     | WaitForTimeout =>
         match build_unroll_timeout_spend p env unroll_coin on_chain_state with
         | Ok spend =>
             _ ← put_state (p <| sc_state := UnrollTimeoutOrSpend unroll_coin on_chain_state |>);
             mret [RegisterCoin unroll_coin timeout (Some "unroll"%string) (Some spend)
                     (Some ChannelTimeoutFinish)]
         | Err (Panicked msg) => throw (Panicked msg)
         | Err _ => fail_session "[unroll-error]" "timeout unroll build failed for state"
         end
     | Unrecoverable reason => fail_session "[unroll-error]" reason
     end);
  mret (EffLog "[unroll-started]" :: effects).

(** The first created coin that is one of our unrolls. *)
Definition find_unroll_coin (ch : ChannelState) (coin_id : CoinString)
    (conditions : list CoinCondition) : option CoinString :=
  head (omap (fun c => '(ph, amt) ← is_create_coin c;
                       _ ← unroll_puzzle_hash_map ch !! ph;
                       Some (CoinString_from_parts (to_coin_id coin_id) ph amt)) conditions).

Definition unroll_landed (env : ChannelEnv) (coin_id : CoinString) (puzzle solution : Program)
    : eff Phase (list Effect) :=
  run_puzzle ← lift_result (Program_to_nodeptr puzzle);
  run_args ← lift_result (Program_to_nodeptr solution);
  conditions_node ← lift_result (lift_err ClvmErr (run_program run_puzzle run_args));
  channel_conditions ← lift_result (CoinCondition_from_nodeptr conditions_node);
  p ← get_state;
  ch ← lift_result (ch_of p);
  unroll_coin ← lift_result
    (ok_or (StrErr "No CREATE_COIN in channel spend matches a known unroll puzzle hash")
       (find_unroll_coin ch coin_id channel_conditions));
  _ ← put_state (p <| unroll_initiator :=
        if bool_decide (channel_spend_started_locally p = Some false) then Some Opponent else None |>);
  ids ← on_ch cancel_all_proposals;
  effects ← handle_unroll_from_channel_conditions env conditions_node unroll_coin;
  mret (cancelled WentOnChain ids ++ effects).

Definition handle_channel_coin_spent (env : ChannelEnv) (coin_id : CoinString)
    (puzzle_and_solution : option (Program * Program)) : eff Phase (list Effect) :=
  spent ← lift_result
    (ok_or (StrErr "Retrieve of puzzle and solution failed for channel coin") puzzle_and_solution);
  p ← get_state;
  let puzzle : Program := spent.1 in
  let solution : Program := spent.2 in
  if bool_decide (expected_clean_shutdown_solution p = Some solution)
  then clean_shutdown_landed coin_id puzzle solution
  else unroll_landed env coin_id puzzle solution.
End spend_channel_coin.
