(* ===== verification/UnrollTransition.v ===== *)
(** * From the unroll to the games on chain

    [src/session_phases/spend_channel_coin_phase.rs], [finish_on_chain_transition]
    and the coin events that lead to it: the spent unroll coin tells which games
    survive; those worth playing go on in the on-chain phase. *)
From S2P Require Import Prelude Extern World Coins Clvm StandardCoin TransactionManager UnrollCoin.
From S2P Require Import GameHandler RefereeTypes Referee LiveGame ChannelState ChannelGames.
From S2P Require Import ChannelOnChain Effects OnChainPhase OnChainActions OnChainSpend HandlerBase.
From S2P Require Import SpendChannelCoin.

Section transition.
Context {arch : Arch} {sha2 : Sha2} {bigint : BigInt} {clvm : Clvm} {bls : Bls}.
Context {puzzles : ChiaPuzzles} {order : HashOrder} {codec : PeerCodec}.
Abbreviation Phase := SpendChannelCoinPhase.
Abbreviation Games := (gmap CoinString OnChainGameState).

(** ** Reading the unroll *)
Definition is_stale (ch : ChannelState) (on_chain_state : N) : bool :=
  match timeout_state_number ch with
  | Some t => (usize_add on_chain_state 1 <? t)%N
  | None => false
  end.

(** The coins that may be games: not a reward of either player. *)
Definition created_games (ch : ChannelState) (conditions : list CoinCondition)
    : list (PuzzleHash * Amount) :=
  omap (fun c => '(ph, amt) ← is_create_coin c;
                 if (0 <? amt)%N && negb (bool_decide (ph = ch_reward_puzzle_hash ch))
                    && negb (bool_decide (ph = ch_their_reward_puzzle_hash ch))
                 then Some (ph, amt) else None) conditions.

Definition surviving (games : Games) : gset GameID :=
  list_to_set (og_game_id <$> (hm_iter games).*2).

Definition missing_game (stale : bool) (in_flight : gset GameID) (id : GameID) : Effect :=
  if bool_decide (id ∈ in_flight) then Notify (game_status id EndedCancelled)
  else Notify (GameStatus id EndedError None None
         (Some (if stale then "live game absent from stale unroll"
                else "live game absent from unroll")%string) None).

Record UnrollReading := mkUnrollReading {
  ur_games : Games;
  ur_reward_coin : option CoinString;
  ur_settled : list (GameID * Amount * bool);
  ur_missing : list Effect;
}.

Definition read_unroll (unroll_coin : CoinString) (puzzle solution : Program) (on_chain_state : N)
    : eff Phase UnrollReading :=
  p ← get_state;
  ch ← lift_result (ch_of p);
  let in_flight : gset GameID := list_to_set (pending_proposal_accept_game_ids ch) in
  let pre_game_ids : gset GameID := list_to_set (live_game_ids ch) ∪ in_flight in
  conditions ← lift_result (from_puzzle_and_solution puzzle solution);
  let reward_coin :=
    reward_coin_of (ch_reward_puzzle_hash ch) (to_coin_id unroll_coin) conditions in
  let stale := is_stale ch on_chain_state in
  _ ← modify_state (fun p => p <| was_stale := was_stale p || stale |>);
  let games := set_state_for_coins ch unroll_coin (created_games ch conditions) in
  let surviving_ids := surviving games in
  let missing := missing_game stale in_flight <$>
    retain (fun id => negb (bool_decide (id ∈ surviving_ids))) (hs_iter pre_game_ids) in
  settled ← on_ch (drain_preempt_resolved_accept_settlements surviving_ids);
  mret (mkUnrollReading games reward_coin settled missing).

(** ** Games not worth playing

    One turn of the loop: the games of zero reward, and those whose local
    bookkeeping is missing. *)
Definition zero_reward_scan (ch : ChannelState) : list (CoinString * OnChainGameState) ->
    result Error (list (CoinString * OnChainGameState) * list (CoinString * OnChainGameState)) :=
  fix scan l :=
    match l with
    | [] => Ok ([], [])
    | (coin, g) :: l =>
        verdict ←
          (if timeout_claim_armed g || negb (our_turn g) then
             match get_game_our_current_share ch (og_game_id g) with
             | Ok share => Ok ((share =? 0)%N, false)
             | Err (Panicked msg) => Err (Panicked msg)
             | Err _ => Ok (false, true)
             end
           else zero ← is_redo_zero_reward ch (og_game_id g); mret (zero, false));
        rest ← scan l;
        mret (if (verdict.1 : bool) then (coin, g) :: rest.1 else rest.1,
              if (verdict.2 : bool) then (coin, g) :: rest.2 else rest.2)
    end.

Definition forfeit_outcome (g : OnChainGameState) : SettlementOutcome :=
  if timeout_claim_armed g then ForfeitedWeAccepted
  else if our_turn g then ForfeitedSkippedReveal else ForfeitedOpponentWon.

Definition remove_all (coins : list CoinString) (games : Games) : Games :=
  foldr delete games coins.

Definition drop_worthless (ch : ChannelState) (games : Games) : result Error (Games * list Effect) :=
  scanned ← zero_reward_scan ch (hm_iter games);
  let '(zero, missing) := scanned in
  mret (remove_all zero.*1 (remove_all missing.*1 games),
        ((fun kv : CoinString * OnChainGameState => Notify (GameStatus (og_game_id kv.2) EndedError None (Some kv.1)
            (Some "game absent from local state at unroll (possible stale unroll)"%string) None))
           <$> missing)
        ++ ((fun kv : CoinString * OnChainGameState =>
               Notify (GameSettled (og_game_id kv.2) (forfeit_outcome kv.2) 0 None)) <$> zero)).

(** ** Replaying our last move *)
Definition replaying (ch : ChannelState) (g : OnChainGameState) : bool :=
  our_turn g && has_cached_move_for_game ch (og_game_id g).

(** The set of game ids is looked up, so two coins of one game agree. *)
Definition replaying_ids (ch : ChannelState) (games : Games) : gset GameID :=
  list_to_set (og_game_id <$> retain (replaying ch) (hm_iter games).*2).

Definition initial_status (ids : gset GameID) (kv : CoinString * OnChainGameState) : Effect :=
  let g := kv.2 in
  Notify (GameStatus (og_game_id g)
    (if bool_decide (og_game_id g ∈ ids) then Replaying
     else if our_turn g then OnChainMyTurn else OnChainTheirTurn) None (Some kv.1) None None).

Definition redo_move (ids : gset GameID) (coin : CoinString) (id : GameID)
    : eff ChannelState (option (PendingMoveSavedState * Effect)) :=
  cached ← take_cached_move_for_game id;
  match cached with
  | None =>
      if bool_decide (id ∈ ids)
      then throw (StrErr "redo: Replaying status for game but no cached move") else mret None
  | Some cached_move =>
      saved_referee ← lift_result (ok_or (StrErr "redo: no saved post-move referee")
        (saved_post_move_referee cached_move));
      saved_ph ← lift_result (ok_or (StrErr "redo: no saved post-move last_ph")
        (saved_post_move_last_ph cached_move));
      ch ← get_state;
      pre ← lift_result (save_game_state ch id);
      _ ← restore_game_state id saved_referee saved_ph;
      ch ← get_state;
      transaction ← lift_result (get_transaction_for_game_move ch id coin);
      new_ph ← lift_result (get_game_outcome_puzzle_hash ch id);
      post ← lift_result (save_game_state ch id);
      _ ← restore_game_state id pre.1 pre.2;
      mret (Some (mkPendingMove new_ph id post.1 post.2, spend_of "on chain redo move" coin transaction))
  end.

Fixpoint redo_moves (ids : gset GameID) (candidates : list (CoinString * GameID))
    (pending : gmap CoinString PendingMoveSavedState)
    : eff ChannelState (gmap CoinString PendingMoveSavedState * list Effect) :=
  match candidates with
  | [] => mret (pending, [])
  | (coin, id) :: candidates =>
      redone ← redo_move ids coin id;
      match redone with
      | None => redo_moves ids candidates pending
      | Some (saved, e) =>
          rest ← redo_moves ids candidates (<[coin := saved]> pending);
          mret (rest.1, e :: rest.2)
      end
  end.

(** ** Handing over to the on-chain phase *)
Definition is_clean_shutdown (a : GameAction) : bool :=
  match a with CleanShutdown => true | _ => false end.

Definition start_on_chain (games : Games) (pending : gmap CoinString PendingMoveSavedState)
    : eff Phase (list Effect) :=
  p ← get_state;
  let queue := retain (fun a => negb (is_clean_shutdown a)) (game_action_queue (base p)) in
  _ ← on_base (modify_state (fun b => b <| game_action_queue := [] |>));
  ch ← lift_result (ok_or (StrErr "no channel handler yet") (channel_state (base p)));
  _ ← on_base (modify_state (fun b => b <| channel_state := None |>));
  let on_chain := OnChainPhase_new
    (mkOnChainPhaseArgs Present (channel_timeout (base p)) queue games pending (private_keys ch)
       (ch_reward_puzzle_hash ch) (ch_their_reward_puzzle_hash ch) (my_out_of_game_balance ch)
       (their_out_of_game_balance ch) (my_allocated_balance ch) (their_allocated_balance ch)
       (live_games ch) (pending_settlements ch) (unroll_advance_timeout ch) (is_initial_potato ch)
       (state_number ch) (was_stale p) false (terminal_reward_coin p) []) in
  let run (op : eff OnChainPhase (list Effect)) : eff Phase (list Effect) := fun p =>
    let '(r, oc) := op (default on_chain (replacement p)) in (r, p <| replacement := Some oc |>) in
  _ ← modify_state (fun p => p <| replacement := Some on_chain |>);
  registered ← run register_initial_game_coins;
  acted ← run process_queued_action;
  mret (registered ++ acted).

Definition finish_on_chain_transition (unroll_coin : CoinString)
    (puzzle_and_solution : option (Program * Program)) (on_chain_state : N)
    : eff Phase (list Effect) :=
  spent ← lift_result (ok_or (StrErr "no conditions for unroll coin") puzzle_and_solution);
  reading ← read_unroll unroll_coin spent.1 spent.2 on_chain_state;
  _ ← modify_state (fun p => p <| terminal_reward_coin := ur_reward_coin reading |>);
  let effects := ur_missing reading ++ settled_accepts (ur_settled reading) (ur_reward_coin reading) in
  if bool_decide (ur_games reading = ∅) then
    _ ← transition_to_completed_terminal false; mret effects
  else
    p ← get_state;
    ch ← lift_result (ch_of p);
    kept ← lift_result (drop_worthless ch (ur_games reading));
    let '(games, dropped) := kept in
    if bool_decide (games = ∅) then
      _ ← transition_to_completed_terminal false; mret (effects ++ dropped)
    else
      let ids := replaying_ids ch games in
      let statuses := initial_status ids <$> hm_iter games in
      let candidates := (fun kv => (kv.1, og_game_id kv.2)) <$>
        retain (fun kv => our_turn kv.2) (hm_iter games) in
      redone ← on_ch (redo_moves ids candidates ∅);
      started ← start_on_chain games redone.1;
      mret (effects ++ dropped ++ statuses ++ redone.2 ++ started).

(** ** Coin events *)
Definition SpendChannelCoinPhase_coin_puzzle_and_solution (env : ChannelEnv) (coin_id : CoinString)
    (puzzle_and_solution : option (Program * Program)) : eff Phase (list Effect) :=
  p ← get_state;
  let finish (coin : CoinString) (n : N) : eff Phase (list Effect) :=
    if bool_decide (coin_id = coin) then
      catch (finish_on_chain_transition coin_id puzzle_and_solution n)
        (fun _ => fail_session "[unroll-error]" "unroll coin spent with unexpected state")
    else mret [] in
  match sc_state p with
  | ChannelConditions coin =>
      if bool_decide (coin_id = coin) then
        catch (handle_channel_coin_spent env coin_id puzzle_and_solution)
          (fun _ => fail_session "[channel-error]" "channel coin spent to non-unroll")
      else mret []
  | UnrollSpend coin n _ => finish coin n
  | UnrollConditions coin n => finish coin n
  | _ => mret []
  end.

(** ** What the host sees *)
Definition spending_status (p : Phase) : ChannelStatusKind :=
  match expected_clean_shutdown_solution p with
  | Some _ => ShutdownTransactionPending
  | None => GoingOnChain
  end.

Definition status_of_state (p : Phase)
    : ChannelStatusKind * CoinString * ChannelSemanticPhase :=
  match sc_state p with
  | ChannelSpend coin => (spending_status p, coin, SubmittingChannelSpend)
  | ChannelConditions coin =>
      (spending_status p, coin,
       if bool_decide (channel_spend_started_locally p = Some false)
       then ResolvingOpponentChannelSpend else Resolving)
  | UnrollTimeoutOrSpend coin _ =>
      (Unrolling, coin,
       if timeout_finish_submitted p then SubmittingTimeoutFinish else WaitingTimeout)
  | UnrollSpend coin _ _ => (Unrolling, coin, Preempting)
  | UnrollConditions coin _ => (Unrolling, coin, Resolving)
  end.

Definition SpendChannelCoinPhase_status_snapshot (p : Phase) : ChannelStatusSnapshot :=
  let '(state, coin, semantic) := status_of_state p in
  let ch := channel_state (base p) in
  mkChannelStatusSnapshot state None (advisory p) (Some coin)
    (my_out_of_game_balance <$> ch) (their_out_of_game_balance <$> ch)
    ((fun c => amount c true) <$> ch) None
    (if bool_decide (state = ShutdownTransactionPending)
     then Some (match ch with Some c => has_zero_payout c | None => false end) else None)
    (unroll_initiator p) (Some semantic).

Definition SpendChannelCoinPhase_coins_of_interest (p : Phase) : list (CoinOfInterest * CoinString) :=
  (match sc_state p with
   | ChannelSpend coin | ChannelConditions coin => [(ChannelCoin, coin)]
   | UnrollTimeoutOrSpend coin _ | UnrollSpend coin _ _ | UnrollConditions coin _ =>
       [(UnrollCoinOfInterest, coin)]
   end)
  ++ (match terminal_reward_coin p with
      | Some reward => if positive_coin reward then [(UnrollPayout, reward)] else []
      | None => []
      end).
End transition.
