(* ===== verification/OffChainPhase.v ===== *)
(** * The off-chain phase

    [src/session_phases/mod.rs], the phase in which the players exchange the
    potato: its state, the checks on a group of proposals, and the draining of
    the player's queued actions into the batch that goes with the potato. *)
From S2P Require Import Prelude Extern World Coins Clvm StandardCoin TransactionManager UnrollCoin.
From S2P Require Import GameHandler RefereeTypes Referee LiveGame ChannelState ChannelGames.
From S2P Require Import ChannelOnChain Effects OnChainPhase OnChainActions OnChainSpend HandlerBase.
From S2P Require Import SpendChannelCoin UnrollTransition.

Section off_chain.
Context {arch : Arch} {sha2 : Sha2} {bigint : BigInt} {clvm : Clvm} {bls : Bls}.
Context {puzzles : ChiaPuzzles} {order : HashOrder} {codec : PeerCodec}.

Record OffChainPhase := mkOffChainPhase {
  initiator : bool;
  off_have_potato : PotatoState;
  off_game_action_queue : list GameAction;
  last_failed_queued_action : option (GameID * FailedGameAction);
  off_channel_state : option ChannelState;
  game_types : gmap GameType GameFactory;
  off_private_keys : ChannelPrivateKeys;
  off_my_contribution : Amount;
  off_their_contribution : Amount;
  off_reward_puzzle_hash : PuzzleHash;
  off_channel_timeout : Timeout;
  off_unroll_timeout : Timeout;
  incoming_messages : list PeerMessage;
  peer_wants_potato : bool;
  off_last_channel_coin_spend_info : option ChannelCoinSpendInfo;
  pending_clean_shutdown : option (CoinString * Program);
  channel_spend_next_phase : option SpendChannelCoinPhase;
}.
#[export] Instance OffChainPhase_eta : RecordEta OffChainPhase := fun p =>
  mkOffChainPhase (initiator p) (off_have_potato p) (off_game_action_queue p)
    (last_failed_queued_action p) (off_channel_state p) (game_types p) (off_private_keys p)
    (off_my_contribution p) (off_their_contribution p) (off_reward_puzzle_hash p)
    (off_channel_timeout p) (off_unroll_timeout p) (incoming_messages p) (peer_wants_potato p)
    (off_last_channel_coin_spend_info p) (pending_clean_shutdown p) (channel_spend_next_phase p).

Definition from_completed_handshake (initiator : bool) (ch : ChannelState) (potato : PotatoState)
    (types : gmap GameType GameFactory) (keys : ChannelPrivateKeys) (mine theirs : Amount)
    (channel_timeout unroll_timeout : Timeout) (reward_ph : PuzzleHash)
    (incoming : list PeerMessage) (saved : option ChannelCoinSpendInfo) : OffChainPhase :=
  mkOffChainPhase initiator potato [] None (Some ch) types keys mine theirs reward_ph
    channel_timeout unroll_timeout incoming false saved None None.

(** ** Observations *)
Definition OffChainPhase_amount (p : OffChainPhase) : Amount :=
  Amount_add (off_my_contribution p) (off_their_contribution p).
Definition off_our_current_share (p : OffChainPhase) : option Amount :=
  my_out_of_game_balance <$> off_channel_state p.
Definition off_their_current_share (p : OffChainPhase) : option Amount :=
  their_out_of_game_balance <$> off_channel_state p.
Definition has_queued_message (p : OffChainPhase) : bool :=
  negb (bool_decide (length (incoming_messages p) = 0)).
Definition has_potato (p : OffChainPhase) : bool := bool_decide (off_have_potato p = Present).
Definition off_ch (p : OffChainPhase) : result Error ChannelState := channel_of (off_channel_state p).
Definition off_get_game_state_id (p : OffChainPhase) : option Hash :=
  get_game_state_id <$> off_channel_state p.

(** [self.channel_state_mut()?.op()] *)
Definition on_off_ch {A} (op : eff ChannelState A) : eff OffChainPhase A := fun p =>
  match off_channel_state p with
  | None => (Err (StrErr "no channel handler"), p)
  | Some ch => let '(r, ch') := op ch in (r, p <| off_channel_state := Some ch' |>)
  end.
(** [self.channel_state()?.op()], an observation that may fail *)
Definition see_ch {A} (op : ChannelState -> result Error A) : eff OffChainPhase A :=
  p ← get_state; ch ← lift_result (off_ch p); lift_result (op ch).

Definition push_action (a : GameAction) : eff OffChainPhase unit :=
  modify_state (fun p => p <| off_game_action_queue := off_game_action_queue p ++ [a] |>).
Definition retain_actions (keep : GameAction -> bool) : eff OffChainPhase unit :=
  modify_state (fun p => p <| off_game_action_queue := retain keep (off_game_action_queue p) |>).

(** ** Proposal groups *)
Definition validate_wire_group_structure (wire : WireProposalGroup) (expected_members : nat)
    : result Error (list GameID) :=
  _ ← check (length (members wire) =? expected_members)
        (StrErr "proposal group has members but factory returned");
  let ids := w_game_id <$> members wire in
  first ← ok_or (StrErr "proposal group is empty") (head ids);
  _ ← check (bool_decide (NoDup ids)) (StrErr "proposal group contains duplicate game ids");
  _ ← check (wire_group_id wire =? first)%N
        (StrErr "proposal group_id does not match first member");
  mret ids.

Definition factory_games (p : OffChainPhase) (start : GameProposal) : result Error (list FactoryGame) :=
  factory ← ok_or (StrErr "no such game") (game_types p !! game_type start);
  program ← ok_or (StrErr "GameFactory program missing") (factory_program factory);
  run_factory (mkPuzzle program) (parameters start).

Definition member_matches (g : FactoryGame) (m : WireGameSpec) : bool :=
  (w_amount m =? fg_amount g)%N
  && (w_sender_contribution m =? sender_contribution g)%N
  && (w_receiver_contribution m =? receiver_contribution g)%N
  && Bool.eqb (w_sender_goes_first m) (sender_goes_first g)
  && bool_decide (w_initial_validation_program_hash m = fg_initial_validation_program_hash g)
  && bool_decide (w_initial_move m = fg_initial_move g)
  && (w_initial_max_move_size m =? fg_initial_max_move_size g)%N
  && bool_decide (w_initial_state m = fg_initial_state g)
  && (w_initial_mover_share m =? fg_initial_mover_share g)%N.

(** What the receiver of a group makes of it: its own side of every game. *)
Definition hydrate_wire_proposal_group (p : OffChainPhase) (wire : WireProposalGroup)
    : result Error (list GameStartInfo * GameType) :=
  games ← factory_games p (start wire);
  ids ← validate_wire_group_structure wire (length games);
  starts ← mapM_result (fun gm : FactoryGame * WireGameSpec * GameID =>
             let '(g, m, id) := gm in
             _ ← check (member_matches g m) (StrErr "proposal group member does not match factory output");
             mret (game_start g id (proposal_timeout (start wire)) false))
           (zip (zip games (members wire)) ids);
  mret (starts, game_type (start wire)).

(** What the sender puts on the wire. *)
Definition wire_spec (g : FactoryGame) (id : GameID) : WireGameSpec :=
  mkWireGameSpec id (fg_amount g) (sender_contribution g) (receiver_contribution g)
    (sender_goes_first g) (fg_initial_validation_program_hash g) (fg_initial_move g)
    (fg_initial_max_move_size g) (fg_initial_state g) (fg_initial_mover_share g).

(** ** Sending the potato *)
Definition send_batch (tag : string) (actions : list BatchAction) (sigs : StateUpdateSignatures)
    (clean_shutdown : option (Aggsig * Program)) : list Effect :=
  [EffLog tag; PeerBatch actions sigs clean_shutdown].

Definition send_empty (env : ChannelEnv) : eff OffChainPhase (list Effect) :=
  sigs ← on_off_ch (send_empty_potato env);
  _ ← modify_state (fun p => p <| off_have_potato := Absent |>);
  mret (send_batch "[send]" [] sigs None).

Definition send_potato_request_if_needed : eff OffChainPhase (bool * option Effect) :=
  p ← get_state;
  match off_have_potato p with
  | Present => mret (true, None)
  | Absent => _ ← put_state (p <| off_have_potato := Requested |>); mret (false, Some PeerRequestPotato)
  | Requested => mret (false, None)
  end.

(** ** Draining the queue into a batch

    The local variables of the loop. *)
Record BatchLocals := mkBatchLocals {
  bl_effects : list Effect;
  bl_actions : list BatchAction;
  bl_clean_shutdown : option (Aggsig * Program);
  bl_pending_shutdown : option (CoinString * Program);
  bl_deferred : list GameAction;
}.
#[export] Instance BatchLocals_eta : RecordEta BatchLocals := fun l =>
  mkBatchLocals (bl_effects l) (bl_actions l) (bl_clean_shutdown l) (bl_pending_shutdown l)
    (bl_deferred l).
Definition no_locals : BatchLocals := mkBatchLocals [] [] None None [].
Definition add_action (a : BatchAction) (l : BatchLocals) : BatchLocals :=
  l <| bl_actions := bl_actions l ++ [a] |>.
Definition add_effects (es : list Effect) (l : BatchLocals) : BatchLocals :=
  l <| bl_effects := bl_effects l ++ es |>.
Definition defer (a : GameAction) (l : BatchLocals) : BatchLocals :=
  l <| bl_deferred := bl_deferred l ++ [a] |>.

Definition failed_action (a : GameAction) : option (GameID * FailedGameAction) :=
  match a with
  | Move id _ _ => Some (id, MakeMove)
  | AcceptSettlement id => Some (id, FailedAcceptSettlement)
  | _ => None
  end.

Definition drain_move (id : GameID) (readable : ReadableMove) (entropy : Hash) (l : BatchLocals)
    : eff OffChainPhase BatchLocals :=
  mine ← see_ch (fun ch => Ok (game_is_my_turn ch id));
  if bool_decide (mine = Some true) then
    result ← attempt (on_off_ch (send_move_no_finalize id readable entropy));
    match result with
    | Ok move_result => mret (add_action (BatchMove id (mr_game_move move_result)) l)
    | Err (GameMoveRejected tag message) =>
        mret (add_effects [Notify (MoveRejected id tag message)] l)
    | Err e => throw e
    end
  else mret (defer (Move id readable entropy) l).

Definition drain_cheat (id : GameID) (share : Amount) (entropy : Hash) (l : BatchLocals)
    : eff OffChainPhase BatchLocals :=
  mine ← see_ch (fun ch => Ok (game_is_my_turn ch id));
  if bool_decide (mine = Some true) then
    _ ← on_off_ch (enable_cheating_for_game id [x80] share);
    move_result ← on_off_ch (send_move_no_finalize id cheat_readable entropy);
    mret (add_action (BatchMove id (mr_game_move move_result)) l)
  else mret (defer (Cheat id share entropy) l).

(** All games of the group, or none. *)
Fixpoint propose_all (env : ChannelEnv) (games : list GameStartInfo) (group : GameID)
    : eff OffChainPhase unit :=
  match games with
  | [] => mret tt
  | g :: games => _ ← on_off_ch (send_propose_game env g group); propose_all env games group
  end.
Definition drain_proposal_group (env : ChannelEnv) (games : list GameStartInfo)
    (wire : WireProposalGroup) (l : BatchLocals) : eff OffChainPhase BatchLocals :=
  p ← get_state;
  _ ← catch (propose_all env games (wire_group_id wire))
        (fun e => _ ← modify_state (fun q => q <| off_channel_state := off_channel_state p |>); throw e);
  mret (add_action (ProposeGroup wire) l).

Definition drain_accept_proposal (id : GameID) (l : BatchLocals) : eff OffChainPhase BatchLocals :=
  p ← get_state;
  ch ← lift_result (off_ch p);
  proposal ← lift_result (ok_or (StrErr "queued accept for missing proposal") (find_proposal ch id));
  _ ← guard_or (negb (is_our_nonce_parity ch id)) (StrErr "cannot accept own proposal");
  let amount := Amount_add (pg_my_contribution proposal) (pg_their_contribution proposal) in
  let our_short := (my_out_of_game_balance ch <? pg_my_contribution proposal)%N in
  let their_short := (their_out_of_game_balance ch <? pg_their_contribution proposal)%N in
  if our_short || their_short then
    _ ← on_off_ch (send_cancel_proposal id);
    mret (add_action (CancelProposal id)
            (add_effects [Notify (ProposalAcceptedNote id amount);
                          Notify (InsufficientBalance id our_short their_short)] l))
  else
    _ ← on_off_ch (send_accept_proposal id);
    mret (add_action (AcceptProposal id)
            (add_effects [Notify (ProposalAcceptedNote id amount)] l)).

Definition drain_cancel_proposal (missing : string) (notes : list Effect) (id : GameID)
    (l : BatchLocals) : eff OffChainPhase BatchLocals :=
  proposed ← see_ch (fun ch => Ok (is_game_proposed ch id));
  _ ← guard_or proposed (StrErr missing);
  _ ← on_off_ch (send_cancel_proposal id);
  mret (add_action (CancelProposal id) (add_effects notes l)).

Definition drain_clean_shutdown (env : ChannelEnv) (l : BatchLocals) : eff OffChainPhase BatchLocals :=
  active ← see_ch (fun ch => Ok (has_active_games ch));
  _ ← guard_or (negb active) (StrErr "cannot clean shutdown while games are active");
  ids ← on_off_ch cancel_all_proposals;
  p ← get_state;
  ch ← lift_result (off_ch p);
  let real_conditions := get_conditions_with_channel_state ch in
  spend ← lift_result (send_potato_clean_shutdown ch env real_conditions);
  conditions ← lift_result (Program_from_nodeptr real_conditions);
  mret (add_effects (cancelled CleanShutdownReason ids) l
          <| bl_clean_shutdown := Some (signature spend, conditions) |>
          <| bl_pending_shutdown := Some (channel_coin ch, solution spend) |>).

Definition drain_action (env : ChannelEnv) (a : GameAction) (l : BatchLocals)
    : eff OffChainPhase BatchLocals :=
  match a with
  | Move id readable entropy => drain_move id readable entropy l
  | Cheat id share entropy => drain_cheat id share entropy l
  | AcceptSettlement id =>
      amount ← on_off_ch (send_accept_settlement_no_finalize id);
      mret (add_action (BatchAcceptSettlement id amount) l)
  | QueuedProposalGroup games wire => drain_proposal_group env games wire l
  | QueuedAcceptProposal id => drain_accept_proposal id l
  | QueuedCancelProposal id =>
      drain_cancel_proposal "queued cancel for missing proposal"
        [Notify (ProposalCancelled id CancelledByUs)] id l
  | QueuedCancelProposalSilently id =>
      drain_cancel_proposal "queued silent cancel for missing proposal" [] id l
  | CleanShutdown => drain_clean_shutdown env l
  | SendPotato => throw (StrErr "SendPotato action is obsolete and must not appear in the queue")
  end.

(** The loop pops the queue, which no action fills: its length is fuel enough. *)
Fixpoint drain_loop (fuel : nat) (env : ChannelEnv) (l : BatchLocals)
    : eff OffChainPhase BatchLocals :=
  match fuel with
  | O => mret l
  | S fuel =>
      p ← get_state;
      match off_game_action_queue p with
      | [] => mret l
      | a :: queue =>
          _ ← put_state (p <| off_game_action_queue := queue |>
                           <| last_failed_queued_action := failed_action a |>);
          l ← drain_action env a l;
          drain_loop fuel env l
      end
  end.

Definition clear_failed_action : eff OffChainPhase unit :=
  modify_state (fun p => p <| last_failed_queued_action := None |>).

Definition drain_queue_into_batch (env : ChannelEnv) : eff OffChainPhase (bool * list Effect) :=
  p ← get_state;
  _ ← guard_or (has_potato p) (StrErr "drain_queue_into_batch: must have potato");
  l ← drain_loop (length (off_game_action_queue p)) env no_locals;
  _ ← modify_state (fun p => p <| off_game_action_queue := bl_deferred l |>);
  if bool_decide (length (bl_actions l) = 0) && negb (bool_decide (is_Some (bl_clean_shutdown l))) then
    _ ← clear_failed_action;
    mret (false, bl_effects l)
  else
    sigs ← on_off_ch (update_cached_unroll_state env);
    _ ← modify_state (fun p => p <| off_have_potato := Absent |>);
    _ ← (match bl_pending_shutdown l with
         | Some info => modify_state (fun p => p <| pending_clean_shutdown := Some info |>)
         | None => mret tt
         end);
    _ ← clear_failed_action;
    mret (true, bl_effects l ++ send_batch "[send]" (bl_actions l) sigs (bl_clean_shutdown l)).

Definition flush_pending_actions (env : ChannelEnv) : eff OffChainPhase (list Effect) :=
  _ ← clear_failed_action;
  p ← get_state;
  if negb (has_potato p) || bool_decide (length (off_game_action_queue p) = 0) then mret []
  else sent ← drain_queue_into_batch env; mret sent.2.

Definition take_failed_queued_action : eff OffChainPhase (option (GameID * FailedGameAction)) :=
  p ← get_state; _ ← clear_failed_action; mret (last_failed_queued_action p).
End off_chain.
