(* ===== verification/OffChainReceive.v ===== *)
(** * Receiving a batch, and the player's requests

    [src/session_phases/mod.rs]: the messages of the peer, the batch that comes
    with the potato, the coin events and the requests of the local player. *)
From S2P Require Import Prelude Extern World Coins Clvm StandardCoin TransactionManager UnrollCoin.
From S2P Require Import GameHandler RefereeTypes Referee LiveGame ChannelState ChannelGames.
From S2P Require Import ChannelOnChain Effects OnChainPhase OnChainActions OnChainSpend HandlerBase.
From S2P Require Import SpendChannelCoin UnrollTransition OffChainPhase.

Section receive.
Context {arch : Arch} {sha2 : Sha2} {bigint : BigInt} {clvm : Clvm} {bls : Bls}.
Context {puzzles : ChiaPuzzles} {order : HashOrder} {codec : PeerCodec}.

(** ** After a potato was verified *)
Definition settle_cached : eff OffChainPhase (list Effect) :=
  accepts ← on_off_ch drain_cached_accept_settlements;
  mret (settled_accepts accepts None).

Definition action_failed (failed : GameID * FailedGameAction) : Effect :=
  Notify (ActionFailed (Some failed.1) (Some failed.2) "error"%string).

(** The peer asked for the potato, or the batch must be answered. *)
Definition pass_potato_back (env : ChannelEnv) (send_back : bool) : eff OffChainPhase (list Effect) :=
  p ← get_state;
  if peer_wants_potato p then
    _ ← put_state (p <| peer_wants_potato := false |>); send_empty env
  else if send_back then send_empty env else mret [].

Definition update_channel_coin_after_receive (env : ChannelEnv) (spend : ChannelCoinSpendInfo)
    (send_back : bool) : eff OffChainPhase (list Effect) :=
  _ ← modify_state (fun p => p <| off_have_potato := Present |>
                               <| off_last_channel_coin_spend_info := Some spend |>);
  settled ← settle_cached;
  finished ← see_ch (fun ch => Ok (send_back && (their_out_of_game_balance ch =? 0)%N
                                    && negb (has_active_games ch)));
  _ ← (if (finished : bool) then push_action CleanShutdown else mret tt);
  drained ← attempt (drain_queue_into_batch env);
  match drained with
  | Ok (true, batch_effects) => mret (settled ++ batch_effects)
  | Ok (false, batch_effects) =>
      answer ← pass_potato_back env send_back;
      mret (settled ++ batch_effects ++ answer)
  | Err (Panicked msg) => throw (Panicked msg)
  | Err e =>
      failed ← take_failed_queued_action;
      match failed with
      | Some f => mret (settled ++ [action_failed f])
      | None => throw e
      end
  end.

(** ** The actions of a batch *)
Definition accepts_of (actions : list BatchAction) : list GameID :=
  omap (fun a => match a with AcceptProposal id => Some id | _ => None end) actions.
Definition cancels_of (actions : list BatchAction) : list GameID :=
  omap (fun a => match a with CancelProposal id => Some id | _ => None end) actions.

(** Every member of a group is named in the same batch. *)
Fixpoint whole_groups (ch : ChannelState) (ids todo : list GameID) : result Error unit :=
  match todo with
  | [] => Ok tt
  | id :: todo =>
      group ← group_member_ids ch id;
      _ ← check ((length group <=? 1) || bool_decide (Forall (fun m => m ∈ ids) group))
            (StrErr "partial group operation is a protocol violation");
      whole_groups ch ids todo
  end.

Definition superseded (a : GameAction) : option GameID :=
  match a with
  | QueuedProposalGroup games _ => gsi_game_id <$> head games
  | _ => None
  end.
Definition is_proposal_group (a : GameAction) : bool :=
  match a with QueuedProposalGroup _ _ => true | _ => false end.

Definition sum_amounts (l : list Amount) : Amount := foldl Amount_add 0%N l.

Definition proposal_made (games : list GameStartInfo) (first : GameStartInfo) (ty : GameType)
    : Effect :=
  Notify (ProposalMade (gsi_game_id first) (gsi_game_id <$> games)
    (sum_amounts (my_contribution_this_game <$> games))
    (sum_amounts (their_contribution_this_game <$> games)) (gsi_timeout first)
    (state_update_program_hash (initial_validation_program first)) (initial_state first) ty).

Fixpoint receive_all (env : ChannelEnv) (games : list GameStartInfo) (group : GameID)
    : eff OffChainPhase unit :=
  match games with
  | [] => mret tt
  | g :: games => _ ← on_off_ch (apply_received_proposal env g group); receive_all env games group
  end.

Definition receive_proposal_group (env : ChannelEnv) (wire : WireProposalGroup)
    : eff OffChainPhase (list Effect) :=
  p ← get_state;
  let notes := cancelled SupersededByIncoming (omap superseded (off_game_action_queue p)) in
  _ ← retain_actions (fun a => negb (is_proposal_group a));
  match game_types p !! game_type (start wire) with
  | None => mret (notes ++ [EffLog "declining proposal for unknown game type"])
  | Some _ =>
      hydrated ← lift_result (hydrate_wire_proposal_group p wire);
      _ ← receive_all env hydrated.1 (wire_group_id wire);
      first ← lift_result (ok_or (StrErr "factory returned empty proposal group") (head hydrated.1));
      mret (notes ++ [proposal_made hydrated.1 first hydrated.2])
  end.

Definition receive_accept (id : GameID) : eff OffChainPhase (list Effect) :=
  proposal ← see_ch (fun ch => ok_or (StrErr "missing accepted proposal") (find_proposal ch id));
  _ ← on_off_ch (apply_received_accept_proposal id);
  mret [Notify (ProposalAcceptedNote id
          (Amount_add (pg_my_contribution proposal) (pg_their_contribution proposal)))].

Definition receive_move (id : GameID) (game_move : GameMoveDetails) : eff OffChainPhase (list Effect) :=
  move_result ← on_off_ch (apply_received_move id game_move);
  finished ← see_ch (fun ch => is_game_finished ch id);
  _ ← (if (finished : bool) then push_action (AcceptSettlement id) else mret tt);
  mret (Notify (GameStatus id MyTurnStatus None None None
          (Some (GameStatusOtherParams_default
                   <| op_readable := Some (mkReadableMove (readable_their_move move_result)) |>
                   <| op_mover_share := Some (cmr_mover_share move_result) |>
                   <| op_game_finished := if (finished : bool) then Some true else None |>)))
        :: (if bool_decide (cmr_message move_result = []) then []
            else [PeerGameMessage id (cmr_message move_result)])).

Definition receive_action (env : ChannelEnv) (a : BatchAction) : eff OffChainPhase (list Effect) :=
  match a with
  | ProposeGroup wire => receive_proposal_group env wire
  | AcceptProposal id => receive_accept id
  | CancelProposal id =>
      _ ← on_off_ch (received_cancel_proposal id);
      mret [Notify (ProposalCancelled id CancelledByPeer)]
  | BatchMove id game_move => receive_move id game_move
  | BatchAcceptSettlement id _ =>
      settled ← on_off_ch (apply_received_accept_settlement id);
      mret [Notify (GameSettled id SettledByAccept settled.1 None)]
  end.

Fixpoint receive_actions (env : ChannelEnv) (actions : list BatchAction)
    : eff OffChainPhase (list Effect) :=
  match actions with
  | [] => mret []
  | a :: actions =>
      effects ← receive_action env a; rest ← receive_actions env actions; mret (effects ++ rest)
  end.

Definition is_new_game (a : BatchAction) : bool :=
  match a with ProposeGroup _ | AcceptProposal _ => true | _ => false end.
Definition is_settlement (a : BatchAction) : bool :=
  match a with BatchAcceptSettlement _ _ => true | _ => false end.

(** ** A clean shutdown *)
Definition condition_bytes (conditions : sexp) (what : string) : result Error (list bytes) :=
  conds ← ok_or (StrErr what) (proper_list conditions true);
  mapM_result (fun n => p ← Program_from_nodeptr n; mret (program_bytes p)) conds.

(** The peer's conditions are the expected ones, in any order: the source
    compares the two lists sorted. *)
Definition check_shutdown_conditions (ch : ChannelState) (peer : sexp) : result Error unit :=
  peer_conds ← ok_or
    (StrErr "clean shutdown conditions: peer conditions are not a proper list") (proper_list peer true);
  let expected := get_conditions_with_channel_state ch in
  expected_conds ← ok_or
    (StrErr "clean shutdown conditions: expected conditions are not a proper list")
    (proper_list expected true);
  _ ← check (length peer_conds =? length expected_conds)
        (StrErr "clean shutdown conditions: wrong number of conditions");
  peer_serialized ← condition_bytes peer "clean shutdown conditions: peer conditions are not a proper list";
  expected_serialized ← condition_bytes expected
    "clean shutdown conditions: expected conditions are not a proper list";
  check (bool_decide (peer_serialized ≡ₚ expected_serialized))
    (StrErr "clean shutdown conditions don't match expected payout").

(** The channel moves on to the phase that watches the channel coin. *)
Definition go_to_spend_phase (make : option ChannelState -> list GameAction -> PotatoState ->
    Timeout -> Timeout -> option ChannelCoinSpendInfo -> SpendChannelCoinPhase)
    : eff OffChainPhase unit :=
  modify_state (fun p =>
    p <| off_channel_state := None |> <| off_game_action_queue := [] |>
      <| off_last_channel_coin_spend_info := None |>
      <| channel_spend_next_phase :=
           Some (make (off_channel_state p) (off_game_action_queue p) (off_have_potato p)
                   (off_channel_timeout p) (off_unroll_timeout p)
                   (off_last_channel_coin_spend_info p)) |>).

Definition create_unroll (coin_spend : CoinSpend) : Effect :=
  SpendTransaction (mkSpendBundle (Some "Create unroll"%string) [coin_spend]) None.

Definition receive_clean_shutdown (env : ChannelEnv) (sig : Aggsig) (conditions : Program)
    : eff OffChainPhase (list Effect) :=
  active ← see_ch (fun ch => Ok (has_active_games ch));
  _ ← guard_or (negb active)
        (StrErr "opponent requested clean shutdown while games are active");
  ids ← on_off_ch cancel_all_proposals;
  p ← get_state;
  ch ← lift_result (off_ch p);
  clvm_conditions ← lift_result (Program_to_nodeptr conditions);
  _ ← lift_result (check_shutdown_conditions ch clvm_conditions);
  let zero_payout := has_zero_payout ch in
  full_spend ← lift_result (received_potato_clean_shutdown ch env sig clvm_conditions);
  settled ← settle_cached;
  puzzle ← lift_result (puzzle_for_synthetic_public_key (standard_puzzle env)
                          (get_aggregate_channel_public_key ch));
  let coin_spend := mkCoinSpend (channel_coin ch)
    (mkSpend puzzle (broken_solution full_spend) (broken_signature full_spend)) in
  _ ← go_to_spend_phase (fun ch' queue _ ct ut saved =>
        new_for_clean_shutdown ch' (channel_coin ch) (broken_solution full_spend) queue Present
          ct ut saved);
  mret (cancelled CleanShutdownReason ids ++ settled
        ++ (if zero_payout then [QueueTerminalHandoff coin_spend]
            else [create_unroll coin_spend; PeerCleanShutdownComplete coin_spend])).

(** ** The batch *)
Definition process_received_batch (env : ChannelEnv) (actions : list BatchAction)
    (sigs : StateUpdateSignatures) (clean_shutdown : option (Aggsig * Program))
    : eff OffChainPhase (list Effect) :=
  _ ← see_ch (fun ch => _ ← whole_groups ch (accepts_of actions) (accepts_of actions);
                        whole_groups ch (cancels_of actions) (cancels_of actions));
  effects ← receive_actions env actions;
  _ ← (if existsb is_new_game actions
       then retain_actions (fun a => negb (is_clean_shutdown a)) else mret tt);
  match clean_shutdown with
  | Some (sig, conditions) =>
      rest ← receive_clean_shutdown env sig conditions; mret (effects ++ rest)
  | None =>
      spend_info ← on_off_ch (verify_received_batch_signatures env sigs);
      rest ← update_channel_coin_after_receive env spend_info (existsb is_settlement actions);
      mret (effects ++ EffLog "[recv]" :: rest)
  end.

(** A refused batch leaves the channel and the queue as they were. *)
Definition restoring {A} (op : eff OffChainPhase A) : eff OffChainPhase A :=
  p ← get_state;
  catch op (fun e =>
    _ ← modify_state (fun q => q <| off_channel_state := off_channel_state p |>
                                 <| off_game_action_queue := off_game_action_queue p |>);
    throw e).

Definition pass_on_channel_state_message (env : ChannelEnv) (msg : PeerMessage)
    : eff OffChainPhase (list Effect) :=
  match msg with
  | Batch actions sigs clean_shutdown =>
      restoring (process_received_batch env actions sigs clean_shutdown)
  | Message id message =>
      decoded ← see_ch (fun ch => received_message ch id message);
      mine ← see_ch (fun ch => ok_or (StrErr "received_message: no turn mapping for game")
                                 (game_is_my_turn ch id));
      mret [Notify (GameStatus id (if (mine : bool) then MyTurnStatus else TheirTurnStatus)
              None None None
              (Some (GameStatusOtherParams_default <| op_readable := Some decoded |>)))]
  | CleanShutdownComplete coin_spend =>
      p ← get_state;
      let zero_payout :=
        match off_channel_state p with Some ch => has_zero_payout ch | None => false end in
      _ ← (match pending_clean_shutdown p with
           | Some (coin, shutdown_solution) =>
               _ ← put_state (p <| pending_clean_shutdown := None |>);
               go_to_spend_phase (fun ch queue potato ct ut saved =>
                 new_for_clean_shutdown ch coin shutdown_solution queue potato ct ut saved)
           | None => mret tt
           end);
      mret [if zero_payout then CompleteZeroPayoutShutdown else create_unroll coin_spend]
  | _ => throw (StrErr "unhandled passthrough message")
  end.

(** ** Messages *)
Definition process_message (env : ChannelEnv) (msg : PeerMessage) : eff OffChainPhase (list Effect) :=
  p ← get_state;
  match pending_clean_shutdown p, msg with
  | Some _, CleanShutdownComplete _ => pass_on_channel_state_message env msg
  | Some _, RequestPotato => mret []
  | Some _, _ => throw (StrErr "expected CleanShutdownComplete, got")
  | None, HandshakeF _ => mret []
  | None, RequestPotato =>
      _ ← modify_state (fun p => p <| peer_wants_potato := true |>);
      if has_potato p then
        effects ← send_empty env;
        _ ← modify_state (fun p => p <| peer_wants_potato := false |>);
        mret effects
      else mret []
  | None, Batch _ _ _ =>
      _ ← guard_or (negb (has_potato p))
            (StrErr "received batch while we hold the potato (double-potato)");
      pass_on_channel_state_message env msg
  | None, _ => pass_on_channel_state_message env msg
  end.

Definition process_queued_message (env : ChannelEnv) : eff OffChainPhase (list Effect) :=
  p ← get_state;
  match incoming_messages p with
  | [] => mret []
  | msg :: rest =>
      _ ← put_state (p <| incoming_messages := rest |>); process_message env msg
  end.

Definition MAX_MESSAGE_SIZE : N := 10 * 1024 * 1024.

Definition peer_error : list Effect := [EffLog "[going-on-chain]"; GoOnChainAfterPeerError].

(** An undecodable message is an error of the call; everything else a peer
    does wrong is answered by going on chain. *)
Definition OffChainPhase_received_message (env : ChannelEnv) (msg : bytes)
    : eff OffChainPhase (list Effect) :=
  if (MAX_MESSAGE_SIZE <? N.of_nat (length msg))%N then mret peer_error
  else
    envelope ← lift_result (decode_peer_message msg);
    _ ← modify_state (fun p => p <| incoming_messages := incoming_messages p ++ [envelope] |>);
    catch (process_queued_message env) (fun _ => mret peer_error).

(** ** The chain *)
Definition OffChainPhase_coin_spent (coin_id : CoinString) : eff OffChainPhase (list Effect) :=
  p ← get_state;
  match off_channel_state p with
  | None => mret []
  | Some ch =>
      if bool_decide (coin_id = channel_coin ch) then
        let expected := snd <$> pending_clean_shutdown p in
        _ ← put_state (p <| pending_clean_shutdown := None |>);
        if has_zero_payout ch && bool_decide (expected = None) then
          mret [EffLog "[channel-coin-spent]"; CompleteZeroPayoutShutdown]
        else
          _ ← modify_state (fun p =>
                p <| off_channel_state := None |> <| off_game_action_queue := [] |>
                  <| channel_spend_next_phase :=
                       Some (new_at_channel_conditions (off_channel_state p) (channel_coin ch)
                               (off_game_action_queue p) (off_have_potato p)
                               (off_channel_timeout p) (off_unroll_timeout p) expected) |>);
          mret [EffLog "[channel-coin-spent]"; RequestPuzzleAndSolution coin_id]
      else mret []
  end.

Definition OffChainPhase_go_on_chain (env : ChannelEnv) (got_error : bool)
    : eff OffChainPhase (list Effect) :=
  ids ← on_off_ch cancel_all_proposals;
  p ← get_state;
  saved ← lift_result (ok_or (StrErr "go_on_chain: no channel coin spend info cached")
    (off_last_channel_coin_spend_info p));
  ch ← lift_result (off_ch p);
  bundle ← lift_result
    (build_channel_to_unroll_bundle env ch (channel_coin ch) saved "go on chain unroll");
  _ ← go_to_spend_phase (fun ch' queue potato ct ut saved =>
        let phase := SpendChannelCoinPhase_new ch' (channel_coin ch) queue potato ct ut saved in
        if got_error then set_advisory (Some "error receiving peer message"%string) phase else phase);
  mret (cancelled WentOnChain ids ++ [SpendTransaction bundle None]).

Definition force_unroll_spend (p : OffChainPhase) (env : ChannelEnv) : result Error SpendBundle :=
  saved ← ok_or (StrErr "force_unroll_spend: no channel coin spend info cached")
    (off_last_channel_coin_spend_info p);
  ch ← off_ch p;
  build_channel_to_unroll_bundle env ch (channel_coin ch) saved "force unroll".

(** ** The player's requests *)
Definition do_game_action (a : GameAction) : eff OffChainPhase (list Effect) :=
  _ ← push_action a; requested ← send_potato_request_if_needed; mret (option_list requested.2).

Definition OffChainPhase_make_move (id : GameID) (readable : ReadableMove) (entropy : Hash)
    : eff OffChainPhase (list Effect) := do_game_action (Move id readable entropy).
Definition OffChainPhase_accept_settlement (id : GameID) : eff OffChainPhase (list Effect) :=
  do_game_action (AcceptSettlement id).
Definition OffChainPhase_cheat_game (id : GameID) (share : Amount) (entropy : Hash)
    : eff OffChainPhase (list Effect) := do_game_action (Cheat id share entropy).
Definition shut_down : eff OffChainPhase (list Effect) := do_game_action CleanShutdown.

Fixpoint allocate_nonces (n : nat) : eff OffChainPhase (list GameID) :=
  match n with
  | O => mret []
  | S n => id ← on_off_ch allocate_my_nonce; ids ← allocate_nonces n; mret (id :: ids)
  end.

Definition propose_games (games : list GameProposal)
    : eff OffChainPhase (list GameID * list Effect) :=
  start ← lift_result
    (match games with
     | [start] => Ok start
     | _ => Err (StrErr "propose_games expects one atomic group request, got")
     end);
  _ ← retain_actions (fun a => negb (is_clean_shutdown a));
  pending ← see_ch (fun ch => Ok (pending_peer_proposal_ids ch));
  if negb (bool_decide (length pending = 0)) then
    id ← on_off_ch allocate_my_nonce;
    mret ([id], [Notify (ProposalCancelled id PeerProposalPending)])
  else
    p ← get_state;
    factory ← lift_result (factory_games p start);
    ids ← allocate_nonces (length factory);
    group ← lift_result (ok_or (StrErr "propose_games: factory returned empty proposal group")
      (head ids));
    let my_games := zip_with (fun g id => game_start g id (proposal_timeout start) true) factory ids in
    _ ← push_action (QueuedProposalGroup my_games
          (mkWireProposalGroup start (zip_with wire_spec factory ids) group));
    requested ← send_potato_request_if_needed;
    mret (ids, option_list requested.2).

Fixpoint do_game_actions (actions : list GameAction) : eff OffChainPhase (list Effect) :=
  match actions with
  | [] => mret []
  | a :: actions => effects ← do_game_action a; rest ← do_game_actions actions; mret (effects ++ rest)
  end.

Definition find_members (ch : ChannelState) (ids : list GameID) : result Error (list ProposedGame) :=
  mapM_result (fun id => ok_or (StrErr "missing proposal group member") (find_proposal ch id)) ids.

Definition OffChainPhase_accept_proposal (id : GameID) : eff OffChainPhase (list Effect) :=
  p ← get_state;
  ch ← lift_result (off_ch p);
  ids ← lift_result (group_member_ids ch id);
  proposals ← lift_result (find_members ch ids);
  let our_required := sum_amounts (pg_my_contribution <$> proposals) in
  let their_required := sum_amounts (pg_their_contribution <$> proposals) in
  let our_short := (my_out_of_game_balance ch <? our_required)%N in
  let their_short := (their_out_of_game_balance ch <? their_required)%N in
  if our_short || their_short then
    effects ← do_game_actions (QueuedCancelProposalSilently <$> ids);
    mret (zip_with (fun gid q => Notify (ProposalAcceptedNote gid
                       (Amount_add (pg_my_contribution q) (pg_their_contribution q)))) ids proposals
          ++ Notify (InsufficientBalance id our_short their_short) :: effects)
  else do_game_actions (QueuedAcceptProposal <$> ids).

Definition OffChainPhase_cancel_proposal (id : GameID) : eff OffChainPhase (list Effect) :=
  ids ← see_ch (fun ch => group_member_ids ch id);
  do_game_actions (QueuedCancelProposal <$> ids).

(** ** What the host sees *)
Definition OffChainPhase_status_snapshot (p : OffChainPhase) : option ChannelStatusSnapshot :=
  ch ← off_channel_state p;
  let shutting_down := bool_decide (is_Some (pending_clean_shutdown p))
                       || existsb is_clean_shutdown (off_game_action_queue p) in
  Some (mkChannelStatusSnapshot (if shutting_down then ShuttingDown else Active) None None
          (Some (channel_coin ch)) (Some (my_out_of_game_balance ch))
          (Some (their_out_of_game_balance ch)) (Some (amount ch true)) (Some (has_potato p))
          (if shutting_down then Some (has_zero_payout ch) else None) None None).

Definition OffChainPhase_coins_of_interest (p : OffChainPhase) : list (CoinOfInterest * CoinString) :=
  match off_channel_state p with
  | Some ch => [(ChannelCoin, channel_coin ch)]
  | None => []
  end.
End receive.
