(* ===== verification/OnChainProperties.v ===== *)
(** * The games on chain: properties

    The queue of the on-chain phase is drained to the end; a game whose coin is
    spent is followed or its end reported, but in two cases. *)
From S2P Require Import Prelude Extern World Coins Clvm StandardCoin TransactionManager UnrollCoin.
From S2P Require Import GameHandler RefereeTypes Referee LiveGame ChannelState ChannelGames.
From S2P Require Import ChannelOnChain Effects OnChainPhase OnChainActions OnChainSpend ToyGame.
From S2P Require Import ToyChannel.

Section on_chain.
Context {arch : Arch} {sha2 : Sha2} {bigint : BigInt} {clvm : Clvm} {bls : Bls}.
Context {puzzles : ChiaPuzzles} {order : HashOrder}.
Implicit Types (p : OnChainPhase) (id : GameID) (coin : CoinString).

(** ** No action touches the queue *)
Section queue.
Variable queue : list GameAction.
Let keeps p : Prop := oc_game_action_queue p = queue.

Lemma keeps_on_game {A} idx (op : eff LiveGame A) : preserves keeps (oc_on_game idx op).
Proof.
  intros p Hp. unfold oc_on_game. destruct (_ !! idx) as [g|]; [|done]. by destruct (op g).
Qed.

Hint Resolve keeps_on_game : chia.

Lemma keeps_save id : preserves keeps (oc_save_game_state id).
Proof. walk_through. Qed.

Lemma keeps_restore id r ph : preserves keeps (oc_restore_game_state id r ph).
Proof. walk_through. Qed.

Lemma keeps_cheat id b share : preserves keeps (oc_enable_cheating_for_game id b share).
Proof. walk_through. Qed.

Lemma keeps_our_move id readable entropy coin :
  preserves keeps (oc_on_chain_our_move id readable entropy coin).
Proof. walk_through. Qed.

Lemma keeps_claim id coin : preserves keeps (build_timeout_claim id coin).
Proof. walk_through. Qed.

Hint Resolve keeps_save keeps_restore keeps_cheat keeps_our_move keeps_claim : chia.

Lemma keeps_do_on_chain_move coin id readable entropy :
  preserves keeps (do_on_chain_move coin id readable entropy).
Proof. walk_through. Qed.
Hint Resolve keeps_do_on_chain_move : chia.

Lemma keeps_action a : preserves keeps (do_on_chain_action a).
Proof. destruct a; cbn [do_on_chain_action]; walk_through. Qed.
End queue.

(** ** The queue

    The source's loop, [while let Some(action) = queue.pop_front()], as a
    relation: it ends on an empty queue, an error, or an action with effects. *)
Inductive queue_run : OnChainPhase -> result Error (list Effect) * OnChainPhase -> Prop :=
| queue_empty p : oc_game_action_queue p = [] -> queue_run p (Ok [], p)
| queue_error p a queue e p' :
    oc_game_action_queue p = a :: queue ->
    do_on_chain_action a (p <| oc_game_action_queue := queue |>) = (Err e, p') ->
    queue_run p (Err e, p')
| queue_acted p a queue effects p' :
    oc_game_action_queue p = a :: queue ->
    do_on_chain_action a (p <| oc_game_action_queue := queue |>) = (Ok effects, p') ->
    effects <> [] -> queue_run p (Ok effects, p')
| queue_quiet p a queue p' out :
    oc_game_action_queue p = a :: queue ->
    do_on_chain_action a (p <| oc_game_action_queue := queue |>) = (Ok [], p') ->
    queue_run p' out -> queue_run p out.

Lemma process_queue_S fuel p a queue :
  oc_game_action_queue p = a :: queue ->
  process_queue (S fuel) p
  = match do_on_chain_action a (p <| oc_game_action_queue := queue |>) with
    | (Ok [], p') => process_queue fuel p'
    | out => out
    end.
Proof.
  intros Hq. cbn [process_queue]. unfold get_state, put_state, mbind, eff_bind. rewrite Hq.
  destruct (do_on_chain_action a _) as [[[|e es]|e] p']; reflexivity.
Qed.

Lemma action_queue a p queue :
  oc_game_action_queue (do_on_chain_action a (p <| oc_game_action_queue := queue |>)).2 = queue.
Proof. exact (keeps_action queue a (p <| oc_game_action_queue := queue |>) eq_refl). Qed.

Lemma process_queue_run fuel p :
  length (oc_game_action_queue p) <= fuel -> queue_run p (process_queue fuel p).
Proof.
  revert p. induction fuel as [|fuel IH]; intros p Hlen.
  - apply queue_empty. destruct (oc_game_action_queue p); [done|cbn in Hlen; lia].
  - destruct (oc_game_action_queue p) as [|a queue] eqn:Hq.
    { cbn [process_queue]. unfold get_state, mbind, eff_bind. rewrite Hq. by apply queue_empty. }
    rewrite (process_queue_S _ _ _ _ Hq). pose proof (action_queue a p queue) as Hkept.
    destruct (do_on_chain_action a _) as [[[|e es]|e] p'] eqn:Hact.
    + apply (queue_quiet p a queue p'); [done|done|]. apply IH. cbn in Hkept, Hlen. rewrite Hkept. lia.
    + by apply (queue_acted p a queue).
    + by apply (queue_error p a queue).
Qed.

Lemma queue_run_deterministic p out out' : queue_run p out -> queue_run p out' -> out = out'.
Proof.
  intros H. revert out'. induction H as [p Hq|p a queue e q Hq Hact|p a queue es q Hq Hact Hes
    |p a queue q out Hq Hact _ IH]; intros out' H'; destruct H' as [p Hq'|p a' queue' e' q' Hq' Hact'
    |p a' queue' es' q' Hq' Hact' Hes'|p a' queue' q' out' Hq' Hact' Hrun];
    rewrite Hq in Hq'; simplify_eq; try done; rewrite Hact in Hact'; simplify_eq; try done.
  by apply IH.
Qed.

(** C26: the queue of the on-chain phase is processed by a loop that always
    ends: [process_queued_action] computes exactly what the source's [while]
    loop computes, for every state, and the actions it leaves are the last of
    those that waited; when it reports nothing the queue is empty. *)
Theorem queue_drained p :
  let (outcome, p') := process_queued_action p in
  queue_run p (outcome, p')
  /\ (forall out, queue_run p out -> out = (outcome, p'))
  /\ oc_game_action_queue p' `suffix_of` oc_game_action_queue p
  /\ (outcome = Ok [] -> oc_game_action_queue p' = []).
Proof.
  pose proof (process_queue_run _ p (le_n _)) as Hrun.
  change (process_queue (length (oc_game_action_queue p)) p) with (process_queued_action p) in Hrun.
  destruct (process_queued_action p) as [outcome p'] eqn:Hout. split; [done|].
  split; [intros out Hother; by eapply queue_run_deterministic|]. clear Hout.
  remember (outcome, p') as out eqn:Heq. revert outcome p' Heq.
  induction Hrun as [p Hq|p a queue e q Hq Hact|p a queue es q Hq Hact Hes|p a queue q out Hq Hact _ IH];
    intros outcome p' Heq.
  all: try (injection Heq as <- <-); try pose proof (action_queue a p queue) as Hkept;
    try rewrite Hact in Hkept; cbn in *.
  - by rewrite Hq.
  - rewrite Hq, Hkept. split; [by apply suffix_cons_r|done].
  - rewrite Hq, Hkept. split; [by apply suffix_cons_r|intros [= ->]; done].
  - destruct (IH _ _ Heq) as [Hsuf Hnil]. split; [|done]. rewrite Hq. rewrite Hkept in Hsuf.
    by apply suffix_cons_r.
Qed.

(** ** No game is lost *)
Definition tracked id p : Prop := exists coin g, game_map p !! coin = Some g /\ og_game_id g = id.
Definition ended id (e : Effect) : Prop :=
  match e with
  | Notify (GameSettled id' _ _ _) | Notify (GameStatus id' EndedError _ _ _ _) => id' = id
  | _ => False
  end.
(** The game is still at a coin, or its end is reported. *)
Definition accounted id (effects : list Effect) p : Prop :=
  tracked id p \/ Exists (ended id) effects.

(** What leaves the map of the coins alone. *)
Section games.
Variable m : gmap CoinString OnChainGameState.
Let keeps p : Prop := game_map p = m.

Lemma games_on_game {A} idx (op : eff LiveGame A) : preserves keeps (oc_on_game idx op).
Proof.
  intros p Hp. unfold oc_on_game. destruct (_ !! idx) as [g|]; [|done]. by destruct (op g).
Qed.
Hint Resolve games_on_game : chia.

Lemma games_save id : preserves keeps (oc_save_game_state id).
Proof. walk_through. Qed.

Lemma games_restore id r ph : preserves keeps (oc_restore_game_state id r ph).
Proof. walk_through. Qed.

Lemma games_cheat id b share : preserves keeps (oc_enable_cheating_for_game id b share).
Proof. walk_through. Qed.

Lemma games_our_move id readable entropy coin :
  preserves keeps (oc_on_chain_our_move id readable entropy coin).
Proof. walk_through. Qed.

Lemma games_claim id coin : preserves keeps (build_timeout_claim id coin).
Proof. walk_through. Qed.

Lemma games_remember id coin : preserves keeps (remember_current_game_coin id coin).
Proof. walk_through. Qed.

Lemma games_terminal n : preserves keeps (try_emit_terminal n).
Proof. walk_through. Qed.

Lemma games_queue_settlement id b : preserves keeps (queue_settlement id b).
Proof. walk_through. Qed.

Lemma games_coin_spent id coin conditions parsed :
  preserves keeps (oc_game_coin_spent id coin conditions parsed).
Proof. walk_through. Qed.
End games.

Lemma kept {A} (op : eff OnChainPhase A) p a p' :
  (forall m, preserves (fun p => game_map p = m) op) -> op p = (Ok a, p') ->
  game_map p' = game_map p.
Proof. intros H Hop. pose proof (H (game_map p) p eq_refl) as Hk. by rewrite Hop in Hk. Qed.
Hint Resolve games_save games_restore games_cheat games_our_move games_claim games_remember
  games_terminal games_queue_settlement games_coin_spent : chia.

Ltac keep H := apply kept in H; [|solve [eauto with chia]].

Lemma tracked_map id p p' : game_map p' = game_map p -> tracked id p -> tracked id p'.
Proof. unfold tracked. by intros ->. Qed.

Lemma accounted_ended id e effects p : ended id e -> accounted id (effects ++ [e]) p.
Proof. intros He. right. apply Exists_app. right. by constructor. Qed.

(** A game that is taken off the map by id is the one reported. *)
Lemma tracked_filter id id' p :
  tracked id p ->
  id = id' \/ tracked id (p <| game_map := filter (fun kv => og_game_id kv.2 <> id') (game_map p) |>).
Proof.
  intros (coin & g & Hg & Hid). destruct (decide (id = id')); [by left|right].
  exists coin, g. split; [|done]. cbn. apply map_lookup_filter_Some. cbn. by rewrite Hid.
Qed.

Lemma get_game_coin_Some id p coin :
  get_game_coin p id = Some coin ->
  exists g, game_map p !! coin = Some g /\ og_game_id g = id.
Proof.
  unfold get_game_coin. intros ([coin' g] & Hf & ->)%fmap_Some.
  apply find_first_Some in Hf as [Hin Hid]. apply elem_of_hm_iter in Hin.
  apply N.eqb_eq in Hid. by exists g.
Qed.

Lemma tracked_delete id p coin g :
  game_map p !! coin = Some g -> tracked id p ->
  id = og_game_id g \/ tracked id (p <| game_map := delete coin (game_map p) |>).
Proof.
  intros Hg (coin' & g' & Hg' & Hid). destruct (decide (id = og_game_id g)); [by left|right].
  exists coin', g'. split; [|done]. cbn. rewrite lookup_delete_ne; [done|].
  intros ->. congruence.
Qed.

Lemma on_chain_move_accounts coin id readable entropy p es p' id' :
  do_on_chain_move coin id readable entropy p = (Ok es, p') -> tracked id' p -> accounted id' es p'.
Proof.
  unfold do_on_chain_move. intros H Htr.
  apply eff_bind_Ok in H as (p0 & ? & [= <- <-] & H).
  apply eff_bind_Ok in H as ([] & p1 & Hturn & H).
  assert (p1 = p) as -> by (destruct (my_move_in_game p id) as [[]|]; by injection Hturn).
  apply eff_bind_Ok in H as (amt & ? & [= _ <-] & H). cbn zeta in H.
  apply eff_bind_Ok in H as ([r ph] & p1 & Hsave & H). keep Hsave.
  apply eff_bind_Ok in H as ([[[old_ph new_ph] details] tx] & p2 & Hmove & H). keep Hmove.
  destruct (negb _ && _).
  - apply eff_bind_Ok in H as ([] & p3 & Hrest & H). keep Hrest.
    apply eff_bind_Ok in H as ([] & p4 & [= <-] & [= <- <-]).
    destruct (tracked_filter id' id p3) as [->|Ht]; [by eapply tracked_map; [|exact Htr]; congruence| |].
    + right. by constructor.
    + by left.
  - apply eff_bind_Ok in H as ([r2 ph2] & p3 & Hsave2 & H). keep Hsave2.
    apply eff_bind_Ok in H as ([] & p4 & Hrest & H). keep Hrest.
    apply eff_bind_Ok in H as ([] & p5 & Hparts & H).
    assert (p5 = p4) as ->.
    { destruct (to_parts coin); [|by injection Hparts]. unfold guard_or in Hparts. by injection Hparts. }
    apply eff_bind_Ok in H as ([] & p6 & [= <-] & [= <- <-]).
    left. eapply tracked_map; [|exact Htr]. cbn. congruence.
Qed.

Lemma settlement_accounts id p es p' id' :
  do_accept_settlement id p = (Ok es, p') -> tracked id' p -> accounted id' es p'.
Proof.
  unfold do_accept_settlement. intros H Htr.
  apply eff_bind_Ok in H as (p0 & ? & [= <- <-] & H).
  apply eff_bind_Ok in H as (coin & ? & [= Hcoin <-] & H).
  apply ok_or_Ok, get_game_coin_Some in Hcoin as (g & Hg & Hid).
  destruct (_ && _).
  - apply eff_bind_Ok in H as ([] & p1 & [= <-] & [= <- <-]).
    destruct (tracked_delete id' p coin g Hg Htr) as [->|Ht]; [|by left]. right. by constructor.
  - apply eff_bind_Ok in H as (gt & ? & [= _ <-] & H).
    apply eff_bind_Ok in H as (claim & p1 & Hclaim & H). keep Hclaim.
    apply eff_bind_Ok in H as ([] & p2 & [= <-] & [= <- <-]).
    left. destruct Htr as (coin' & g' & Hg' & Hid'). cbn. unfold tracked. cbn. rewrite Hclaim.
    destruct (decide (coin' = coin)) as [->|Hne].
    + eexists coin, _. rewrite lookup_alter_eq, Hg'. split; [reflexivity|exact Hid'].
    + exists coin', g'. by rewrite lookup_alter_ne.
Qed.

Lemma action_accounts a p es p' id :
  do_on_chain_action a p = (Ok es, p') -> tracked id p -> accounted id es p'.
Proof.
  intros H Htr. destruct a; cbn [do_on_chain_action] in H;
    try (injection H as <- <-; by left); try discriminate H.
  - unfold do_move in H. apply eff_bind_Ok in H as (? & ? & [= <- <-] & H).
    apply eff_bind_Ok in H as (coin & ? & [= _ <-] & H).
    apply eff_bind_Ok in H as ([] & ? & [= _ <-] & H). by eapply on_chain_move_accounts.
  - by eapply settlement_accounts.
  - unfold do_cheat in H. apply eff_bind_Ok in H as (? & ? & [= <- <-] & H).
    apply eff_bind_Ok in H as (coin & ? & [= _ <-] & H).
    apply eff_bind_Ok in H as ([] & ? & [= _ <-] & H).
    destruct (my_move_in_game p _) as [[]|]; [|done|done].
    apply eff_bind_Ok in H as (b & p1 & Hcheat & H). keep Hcheat.
    eapply on_chain_move_accounts; [done|]. by eapply tracked_map.
Qed.

Lemma queue_accounts p es p' id :
  process_queued_action p = (Ok es, p') -> tracked id p -> accounted id es p'.
Proof.
  intros Hout. pose proof (process_queue_run _ p (le_n _)) as Hrun.
  change (process_queue (length (oc_game_action_queue p)) p) with (process_queued_action p) in Hrun.
  rewrite Hout in Hrun. clear Hout. remember (Ok es, p') as out eqn:Heq.
  induction Hrun as [p Hq|p a queue e q Hq Hact|p a queue es' q Hq Hact Hes|p a queue q out Hq Hact _ IH];
    simplify_eq; intros Htr.
  - by left.
  - by eapply action_accounts.
  - apply IH; [done|]. destruct (action_accounts _ _ _ _ id Hact Htr) as [|Hend]; [done|].
    by inversion Hend.
Qed.

Lemma then_queue_accounts effects p es p' id :
  then_queue effects p = (Ok es, p') -> accounted id effects p -> accounted id es p'.
Proof.
  unfold then_queue. intros H Hacc. apply eff_bind_Ok in H as (more & p1 & Hq & [= <- <-]).
  unfold accounted. rewrite Exists_app. destruct Hacc as [Htr|Hend]; [|by right; left].
  destruct (queue_accounts _ _ _ _ Hq Htr); [by left|by right; right].
Qed.

Lemma accounted_cons id e effects p : accounted id effects p -> accounted id (e :: effects) p.
Proof. intros [Htr|He]; [by left|right; by constructor 2]. Qed.

Lemma terminal_accounts n p es p' id :
  try_emit_terminal n p = (Ok es, p') -> ended id (Notify n) -> accounted id es p'.
Proof.
  unfold try_emit_terminal. intros H He. apply eff_bind_Ok in H as ([] & p1 & _ & [= <- _]).
  right. by constructor.
Qed.

Lemma insert_tracks coin g p p' : insert_game coin g p = (Ok tt, p') -> tracked (og_game_id g) p'.
Proof. intros [= <-]. exists coin, g. split; [by apply lookup_insert_eq|done]. Qed.

Lemma track_new_coin_tracks id coin g p b p' :
  track_new_coin id coin g p = (Ok b, p') -> tracked (og_game_id g) p'.
Proof.
  unfold track_new_coin. intros H.
  apply eff_bind_Ok in H as ([] & p1 & [= <-] & H).
  apply eff_bind_Ok in H as ([] & p2 & Hrem & H). keep Hrem. cbn in Hrem.
  apply eff_bind_Ok in H as (? & ? & [= <- <-] & H).
  apply eff_bind_Ok in H as (settle & ? & [= _ <-] & H).
  apply eff_bind_Ok in H as ([] & p3 & Halter & [= <- <-]). destruct settle.
  - injection Halter as <-. eexists coin, _. cbn. rewrite lookup_alter_eq, Hrem, lookup_insert_eq.
    by split.
  - injection Halter as <-. exists coin, g. by rewrite Hrem, lookup_insert_eq.
Qed.

Lemma loser_accounts id readable p es p' :
  emit_loser_forfeit_terminal id readable p = (Ok es, p') -> accounted id es p'.
Proof.
  unfold emit_loser_forfeit_terminal. intros H.
  apply eff_bind_Ok in H as ([] & p1 & _ & [= <- _]). by apply accounted_ended.
Qed.

Lemma error_accounts id reason p es p' :
  game_error id reason p = (Ok es, p') -> accounted id es p'.
Proof.
  unfold game_error. intros H. apply eff_bind_Ok in H as (more & p1 & Hterm & [= <- <-]).
  apply accounted_cons. by eapply terminal_accounts.
Qed.

Lemma expected_accounts old coin n ph amt p es r p' :
  expected_move old coin n ph amt p = (Ok (es, r), p') -> accounted (og_game_id old) es p'.
Proof.
  unfold expected_move. intros H. cbn zeta in H.
  apply eff_bind_Ok in H as (? & ? & [= <- <-] & H).
  apply eff_bind_Ok in H as (over & ? & [= _ <-] & H).
  apply eff_bind_Ok in H as (settle & p1 & Htr & H). apply track_new_coin_tracks in Htr.
  apply eff_bind_Ok in H as (? & ? & [= <- <-] & H).
  apply eff_bind_Ok in H as (lost & ? & [= _ <-] & H).
  apply eff_bind_Ok in H as (more & p2 & Hmore & [= <- _ <-]). apply accounted_cons. destruct lost.
  - by eapply loser_accounts.
  - apply eff_bind_Ok in Hmore as (claim & p3 & Hclaim & Hmore). keep Hclaim.
    apply eff_bind_Ok in Hmore as ([] & p4 & Hq & [= _ <-]). keep Hq.
    left. eapply tracked_map; [|exact Htr]. congruence.
Qed.

Lemma they_moved_accounts old coin new_coin readable share p es p' :
  they_moved old coin new_coin readable share p = (Ok es, p') -> accounted (og_game_id old) es p'.
Proof.
  unfold they_moved. intros H. apply eff_bind_Ok in H as (parts & ? & [= _ <-] & H).
  apply eff_bind_Ok in H as ([] & ? & [= _ <-] & H). cbn zeta in H.
  apply eff_bind_Ok in H as (? & ? & [= <- <-] & H).
  apply eff_bind_Ok in H as (over & ? & [= _ <-] & H).
  apply eff_bind_Ok in H as (settle & p1 & Htr & H). apply track_new_coin_tracks in Htr.
  apply eff_bind_Ok in H as (? & ? & [= <- <-] & H).
  apply eff_bind_Ok in H as (lost & ? & [= _ <-] & H).
  apply eff_bind_Ok in H as (more & p2 & Hmore & [= <- <-]). apply accounted_cons. destruct lost.
  - by eapply loser_accounts.
  - apply eff_bind_Ok in Hmore as (claim & p3 & Hclaim & Hmore). keep Hclaim.
    apply eff_bind_Ok in Hmore as ([] & p4 & Hq & [= _ <-]). keep Hq.
    left. eapply tracked_map; [|exact Htr]. congruence.
Qed.

Lemma slash_accounts old outcome p es p' :
  slash_opponent old outcome p = (Ok es, p') -> accounted (og_game_id old) es p'.
Proof.
  unfold slash_opponent. intros H. cbn zeta in H.
  apply eff_bind_Ok in H as ([] & p1 & _ & H).
  apply eff_bind_Ok in H as (more & p2 & Hmore & [= <- <-]). apply accounted_cons.
  destruct outcome as [|tx reward share].
  - apply eff_bind_Ok in Hmore as (ends & p3 & Hterm & [= <- <-]). apply accounted_cons.
    by eapply terminal_accounts.
  - apply eff_bind_Ok in Hmore as ([] & p3 & Hins & Hmore). apply insert_tracks in Hins.
    apply eff_bind_Ok in Hmore as ([] & p4 & Hrem & [= _ <-]). keep Hrem.
    left. by eapply tracked_map.
Qed.

Lemma timed_out_accounts old parsed reward p es p' :
  timed_out old parsed reward p = (Ok es, p') -> notification_sent old = false ->
  accounted (og_game_id old) es p'.
Proof.
  unfold timed_out. intros H Hsent. cbn zeta in H.
  apply eff_bind_Ok in H as (more & p2 & Hmore & [= <- <-]). apply accounted_cons.
  rewrite Hsent in Hmore. by destruct (negb _ && _); eapply terminal_accounts.
Qed.

Lemma our_reward_accounts old coin ph amt p es p' :
  our_reward old coin ph amt p = (Ok es, p') -> notification_sent old = false ->
  accounted (og_game_id old) es p'.
Proof.
  unfold our_reward. intros H Hsent.
  apply eff_bind_Ok in H as (more & p2 & Hmore & [= <- <-]). apply accounted_cons.
  rewrite Hsent in Hmore. by eapply terminal_accounts.
Qed.

Lemma live_accounts old coin conditions sol p es r p' :
  live_coin_spent old coin conditions sol p = (Ok (es, r), p') -> notification_sent old = false ->
  accounted (og_game_id old) es p'.
Proof.
  unfold live_coin_spent. intros H Hsent. apply eff_bind_Ok in H as (parsed & ? & [= _ <-] & H).
  apply eff_bind_Ok in H as (result & p1 & _ & H).
  assert (forall reason, (effects ← game_error (og_game_id old) reason;
      effects ← then_queue effects; mret (effects, None)) p1 = (Ok (es, r), p') ->
      accounted (og_game_id old) es p') as Herr.
  { intros reason He. apply eff_bind_Ok in He as (es1 & p2 & He & Hq).
    apply eff_bind_Ok in Hq as (es2 & p3 & Hq & [= <- _ <-]).
    eapply then_queue_accounts; [done|]. by eapply error_accounts. }
  destruct result as [spent|[]]; try discriminate H; try by eapply Herr.
  destruct (our_turn old && negb (is_expected spent)); [by eapply Herr|]. clear Herr.
  destruct spent as [ph amt|[reward|n ph amt redo|new_coin n readable share|outcome]];
    cbn [opponent_spent] in H.
  5: { apply eff_bind_Ok in H as (es1 & p2 & He & [= <- _ <-]). by eapply slash_accounts. }
  3: apply eff_bind_Ok in H as ([es1 r1] & p2 & He & Hq).
  1,2,4: apply eff_bind_Ok in H as (es1 & p2 & He & Hq).
  all: apply eff_bind_Ok in Hq as (es2 & p3 & Hq & [= <- _ <-]);
    eapply then_queue_accounts; [done|].
  all: first [by eapply our_reward_accounts|by eapply timed_out_accounts|by eapply expected_accounts
    |by eapply they_moved_accounts].
Qed.

(** ** The spend of a game coin *)
Lemma take_game_Some coin p old p' :
  take_game coin p = (Ok (Some old), p') ->
  game_map p !! coin = Some old
  /\ p' = p <| game_map := delete coin (game_map p) |> <| oc_have_potato := Present |>.
Proof.
  unfold take_game. intros H. apply eff_bind_Ok in H as (? & ? & [= <- <-] & H).
  destruct (game_map p !! coin) as [g|] eqn:Hg; [|discriminate H].
  apply eff_bind_Ok in H as ([] & ? & [= <-] & [= -> <-]). done.
Qed.

Lemma take_game_None coin p p' : take_game coin p = (Ok None, p') -> game_map p !! coin = None.
Proof.
  unfold take_game. intros H. apply eff_bind_Ok in H as (? & ? & [= <- <-] & H).
  destruct (game_map p !! coin) as [g|] eqn:Hg; [|done].
  by apply eff_bind_Ok in H as ([] & ? & _ & [=]).
Qed.

Lemma landed_accounts pending old new_coin ph p es p' :
  our_move_landed pending old new_coin ph p = (Ok es, p') -> accounted (og_game_id old) es p'.
Proof.
  unfold our_move_landed. intros H. cbn zeta in H.
  apply eff_bind_Ok in H as ([] & p1 & _ & H).
  apply eff_bind_Ok in H as (? & ? & [= <- <-] & H).
  apply eff_bind_Ok in H as (over & ? & [= _ <-] & H).
  apply eff_bind_Ok in H as ([] & p2 & Hins & H). apply insert_tracks in Hins.
  apply eff_bind_Ok in H as ([] & p3 & Hrem & H). keep Hrem.
  apply eff_bind_Ok in H as (claim & p4 & Hclaim & H). keep Hclaim.
  eapply then_queue_accounts; [done|]. left. eapply tracked_map; [|exact Hins]. congruence.
Qed.

(** Our pending move ends the handler, or the game is where it was. *)
Lemma pending_accounts coin puzzle solution p out p' old :
  pending_move_spent coin puzzle solution p = (Ok out, p') -> game_map p !! coin = Some old ->
  match out with
  | Some es => accounted (og_game_id old) es p'
  | None => oc_live_games p' = oc_live_games p
      /\ exists old', game_map p' !! coin = Some old' /\ og_game_id old' = og_game_id old
         /\ notification_sent old' = notification_sent old
         /\ timeout_claim_armed old' = timeout_claim_armed old
         /\ pending_slash_amount old' = pending_slash_amount old
      /\ delete coin (game_map p') = delete coin (game_map p)
  end.
Proof.
  unfold pending_move_spent. intros H Hold. apply eff_bind_Ok in H as (? & ? & [= <- <-] & H).
  destruct (pending_moves p !! coin) as [pending|]; [|injection H as <- <-; eauto 10].
  apply eff_bind_Ok in H as ([] & ? & [= <-] & H).
  apply eff_bind_Ok in H as (conditions & ? & [= _ <-] & H).
  destruct (first_create_coin conditions) as [[ph amt]|]; [|injection H as <- <-; eauto 10].
  apply eff_bind_Ok in H as (taken & p1 & Htake & H).
  apply eff_bind_Ok in H as (old' & ? & [= Htaken <-] & H). apply ok_or_Ok in Htaken as ->.
  apply take_game_Some in Htake as [Hmap ->]. cbn in Hmap. assert (old' = old) as -> by congruence.
  cbn zeta in H. destruct (bool_decide _).
  - apply eff_bind_Ok in H as (es & p2 & Hland & [= <- <-]). by eapply landed_accounts.
  - destruct (bool_decide _).
    + apply eff_bind_Ok in H as (es & p2 & Hterm & H).
      apply eff_bind_Ok in H as (es' & p3 & Hq & [= <- <-]).
      eapply then_queue_accounts; [done|]. by eapply terminal_accounts.
    + apply eff_bind_Ok in H as ([] & p2 & [= <-] & [= <- <-]). split; [done|].
      eexists. split; [apply lookup_insert_eq|]. cbn. by rewrite delete_insert_eq, delete_delete_eq.
Qed.

Lemma slashed_ended p old coin conditions :
  ended (og_game_id old) (Notify (slashed_coin_spent p old coin conditions).2).
Proof. unfold slashed_coin_spent. destruct (pays _ _); [done|]. by destruct (reward_coin_of _ _ _). Qed.

Lemma no_payment to conditions : first_create_coin conditions = None -> first_to to conditions = None.
Proof.
  unfold first_create_coin, first_to. induction conditions as [|c conditions IH]; [done|]. cbn.
  destruct (is_create_coin c) as [[ph amt]|]; [done|]. exact IH.
Qed.

Lemma armed_accounts old coin conditions p es p' :
  armed_coin_spent old coin conditions p = (Ok es, p') -> notification_sent old = false ->
  if is_some (first_create_coin conditions) then accounted (og_game_id old) es p'
  else es = [] /\ p' = p.
Proof.
  unfold armed_coin_spent. intros H Hsent.
  apply eff_bind_Ok in H as (? & ? & [= <- <-] & H). cbn zeta in H. rewrite Hsent in H.
  destruct (first_create_coin conditions) as [[ph amt]|] eqn:Hcreate; cbn [is_some].
  2: { rewrite !no_payment in H by done. by injection H as <- <-. }
  destruct (first_to _ _) as [[ph' amt']|]; [by eapply terminal_accounts|].
  destruct (first_to _ _) as [?|]; [by eapply terminal_accounts|].
  unfold advanced_by_redo in H. cbn zeta in H.
  apply eff_bind_Ok in H as ([] & p1 & Hins & H). apply insert_tracks in Hins.
  apply eff_bind_Ok in H as ([] & p2 & Hrem & H). keep Hrem.
  apply eff_bind_Ok in H as (claim & p3 & Hclaim & [= _ <-]). keep Hclaim.
  left. eapply tracked_map; [|exact Hins]. congruence.
Qed.

(** The two ways to let go of a game without a word: a coin whose timeout we
    armed is spent by a spend that creates nothing, or the phase has no live
    game for the coin. *)
Definition let_go (old : OnChainGameState) (puzzle solution : Program) p : Prop :=
  pending_slash_amount old = None
  /\ if timeout_claim_armed old
     then exists conditions, from_puzzle_and_solution puzzle solution = Ok conditions
          /\ first_create_coin conditions = None
     else oc_has_live_game p (og_game_id old) = false.

Lemma queue_only p es p' : then_queue [] p = (Ok es, p') -> process_queued_action p = (Ok es, p').
Proof. unfold then_queue. by intros (more & ? & Hrun & [= <- <-])%eff_bind_Ok. Qed.

(** C25: what becomes of a game whose coin is spent.  When the handler accepts
    the spend of a watched game coin whose game's end was not reported before,
    the game is afterwards tracked at a coin, or its end is reported: whatever
    the spend was (our move, theirs, a timeout, a slash, an impossible spend),
    and whatever the waiting actions do next.  There are two exceptions, in
    which the coin is forgotten, nothing is said of the game, and only the
    waiting actions run: the timeout of the coin was armed and the spend creates
    no coin, or the phase has no live game for the coin. *)
Theorem spent_game_accounted coin puzzle solution p es resync p' old
    (Hrun : handle_game_coin_spent coin puzzle solution p = (Ok (es, resync), p'))
    (Hcoin : game_map p !! coin = Some old) (Hsent : notification_sent old = false) :
  accounted (og_game_id old) es p'
  \/ (let_go old puzzle solution p /\ resync = None
      /\ exists q, game_map q = delete coin (game_map p) /\ oc_live_games q = oc_live_games p
         /\ process_queued_action q = (Ok es, p')).
Proof.
  revert Hrun. unfold handle_game_coin_spent. intros H.
  apply eff_bind_Ok in H as (returned & p1 & Hpending & H).
  apply (pending_accounts _ _ _ _ _ _ old) in Hpending; [|done].
  destruct returned as [es'|]; [left; by injection H as <- _ <-|].
  destruct Hpending as (Hgames & old' & Hold' & Hid & Hsent' & Harmed & Hslash & Hmaps).
  unfold let_go. rewrite <-Hid, <-Harmed, <-Hslash. rewrite Hsent in Hsent'.
  clear old Hcoin Hsent Hid Harmed Hslash. rename old' into old.
  apply eff_bind_Ok in H as (taken & p2 & Htake & H).
  destruct taken as [old'|]; [|apply take_game_None in Htake; congruence].
  apply take_game_Some in Htake as [Hmap Hp2]. assert (old' = old) as -> by congruence.
  assert (game_map p2 = delete coin (game_map p) /\ oc_live_games p2 = oc_live_games p) as [Hmap2 Hgames2]
    by (rewrite Hp2; cbn; split; congruence).
  apply eff_bind_Ok in H as (conditions & ? & [= Hconds <-] & H).
  apply eff_bind_Ok in H as (? & ? & [= <- <-] & H).
  destruct (negb (bool_decide _)) eqn:Hslash.
  { left. pose proof (slashed_ended p2 old coin conditions) as Hend.
    destruct (slashed_coin_spent p2 old coin conditions) as [logged n].
    apply eff_bind_Ok in H as (ends & p3 & Hterm & H).
    apply eff_bind_Ok in H as (es' & p4 & Hq & [= <- _ <-]).
    eapply then_queue_accounts; [done|].
    destruct (terminal_accounts _ _ _ _ _ Hterm Hend) as [|He]; [by left|right].
    apply Exists_app. by right. }
  apply negb_false_iff, bool_decide_eq_true in Hslash.
  destruct (timeout_claim_armed old).
  { apply eff_bind_Ok in H as (es1 & p3 & Harm & H).
    apply eff_bind_Ok in H as (es' & p4 & Hq & [= <- <- <-]).
    apply armed_accounts in Harm; [|done]. destruct (first_create_coin conditions) eqn:Hcreate; cbn in Harm.
    - left. by eapply then_queue_accounts.
    - right. destruct Harm as [-> ->]. split; [split; [done|by exists conditions]|]. split; [done|].
      exists p2. split_and!; [done..|]. by apply queue_only. }
  unfold oc_has_live_game in H |- *. rewrite <-Hgames2.
  destruct (existsb (has_id (og_game_id old)) (oc_live_games p2)); cbn [negb] in H.
  - left. by eapply live_accounts.
  - apply eff_bind_Ok in H as (es' & p4 & Hq & [= <- <- <-]). right. split; [done|]. split; [done|].
    exists p2. split_and!; [done..|]. by apply queue_only.
Qed.
End on_chain.

Module Witnesses.
Import Toy ToyGame ToyChannel.

(** Alice's side of the toy game, on chain at a coin of her turn. *)
Definition referee_started :
  is_ok (Referee_new coin_puzzle coin_puzzle_hash (game_start game 0 15 true) (identity sk_alice)
    (public_key (identity sk_bob)) (ph xbb) (payout sk_bob (ph xbb)) (ph xaa) 0 zero_hash 1) = true.
Proof. vm_compute. reflexivity. Qed.
Definition alice_referee : Referee := Eval vm_compute in (the_ok _ referee_started).1.
Definition live : LiveGame := mkLiveGame 0 (ph x55) alice_referee 50 50.
Definition game_coin : CoinString := CoinString_from_parts launcher (ph x55) 100.
Definition at_coin : OnChainGameState :=
  mkOnChainGameState 0 (ph x55) true 1 Waiting None None false false 15 false.
Definition phase : OnChainPhase := OnChainPhase_new
  (mkOnChainPhaseArgs Present 15 [] {[game_coin := at_coin]} ∅ alice_keys
     (ph xaa) (ph xbb) 250 150 50 50 [live] [] 15 false 1 false false None []).

(** Bob lets the game time out: the coin pays Alice. *)
Definition spend_puzzle : Program := prog (const (list_node [create_coin_node (ph xaa) 70])).
Definition spend_solution : Program := prog (list_node [nil_node; nil_node]).
Abbreviation spent := (handle_game_coin_spent game_coin spend_puzzle spend_solution phase).
Lemma spent_ok : is_ok spent.1 = true.
Proof. vm_compute. reflexivity. Qed.
Abbreviation reported := (the_ok _ spent_ok).

Lemma spent_game_accounted_witness :
  accounted 0 reported.1 spent.2 /\ Exists (ended 0) reported.1.
Proof.
  assert (spent = (Ok (reported.1, reported.2), spent.2)) as Hrun.
  { apply eff_run. rewrite (the_ok_eq _ spent_ok) at 1. by destruct reported. }
  assert (game_map phase !! game_coin = Some at_coin) as Hcoin by (vm_compute; reflexivity).
  destruct (spent_game_accounted game_coin spend_puzzle spend_solution phase reported.1 reported.2
    spent.2 at_coin Hrun Hcoin eq_refl) as [[Htr|Hend]|[[_ Hlive] _]].
  - exfalso. destruct Htr as (coin & g & Hg & _).
      assert (bool_decide (dom (game_map spent.2) = ∅) = true) as Hempty by (vm_compute; reflexivity).
    apply bool_decide_eq_true, dom_empty_iff_L in Hempty. by rewrite Hempty in Hg.
  - split; [by right|exact Hend].
  - exfalso. revert Hlive. vm_compute. discriminate.
Defined.

Lemma queue_drained_witness : queue_run phase (process_queued_action phase).
Proof.
  pose proof (queue_drained phase) as H. destruct (process_queued_action phase) as [outcome p'].
  exact (proj1 H).
Defined.
End Witnesses.
