(* ===== verification/OffChainProperties.v ===== *)
(** * The off-chain phase: properties

    Whatever the players and the messages make the off-chain phase do, its
    channel state only takes the steps of a session, the two records of who
    holds the potato agree, and the saved spend of the channel coin opens an
    unroll the channel will recognise. *)
From S2P Require Import Prelude Extern World Coins Clvm StandardCoin TransactionManager UnrollCoin.
From S2P Require Import GameHandler RefereeTypes Referee LiveGame ChannelState ChannelGames.
From S2P Require Import ChannelOnChain Effects OnChainPhase OnChainActions OnChainSpend HandlerBase.
From S2P Require Import SpendChannelCoin UnrollTransition OffChainPhase OffChainReceive.
From S2P Require Import ToyGame ToyChannel ChannelLemmas ChannelUnrolls.
From stdpp Require Import relations.

Section off_chain.
Context {arch : Arch} {sha2 : Sha2} {bigint : BigInt} {clvm : Clvm} {bls : Bls}.
Context {puzzles : ChiaPuzzles} {order : HashOrder} {codec : PeerCodec}.
Variables (env : ChannelEnv) (ch0 : ChannelState).
(** State numbers stay below a limit a [usize] can hold. *)
Variables (limit : N) (limit_fits : (limit <= usize_modulus)%N).
Implicit Types (p : OffChainPhase) (ch : ChannelState).

(** ** The saved spend *)

(** The spend creates one coin, of an unroll the channel knows, and both
    players signed it. *)
Definition opens ch (info : ChannelCoinSpendInfo) : Prop := exists ph amt spend,
  is_Some (unroll_puzzle_hash_map ch !! ph)
  /\ Program_to_nodeptr (ccs_conditions info) = Ok (list_node [create_coin_node ph amt])
  /\ get_solution_and_signature_from_conditions (to_coin_id (channel_coin ch)) env
       (my_channel_coin_private_key (private_keys ch)) (get_aggregate_channel_public_key ch)
       (ccs_conditions info) = Ok spend
  /\ ccs_solution info = broken_solution spend
  /\ sig_verify (ccs_aggsig info) (get_aggregate_channel_public_key ch) (message spend) = true.

Lemma opens_mono ch ch' info :
  channel_coin ch' = channel_coin ch -> private_keys ch' = private_keys ch ->
  their_channel_coin_public_key ch' = their_channel_coin_public_key ch ->
  (forall ph, is_Some (unroll_puzzle_hash_map ch !! ph) ->
     is_Some (unroll_puzzle_hash_map ch' !! ph)) ->
  opens ch info -> opens ch' info.
Proof.
  intros H1 H2 H3 H4 (ph & amt & spend & Hin & H). exists ph, amt, spend. split; [by apply H4|].
  unfold get_aggregate_channel_public_key in *. by rewrite H1, H2, H3.
Qed.

Lemma get_solution_Ok coin_id sk agg conditions spend :
  get_solution_and_signature_from_conditions coin_id env sk agg conditions = Ok spend ->
  exists node, Program_to_nodeptr conditions = Ok node
  /\ Program_from_nodeptr node = Ok (broken_conditions spend).
Proof.
  unfold get_solution_and_signature_from_conditions. intros (node & Hnode & H)%bind_Ok.
  exists node. split; [done|]. unfold standard_solution_partial in H.
  apply bind_Ok in H as (q & _ & H). apply bind_Ok in H as (qh & _ & H).
  apply bind_Ok in H as (sol & _ & H). cbn zeta in H. apply bind_Ok in H as (conds & _ & H).
  destruct (fold_left _ _ _) as [one [sig|]]; [|done].
  apply bind_Ok in H as (sp & _ & H). apply bind_Ok in H as (cp & Hcp & H). by injection H as <-.
Qed.

(** A spend the peer's half signature completes. *)
Lemma completed_opens ch u spend full half node :
  make_curried_unroll_puzzle env (get_aggregate_unroll_public_key ch) u = Ok node ->
  is_Some (unroll_puzzle_hash_map ch !! node_sha256tree node) ->
  create_conditions_and_signature_of_channel_coin ch env u = Ok spend ->
  verify_channel_coin_from_peer_signatures ch env half (broken_conditions spend) = Ok full ->
  opens ch (mkChannelCoinSpendInfo (broken_solution spend) (broken_conditions spend)
              (sig_add (broken_signature spend) half))
  /\ spend_info full = mkChannelCoinSpendInfo (broken_solution spend) (broken_conditions spend)
              (sig_add (broken_signature spend) half).
Proof.
  intros Hnode Hin H Hfull. unfold create_conditions_and_signature_of_channel_coin in H.
  apply bind_Ok in H as (amt & Hamt & H). unfold get_solution_and_signature in H.
  apply bind_Ok in H as (node' & Hnode' & H). assert (node' = node) as -> by congruence.
  cbn zeta in H. apply bind_Ok in H as (conds & Hconds & H).
  apply Program_from_nodeptr_inv in Hconds as Hinv. destruct Hinv as [_ Hto].
  destruct (get_solution_Ok _ _ _ _ _ H) as (n & Hn & Hbroken).
  assert (n = list_node [create_coin_node (node_sha256tree node) amt]) as -> by congruence.
  assert (broken_conditions spend = conds) as Heq by congruence.
  unfold verify_channel_coin_from_peer_signatures in Hfull. rewrite Heq, H in Hfull.
  cbn [mbind result_bind] in Hfull. cbn zeta in Hfull.
  destruct (sig_verify _ _ _) eqn:Hver; [|done]. injection Hfull as <-. rewrite Heq.
  split; [|unfold spend_info; cbn; congruence].
  exists (node_sha256tree node), amt, spend. by split_and!.
Qed.

(** ** The simulation

    [n] more potatoes can be passed before the state numbers run out. *)
Definition fair_game (g : GameStartInfo) : Prop :=
  gsi_amount g = (my_contribution_this_game g + their_contribution_this_game g)%N.
Definition fair_action (a : GameAction) : Prop :=
  match a with QueuedProposalGroup games _ => Forall fair_game games | _ => True end.

(** The games a factory makes stake what the two players put in. *)
Definition fair_types p : Prop := forall start games, factory_games p start = Ok games ->
  Forall (fun g => fg_amount g = (sender_contribution g + receiver_contribution g)%N) games.

(** Who holds the potato, as the channel has it: until the first one is sent its
    flag is up for the player who does not start. *)
Definition held (ch : ChannelState) : bool := xorb (state_number ch =? 0)%N (have_potato ch).

Lemma held_later ch : state_number ch <> 0%N -> held ch = have_potato ch.
Proof. intros H. unfold held. apply N.eqb_neq in H as ->. by destruct (have_potato ch). Qed.

Lemma held_may_send ch : true = held ch -> may_send ch.
Proof.
  unfold held, may_send. destruct (N.eqb_spec (state_number ch) 0); [by right|]. left.
  by destruct (have_potato ch).
Qed.

Record sim (n : N) (h : PotatoState) p ch : Prop := {
  sim_channel : off_channel_state p = Some ch;
  sim_run : rtc (session_step env) ch0 ch;
  sim_number : (state_number ch + n + 1 < limit)%N;
  sim_holds : off_have_potato p = h;
  sim_potato : bool_decide (h = Present) = held ch;
  sim_queue : Forall fair_action (off_game_action_queue p);
  sim_types : fair_types p;
  sim_saved : exists info, off_last_channel_coin_spend_info p = Some info /\ opens ch info;
}.
Definition simulated (n : N) h p : Prop := exists ch, sim n h p ch.

Lemma simulated_less n m h p : (n <= m)%N -> simulated m h p -> simulated n h p.
Proof. intros Hle [ch []]. exists ch. split; try done. lia. Qed.

(** Changes of the phase that the simulation does not see. *)
Lemma simulated_queue n h p queue :
  simulated n h p -> Forall fair_action queue -> simulated n h (p <| off_game_action_queue := queue |>).
Proof. intros [ch []] Hq. exists ch. by split. Qed.

Lemma quiet_number {A} (op : eff ChannelState A) ch a ch' :
  quiet op -> op ch = (Ok a, ch') -> state_number ch' = state_number ch
  /\ have_potato ch' = have_potato ch /\ channel_coin ch' = channel_coin ch
  /\ private_keys ch' = private_keys ch
  /\ their_channel_coin_public_key ch' = their_channel_coin_public_key ch
  /\ unroll_puzzle_hash_map ch' = unroll_puzzle_hash_map ch.
Proof. intros Hq Hop. apply Hq in Hop. unfold unroll_part in Hop. by injection Hop. Qed.

Lemma quiet_session ch ch' :
  channel_step env ch ch' -> state_number ch' = state_number ch ->
  (state_number ch + 1 < usize_modulus)%N -> session_step env ch ch'.
Proof.
  intros Hstep Hn Hfit. apply session_off_chain; [done..|].
  intros sigs (u & half & spend & ph & h & _ & _ & _ & _ & ->)%update_cached_Ok.
  cbn in Hn. rewrite usize_add_one in Hn by done. lia.
Qed.

(** An operation on the games of the channel is a step of the session. *)
Lemma sim_quiet {A} (op : eff ChannelState A) n h p :
  quiet op -> (forall ch a ch', op ch = (Ok a, ch') -> channel_step env ch ch') ->
  simulated n h p -> on_ok (fun _ p' => simulated n h p') (on_off_ch op) p.
Proof.
  intros Hq Hstep [ch [Hch Hrun Hn Hholds Hpot Hqueue Htypes (info0 & Hinfo & Hopens)]]. unfold on_ok, on_off_ch. rewrite Hch.
  destruct (op ch) as [[a|e] ch'] eqn:Hop; [|done].
  destruct (quiet_number _ _ _ _ Hq Hop) as (H1 & H2 & H3 & H4 & H5 & H6).
  exists ch'. split; cbn; try done.
  - eapply rtc_r; [done|]. apply quiet_session; [by eapply Hstep|done|lia].
  - by rewrite H1.
  - unfold held. by rewrite H1, H2.
  - exists info0. split; [done|]. eapply opens_mono; [..|exact Hopens]; try done. by rewrite H6.
Qed.

(** The potato is sent: the phase must hold it, and gives it away. *)
Lemma sim_send n p :
  simulated (n + 1) Present p ->
  on_ok (fun _ p' => simulated n Absent (p' <| off_have_potato := Absent |>))
    (on_off_ch (update_cached_unroll_state env)) p.
Proof.
  intros [ch [Hch Hrun Hn Hholds Hpot Hqueue Htypes (info0 & Hinfo & Hopens)]]. unfold on_ok, on_off_ch. rewrite Hch.
  destruct (update_cached_unroll_state env ch) as [[sigs|e] ch'] eqn:Hop; [|done].
  assert (state_number ch + 1 < usize_modulus)%N as Hfit by lia.
  pose proof (update_cached_Ok _ _ _ _ Hop) as (u & half & spend & ph & h & _ & _ & _ & _ & ->).
  exists (sent_potato u ph h ch). split; cbn -[usize_add]; try done.
  - eapply rtc_r; [done|]. apply session_off_chain; [by eapply step_send|done|].
    intros _ _. by apply held_may_send.
  - rewrite usize_add_one by done. lia.
  - by rewrite held_later by (cbn -[usize_add]; rewrite usize_add_one by done; lia).
  - exists info0. split; [done|]. eapply opens_mono; [..|exact Hopens]; try done.
    intros ph' Hin. cbn. apply lookup_insert_is_Some. destruct (decide (ph = ph')); auto.
Qed.

(** A verified potato is taken, and its spend saved. *)
Lemma sim_receive sigs n pot p :
  simulated (n + 1) pot p ->
  on_ok (fun info p' => simulated n Present (p' <| off_have_potato := Present |>
                                        <| off_last_channel_coin_spend_info := Some info |>))
    (on_off_ch (verify_received_batch_signatures env sigs)) p.
Proof.
  intros [ch [Hch Hrun Hn Hholds Hpot Hqueue Htypes (info0 & Hinfo & Hopens)]]. unfold on_ok, on_off_ch. rewrite Hch.
  destruct (verify_received_batch_signatures env sigs ch) as [[info|e] ch'] eqn:Hop; [|done].
  assert (state_number ch + 1 < usize_modulus)%N as Hfit by lia.
  pose proof (verify_received_Ok _ _ _ _ _ Hop)
    as (u & half & spend & full & ph & h & _ & _ & Hspend & Hfull & Hrec & -> & ->).
  exists (received_potato (mkUnrollSpendInfo u sigs) ph h ch). split; cbn -[usize_add]; try done.
  - eapply rtc_r; [done|]. apply session_off_chain; [by eapply step_receive|done|].
    intros sigs' (u' & ? & ? & ? & ? & _ & _ & _ & _ & Heq)%update_cached_Ok.
    by apply (f_equal have_potato) in Heq.
  - rewrite usize_add_one by done. lia.
  - by rewrite held_later by (cbn -[usize_add]; rewrite usize_add_one by done; lia).
  - eexists. split; [done|]. destruct Hrec as (node & o & Hnode & -> & _).
    set (ch1 := ch <| unroll_puzzle_hash_map :=
      <[node_sha256tree node := h]> (unroll_puzzle_hash_map ch) |>).
    assert (is_Some (unroll_puzzle_hash_map ch1 !! node_sha256tree node)) as Hin
      by (eexists; apply lookup_insert_eq).
    destruct (completed_opens ch1 u spend full (channel_half_sig sigs) node Hnode Hin Hspend Hfull)
      as [Ho _].
    eapply opens_mono; [..|exact Ho]; done.
Qed.

(** ** Operations that keep the simulation *)
Definition keeps_sim {A} (op : eff OffChainPhase A) : Prop :=
  forall n h p, simulated n h p -> on_ok (fun _ p' => simulated n h p') op p.

Lemma keeps_bind {A B} (Q : B -> OffChainPhase -> Prop) (op : eff OffChainPhase A) (f : A -> eff OffChainPhase B) n h p :
  keeps_sim op -> simulated n h p ->
  (forall a p', op p = (Ok a, p') -> simulated n h p' -> on_ok Q (f a) p') -> on_ok Q (op ≫= f) p.
Proof.
  intros Hop Hp Hf. apply on_ok_bind, on_ok_intro. intros a p' Hrun. apply Hf; [done|].
  exact (on_ok_run _ _ _ _ _ (Hop n h p Hp) Hrun).
Qed.

Lemma keeps_modify f :
  (forall n h p, simulated n h p -> simulated n h (f p)) -> keeps_sim (modify_state f).
Proof. intros H n h p Hp. by apply H. Qed.

Lemma keeps_see {A} (op : ChannelState -> result Error A) : keeps_sim (see_ch op).
Proof. intros n h p Hp. unfold see_ch. walk_ok. unfold on_ok, lift_result. by destruct (op _). Qed.

(** Fields of the phase the simulation does not look at. *)
Lemma simulated_same n h p p' :
  off_channel_state p' = off_channel_state p -> off_have_potato p' = off_have_potato p ->
  off_game_action_queue p' = off_game_action_queue p -> game_types p' = game_types p ->
  off_last_channel_coin_spend_info p' = off_last_channel_coin_spend_info p ->
  simulated n h p -> simulated n h p'.
Proof.
  intros H1 H2 H3 H4 H5 [ch []]. exists ch. split; [by rewrite H1|done|done|by rewrite H2|done| | |].
  - by rewrite H3.
  - unfold fair_types, factory_games in *. by rewrite H4.
  - by rewrite H5.
Qed.

Lemma keeps_on_ch {A} (op : eff ChannelState A) :
  quiet op -> (forall ch a ch', op ch = (Ok a, ch') -> channel_step env ch ch') ->
  keeps_sim (on_off_ch op).
Proof. intros Hq Hstep n h p. by apply sim_quiet. Qed.

Lemma keeps_push a : fair_action a -> keeps_sim (push_action a).
Proof.
  intros Ha. apply keeps_modify. intros n h p Hp. apply simulated_queue; [done|].
  destruct Hp as [ch []]. apply Forall_app. split; [done|by repeat constructor].
Qed.

Lemma keeps_retain keep : keeps_sim (retain_actions keep).
Proof.
  apply keeps_modify. intros n h p Hp. apply simulated_queue; [done|]. destruct Hp as [ch []].
  apply Forall_forall. intros a [Ha _]%elem_of_retain. by eapply Forall_forall.
Qed.

Ltac quietly step := apply keeps_on_ch;
  [first [apply quiet_remove|eauto with chia]|intros ? [] ? ? || intros ? ? ? ?; by eapply step].

Lemma keeps_nonce : keeps_sim (on_off_ch allocate_my_nonce).
Proof. quietly step_nonce. Qed.
Lemma keeps_proposed g group : keeps_sim (on_off_ch (apply_received_proposal env g group)).
Proof. quietly step_proposed. Qed.
Lemma keeps_propose g group : fair_game g -> keeps_sim (on_off_ch (send_propose_game env g group)).
Proof. intros Hg. quietly step_propose. Qed.
Lemma keeps_accept id : keeps_sim (on_off_ch (send_accept_proposal id)).
Proof. quietly step_accept. Qed.
Lemma keeps_accepted id : keeps_sim (on_off_ch (apply_received_accept_proposal id)).
Proof. quietly step_accepted. Qed.
Lemma keeps_cancel id : keeps_sim (on_off_ch (send_cancel_proposal id)).
Proof. quietly step_cancel. Qed.
Lemma keeps_cancelled id : keeps_sim (on_off_ch (received_cancel_proposal id)).
Proof. quietly step_cancelled. Qed.
Lemma keeps_cancel_all : keeps_sim (on_off_ch cancel_all_proposals).
Proof. quietly step_cancel_all. Qed.
Lemma keeps_move id readable entropy :
  keeps_sim (on_off_ch (send_move_no_finalize id readable entropy)).
Proof. quietly step_move. Qed.
Lemma keeps_moved id details : keeps_sim (on_off_ch (apply_received_move id details)).
Proof. quietly step_moved. Qed.
Lemma keeps_off_cheat id move share : keeps_sim (on_off_ch (enable_cheating_for_game id move share)).
Proof. quietly step_cheat. Qed.
Lemma keeps_settle id : keeps_sim (on_off_ch (send_accept_settlement_no_finalize id)).
Proof. quietly step_settle. Qed.
Lemma keeps_settled id : keeps_sim (on_off_ch (apply_received_accept_settlement id)).
Proof. quietly step_settled. Qed.
Lemma keeps_drain : keeps_sim (on_off_ch drain_cached_accept_settlements).
Proof. quietly step_drain. Qed.
Hint Resolve keeps_nonce keeps_proposed keeps_propose keeps_accept keeps_accepted keeps_cancel
  keeps_cancelled keeps_cancel_all keeps_move keeps_moved keeps_off_cheat keeps_settle keeps_settled
  keeps_drain keeps_see keeps_push keeps_retain : chia.

(** Walk through an operation, with the simulation of the state at hand. *)
Ltac sim_walk := walk_ok; try done;
  try (eapply keeps_bind; [solve [eauto with chia]|eassumption|intros ? ? ? ?]; sim_walk).

(** ** Draining the queue *)
Lemma send_move_rejected id readable entropy ch tag message ch' :
  send_move_no_finalize id readable entropy ch = (Err (GameMoveRejected tag message), ch') ->
  ch' = ch.
Proof.
  unfold send_move_no_finalize, mbind, eff_bind, get_state, lift_result, on_game.
  destruct (get_game_by_id ch id) as [i|e]; [|by intros [= _ <-]]. cbn.
  destruct (live_games ch !! i) as [g|] eqn:Hg; [|by intros [= _ <-]].
  unfold internal_make_move, mbind, eff_bind, get_state, guard_or, lift_result, put_state. cbn.
  assert (live_games ch = <[i := g]> (live_games ch)) as Hsame by by rewrite list_insert_id.
  destruct (is_my_turn (referee_maker g)); cbn; [|intros [=]].
  destruct (my_turn_make_move _ _ _ _) as [[r w]|e]; cbn.
  - rewrite list_lookup_insert_eq by (by eapply lookup_lt_Some). cbn.
    rewrite list_lookup_insert_eq by (rewrite length_insert; by eapply lookup_lt_Some). cbn.
    rewrite list_lookup_insert_eq; [by intros [=]|].
    rewrite !length_insert. by eapply lookup_lt_Some.
  - rewrite <-Hsame. intros [= _ <-]. by destruct ch.
Qed.

(** What a drained action does to the phase and to the actions put off. *)
Definition drains (h : PotatoState) n (l l' : BatchLocals) p : Prop :=
  simulated n h p /\ (Forall fair_action (bl_deferred l) -> Forall fair_action (bl_deferred l')).

Lemma deferred_fair a l :
  fair_action a -> Forall fair_action (bl_deferred l) -> Forall fair_action (bl_deferred (defer a l)).
Proof. intros Ha Hl. apply Forall_app. split; [done|by repeat constructor]. Qed.

Lemma drain_move_sim id readable entropy l n h p :
  simulated n h p -> on_ok (fun l' p' => drains h n l l' p') (drain_move id readable entropy l) p.
Proof.
  intros Hp. unfold drain_move. sim_walk; [|split; [done|by apply deferred_fair]].
  match goal with Hs : simulated n h ?q |- _ => clear Hp; rename Hs into Hp; rename q into p1 end.
  apply on_ok_bind. unfold on_ok at 1, attempt.
  pose proof (keeps_move id readable entropy n h p1 Hp) as Hrun. unfold on_ok in Hrun.
  destruct (on_off_ch (send_move_no_finalize id readable entropy) p1) as [[r|e] p2] eqn:Hop.
  { by split. }
  destruct e; try done. split; [|done]. unfold on_off_ch in Hop.
  destruct (off_channel_state p1) as [ch|] eqn:Hch; [|done].
  destruct (send_move_no_finalize id readable entropy ch) as [r ch'] eqn:Hmove.
  injection Hop as -> <-. apply send_move_rejected in Hmove as ->.
  by apply (simulated_same n h p1).
Qed.

Lemma drain_cheat_sim id share entropy l n h p :
  simulated n h p -> on_ok (fun l' p' => drains h n l l' p') (drain_cheat id share entropy l) p.
Proof.
  intros Hp. unfold drain_cheat. sim_walk. split; [done|by apply deferred_fair].
Qed.

Lemma propose_all_sim games group n h p :
  Forall fair_game games -> simulated n h p ->
  on_ok (fun _ p' => simulated n h p') (propose_all env games group) p.
Proof.
  intros Hfair. revert p. induction Hfair as [|g games Hg _ IH]; intros p Hp; cbn; [done|].
  sim_walk. by apply IH.
Qed.

Lemma drain_proposal_group_sim games wire l n h p :
  Forall fair_game games -> simulated n h p ->
  on_ok (fun l' p' => drains h n l l' p') (drain_proposal_group env games wire l) p.
Proof.
  intros Hfair Hp. unfold drain_proposal_group. walk_ok. apply on_ok_bind.
  pose proof (propose_all_sim games (wire_group_id wire) n h p Hfair Hp) as Hrun.
  unfold on_ok, catch in *. destruct (propose_all _ _ _ p) as [[[]|e] p1]; [by split|].
  by destruct e.
Qed.

Lemma drain_action_sim a l n h p :
  fair_action a -> simulated n h p ->
  on_ok (fun l' p' => drains h n l l' p') (drain_action env a l) p.
Proof.
  intros Ha Hp. destruct a; cbn [drain_action].
  - by apply drain_move_sim.
  - sim_walk.
  - unfold drain_clean_shutdown. sim_walk.
  - done.
  - by apply drain_proposal_group_sim.
  - unfold drain_accept_proposal. sim_walk.
  - unfold drain_cancel_proposal. sim_walk.
  - unfold drain_cancel_proposal. sim_walk.
  - by apply drain_cheat_sim.
Qed.

Lemma drain_loop_sim fuel l n h p :
  simulated n h p -> Forall fair_action (bl_deferred l) ->
  on_ok (fun l' p' => simulated n h p' /\ Forall fair_action (bl_deferred l'))
    (drain_loop fuel env l) p.
Proof.
  revert l p. induction fuel as [|fuel IH]; intros l p Hp Hl; cbn [drain_loop]; [by split|].
  walk_ok; [by split|]. rename g into a, l0 into queue.
  assert (Forall fair_action (a :: queue)) as Hq by (destruct Hp as [ch []]; congruence).
  inversion Hq as [|? ? Ha Hqueue]; subst.
  apply on_ok_bind. eapply on_ok_weaken.
  { apply (drain_action_sim a l n h); [done|].
    apply (simulated_same n h (p <| off_game_action_queue := queue |>)); [done..|].
    by apply simulated_queue. }
  intros l' p' [Hp' Hl']. apply IH; [done|]. by apply Hl'.
Qed.

(** The batch is sent and the potato given away, or nothing is sent. *)
Lemma drain_queue_sim n p :
  simulated (n + 1) Present p ->
  on_ok (fun out p' => if (out.1 : bool) then simulated n Absent p' else simulated (n + 1) Present p')
    (drain_queue_into_batch env) p.
Proof.
  intros Hp. unfold drain_queue_into_batch. walk_ok.
  apply on_ok_bind. eapply on_ok_weaken; [by apply (drain_loop_sim _ _ (n + 1) Present)|].
  intros l p1 [Hp1 Hl]. walk_ok.
  - apply (simulated_same _ _ (p1 <| off_game_action_queue := bl_deferred l |>)); [done..|].
    by apply simulated_queue.
  - apply on_ok_bind. eapply on_ok_weaken; [apply sim_send; by apply simulated_queue|].
    intros sigs p2 Hp2. apply on_ok_bind. unfold on_ok at 1, modify_state at 1. apply on_ok_bind.
    destruct (bl_pending_shutdown l);
      by apply (simulated_same _ _ (p2 <| off_have_potato := Absent |>)).
Qed.

(** ** Taking a batch *)
Definition quiet_effects (es : list Effect) : Prop :=
  Forall (fun e => match e with GoOnChainAfterPeerError | Notify (ActionFailed _ _ _) => False
                   | _ => True end) es.

(** Whoever holds the potato when [n] more may be passed. *)
Definition running n p : Prop := exists h, simulated n h p.

Lemma running_less n m p : (n <= m)%N -> running m p -> running n p.
Proof. intros Hle [h Hp]. exists h. by eapply simulated_less. Qed.

Lemma send_empty_sim n p :
  simulated (n + 1) Present p -> on_ok (fun _ p' => simulated n Absent p') (send_empty env) p.
Proof.
  intros Hp. unfold send_empty, send_empty_potato. apply on_ok_bind.
  eapply on_ok_weaken; [by apply sim_send|]. intros sigs p1 Hp1. by walk_ok.
Qed.

Lemma pass_potato_back_sim send_back n p :
  simulated (n + 1) Present p -> on_ok (fun _ p' => running n p') (pass_potato_back env send_back) p.
Proof.
  intros Hp. unfold pass_potato_back. walk_ok.
  - eapply on_ok_weaken; [by apply send_empty_sim, (simulated_same _ _ p)|]. intros; by exists Absent.
  - eapply on_ok_weaken; [by apply send_empty_sim|]. intros; by exists Absent.
  - exists Present. eapply simulated_less; [|done]. lia.
Qed.

Lemma settle_cached_sim : keeps_sim settle_cached.
Proof. intros n h p Hp. unfold settle_cached. sim_walk. Qed.
Hint Resolve settle_cached_sim : chia.

Lemma after_receive_sim spend send_back n p :
  simulated (n + 1) Present
    (p <| off_have_potato := Present |> <| off_last_channel_coin_spend_info := Some spend |>) ->
  on_ok (fun es p' => quiet_effects es -> running n p')
    (update_channel_coin_after_receive env spend send_back) p.
Proof.
  intros Hp. unfold update_channel_coin_after_receive. walk_ok. sim_walk.
  match goal with H : see_ch _ _ = (Ok ?b, _) |- _ => rename b into finished end.
  match goal with Hs : simulated _ _ ?q |- on_ok _ _ ?q => rename Hs into Hq; rename q into q end.
  apply on_ok_bind. apply (on_ok_weaken (fun _ p' => simulated (n + 1) Present p')).
  { destruct finished; [by apply keeps_push|done]. }
  intros _ p3 Hp3. apply on_ok_bind. unfold on_ok at 1, attempt.
  pose proof (drain_queue_sim n p3 Hp3) as Hdrain. unfold on_ok in Hdrain.
  destruct (drain_queue_into_batch env p3) as [[[[] es]|e] p4]; cbn [fst] in Hdrain.
  - walk_ok. intros _. by exists Absent.
  - apply on_ok_bind. eapply on_ok_weaken; [by apply pass_potato_back_sim|]. intros; by walk_ok.
  - destruct e; try done; unfold take_failed_queued_action, clear_failed_action; apply on_ok_bind;
      walk_ok; try done; intros Hes; exfalso; apply Forall_app in Hes as [_ Hes]; by inversion Hes.
Qed.

Lemma receive_all_sim games group : keeps_sim (receive_all env games group).
Proof.
  intros n h p Hp. revert p Hp. induction games as [|g games IH]; intros p Hp; cbn; [done|].
  sim_walk. by apply IH.
Qed.
Hint Resolve receive_all_sim : chia.

Lemma receive_proposal_group_sim wire : keeps_sim (receive_proposal_group env wire).
Proof. intros n h p Hp. unfold receive_proposal_group. sim_walk. Qed.

Lemma receive_accept_sim id : keeps_sim (receive_accept id).
Proof. intros n h p Hp. unfold receive_accept. sim_walk. Qed.

Lemma receive_move_sim id details : keeps_sim (receive_move id details).
Proof.
  intros n h p Hp. unfold receive_move. sim_walk.
  match goal with H : see_ch _ _ = (Ok ?b, _) |- _ => destruct b end.
  - eapply keeps_bind; [by apply keeps_push|done|]. intros. by walk_ok.
  - apply on_ok_bind. by walk_ok.
Qed.
Hint Resolve receive_proposal_group_sim receive_accept_sim receive_move_sim : chia.

Lemma receive_action_sim a : keeps_sim (receive_action env a).
Proof.
  destruct a; cbn [receive_action]; eauto with chia; intros n h p Hp; sim_walk.
Qed.

Lemma receive_actions_sim actions : keeps_sim (receive_actions env actions).
Proof.
  intros n h p Hp. revert p Hp. induction actions as [|a actions IH]; intros p Hp; cbn; [done|].
  eapply keeps_bind; [apply receive_action_sim|done|]. intros es p1 _ Hp1.
  apply on_ok_bind. eapply on_ok_weaken; [by apply IH|]. intros. by walk_ok.
Qed.
Hint Resolve receive_actions_sim : chia.

(** ** Leaving for the chain

    The next phase is handed the very channel of the session, and the spend
    that opens one of its unrolls. *)
Definition handed p : Prop := off_channel_state p = None /\ exists q ch,
  channel_spend_next_phase p = Some q /\ channel_state (base q) = Some ch
  /\ rtc (session_step env) ch0 ch
  /\ (forall info, last_channel_coin_spend_info q = Some info -> opens ch info).

Lemma go_to_spend_phase_sim (make : option ChannelState -> list GameAction -> PotatoState ->
    Timeout -> Timeout -> option ChannelCoinSpendInfo -> SpendChannelCoinPhase) n h p :
  (forall o queue pot ct ut saved,
     channel_state (base (make o queue pot ct ut saved)) = o
     /\ last_channel_coin_spend_info (make o queue pot ct ut saved) = saved) ->
  simulated n h p -> on_ok (fun _ p' => handed p') (go_to_spend_phase make) p.
Proof.
  intros Hmake [ch [Hch Hrun _ _ _ _ _ (info0 & Hinfo & Hopens)]]. unfold on_ok, go_to_spend_phase, modify_state.
  split; [done|]. destruct (Hmake (off_channel_state p) (off_game_action_queue p) (off_have_potato p)
    (off_channel_timeout p) (off_unroll_timeout p) (off_last_channel_coin_spend_info p)) as [H1 H2].
  eexists _, ch. split; [reflexivity|]. rewrite H1, H2.
  split_and!; [done|done|]. intros info. congruence.
Qed.

(** Off chain with at least [n] more potatoes, or handed over. *)
Definition alive n p : Prop := running n p \/ handed p.

Lemma receive_clean_shutdown_sim sig conditions n h p :
  simulated n h p -> on_ok (fun _ p' => handed p') (receive_clean_shutdown env sig conditions) p.
Proof.
  intros Hp. unfold receive_clean_shutdown. sim_walk. apply on_ok_bind.
  apply (on_ok_weaken (fun _ p' => handed p')); [|intros; by walk_ok].
  by eapply go_to_spend_phase_sim.
Qed.

Lemma process_batch_sim actions sigs clean n h p :
  simulated (n + 2) h p ->
  on_ok (fun es p' => quiet_effects es -> alive n p')
    (process_received_batch env actions sigs clean) p.
Proof.
  intros Hp. unfold process_received_batch. sim_walk.
  match goal with Hs : simulated _ _ ?q |- on_ok _ _ ?q => clear Hp; rename Hs into Hp; rename q into q end.
  apply on_ok_bind. apply (on_ok_weaken (fun _ p' => simulated (n + 2) h p')).
  { destruct (existsb _ _); [by apply keeps_retain|done]. }
  intros _ p1 Hp1. destruct clean as [[sig conditions]|].
  - apply on_ok_bind. eapply on_ok_weaken; [by eapply receive_clean_shutdown_sim|].
    intros. walk_ok. intros _. by right.
  - replace (n + 2)%N with (n + 1 + 1)%N in Hp1 by lia.
    apply on_ok_bind. eapply on_ok_weaken; [eapply sim_receive; exact Hp1|]. intros info p2 Hp2.
    apply on_ok_bind. eapply on_ok_weaken; [exact (after_receive_sim _ _ n _ Hp2)|].
    intros es p3 Hp3. walk_ok. intros Hes. left. apply Hp3. apply Forall_app in Hes as [_ Hes].
    by inversion Hes.
Qed.

(** ** Messages *)
Lemma loud_peer_error (P : Prop) : quiet_effects peer_error -> P.
Proof. intros H. inversion H as [|? ? _ H']. by inversion H'. Qed.

Lemma restoring_ok {A} (Q : A -> OffChainPhase -> Prop) (op : eff OffChainPhase A) p :
  on_ok Q op p -> on_ok Q (restoring op) p.
Proof.
  unfold restoring. intros H. walk_ok. unfold on_ok, catch in *.
  destruct (op p) as [[a|e] p']; [done|]. by destruct e.
Qed.

Lemma complete_shutdown_sim coin_spend n h p :
  simulated n h p ->
  on_ok (fun _ p' => alive n p')
    (pass_on_channel_state_message env (CleanShutdownComplete coin_spend)) p.
Proof.
  intros Hp. cbn [pass_on_channel_state_message]. walk_ok. apply on_ok_bind.
  apply (on_ok_weaken (fun _ p' => alive n p')); [|intros; by walk_ok].
  destruct (pending_clean_shutdown p) as [[coin shutdown_solution]|]; [|left; by exists h].
  walk_ok. apply (on_ok_weaken (fun _ p' => handed p')); [|by right].
  eapply go_to_spend_phase_sim; [done|]. by apply (simulated_same n h p).
Qed.

Lemma pass_on_sim msg n h p :
  simulated (n + 2) h p ->
  on_ok (fun es p' => quiet_effects es -> alive n p') (pass_on_channel_state_message env msg) p.
Proof.
  intros Hp. assert (alive n p) as Halive.
  { left. exists h. eapply simulated_less; [|done]. lia. }
  destruct msg; try done.
  - apply restoring_ok. by eapply process_batch_sim.
  - eapply on_ok_weaken; [by apply (complete_shutdown_sim _ n h), (simulated_less _ (n + 2)); [lia|]|done].
  - cbn [pass_on_channel_state_message]. sim_walk. intros _. left. exists h.
    by apply (simulated_less _ (n + 2)); [lia|].
Qed.

Lemma alive_less n h p : simulated (n + 2) h p -> alive n p.
Proof. intros Hp. left. exists h. eapply simulated_less; [|done]. lia. Qed.

Lemma process_message_sim msg n h p :
  simulated (n + 2) h p ->
  on_ok (fun es p' => quiet_effects es -> alive n p') (process_message env msg) p.
Proof.
  intros Hp. pose proof (alive_less _ _ _ Hp) as Halive. unfold process_message. walk_ok;
    try (by eapply pass_on_sim); try done.
  - replace (n + 2)%N with (n + 1 + 1)%N in Hp by lia.
    assert (h = Present) as ->.
    { destruct Hp as [ch []]. subst. by eapply bool_decide_eq_true_1. }
    apply on_ok_bind. eapply on_ok_weaken; [by apply send_empty_sim, (simulated_same _ _ p)|].
    intros es p1 Hp1. walk_ok. intros _. left. exists Absent.
    apply (simulated_same _ _ p1); try done. eapply simulated_less; [|exact Hp1]. lia.
  - intros _. left. exists h. apply (simulated_same _ _ p); try done.
    eapply simulated_less; [|done]. lia.
Qed.

Lemma process_queued_message_sim n h p :
  simulated (n + 2) h p ->
  on_ok (fun es p' => quiet_effects es -> alive n p') (process_queued_message env) p.
Proof.
  intros Hp. unfold process_queued_message. walk_ok.
  - intros _. by eapply alive_less.
  - eapply process_message_sim. by apply (simulated_same _ h p).
Qed.

Lemma received_message_sim msg n h p :
  simulated (n + 2) h p ->
  on_ok (fun es p' => quiet_effects es -> alive n p') (OffChainPhase_received_message env msg) p.
Proof.
  intros Hp. unfold OffChainPhase_received_message. walk_ok; [by apply loud_peer_error|].
  assert (on_ok (fun es p' => quiet_effects es -> alive n p') (process_queued_message env)
    (p <| incoming_messages := incoming_messages p ++ [a] |>)) as H1.
  { eapply process_queued_message_sim. by apply (simulated_same _ h p). }
  unfold on_ok, catch in *. destruct (process_queued_message env _) as [[es|e] p1]; [done|].
  destruct e; try done; (intros Hes; by apply (loud_peer_error _ Hes)).
Qed.

(** ** The player's requests and the chain *)
Lemma request_potato_sim n h p :
  simulated n h p -> on_ok (fun _ p' => running n p') send_potato_request_if_needed p.
Proof.
  intros [ch Hs]. unfold send_potato_request_if_needed.
  pose proof Hs as [Hch Hrun Hn Hholds Hpot Hqueue Htypes Hsaved]. walk_ok.
  - unfold on_ok. exists Requested, ch. split; try done. by rewrite <-Hpot, <-Hholds.
  - by exists h, ch.
  - by exists h, ch.
Qed.

Lemma do_game_action_sim a n p :
  fair_action a -> running n p -> on_ok (fun _ p' => running n p') (do_game_action a) p.
Proof.
  intros Ha [h Hp]. unfold do_game_action. eapply keeps_bind; [by apply keeps_push|done|].
  intros _ p1 _ Hp1. apply on_ok_bind.
  eapply on_ok_weaken; [by eapply request_potato_sim|]. intros. by walk_ok.
Qed.

Lemma do_game_actions_sim actions n p :
  Forall fair_action actions -> running n p ->
  on_ok (fun _ p' => running n p') (do_game_actions actions) p.
Proof.
  intros Hfair. revert p. induction Hfair as [|a actions Ha _ IH]; intros p Hp; cbn; [done|].
  apply on_ok_bind. eapply on_ok_weaken; [by apply do_game_action_sim|]. intros es p1 Hp1.
  apply on_ok_bind. eapply on_ok_weaken; [by apply IH|]. intros. by walk_ok.
Qed.

Lemma allocate_nonces_sim m : keeps_sim (allocate_nonces m).
Proof.
  intros n h p Hp. revert p Hp. induction m as [|m IH]; intros p Hp; cbn; [done|].
  eapply keeps_bind; [apply keeps_nonce|done|]. intros id p1 _ Hp1.
  apply on_ok_bind. eapply on_ok_weaken; [by apply IH|]. intros. by walk_ok.
Qed.
Hint Resolve allocate_nonces_sim : chia.

Lemma fair_starts games ids timeout :
  Forall (fun g => fg_amount g = (sender_contribution g + receiver_contribution g)%N) games ->
  Forall fair_game (zip_with (fun g id => game_start g id timeout true) games ids).
Proof.
  intros H. revert ids. induction H as [|g games Hg _ IH]; intros [|id ids]; cbn; constructor; [|done].
  unfold fair_game, game_start. cbn. destruct (sender_goes_first g); exact Hg.
Qed.

Lemma propose_games_sim games n h p :
  simulated n h p -> on_ok (fun _ p' => running n p') (propose_games games) p.
Proof.
  intros Hp. unfold propose_games. sim_walk; [by exists h|].
  apply on_ok_bind. apply (on_ok_weaken (fun _ p' => simulated n h p')).
  { apply keeps_push; [|done]. apply fair_starts.
    match goal with H : factory_games ?q _ = Ok _, Hq : simulated _ _ ?q |- _ =>
      destruct Hq as [ch Hq]; exact (sim_types _ _ _ _ Hq _ _ H) end. }
  intros _ q Hq. apply on_ok_bind. eapply on_ok_weaken; [by eapply request_potato_sim|].
  intros. by walk_ok.
Qed.

Lemma put_off_sim coin_id n h p :
  simulated n h p ->
  on_ok (fun _ p' => alive n p') (OffChainPhase_coin_spent coin_id) p.
Proof.
  intros Hp. assert (alive n p) as Halive by (left; by exists h).
  destruct Hp as [ch Hs]. pose proof Hs as [Hch Hrun _ _ _ _ _ _].
  unfold OffChainPhase_coin_spent. walk_ok; try done.
  - left. exists h, ch. by destruct Hs.
  - right. split; [done|]. eexists _, ch. split; [reflexivity|]. cbn.
    split_and!; [by rewrite ?Heqo, ?Hch|done|done].
Qed.

Lemma go_on_chain_sim got_error n h p :
  simulated n h p -> on_ok (fun _ p' => handed p') (OffChainPhase_go_on_chain env got_error) p.
Proof.
  intros Hp. unfold OffChainPhase_go_on_chain. sim_walk. apply on_ok_bind.
  apply (on_ok_weaken (fun _ p' => handed p')); [|intros; by walk_ok].
  eapply go_to_spend_phase_sim; [|done]. by destruct got_error.
Qed.

Lemma flush_sim n h p :
  simulated (n + 2) h p -> on_ok (fun _ p' => running n p') (flush_pending_actions env) p.
Proof.
  intros Hp. unfold flush_pending_actions, clear_failed_action. walk_ok.
  - exists h. apply (simulated_same _ _ p); try done. eapply simulated_less; [|exact Hp]. lia.
  - apply orb_false_iff in Heqb as [Hhas%negb_false_iff _].
    replace (n + 2)%N with (n + 1 + 1)%N in Hp by lia.
    assert (h = Present) as ->.
    { destruct Hp as [ch []]. subst. by eapply bool_decide_eq_true_1. }
    apply on_ok_bind. eapply on_ok_weaken; [by apply drain_queue_sim, (simulated_same _ _ p)|].
    intros [[] es] q Hq; cbn in Hq; walk_ok; [exists Absent|exists Present];
      (eapply simulated_less; [|exact Hq]); lia.
Qed.

(** ** Everything that happens to the phase *)
Inductive OffInput : Type :=
| PeerSent (msg : bytes)
| NextQueuedMessage
| FlushActions
| PlayerMoves (id : GameID) (readable : ReadableMove) (entropy : Hash)
| PlayerSettles (id : GameID)
| PlayerCheats (id : GameID) (share : Amount) (entropy : Hash)
| PlayerShutsDown
| PlayerProposes (games : list GameProposal)
| PlayerAccepts (id : GameID)
| PlayerCancels (id : GameID)
| CoinWasSpent (coin_id : CoinString)
| LeavesForChain (got_error : bool).

Definition run_input (i : OffInput) : eff OffChainPhase (list Effect) :=
  match i with
  | PeerSent msg => OffChainPhase_received_message env msg
  | NextQueuedMessage => process_queued_message env
  | FlushActions => flush_pending_actions env
  | PlayerMoves id readable entropy => OffChainPhase_make_move id readable entropy
  | PlayerSettles id => OffChainPhase_accept_settlement id
  | PlayerCheats id share entropy => OffChainPhase_cheat_game id share entropy
  | PlayerShutsDown => shut_down
  | PlayerProposes games => out ← propose_games games; mret out.2
  | PlayerAccepts id => OffChainPhase_accept_proposal id
  | PlayerCancels id => OffChainPhase_cancel_proposal id
  | CoinWasSpent coin_id => OffChainPhase_coin_spent coin_id
  | LeavesForChain got_error => OffChainPhase_go_on_chain env got_error
  end.

(** The host replaces the phase as soon as it offers the next one, and goes on
    chain when it reports an error of the peer or an action that failed. *)
Inductive off_run : OffChainPhase -> list OffInput -> OffChainPhase -> Prop :=
| off_nil p : off_run p [] p
| off_cons p i es p' inputs p'' :
    off_channel_state p <> None -> run_input i p = (Ok es, p') -> quiet_effects es ->
    off_run p' inputs p'' -> off_run p (i :: inputs) p''.

Lemma input_sim i n p :
  running (n + 2) p -> on_ok (fun es p' => quiet_effects es -> alive n p') (run_input i) p.
Proof.
  intros [h Hp]. assert (running n p) as Hless.
  { exists h. eapply simulated_less; [|exact Hp]. lia. }
  assert (forall a, fair_action a ->
    on_ok (fun es p' => quiet_effects es -> alive n p') (do_game_action a) p) as Hact.
  { intros a Ha. eapply on_ok_weaken; [by apply do_game_action_sim|]. intros. by left. }
  destruct i; cbn [run_input]; try (by apply Hact).
  - by eapply received_message_sim.
  - by eapply process_queued_message_sim.
  - eapply on_ok_weaken; [by eapply flush_sim|]. intros. by left.
  - apply on_ok_bind. destruct Hless as [h' Hless].
    eapply on_ok_weaken; [by eapply propose_games_sim|]. intros. walk_ok. intros _. by left.
  - unfold OffChainPhase_accept_proposal. walk_ok.
    + apply on_ok_bind. eapply on_ok_weaken; [apply do_game_actions_sim; [|exact Hless]|].
      * apply Forall_fmap, Forall_true. by intros.
      * intros. walk_ok. intros _. by left.
    + eapply on_ok_weaken; [apply do_game_actions_sim; [|exact Hless]|].
      * apply Forall_fmap, Forall_true. by intros.
      * intros. by left.
  - unfold OffChainPhase_cancel_proposal. destruct Hless as [h' Hless].
    eapply keeps_bind; [apply keeps_see|exact Hless|]. intros ids q _ Hq.
    eapply on_ok_weaken; [apply do_game_actions_sim; [|by exists h']|].
    + apply Forall_fmap, Forall_true. by intros.
    + intros. by left.
  - destruct Hless as [h' Hless]. eapply on_ok_weaken; [by eapply put_off_sim|]. by intros.
  - eapply on_ok_weaken; [by eapply go_on_chain_sim|]. intros. by right.
Qed.

Lemma off_run_sim p inputs p' n :
  off_run p inputs p' -> running (n + 2 * N.of_nat (length inputs)) p -> alive n p'.
Proof.
  intros Hrun. induction Hrun as [p|p i es p' inputs p'' _ Hi Hes Hrun IH]; intros Hp.
  - left. by rewrite N.add_0_r in Hp.
  - cbn [length] in Hp.
    replace (n + 2 * N.of_nat (S (length inputs)))%N
      with (n + 2 * N.of_nat (length inputs) + 2)%N in Hp by lia.
    destruct (on_ok_run _ _ _ _ _ (input_sim i _ _ Hp) Hi Hes) as [Hp'|Hp']; [by apply IH|].
    destruct Hrun as [p'|p' ? ? ? ? ? Hlive]; [by right|]. by destruct Hp'.
Qed.

(** The spend the handshake saves opens the first unroll. *)
Lemma initial_opens sigs s info ch ph h :
  recorded env s (sent_coin s) ph h -> is_Some (unroll_puzzle_hash_map s !! ph) ->
  verify_and_store_initial_peer_signatures env sigs s = (Ok info, ch) -> opens ch info.
Proof.
  intros (node & o & Hnode & -> & _) Hin H.
  unfold verify_and_store_initial_peer_signatures in H.
  apply eff_bind_Ok in H as (? & ? & [= <- <-] & H).
  apply eff_bind_Ok in H as (ok & ? & [= Hok <-] & H).
  apply eff_bind_Ok in H as (? & ? & Hg & H). unfold guard_or in Hg. destruct ok; [|done].
  injection Hg as _ <-.
  apply eff_bind_Ok in H as (spend & ? & [= Hspend <-] & H).
  apply eff_bind_Ok in H as (full & ? & [= Hfull <-] & H).
  apply eff_bind_Ok in H as (puz & ? & [= Hpuz <-] & H).
  apply eff_bind_Ok in H as (? & ? & [= _ <-] & H). injection H as <- <-.
  destruct (completed_opens s _ spend full (channel_half_sig sigs) node Hnode Hin Hspend Hfull)
    as [Ho ->].
  eapply opens_mono; [..|exact Ho]; try done.
Qed.
End off_chain.

(** ** Properties *)
Section properties.
Context {arch : Arch} {sha2 : Sha2} {bigint : BigInt} {clvm : Clvm} {bls : Bls}.
Context {puzzles : ChiaPuzzles} {order : HashOrder} {codec : PeerCodec}.

(** The channel took the peer's first signatures. *)
Definition accepts_peer (env : ChannelEnv) (s s' : ChannelState) : Prop :=
  exists sigs info, verify_and_store_initial_peer_signatures env sigs s = (Ok info, s').

(** A channel that was made and took the peer's first signatures, at least once;
    [info] is the spend they complete. *)
Definition channel_made (env : ChannelEnv) (potato : bool) (ch : ChannelState) : Prop :=
  exists keys launcher tc tu tr tph tsig mine theirs timeout ph s0 i,
    ChannelState_new env keys launcher potato tc tu tr tph tsig mine theirs timeout ph = Ok (s0, i)
    /\ rtc (accepts_peer env) s0 ch.
Definition channel_ready (env : ChannelEnv) (potato : bool) (ch : ChannelState)
    (info : ChannelCoinSpendInfo) : Prop :=
  exists s sigs, channel_made env potato s
  /\ verify_and_store_initial_peer_signatures env sigs s = (Ok info, ch).

(** The off-chain phase of a player whose channel was set up with the peer.  The
    player who holds the potato is the one whose channel does not start with
    it. *)
Record set_up (env : ChannelEnv) (p : OffChainPhase) (ch : ChannelState) : Prop := {
  su_channel : exists potato info b types pk a1 a2 ct ut rph incoming,
    channel_ready env potato ch info
    /\ p = from_completed_handshake b ch (if potato then Absent else Present) types pk a1 a2 ct ut
             rph incoming (Some info);
  su_types : fair_types p;
}.

Lemma channel_made_Ok env potato ch :
  channel_made env potato ch ->
  state_number ch = 0%N /\ have_potato ch = potato
  /\ exists uph h, recorded env ch (sent_coin ch) uph h /\ is_Some (unroll_puzzle_hash_map ch !! uph).
Proof.
  intros (keys & launcher & tc & tu & tr & tph & tsig & mine & theirs & timeout & ph & s0 & i & Hnew
    & Hsteps).
  assert (exists spend received, ch = s0 <| channel_coin_spend := spend |>
                                         <| latest_received_unroll := received |>) as (? & ? & ->).
  { clear Hnew. induction Hsteps as [s|s s' s'' (sigs & info & H) _ (? & ? & ->)].
    - exists (channel_coin_spend s), (latest_received_unroll s). by destruct s.
    - apply verify_initial_Ok in H as (spend & _ & ->). by eexists _, _. }
  apply ChannelState_new_Ok in Hnew as (_ & half & u & uph & h & spend & puz & _ & Hrec & _ & ->).
  split; [done|]. split; [done|]. exists uph, h. split; [exact Hrec|]. eexists. apply lookup_insert_eq.
Qed.

Lemma set_up_sim env p ch n :
  set_up env p ch -> running env ch (n + 2) n p /\ state_number ch = 0%N.
Proof.
  intros [(potato & info & b & types & pk & a1 & a2 & ct & ut & rph & incoming
    & (s & sigs & (Hz & Hp & uph & h & Hrec & Hin)%channel_made_Ok & Hver) & ->) Htypes].
  assert (opens env ch info) as Hopens by by eapply initial_opens.
  apply verify_initial_Ok in Hver as (spend & _ & ->).
  split; [|done]. eexists (if potato then Absent else Present), _. split; cbn; try done.
  - change (state_number s + n + 1 < n + 2)%N. rewrite Hz. lia.
  - unfold held. cbn. rewrite Hz, Hp. by destruct potato.
  - by exists info.
Qed.

(** What a run of at most [n / 2] inputs leads to. *)
Lemma set_up_run env p ch0 inputs p' :
  set_up env p ch0 -> off_run env p inputs p' ->
  (2 * N.of_nat (length inputs) + 1 < usize_modulus)%N ->
  alive env ch0 (2 * N.of_nat (length inputs) + 2) 0 p'.
Proof.
  intros Hsetup Hrun Hfits. destruct (set_up_sim env p ch0 (2 * N.of_nat (length inputs)) Hsetup) as [Hp _].
  apply (off_run_sim env ch0 (2 * N.of_nat (length inputs) + 2) ltac:(lia) p inputs p' 0 Hrun).
  by rewrite N.add_0_l.
Qed.

(** The channel the phase works on, or has handed to the phase that follows. *)
Definition phase_channel (p : OffChainPhase) : option ChannelState :=
  match off_channel_state p with
  | Some ch => Some ch
  | None => q ← channel_spend_next_phase p; channel_state (base q)
  end.

(** C5: the off-chain phase refines the session of its channel.  Whatever the
    peer sends and the player asks for, in any order, as long as the phase
    accepts it, the channel state only takes the steps of a session, in which
    the potato is sent only by the player who holds it.  The phase and the
    channel agree on who holds the potato (but for its first holder, whose
    channel says the contrary until it is sent), which moves at most twice per
    input; when the phase ends, the next one gets the channel the session has
    reached. *)
Theorem off_chain_refines_session env p ch0 inputs p'
    (Hsetup : set_up env p ch0) (Hrun : off_run env p inputs p')
    (Hfits : (2 * N.of_nat (length inputs) + 1 < usize_modulus)%N) :
  exists ch, phase_channel p' = Some ch /\ rtc (session_step env) ch0 ch
  /\ (off_channel_state p' = Some ch ->
      has_potato p' = xorb (state_number ch =? 0)%N (have_potato ch)
      /\ (state_number ch <= 2 * N.of_nat (length inputs))%N).
Proof.
  unfold phase_channel.
  destruct (set_up_run env p ch0 inputs p' Hsetup Hrun Hfits)
    as [[h [ch [Hch Hsteps Hn Hholds Hpot _ _ _]]]|[Hnone (q & ch & Hq & Hch & Hr & _)]]; exists ch.
  - rewrite Hch. split_and!; [done..|]. intros _. unfold has_potato. rewrite Hholds. split; [exact Hpot|lia].
  - rewrite Hnone, Hq. by split_and!.
Qed.

Lemma go_on_chain_outcome env got_error p ch info :
  off_channel_state p = Some ch -> off_last_channel_coin_spend_info p = Some info ->
  (OffChainPhase_go_on_chain env got_error p).1
  = puz ← puzzle_for_synthetic_public_key (standard_puzzle env) (get_aggregate_channel_public_key ch);
    Ok (cancelled WentOnChain (pg_game_id <$> proposed_games ch)
        ++ [SpendTransaction (mkSpendBundle (Some "go on chain unroll"%string)
              [mkCoinSpend (channel_coin ch)
                 (mkSpend puz (ccs_solution info) (ccs_aggsig info))]) None]).
Proof.
  intros Hch Hinfo. unfold OffChainPhase_go_on_chain, on_off_ch, cancel_all_proposals,
    build_channel_to_unroll_bundle, off_ch, get_aggregate_channel_public_key.
  run_eff. rewrite Hch. cbn. rewrite Hinfo. cbn.
  by destruct (puzzle_for_synthetic_public_key _ _).
Qed.

(** C6: a player can always leave for the chain.  As long as the off-chain
    phase runs it keeps a spend of the channel coin signed by both players
    whose only coin is an unroll the channel knows how to answer, and going on
    chain submits exactly that spend, after cancelling the open proposals; it
    can fail only where the standard puzzle of the channel coin cannot be
    built. *)
Theorem going_on_chain_opens_unroll env p ch0 inputs p' ch got_error
    (Hsetup : set_up env p ch0) (Hrun : off_run env p inputs p')
    (Hfits : (2 * N.of_nat (length inputs) + 1 < usize_modulus)%N)
    (Hch : off_channel_state p' = Some ch) :
  exists info, off_last_channel_coin_spend_info p' = Some info /\ opens env ch info
  /\ match puzzle_for_synthetic_public_key (standard_puzzle env) (get_aggregate_channel_public_key ch) with
     | Ok puz => exists ids, (OffChainPhase_go_on_chain env got_error p').1
         = Ok (cancelled WentOnChain ids
               ++ [SpendTransaction (mkSpendBundle (Some "go on chain unroll"%string)
                     [mkCoinSpend (channel_coin ch)
                        (mkSpend puz (ccs_solution info) (ccs_aggsig info))]) None])
     | Err e => (OffChainPhase_go_on_chain env got_error p').1 = Err e
     end.
Proof.
  destruct (set_up_run env p ch0 inputs p' Hsetup Hrun Hfits)
    as [[h [ch' [Hch' _ _ _ _ _ _ (info & Hinfo & Hopens)]]]|[Hnone _]]; [|congruence].
  assert (ch' = ch) as -> by congruence. exists info. split; [done|]. split; [done|].
  rewrite (go_on_chain_outcome env got_error p' ch info Hch Hinfo).
  destruct (puzzle_for_synthetic_public_key _ _) as [puz|e]; [|done].
  by exists (pg_game_id <$> proposed_games ch).
Qed.






End properties.

Module Witnesses.
Import Toy ToyGame ToyChannel.

(** What Bob sends Alice to finish the handshake, then with his first potato. *)
Definition ok_sigs (r : result Error StateUpdateSignatures) : StateUpdateSignatures :=
  match r with Ok sigs => sigs | Err _ => StateUpdateSignatures_default end.
Definition bob_initial : StateUpdateSignatures := Eval vm_compute in ok_sigs (get_initial_signatures bob0).
Definition bob_first : StateUpdateSignatures :=
  Eval vm_compute in ok_sigs (update_cached_unroll_state env bob0).1.

#[export] Instance toy_codec : PeerCodec := {|
  decode_peer_message := fun b =>
    match b with
    | [x01] => Ok (Batch [] bob_first None)
    | [x02] => Ok RequestPotato
    | _ => Err (StrErr "bencodex deserialize error")
    end |}.

Abbreviation initial := (verify_and_store_initial_peer_signatures env bob_initial alice0).
Lemma initial_ok : is_ok initial.1 = true.
Proof. vm_compute. reflexivity. Qed.
Definition alice1 : ChannelState := Eval vm_compute in initial.2.
Definition saved : ChannelCoinSpendInfo := Eval vm_compute in the_ok _ initial_ok.
Lemma initial_run : initial = (Ok saved, alice1).
Proof. by_running. Qed.
Definition start : OffChainPhase :=
  from_completed_handshake false alice1 Absent ∅ alice_keys 300 200 20 15 (ph xaa) [] (Some saved).

Lemma start_set_up : set_up env start alice1.
Proof.
  split.
  - exists true, saved. do 9 eexists. split; [|reflexivity]. exists alice0, bob_initial.
    split; [|exact initial_run]. do 13 eexists. split; [exact alice_new_run|done].
  - intros proposal games (f & Hf%ok_or_Ok & _)%bind_Ok. change (game_types start) with (∅ : gmap GameType GameFactory) in Hf.
    by rewrite lookup_empty in Hf.
Qed.

Lemma loud_check es :
  forallb (fun e => match e with GoOnChainAfterPeerError | Notify (ActionFailed _ _ _) => false
                    | _ => true end) es = true -> quiet_effects es.
Proof.
  intros H. apply Forall_forall. intros e He. apply list_elem_of_In in He.
  eapply forallb_forall in H; [|exact He]. destruct e; try done. by destruct n.
Qed.

(** Alice takes the potato, then asks to shut the channel down. *)
Definition ok_effects (r : result Error (list Effect)) : list Effect :=
  match r with Ok es => es | Err _ => [] end.
Abbreviation took := (run_input env (PeerSent [x01]) start).
Definition took_effects : list Effect := Eval vm_compute in ok_effects took.1.
Definition took_phase : OffChainPhase := Eval vm_compute in took.2.
Lemma took_run : took = (Ok took_effects, took_phase).
Proof. by_running. Qed.
Abbreviation asked := (run_input env PlayerShutsDown took_phase).
Definition asked_effects : list Effect := Eval vm_compute in ok_effects asked.1.
Definition asked_phase : OffChainPhase := Eval vm_compute in asked.2.
Lemma asked_run : asked = (Ok asked_effects, asked_phase).
Proof. by_running. Qed.
Definition asked_channel : ChannelState :=
  Eval vm_compute in default alice1 (off_channel_state asked_phase).

Lemma phase_run : off_run env start [PeerSent [x01]; PlayerShutsDown] asked_phase.
Proof.
  apply (off_cons env start _ took_effects took_phase); [done|exact took_run|by apply loud_check|].
  apply (off_cons env took_phase _ asked_effects asked_phase); [done|exact asked_run|by apply loud_check|].
  apply off_nil.
Qed.
Lemma run_fits : (2 * N.of_nat 2 + 1 < usize_modulus)%N.
Proof. pose proof usize_modulus_lower. lia. Qed.

Lemma off_chain_refines_session_witness :
  exists ch, phase_channel asked_phase = Some ch /\ rtc (session_step env) alice1 ch.
Proof.
  destruct (off_chain_refines_session env start alice1 _ asked_phase start_set_up phase_run run_fits)
    as (ch & Hch & Hsteps & _).
  exists ch. split; [exact Hch|exact Hsteps].
Defined.

Lemma going_on_chain_opens_unroll_witness :
  exists ch info, off_channel_state asked_phase = Some ch
  /\ off_last_channel_coin_spend_info asked_phase = Some info /\ opens env ch info.
Proof.
  assert (off_channel_state asked_phase = Some asked_channel) as Hch by reflexivity.
  exists asked_channel.
  destruct (going_on_chain_opens_unroll env start alice1 _ asked_phase asked_channel false start_set_up phase_run run_fits Hch)
    as (info & Hinfo & Hopens & _).
  exists info. split; [exact Hch|]. split; [exact Hinfo|exact Hopens].
Defined.

End Witnesses.
