(* ===== verification/HandshakeBase.v ===== *)
(** * What the two handshake phases share

    [src/session_phases/handshake.rs] and the steps that
    [handshake_initiator.rs] and [handshake_receiver.rs] have in common: what a
    player says of himself and how the other checks it, the announcement by
    which both halves of the funding are tied together, and what the host sees
    of an unfinished handshake.  The singleton launcher is a puzzle of the
    [chia_puzzles] crate, so a parameter. *)
From S2P Require Import Prelude Extern World Coins Clvm StandardCoin TransactionManager UnrollCoin.
From S2P Require Import GameHandler RefereeTypes Referee LiveGame ChannelState ChannelGames.
From S2P Require Import ChannelOnChain Effects OnChainPhase OnChainActions OnChainSpend HandlerBase.
From S2P Require Import SpendChannelCoin UnrollTransition OffChainPhase OffChainReceive.

(** [common/constants.rs] *)
Definition ASSERT_COIN_ANNOUNCEMENT : N := 61.

(** [chia_puzzles::{SINGLETON_LAUNCHER, SINGLETON_LAUNCHER_HASH}] *)
Class LauncherPuzzle := {
  SINGLETON_LAUNCHER : bytes;
  SINGLETON_LAUNCHER_HASH : Hash;
}.

Section base.
Context {arch : Arch} {sha2 : Sha2} {bigint : BigInt} {clvm : Clvm} {bls : Bls}.
Context {puzzles : ChiaPuzzles} {order : HashOrder} {codec : PeerCodec} {singleton : LauncherPuzzle}.

(** ** Data *)
Record HandshakeStepInfo := mkHandshakeStepInfo {
  first_player_hs_info : HandshakePayloadB;
  second_player_hs_info : HandshakePayloadB;
}.
Record HandshakeStepWithSpend := mkHandshakeStepWithSpend {
  step_info : HandshakeStepInfo;
  step_spend : SpendBundle;
}.
Record OffChainPhaseInit := mkOffChainPhaseInit {
  phi_have_potato : bool;
  phi_private_keys : ChannelPrivateKeys;
  phi_game_types : gmap GameType GameFactory;
  phi_my_contribution : Amount;
  phi_their_contribution : Amount;
  phi_channel_timeout : Timeout;
  phi_unroll_timeout : Timeout;
  phi_reward_puzzle_hash : PuzzleHash;
}.

(** ** What the players say of themselves *)
Definition sign_own_key (sk : PrivateKey) : Aggsig := sk_sign sk (pk_bytes (private_to_public_key sk)).

Definition my_handshake_b (keys : ChannelPrivateKeys) (reward_ph : PuzzleHash) (mine theirs : Amount)
    : result Error HandshakePayloadB :=
  reward_payout_sig ← sign_reward_payout (my_referee_private_key keys) reward_ph;
  mret (mkHandshakePayloadB
          (private_to_public_key (my_channel_coin_private_key keys))
          (private_to_public_key (my_unroll_coin_private_key keys))
          reward_ph (private_to_public_key (my_referee_private_key keys)) reward_payout_sig
          (sign_own_key (my_channel_coin_private_key keys))
          (sign_own_key (my_unroll_coin_private_key keys)) mine theirs).

(** The three signatures of a payload; [sig_place] and [pop_place] end the
    error messages. *)
Definition check_payload (sig_place pop_place : string) (msg : HandshakePayloadB)
    : result Error unit :=
  _ ← check (verify_reward_payout_signature (hs_referee_pubkey msg) (hs_reward_puzzle_hash msg)
               (reward_payout_signature msg))
        (Channel ("Invalid reward payout signature" +:+ sig_place));
  _ ← check (sig_verify (channel_key_pop msg) (hs_channel_public_key msg)
               (pk_bytes (hs_channel_public_key msg)))
        (Channel ("Invalid proof-of-possession for channel key" +:+ pop_place));
  check (sig_verify (unroll_key_pop msg) (hs_unroll_public_key msg)
           (pk_bytes (hs_unroll_public_key msg)))
    (Channel ("Invalid proof-of-possession for unroll key" +:+ pop_place)).

Definition check_contributions (mine_msg theirs_msg : string) (mine theirs : Amount)
    (msg : HandshakePayloadB) : result Error unit :=
  _ ← check (hs_my_contribution msg =? theirs)%N (Channel mine_msg);
  check (hs_their_contribution msg =? mine)%N (Channel theirs_msg).

Definition make_channel_state (env : ChannelEnv) (keys : ChannelPrivateKeys) (mine theirs : Amount)
    (unroll_timeout : Timeout) (reward_ph : PuzzleHash) (parent : CoinID) (start_potato : bool)
    (msg : HandshakePayloadB) : result Error (ChannelState * ChannelInitiationResult) :=
  _ ← check_payload " in handshake" "" msg;
  ChannelState_new env keys parent start_potato (hs_channel_public_key msg)
    (hs_unroll_public_key msg) (hs_referee_pubkey msg) (hs_reward_puzzle_hash msg)
    (reward_payout_signature msg) mine theirs unroll_timeout reward_ph.

(** The launcher a peer or a wallet names. *)
Definition check_launcher (launcher : CoinString) : result Error unit :=
  '(_, launcher_ph, _) ← get_coin_string_parts launcher;
  check (bool_decide (launcher_ph = mkPuzzleHash SINGLETON_LAUNCHER_HASH))
    (Channel "Launcher coin puzzle hash is not SINGLETON_LAUNCHER").

(** ** The funding *)

(** The digits of a [u64], the low byte first: eight are enough. *)
Fixpoint u64_low_bytes (fuel : nat) (h : N) : bytes :=
  match fuel with
  | O => []
  | S fuel => if (h =? 0)%N then [] else byte_of_N (N.land h 255) :: u64_low_bytes fuel (N.shiftr h 8)
  end.
Definition encode_u64_as_clvm_int (val : N) : bytes :=
  if (val =? 0)%N then []
  else
    let bytes := rev (u64_low_bytes 8 val) in
    match bytes with
    | b :: _ => if negb (N.land (Byte.to_N b) 128 =? 0)%N then x00 :: bytes else bytes
    | [] => bytes
    end.

Definition not_valid_after_height (last_height : N) (channel_timeout : Timeout) : option N :=
  Some (u64_add last_height channel_timeout).

Definition launcher_solution_node (channel_puzzle_hash : PuzzleHash) (total_amount : Amount) : sexp :=
  list_node [ph_node channel_puzzle_hash; num_node total_amount; nil_node].

Definition compute_coin_announcement_hash (launcher_coin_id : CoinID)
    (channel_puzzle_hash : PuzzleHash) (total_amount : Amount) : Hash :=
  let solution_tree_hash := tree_hash (launcher_solution_node channel_puzzle_hash total_amount) in
  Sha256Input_hash (Sha_Array [Sha_Bytes (CoinID_bytes launcher_coin_id);
                               Sha_Bytes (hash_bytes solution_tree_hash)]).

Definition assert_announcement (ann_hash : Hash) : RawCoinCondition :=
  mkRawCoinCondition ASSERT_COIN_ANNOUNCEMENT [hash_bytes ann_hash].

(** ** What the host sees *)
Definition handshake_snapshot (state : ChannelStatusKind) (advisory : option string)
    (ch : option ChannelState) : ChannelStatusSnapshot :=
  mkChannelStatusSnapshot state None advisory (channel_coin <$> ch)
    (my_out_of_game_balance <$> ch) (their_out_of_game_balance <$> ch)
    ((fun ch => amount ch true) <$> ch) None None None None.

Definition handshake_coins (ch : option ChannelState) : list (CoinOfInterest * CoinString) :=
  match ch with Some ch => [(ChannelCoin, channel_coin ch)] | None => [] end.

Definition register_channel_coin (ch : ChannelState) : Effect :=
  RegisterCoin (channel_coin ch) 1000000%N (Some "channel"%string) None None.
End base.
