(* ===== verification/HandshakeInitiator.v ===== *)
(** * The handshake of the player who opens the channel

    [src/session_phases/handshake_initiator.rs]: the initiator says who he is
    (A), checks the answer (B), names the launcher of the channel (C), checks
    the peer's first signatures (D), pays his half of the funding and sends it
    with his own signatures (E), and publishes what comes back (F).  When the
    channel coin is created the off-chain phase takes over. *)
From S2P Require Import Prelude Extern World Coins Clvm StandardCoin TransactionManager UnrollCoin.
From S2P Require Import GameHandler RefereeTypes Referee LiveGame ChannelState ChannelGames.
From S2P Require Import ChannelOnChain Effects OnChainPhase OnChainActions OnChainSpend HandlerBase.
From S2P Require Import SpendChannelCoin UnrollTransition OffChainPhase OffChainReceive HandshakeBase.

Section initiator.
Context {arch : Arch} {sha2 : Sha2} {bigint : BigInt} {clvm : Clvm} {bls : Bls}.
Context {puzzles : ChiaPuzzles} {order : HashOrder} {codec : PeerCodec} {singleton : LauncherPuzzle}.

Inductive InitiatorState : Type :=
| WaitingForStart
| SentA (mine : HandshakePayloadB)
| WaitingForLauncher (info : HandshakeStepInfo)
| SentC (info : HandshakeStepInfo)
| WaitingForOffer (info : HandshakeStepInfo) (our_sigs : StateUpdateSignatures)
| IniFinished (with_spend : HandshakeStepWithSpend)
| IniDone.

Record HandshakeInitiatorPhase := mkInitiator {
  ini_state : InitiatorState;
  ini_have_potato : PotatoState;
  ini_channel_state : option ChannelState;
  channel_initiation_transaction : option SpendBundle;
  ini_launcher_coin : option CoinString;
  ini_private_keys : ChannelPrivateKeys;
  ini_game_types : gmap GameType GameFactory;
  ini_my_contribution : Amount;
  ini_their_contribution : Amount;
  ini_channel_timeout : Timeout;
  ini_unroll_timeout : Timeout;
  ini_reward_puzzle_hash : PuzzleHash;
  ini_last_height : N;
  ini_channel_deadline : option N;
  ini_pending_coin_spend : bool;
  ini_waiting_to_start : bool;
  transaction_pushed : bool;
  ini_incoming_messages : list PeerMessage;
  ini_last_channel_coin_spend_info : option ChannelCoinSpendInfo;
  ini_failed : bool;
  ini_failure_advisory : option string;
  ini_replacement : option OffChainPhase;
}.
#[export] Instance HandshakeInitiatorPhase_eta : RecordEta HandshakeInitiatorPhase := fun p =>
  mkInitiator (ini_state p) (ini_have_potato p) (ini_channel_state p)
    (channel_initiation_transaction p) (ini_launcher_coin p) (ini_private_keys p) (ini_game_types p)
    (ini_my_contribution p) (ini_their_contribution p) (ini_channel_timeout p)
    (ini_unroll_timeout p) (ini_reward_puzzle_hash p) (ini_last_height p) (ini_channel_deadline p)
    (ini_pending_coin_spend p) (ini_waiting_to_start p) (transaction_pushed p)
    (ini_incoming_messages p) (ini_last_channel_coin_spend_info p) (ini_failed p)
    (ini_failure_advisory p) (ini_replacement p).

Definition Initiator_new (phi : OffChainPhaseInit) : HandshakeInitiatorPhase :=
  mkInitiator WaitingForStart Present None None None (phi_private_keys phi) (phi_game_types phi)
    (phi_my_contribution phi) (phi_their_contribution phi) (phi_channel_timeout phi)
    (phi_unroll_timeout phi) (phi_reward_puzzle_hash phi) 0 None false true false [] None false None
    None.

Definition ini_ch (p : HandshakeInitiatorPhase) : result Error ChannelState :=
  ok_or (StrErr "initiator handshake: no channel handler yet") (ini_channel_state p).
(** [self.channel_state_mut()?.op()?] *)
Definition ini_on_ch {A} (op : eff ChannelState A) : eff HandshakeInitiatorPhase A := fun p =>
  match ini_ch p with
  | Err e => (Err e, p)
  | Ok ch => let '(r, ch') := op ch in (r, p <| ini_channel_state := Some ch' |>)
  end.

Definition ini_start : eff HandshakeInitiatorPhase (list Effect) :=
  p ← get_state;
  _ ← guard_or (match ini_state p with WaitingForStart => true | _ => false end)
        (StrErr "start: expected WaitingForStart state");
  mine ← lift_result (my_handshake_b (ini_private_keys p) (ini_reward_puzzle_hash p)
                        (ini_my_contribution p) (ini_their_contribution p));
  _ ← put_state (p <| ini_state := SentA mine |>);
  mret [PeerHandshakeA mine].

(** ** The funding *)
Definition ini_not_valid_after (p : HandshakeInitiatorPhase) : option N :=
  not_valid_after_height (ini_last_height p) (ini_channel_timeout p).

Definition get_launcher_coin (p : HandshakeInitiatorPhase) : result Error CoinString :=
  ok_or (StrErr "launcher_coin not set") (ini_launcher_coin p).

Definition build_launcher_coin_spend (p : HandshakeInitiatorPhase) : result Error CoinSpend :=
  ch ← ini_ch p;
  '(_, channel_puzzle_hash, total_amount) ← get_coin_string_parts (channel_coin ch);
  launcher ← get_launcher_coin p;
  launcher_solution ← Program_from_nodeptr (launcher_solution_node channel_puzzle_hash total_amount);
  mret (mkCoinSpend launcher
          (mkSpend (mkPuzzle (mkProgram SINGLETON_LAUNCHER)) launcher_solution sig_default)).

(** The initiator makes the launcher out of the coin that is its parent. *)
Definition build_alice_coin_spend_request (p : HandshakeInitiatorPhase)
    : result Error CoinSpendRequest :=
  ch ← ini_ch p;
  '(_, channel_puzzle_hash, total_amount) ← get_coin_string_parts (channel_coin ch);
  launcher ← get_launcher_coin p;
  '(launcher_parent, _, _) ← get_coin_string_parts launcher;
  let ann_hash := compute_coin_announcement_hash (to_coin_id launcher) channel_puzzle_hash
                    total_amount in
  mret (mkCoinSpendRequest (ini_my_contribution p)
          [mkRawCoinCondition CREATE_COIN
             [hash_bytes SINGLETON_LAUNCHER_HASH; encode_u64_as_clvm_int 0];
           assert_announcement ann_hash]
          (Some launcher_parent) (ini_not_valid_after p)).

(** Ask for the funding, if the height is known; else when it will be. *)
Definition ini_request_funding : eff HandshakeInitiatorPhase (list Effect) :=
  p ← get_state;
  request ← lift_result (build_alice_coin_spend_request p);
  _ ← put_state (p <| ini_channel_deadline := ini_not_valid_after p |>);
  mret [EffNeedCoinSpend request].

(** ** The next phase *)
Definition ini_try_transition_to_potato : eff HandshakeInitiatorPhase unit :=
  p ← get_state;
  match ini_replacement p, ini_waiting_to_start p, ini_state p with
  | None, false, IniFinished _ =>
      ch ← lift_result (ok_or (Panicked "channel handler must exist at Finished")
                          (ini_channel_state p));
      put_state (p <| ini_channel_state := None |> <| ini_incoming_messages := [] |>
                   <| ini_have_potato := Absent |> <| ini_last_channel_coin_spend_info := None |>
                   <| ini_replacement := Some (from_completed_handshake true ch (ini_have_potato p)
                        (ini_game_types p) (ini_private_keys p) (ini_my_contribution p)
                        (ini_their_contribution p) (ini_channel_timeout p) (ini_unroll_timeout p)
                        (ini_reward_puzzle_hash p) (ini_incoming_messages p)
                        (ini_last_channel_coin_spend_info p)) |>
                   <| ini_state := IniDone |>)
  | _, _, _ => mret tt
  end.

Definition ini_take_next_phase : eff HandshakeInitiatorPhase (option OffChainPhase) :=
  p ← get_state;
  _ ← put_state (p <| ini_replacement := None |>);
  mret (ini_replacement p).

(** ** Messages *)
Definition ini_put_back (msg : PeerMessage) : eff HandshakeInitiatorPhase (list Effect) :=
  _ ← modify_state (fun p => p <| ini_incoming_messages := msg :: ini_incoming_messages p |>);
  mret [].

Definition ini_receive_b (mine msg : HandshakePayloadB) : eff HandshakeInitiatorPhase (list Effect) :=
  p ← get_state;
  _ ← lift_result (check_payload " in HandshakeB" " in HandshakeB" msg);
  _ ← lift_result (check_contributions "HandshakeB contribution mismatch: peer claims my_contribution"
                     "HandshakeB contribution mismatch: peer claims their_contribution"
                     (ini_my_contribution p) (ini_their_contribution p) msg);
  let aggregate_pk := pk_add
    (private_to_public_key (my_channel_coin_private_key (ini_private_keys p)))
    (hs_channel_public_key msg) in
  _ ← put_state (p <| ini_state := WaitingForLauncher (mkHandshakeStepInfo mine msg) |>);
  mret [ChannelPuzzleHash (puzzle_hash_for_synthetic_public_key aggregate_pk); NeedLauncherCoinId].

Definition ini_receive_d (env : ChannelEnv) (info : HandshakeStepInfo) (msg : HandshakePayloadD)
    : eff HandshakeInitiatorPhase (list Effect) :=
  p ← get_state;
  our_sigs ← lift_result (ch ← ini_ch p; get_initial_signatures ch);
  spend_info ← catch (ini_on_ch (verify_and_store_initial_peer_signatures env (d_signatures msg)))
    (fun _ => throw (StrErr "initiator step D: verify/store initial peer signatures failed"));
  _ ← modify_state (fun p => p <| ini_last_channel_coin_spend_info := Some spend_info |>);
  effects ← (if (0 <? ini_last_height p)%N then ini_request_funding
             else _ ← modify_state (fun p => p <| ini_pending_coin_spend := true |>); mret []);
  _ ← modify_state (fun p => p <| ini_state := WaitingForOffer info our_sigs |>);
  mret effects.

Definition ini_receive_f (msg : HandshakePayloadF) : eff HandshakeInitiatorPhase (list Effect) :=
  p ← get_state;
  _ ← put_state (p <| transaction_pushed := true |>);
  mret [SpendTransaction (f_bundle msg) (ini_channel_deadline p)].

Definition ini_handle (env : ChannelEnv) (msg : PeerMessage)
    : eff HandshakeInitiatorPhase (list Effect) :=
  p ← get_state;
  match ini_state p, msg with
  | WaitingForStart, _ =>
      throw (StrErr "initiator WaitingForStart: unexpected message before start")
  | SentA mine, HandshakeB msg => ini_receive_b mine msg
  | SentA _, _ => throw (StrErr "Expected handshake B message")
  | WaitingForLauncher _, msg => ini_put_back msg
  | SentC info, HandshakeD msg => ini_receive_d env info msg
  | SentC _, _ => throw (StrErr "Expected handshake D message")
  | WaitingForOffer _ _, msg => ini_put_back msg
  | IniFinished _, HandshakeF msg => ini_receive_f msg
  | IniFinished _, msg => ini_put_back msg
  | IniDone, msg => ini_put_back msg
  end.

Definition Initiator_process_queued_message (env : ChannelEnv)
    : eff HandshakeInitiatorPhase (list Effect) :=
  p ← get_state;
  match ini_incoming_messages p with
  | [] => mret []
  | msg :: rest =>
      _ ← put_state (p <| ini_incoming_messages := rest |>);
      effects ← ini_handle env msg;
      _ ← ini_try_transition_to_potato;
      mret effects
  end.

Definition Initiator_received_message (env : ChannelEnv) (msg : bytes)
    : eff HandshakeInitiatorPhase (list Effect) :=
  _ ← guard_or (negb (MAX_MESSAGE_SIZE <? N.of_nat (length msg))%N) (StrErr "message too large");
  envelope ← lift_result (decode_peer_message msg);
  _ ← modify_state (fun p => p <| ini_incoming_messages := ini_incoming_messages p ++ [envelope] |>);
  Initiator_process_queued_message env.

(** ** The host and the chain *)
Definition Initiator_coin_created : eff HandshakeInitiatorPhase (option (list Effect)) :=
  p ← get_state;
  match ini_waiting_to_start p, ini_channel_state p with
  | true, Some _ =>
      _ ← put_state (p <| ini_waiting_to_start := false |>);
      _ ← ini_try_transition_to_potato;
      mret (Some [EffLog "[channel-created]"])
  | _, _ => mret None
  end.

Definition Initiator_go_on_chain : eff HandshakeInitiatorPhase (list Effect) :=
  _ ← modify_state (fun p => p <| ini_failed := true |>); mret [].
Definition Initiator_wallet_callback_failed (reason : string) : eff HandshakeInitiatorPhase unit :=
  modify_state (fun p => p <| ini_failed := true |> <| ini_failure_advisory := Some reason |>).

Definition Initiator_new_block (height : N) : eff HandshakeInitiatorPhase (list Effect) :=
  p ← get_state;
  _ ← put_state (p <| ini_last_height := height |>);
  if ini_pending_coin_spend p && (0 <? height)%N then
    _ ← modify_state (fun p => p <| ini_pending_coin_spend := false |>);
    ini_request_funding
  else mret [].

Definition try_send_step_e (info : HandshakeStepInfo) (our_sigs : StateUpdateSignatures)
    : eff HandshakeInitiatorPhase (option Effect) :=
  p ← get_state;
  match channel_initiation_transaction p with
  | Some spend =>
      _ ← put_state (p <| ini_state := IniFinished (mkHandshakeStepWithSpend info spend) |>);
      mret (Some (PeerHandshakeE (mkHandshakePayloadE spend our_sigs)))
  | None => mret None
  end.

Definition Initiator_channel_offer (bundle : SpendBundle)
    : eff HandshakeInitiatorPhase (option Effect) :=
  _ ← modify_state (fun p => p <| channel_initiation_transaction := Some bundle |>);
  p ← get_state;
  match ini_state p with
  | WaitingForOffer info sigs =>
      result ← try_send_step_e info sigs;
      _ ← ini_try_transition_to_potato;
      mret result
  | _ => mret None
  end.

Definition Initiator_provide_launcher_coin (env : ChannelEnv) (launcher : CoinString)
    : eff HandshakeInitiatorPhase (list Effect) :=
  p ← get_state;
  match ini_state p with
  | WaitingForLauncher info =>
      _ ← lift_result (check_launcher launcher);
      '(ch, _) ← lift_result (make_channel_state env (ini_private_keys p) (ini_my_contribution p)
                   (ini_their_contribution p) (ini_unroll_timeout p) (ini_reward_puzzle_hash p)
                   (to_coin_id launcher) false (second_player_hs_info info));
      _ ← put_state (p <| ini_channel_state := Some ch |> <| ini_launcher_coin := Some launcher |>
                       <| ini_state := SentC info |>);
      mret [register_channel_coin ch; PeerHandshakeC (mkHandshakePayloadC launcher)]
  | _ => throw (StrErr "provide_launcher_coin: not in WaitingForLauncher state")
  end.

Definition Initiator_provide_coin_spend_bundle (wallet_bundle : SpendBundle)
    : eff HandshakeInitiatorPhase (list Effect) :=
  p ← get_state;
  bundle ← (match ini_state p with
            | WaitingForOffer _ _ =>
                launcher_spend ← lift_result (build_launcher_coin_spend p);
                mret (mkSpendBundle None (spends wallet_bundle ++ [launcher_spend]))
            | _ => mret wallet_bundle
            end);
  effect ← Initiator_channel_offer bundle;
  mret (option_list effect).

Definition Initiator_status_snapshot (p : HandshakeInitiatorPhase) : option ChannelStatusSnapshot :=
  let ch := ini_channel_state p in
  if ini_failed p then Some (handshake_snapshot Failed (ini_failure_advisory p) ch)
  else if ini_pending_coin_spend p then Some (handshake_snapshot WaitingForHeightToOffer None ch)
  else
    match ini_state p with
    | WaitingForStart | SentA _ | WaitingForLauncher _ | SentC _ =>
        Some (handshake_snapshot Handshaking None ch)
    | WaitingForOffer _ _ => Some (handshake_snapshot OurWalletMakingOffer None ch)
    | IniFinished _ =>
        Some (handshake_snapshot (if transaction_pushed p then TransactionPending else OfferSent)
                None ch)
    | IniDone => None
    end.
End initiator.
