(* ===== verification/HandshakeReceiver.v ===== *)
(** * The handshake of the player who joins the channel

    [src/session_phases/handshake_receiver.rs]: the receiver checks who the
    initiator says he is (A) and answers (B), makes the channel when the
    launcher is named (C) and signs its first state (D), checks the initiator's
    signatures (E), pays his half of the funding and sends the whole of it back
    (F).  When the channel coin is created the off-chain phase takes over. *)
From S2P Require Import Prelude Extern World Coins Clvm StandardCoin TransactionManager UnrollCoin.
From S2P Require Import GameHandler RefereeTypes Referee LiveGame ChannelState ChannelGames.
From S2P Require Import ChannelOnChain Effects OnChainPhase OnChainActions OnChainSpend HandlerBase.
From S2P Require Import SpendChannelCoin UnrollTransition OffChainPhase OffChainReceive HandshakeBase.

Section receiver.
Context {arch : Arch} {sha2 : Sha2} {bigint : BigInt} {clvm : Clvm} {bls : Bls}.
Context {puzzles : ChiaPuzzles} {order : HashOrder} {codec : PeerCodec} {singleton : LauncherPuzzle}.

Inductive ReceiverState : Type :=
| WaitingForA
| SentB (info : HandshakeStepInfo)
| SentD (info : HandshakeStepInfo)
| WaitingForCompletion (info : HandshakeStepInfo) (alice_bundle : SpendBundle)
| RecFinished (with_spend : HandshakeStepWithSpend)
| RecDone.

Record HandshakeReceiverPhase := mkReceiver {
  rec_state : ReceiverState;
  rec_have_potato : PotatoState;
  rec_channel_state : option ChannelState;
  channel_finished_transaction : option SpendBundle;
  rec_launcher_coin : option CoinString;
  rec_private_keys : ChannelPrivateKeys;
  rec_game_types : gmap GameType GameFactory;
  rec_my_contribution : Amount;
  rec_their_contribution : Amount;
  rec_channel_timeout : Timeout;
  rec_unroll_timeout : Timeout;
  rec_reward_puzzle_hash : PuzzleHash;
  rec_last_height : N;
  rec_channel_deadline : option N;
  rec_pending_coin_spend : bool;
  rec_waiting_to_start : bool;
  rec_incoming_messages : list PeerMessage;
  rec_last_channel_coin_spend_info : option ChannelCoinSpendInfo;
  rec_failed : bool;
  rec_failure_advisory : option string;
  rec_replacement : option OffChainPhase;
}.
#[export] Instance HandshakeReceiverPhase_eta : RecordEta HandshakeReceiverPhase := fun p =>
  mkReceiver (rec_state p) (rec_have_potato p) (rec_channel_state p)
    (channel_finished_transaction p) (rec_launcher_coin p) (rec_private_keys p) (rec_game_types p)
    (rec_my_contribution p) (rec_their_contribution p) (rec_channel_timeout p)
    (rec_unroll_timeout p) (rec_reward_puzzle_hash p) (rec_last_height p) (rec_channel_deadline p)
    (rec_pending_coin_spend p) (rec_waiting_to_start p) (rec_incoming_messages p)
    (rec_last_channel_coin_spend_info p) (rec_failed p) (rec_failure_advisory p)
    (rec_replacement p).

Definition Receiver_new (phi : OffChainPhaseInit) : HandshakeReceiverPhase :=
  mkReceiver WaitingForA Absent None None None (phi_private_keys phi) (phi_game_types phi)
    (phi_my_contribution phi) (phi_their_contribution phi) (phi_channel_timeout phi)
    (phi_unroll_timeout phi) (phi_reward_puzzle_hash phi) 0 None false true [] None false None None.

Definition rec_ch (p : HandshakeReceiverPhase) : result Error ChannelState :=
  ok_or (StrErr "receiver handshake: no channel handler yet") (rec_channel_state p).
(** [self.channel_state_mut()?.op()?] *)
Definition rec_on_ch {A} (op : eff ChannelState A) : eff HandshakeReceiverPhase A := fun p =>
  match rec_ch p with
  | Err e => (Err e, p)
  | Ok ch => let '(r, ch') := op ch in (r, p <| rec_channel_state := Some ch' |>)
  end.

Definition try_send_step_f (info : HandshakeStepInfo) : eff HandshakeReceiverPhase (list Effect) :=
  p ← get_state;
  match channel_finished_transaction p with
  | Some spend =>
      _ ← put_state (p <| rec_state := RecFinished (mkHandshakeStepWithSpend info spend) |>);
      mret [PeerHandshakeF (mkHandshakePayloadF spend)]
  | None => mret []
  end.

(** ** The funding *)
Definition rec_not_valid_after (p : HandshakeReceiverPhase) : option N :=
  not_valid_after_height (rec_last_height p) (rec_channel_timeout p).

Definition rec_get_launcher_coin (p : HandshakeReceiverPhase) : result Error CoinString :=
  ok_or (StrErr "launcher_coin not set") (rec_launcher_coin p).

(** The receiver pays into the same announcement, from any coin. *)
Definition build_bob_coin_spend_request (p : HandshakeReceiverPhase)
    : result Error CoinSpendRequest :=
  ch ← rec_ch p;
  '(_, channel_puzzle_hash, total_amount) ← get_coin_string_parts (channel_coin ch);
  launcher ← rec_get_launcher_coin p;
  let ann_hash := compute_coin_announcement_hash (to_coin_id launcher) channel_puzzle_hash
                    total_amount in
  mret (mkCoinSpendRequest (rec_my_contribution p) [assert_announcement ann_hash] None
          (rec_not_valid_after p)).

Definition rec_request_funding : eff HandshakeReceiverPhase (list Effect) :=
  p ← get_state;
  request ← lift_result (build_bob_coin_spend_request p);
  _ ← put_state (p <| rec_channel_deadline := rec_not_valid_after p |>);
  mret [EffNeedCoinSpend request].

(** ** The next phase *)
Definition rec_try_transition_to_potato : eff HandshakeReceiverPhase unit :=
  p ← get_state;
  match rec_replacement p, rec_waiting_to_start p, rec_state p with
  | None, false, RecFinished _ =>
      ch ← lift_result (ok_or (Panicked "channel handler must exist at Finished")
                          (rec_channel_state p));
      put_state (p <| rec_channel_state := None |> <| rec_incoming_messages := [] |>
                   <| rec_have_potato := Absent |> <| rec_last_channel_coin_spend_info := None |>
                   <| rec_replacement := Some (from_completed_handshake false ch (rec_have_potato p)
                        (rec_game_types p) (rec_private_keys p) (rec_my_contribution p)
                        (rec_their_contribution p) (rec_channel_timeout p) (rec_unroll_timeout p)
                        (rec_reward_puzzle_hash p) (rec_incoming_messages p)
                        (rec_last_channel_coin_spend_info p)) |>
                   <| rec_state := RecDone |>)
  | _, _, _ => mret tt
  end.

Definition rec_take_next_phase : eff HandshakeReceiverPhase (option OffChainPhase) :=
  p ← get_state;
  _ ← put_state (p <| rec_replacement := None |>);
  mret (rec_replacement p).

(** ** Messages *)
Definition rec_put_back (msg : PeerMessage) : eff HandshakeReceiverPhase (list Effect) :=
  _ ← modify_state (fun p => p <| rec_incoming_messages := msg :: rec_incoming_messages p |>);
  mret [].

Definition rec_receive_a (msg : HandshakePayloadB) : eff HandshakeReceiverPhase (list Effect) :=
  p ← get_state;
  _ ← lift_result (check_payload " in HandshakeA" " in HandshakeA" msg);
  _ ← lift_result (check_contributions "HandshakeA contribution mismatch: peer claims my_contribution"
                     "HandshakeA contribution mismatch: peer claims their_contribution"
                     (rec_my_contribution p) (rec_their_contribution p) msg);
  mine ← lift_result (my_handshake_b (rec_private_keys p) (rec_reward_puzzle_hash p)
                        (rec_my_contribution p) (rec_their_contribution p));
  _ ← put_state (p <| rec_state := SentB (mkHandshakeStepInfo msg mine) |>);
  mret [PeerHandshakeB mine].

(** The state is taken out before the channel is made: when that fails, the
    phase waits for A again. *)
Definition rec_receive_c (env : ChannelEnv) (info : HandshakeStepInfo) (msg : HandshakePayloadC)
    : eff HandshakeReceiverPhase (list Effect) :=
  _ ← lift_result (check_launcher (launcher_coin msg));
  _ ← modify_state (fun p => p <| rec_state := WaitingForA |>);
  p ← get_state;
  '(ch, _) ← lift_result (make_channel_state env (rec_private_keys p) (rec_my_contribution p)
               (rec_their_contribution p) (rec_unroll_timeout p) (rec_reward_puzzle_hash p)
               (to_coin_id (launcher_coin msg)) true (first_player_hs_info info));
  sigs ← lift_result (get_initial_signatures ch);
  _ ← put_state (p <| rec_launcher_coin := Some (launcher_coin msg) |>
                   <| rec_channel_state := Some ch |>
                   <| rec_last_channel_coin_spend_info := None |>
                   <| rec_state := SentD info |>);
  mret [EffLog "[recv]"; register_channel_coin ch; PeerHandshakeD (mkHandshakePayloadD sigs)].

Definition rec_receive_e (env : ChannelEnv) (info : HandshakeStepInfo) (msg : HandshakePayloadE)
    : eff HandshakeReceiverPhase (list Effect) :=
  spend_info ← catch (rec_on_ch (verify_and_store_initial_peer_signatures env (e_signatures msg)))
    (fun _ => throw (StrErr "receiver step E: verify/store initial peer signatures failed"));
  _ ← modify_state (fun p => p <| rec_last_channel_coin_spend_info := Some spend_info |>);
  p ← get_state;
  effects ← (if (0 <? rec_last_height p)%N then rec_request_funding
             else _ ← modify_state (fun p => p <| rec_pending_coin_spend := true |>); mret []);
  _ ← guard_or (negb (bool_decide (length (spends (e_bundle msg)) = 0)))
        (StrErr "No spends to draw the channel coin from");
  _ ← modify_state (fun p => p <| rec_state := WaitingForCompletion info (e_bundle msg) |>);
  step_f ← try_send_step_f info;
  mret (effects ++ step_f).

Definition rec_handle (env : ChannelEnv) (msg : PeerMessage)
    : eff HandshakeReceiverPhase (list Effect) :=
  p ← get_state;
  match rec_state p, msg with
  | WaitingForA, HandshakeA msg => rec_receive_a msg
  | WaitingForA, _ => throw (StrErr "Expected handshake A message")
  | SentB info, HandshakeC msg => rec_receive_c env info msg
  | SentB _, _ => throw (StrErr "Expected handshake C message")
  | SentD info, HandshakeE msg => rec_receive_e env info msg
  | SentD _, msg => rec_put_back msg
  | WaitingForCompletion _ _, msg => rec_put_back msg
  | RecFinished _, msg => rec_put_back msg
  | RecDone, msg => rec_put_back msg
  end.

(** Where the code returns early, for a message that is not E in [SentD], there
    is no transition to try: the handshake is not finished. *)
Definition Receiver_process_queued_message (env : ChannelEnv)
    : eff HandshakeReceiverPhase (list Effect) :=
  p ← get_state;
  match rec_incoming_messages p with
  | [] => mret []
  | msg :: rest =>
      _ ← put_state (p <| rec_incoming_messages := rest |>);
      effects ← rec_handle env msg;
      _ ← rec_try_transition_to_potato;
      mret effects
  end.

Definition Receiver_received_message (env : ChannelEnv) (msg : bytes)
    : eff HandshakeReceiverPhase (list Effect) :=
  _ ← guard_or (negb (MAX_MESSAGE_SIZE <? N.of_nat (length msg))%N) (StrErr "message too large");
  envelope ← lift_result (decode_peer_message msg);
  _ ← modify_state (fun p => p <| rec_incoming_messages := rec_incoming_messages p ++ [envelope] |>);
  Receiver_process_queued_message env.

(** ** The host and the chain *)
Definition Receiver_coin_created : eff HandshakeReceiverPhase (option (list Effect)) :=
  p ← get_state;
  match rec_waiting_to_start p, rec_channel_state p with
  | true, Some _ =>
      _ ← put_state (p <| rec_waiting_to_start := false |>);
      step_f ← (match rec_state p with
                | WaitingForCompletion info _ => try_send_step_f info
                | _ => mret []
                end);
      _ ← rec_try_transition_to_potato;
      mret (Some (step_f ++ [EffLog "[channel-created]"]))
  | _, _ => mret None
  end.

Definition Receiver_go_on_chain : eff HandshakeReceiverPhase (list Effect) :=
  _ ← modify_state (fun p => p <| rec_failed := true |>); mret [].
Definition Receiver_wallet_callback_failed (reason : string) : eff HandshakeReceiverPhase unit :=
  modify_state (fun p => p <| rec_failed := true |> <| rec_failure_advisory := Some reason |>).

Definition Receiver_new_block (height : N) : eff HandshakeReceiverPhase (list Effect) :=
  p ← get_state;
  _ ← put_state (p <| rec_last_height := height |>);
  if rec_pending_coin_spend p && (0 <? height)%N then
    _ ← modify_state (fun p => p <| rec_pending_coin_spend := false |>);
    rec_request_funding
  else mret [].

Definition Receiver_channel_transaction_completion (bundle : SpendBundle)
    : eff HandshakeReceiverPhase (list Effect) :=
  p ← get_state;
  _ ← put_state (p <| channel_finished_transaction := Some bundle |>);
  match rec_state p with
  | WaitingForCompletion info _ =>
      result ← try_send_step_f info;
      _ ← rec_try_transition_to_potato;
      mret result
  | _ => mret []
  end.

Definition Receiver_provide_coin_spend_bundle (wallet_bundle : SpendBundle)
    : eff HandshakeReceiverPhase (list Effect) :=
  p ← get_state;
  match rec_state p with
  | WaitingForCompletion _ alice_bundle =>
      let final_bundle := mkSpendBundle None (spends alice_bundle ++ spends wallet_bundle) in
      effects ← Receiver_channel_transaction_completion final_bundle;
      p ← get_state;
      mret (effects ++ [SpendTransaction final_bundle (rec_channel_deadline p)])
  | _ => Receiver_channel_transaction_completion wallet_bundle
  end.

Definition Receiver_status_snapshot (p : HandshakeReceiverPhase) : option ChannelStatusSnapshot :=
  let ch := rec_channel_state p in
  if rec_failed p then Some (handshake_snapshot Failed (rec_failure_advisory p) ch)
  else if rec_pending_coin_spend p then Some (handshake_snapshot WaitingForHeightToAccept None ch)
  else
    match rec_state p with
    | WaitingForA | SentB _ | SentD _ => Some (handshake_snapshot Handshaking None ch)
    | WaitingForCompletion _ _ => Some (handshake_snapshot OurWalletMakingOfferAcceptance None ch)
    | RecFinished _ => Some (handshake_snapshot TransactionPending None ch)
    | RecDone => None
    end.
End receiver.
