(* ===== verification/PeerPhase.v ===== *)
(** * The phase of a session

    The trait [PeerLifecyclePhase] of [src/game_session.rs] and its five
    implementations: a session owns one phase at a time, of whatever kind, and
    calls it through the trait.  A trait object is a value of the sum of the
    kinds; a method of the trait dispatches to the kind's own, or to the
    trait's default. *)
From S2P Require Import Prelude Extern World Coins Clvm StandardCoin TransactionManager UnrollCoin.
From S2P Require Import GameHandler RefereeTypes Referee LiveGame ChannelState ChannelGames.
From S2P Require Import ChannelOnChain Effects OnChainPhase OnChainActions OnChainSpend HandlerBase.
From S2P Require Import SpendChannelCoin UnrollTransition OffChainPhase OffChainReceive HandshakeBase.
From S2P Require Import HandshakeInitiator HandshakeReceiver.

Section phase.
Context {arch : Arch} {sha2 : Sha2} {bigint : BigInt} {clvm : Clvm} {bls : Bls}.
Context {puzzles : ChiaPuzzles} {order : HashOrder} {codec : PeerCodec} {singleton : LauncherPuzzle}.

(** [Box<dyn PeerLifecyclePhase>] *)
Inductive Peer : Type :=
| Initiator (p : HandshakeInitiatorPhase)
| Receiver (p : HandshakeReceiverPhase)
| OffChain (p : OffChainPhase)
| Spending (p : SpendChannelCoinPhase)
| OnChain (p : OnChainPhase).

Definition in_phase {P A} (kind : P -> Peer) (op : eff P A) (p : P) : result Error A * Peer :=
  let '(r, p') := op p in (r, kind p').
(** A method that leaves the phase as it is. *)
Definition observed {A} (r : result Error A) (peer : Peer) : result Error A * Peer := (r, peer).

(** The phase a session begins with. *)
Definition new_peer (phi : OffChainPhaseInit) : Peer :=
  if phi_have_potato phi then Initiator (Initiator_new phi) else Receiver (Receiver_new phi).

(** ** Messages *)
Definition has_queued_message (peer : Peer) : bool :=
  match peer with
  | Initiator p => negb (bool_decide (length (ini_incoming_messages p) = 0))
  | Receiver p => negb (bool_decide (length (rec_incoming_messages p) = 0))
  | OffChain p => OffChainPhase.has_queued_message p
  | Spending _ | OnChain _ => false
  end.
Definition process_queued_message (env : ChannelEnv) : eff Peer (list Effect) := fun peer =>
  match peer with
  | Initiator p => in_phase Initiator (Initiator_process_queued_message env) p
  | Receiver p => in_phase Receiver (Receiver_process_queued_message env) p
  | OffChain p => in_phase OffChain (OffChainReceive.process_queued_message env) p
  | Spending _ | OnChain _ => observed (Ok []) peer
  end.
Definition received_message (env : ChannelEnv) (msg : bytes) : eff Peer (list Effect) := fun peer =>
  match peer with
  | Initiator p => in_phase Initiator (Initiator_received_message env msg) p
  | Receiver p => in_phase Receiver (Receiver_received_message env msg) p
  | OffChain p => in_phase OffChain (OffChainPhase_received_message env msg) p
  | Spending _ => observed (received_message_passive msg) peer
  | OnChain _ => observed (Ok []) peer
  end.

(** ** Actions that wait *)
Definition has_queued_action (peer : Peer) : bool :=
  match peer with OnChain p => OnChainActions.has_queued_action p | _ => false end.
Definition process_queued_action : eff Peer (list Effect) := fun peer =>
  match peer with
  | OnChain p => in_phase OnChain OnChainActions.process_queued_action p
  | _ => observed (Ok []) peer
  end.
Definition flush_pending_actions (env : ChannelEnv) : eff Peer (list Effect) := fun peer =>
  match peer with
  | OffChain p => in_phase OffChain (OffChainPhase.flush_pending_actions env) p
  | _ => observed (Ok []) peer
  end.
Definition take_failed_queued_action : eff Peer (option (GameID * FailedGameAction)) := fun peer =>
  match peer with
  | OffChain p => in_phase OffChain OffChainPhase.take_failed_queued_action p
  | _ => observed (Ok None) peer
  end.

(** ** The chain *)
Definition coin_created : eff Peer (option (list Effect)) := fun peer =>
  match peer with
  | Initiator p => in_phase Initiator Initiator_coin_created p
  | Receiver p => in_phase Receiver Receiver_coin_created p
  | OffChain _ | Spending _ | OnChain _ => observed (Ok None) peer
  end.
Definition coin_spent (coin_id : CoinString) : eff Peer (list Effect) := fun peer =>
  match peer with
  | Initiator _ => observed (Ok [EffLog "[initiator-handshake:coin-spent]"]) peer
  | Receiver _ => observed (Ok [EffLog "[receiver-handshake:coin-spent]"]) peer
  | OffChain p => in_phase OffChain (OffChainPhase_coin_spent coin_id) p
  | Spending p => in_phase Spending (SpendChannelCoinPhase_coin_spent coin_id) p
  | OnChain p => observed (Ok (OnChainPhase_coin_spent p coin_id)) peer
  end.
Definition coin_puzzle_and_solution (env : ChannelEnv) (coin_id : CoinString)
    (puzzle_and_solution : option (Program * Program))
    : eff Peer (list Effect * option ResyncInfo) := fun peer =>
  match peer with
  | Initiator _ => observed (Ok ([EffLog "[initiator-handshake:coin-puzzle]"], None)) peer
  | Receiver _ => observed (Ok ([EffLog "[receiver-handshake:coin-puzzle]"], None)) peer
  | OffChain _ => observed (Ok ([], None)) peer
  | Spending p => in_phase Spending
      (effects ← SpendChannelCoinPhase_coin_puzzle_and_solution env coin_id puzzle_and_solution;
       mret (effects, None)) p
  | OnChain p => in_phase OnChain (OnChainPhase_coin_puzzle_and_solution coin_id puzzle_and_solution) p
  end.
Definition new_block (height : N) : eff Peer (list Effect) := fun peer =>
  match peer with
  | Initiator p => in_phase Initiator (Initiator_new_block height) p
  | Receiver p => in_phase Receiver (Receiver_new_block height) p
  | OffChain _ | Spending _ | OnChain _ => observed (Ok []) peer
  end.

(** ** The player *)
Definition make_move (id : GameID) (readable : ReadableMove) (entropy : Hash)
    : eff Peer (list Effect) := fun peer =>
  match peer with
  | Initiator _ | Receiver _ => observed (Err (StrErr "make_move not available during handshake")) peer
  | OffChain p => in_phase OffChain (OffChainPhase_make_move id readable entropy) p
  | Spending p => in_phase Spending (_ ← on_base (park_move id readable entropy); mret []) p
  | OnChain p => in_phase OnChain (OnChainPhase_make_move id readable entropy) p
  end.
Definition accept_settlement (id : GameID) : eff Peer (list Effect) := fun peer =>
  match peer with
  | Initiator _ | Receiver _ =>
      observed (Err (StrErr "accept_settlement not available during handshake")) peer
  | OffChain p => in_phase OffChain (OffChainPhase_accept_settlement id) p
  | Spending p => in_phase Spending (_ ← on_base (park_accept_settlement id); mret []) p
  | OnChain p => in_phase OnChain (OnChainPhase_accept_settlement id) p
  end.
Definition cheat_game (id : GameID) (share : Amount) (entropy : Hash) : eff Peer (list Effect) :=
  fun peer =>
  match peer with
  | Initiator _ | Receiver _ => observed (Err (StrErr "cheat_game not available during handshake")) peer
  | OffChain p => in_phase OffChain (OffChainPhase_cheat_game id share entropy) p
  | Spending p => in_phase Spending (_ ← on_base (park_cheat id share entropy); mret []) p
  | OnChain p => in_phase OnChain (OnChainPhase_cheat_game id share entropy) p
  end.
Definition propose_games (games : list GameProposal) : eff Peer (list GameID * list Effect) :=
  fun peer =>
  match peer with
  | OffChain p => in_phase OffChain (OffChainReceive.propose_games games) p
  | _ => observed (Err (StrErr "propose_games: not in off-chain phase")) peer
  end.
Definition accept_proposal (id : GameID) : eff Peer (list Effect) := fun peer =>
  match peer with
  | OffChain p => in_phase OffChain (OffChainPhase_accept_proposal id) p
  | _ => observed (Err (StrErr "accept_proposal: not in off-chain phase")) peer
  end.
Definition cancel_proposal (id : GameID) : eff Peer (list Effect) := fun peer =>
  match peer with
  | OffChain p => in_phase OffChain (OffChainPhase_cancel_proposal id) p
  | _ => observed (Err (StrErr "cancel_proposal: not in off-chain phase")) peer
  end.
Definition shut_down : eff Peer (list Effect) := fun peer =>
  match peer with
  | OffChain p => in_phase OffChain OffChainReceive.shut_down p
  | _ => observed (Err (StrErr "shut_down: not in off-chain phase")) peer
  end.
Definition go_on_chain (env : ChannelEnv) (got_error : bool) : eff Peer (list Effect) := fun peer =>
  match peer with
  | Initiator p => in_phase Initiator Initiator_go_on_chain p
  | Receiver p => in_phase Receiver Receiver_go_on_chain p
  | OffChain p => in_phase OffChain (OffChainPhase_go_on_chain env got_error) p
  | Spending p => in_phase Spending (SpendChannelCoinPhase_go_on_chain env) p
  | OnChain _ => observed (Ok []) peer
  end.

(** ** The funding of the channel *)

(** Only an initiator starts: the session downcasts to it. *)
Definition start_handshake : eff Peer (list Effect) := fun peer =>
  match peer with
  | Initiator p => in_phase Initiator ini_start p
  | _ => observed (Ok []) peer
  end.
Definition channel_offer (bundle : SpendBundle) : eff Peer (option Effect) := fun peer =>
  match peer with
  | Initiator p => in_phase Initiator (Initiator_channel_offer bundle) p
  | _ => observed (Ok None) peer
  end.
Definition channel_transaction_completion (bundle : SpendBundle) : eff Peer (list Effect) :=
  fun peer =>
  match peer with
  | Receiver p => in_phase Receiver (Receiver_channel_transaction_completion bundle) p
  | _ => observed (Ok []) peer
  end.
Definition provide_launcher_coin (env : ChannelEnv) (launcher : CoinString)
    : eff Peer (list Effect) := fun peer =>
  match peer with
  | Initiator p => in_phase Initiator (Initiator_provide_launcher_coin env launcher) p
  | Receiver _ => observed
      (Err (StrErr "provide_launcher_coin: receiver does not provide launcher coin")) peer
  | _ => observed (Err (StrErr "provide_launcher_coin not available in this phase")) peer
  end.
Definition provide_coin_spend_bundle (bundle : SpendBundle) : eff Peer (list Effect) := fun peer =>
  match peer with
  | Initiator p => in_phase Initiator (Initiator_provide_coin_spend_bundle bundle) p
  | Receiver p => in_phase Receiver (Receiver_provide_coin_spend_bundle bundle) p
  | _ => observed (Err (StrErr "provide_coin_spend_bundle not available in this phase")) peer
  end.
Definition wallet_callback_failed (reason : string) : eff Peer unit := fun peer =>
  match peer with
  | Initiator p => in_phase Initiator (Initiator_wallet_callback_failed reason) p
  | Receiver p => in_phase Receiver (Receiver_wallet_callback_failed reason) p
  | _ => observed (Ok tt) peer
  end.

(** ** What the session sees of it *)
Definition handshake_finished (peer : Peer) : bool :=
  match peer with Initiator _ | Receiver _ => false | _ => true end.
Definition peer_channel_state (peer : Peer) : result Error ChannelState :=
  match peer with
  | Initiator p => ini_ch p
  | Receiver p => rec_ch p
  | OffChain p => off_ch p
  | Spending p => ch_of p
  | OnChain _ => Err (StrErr "no channel handler in this phase")
  end.
Definition channel_status_snapshot (peer : Peer) : option ChannelStatusSnapshot :=
  match peer with
  | Initiator p => Initiator_status_snapshot p
  | Receiver p => Receiver_status_snapshot p
  | OffChain p => OffChainPhase_status_snapshot p
  | Spending p => Some (SpendChannelCoinPhase_status_snapshot p)
  | OnChain p => Some (OnChainPhase_status_snapshot p)
  end.
Definition has_active_on_chain_games (peer : Peer) : bool :=
  match peer with OnChain p => OnChainPhase.has_active_on_chain_games p | _ => false end.
Definition coins_of_interest (peer : Peer) : list (CoinOfInterest * CoinString) :=
  match peer with
  | Initiator p => handshake_coins (ini_channel_state p)
  | Receiver p => handshake_coins (rec_channel_state p)
  | OffChain p => OffChainPhase_coins_of_interest p
  | Spending p => SpendChannelCoinPhase_coins_of_interest p
  | OnChain p => OnChainPhase_coins_of_interest p
  end.

(** The phase that follows, handed over once. *)
Definition take_next_phase : eff Peer (option Peer) := fun peer =>
  match peer with
  | Initiator p => in_phase Initiator (next ← ini_take_next_phase; mret (OffChain <$> next)) p
  | Receiver p => in_phase Receiver (next ← rec_take_next_phase; mret (OffChain <$> next)) p
  | OffChain p => in_phase OffChain
      (p ← get_state; _ ← put_state (p <| channel_spend_next_phase := None |>);
       mret (Spending <$> channel_spend_next_phase p)) p
  | Spending p => in_phase Spending
      (p ← get_state; _ ← put_state (p <| replacement := None |>);
       mret (OnChain <$> replacement p)) p
  | OnChain _ => observed (Ok None) peer
  end.
End phase.
