(* ===== verification/GameSession.v ===== *)
(** * The game session

    [src/game_session.rs]: the host of a session.  It owns the current phase,
    feeds it messages, requests and observations of the chain, applies the
    effects it answers with, replaces it by its successor, and keeps the events
    the wallet and the user interface collect.

    [process_effects] and [go_on_chain] call each other: the fuel bounds the
    depth of their calls and the turns of the loops, and [exhausted] is what a
    run out of fuel would answer.  The termination theorem of
    [SessionTermination] says that with enough fuel, which always exists,
    neither matters. *)
From S2P Require Import Prelude Extern World Coins Clvm StandardCoin TransactionManager UnrollCoin.
From S2P Require Import GameHandler RefereeTypes Referee LiveGame ChannelState ChannelGames.
From S2P Require Import ChannelOnChain Effects OnChainPhase OnChainActions OnChainSpend HandlerBase.
From S2P Require Import SpendChannelCoin UnrollTransition OffChainPhase OffChainReceive HandshakeBase.
From S2P Require Import HandshakeInitiator HandshakeReceiver PeerPhase.

(** [chia_puzzles::{SETTLEMENT_PAYMENT, SETTLEMENT_PAYMENT_HASH}] *)
Class SettlementPuzzle := {
  SETTLEMENT_PAYMENT : bytes;
  SETTLEMENT_PAYMENT_HASH : Hash;
}.

(** The encoder of a message, [bencodex::to_vec::<PeerMessage>]: derived by a
    macro, so a parameter. *)
Class PeerEncoder `{Bls} := { encode_peer_message : PeerMessage -> result Error bytes }.

Section session.
Context {arch : Arch} {sha2 : Sha2} {bigint : BigInt} {clvm : Clvm} {bls : Bls}.
Context {puzzles : ChiaPuzzles} {order : HashOrder} {codec : PeerCodec} {singleton : LauncherPuzzle}.
Context {settlement : SettlementPuzzle} {encoder : PeerEncoder}.

Abbreviation SessionEvent := (GameSessionEvent GameNotification CoinSpendRequest).

(** ** State *)
Record TerminalHandoffCommand := mkTerminalHandoff { handoff_id : N; handoff_message : bytes }.

Record GameSessionState := mkSessionState {
  current_height : N;
  is_initiator : bool;
  channel_puzzle_hash : option PuzzleHash;
  funding_coin : option CoinString;
  unfunded_offer : option SpendBundle;
  inbound_messages : list bytes;
  resync : option (N * bool);
  clean_shutdown_received : bool;
  clean_shutdown : option CoinString;
  session_identity : ChiaIdentity;
  peer_disconnected : bool;
  is_failed : bool;
  is_on_chain : bool;
  session_disposition : option SessionDisposition;
  pending_outbound_terminal : option TerminalHandoffCommand;
  next_terminal_handoff_id : N;
  channel_creation_expiry : option N;
  channel_established : bool;
  channel_expired : bool;
  events : list SessionEvent;
}.
#[export] Instance GameSessionState_eta : RecordEta GameSessionState := fun s =>
  mkSessionState (current_height s) (is_initiator s) (channel_puzzle_hash s) (funding_coin s)
    (unfunded_offer s) (inbound_messages s) (resync s) (clean_shutdown_received s)
    (clean_shutdown s) (session_identity s) (peer_disconnected s) (is_failed s) (is_on_chain s)
    (session_disposition s) (pending_outbound_terminal s) (next_terminal_handoff_id s)
    (channel_creation_expiry s) (channel_established s) (channel_expired s) (events s).

Record GameSession := mkGameSession {
  state : GameSessionState;
  peer : Peer;
  session_amount : Amount;
  last_channel_status : option ChannelStatusSnapshot;
}.
#[export] Instance GameSession_eta : RecordEta GameSession := fun s =>
  mkGameSession (state s) (peer s) (session_amount s) (last_channel_status s).

Record GameSessionConfig := mkSessionConfig {
  cfg_game_types : gmap GameType GameFactory;
  cfg_have_potato : bool;
  cfg_identity : ChiaIdentity;
  cfg_my_contribution : Amount;
  cfg_their_contribution : Amount;
  cfg_channel_timeout : Timeout;
  cfg_unroll_timeout : Timeout;
  cfg_reward_puzzle_hash : PuzzleHash;
}.

Definition initial_session_state (initiator : bool) (identity : ChiaIdentity) : GameSessionState :=
  mkSessionState 0 initiator None None None [] None false None identity false false false None None
    0 None false false [].

Definition new_with_keys (config : GameSessionConfig) (keys : ChannelPrivateKeys) : GameSession :=
  let phi := mkOffChainPhaseInit (cfg_have_potato config) keys (cfg_game_types config)
    (cfg_my_contribution config) (cfg_their_contribution config) (cfg_channel_timeout config)
    (cfg_unroll_timeout config) (cfg_reward_puzzle_hash config) in
  mkGameSession (initial_session_state (cfg_have_potato config) (cfg_identity config))
    (new_peer phi)
    (Amount_add (cfg_my_contribution config) (cfg_their_contribution config)) None.

(** ** The effects a phase asks for *)
Definition push (e : SessionEvent) (s : GameSessionState) : GameSessionState :=
  s <| events := events s ++ [e] |>.

Definition send_message (msg : PeerMessage) : eff GameSessionState unit :=
  s ← get_state;
  if peer_disconnected s then mret tt
  else
    msg_data ← lift_result (encode_peer_message msg);
    put_state (push (OutboundMessage msg_data) s).

Definition spend_transaction_and_add_fee (bundle : SpendBundle) (expiry : option N)
    : eff GameSessionState unit :=
  modify_state (fun s =>
    push (OutboundTransaction bundle expiry)
      (match expiry with Some _ => s <| channel_creation_expiry := expiry |> | None => s end)).

Definition register_coin (coin : CoinString) (timeout : Timeout) (spend : option SpendBundle)
    (semantic : option TimeoutClaimSemantic) : eff GameSessionState unit :=
  modify_state (push (WatchCoin (to_coin_id coin) coin timeout spend semantic)).

#[export] Instance session_effects : EffectSystem GameSessionState := {|
  sys_notification := fun n => modify_state (push (Notification n));
  sys_log := fun line => modify_state (push (Log line));
  sys_send_message := send_message;
  sys_spend_transaction_and_add_fee := spend_transaction_and_add_fee;
  sys_register_coin := fun coin timeout _ spend semantic => register_coin coin timeout spend semantic;
  sys_request_puzzle_and_solution := fun coin => modify_state (push (CoinSolutionRequest coin));
  sys_channel_puzzle_hash := fun ph => modify_state (fun s => s <| channel_puzzle_hash := Some ph |>);
  sys_received_channel_offer := fun bundle =>
    modify_state (fun s => s <| unfunded_offer := Some bundle |>);
|}.

(** [self.state.op()], [self.peer.op()?] *)
Definition on_state {A} (op : eff GameSessionState A) : eff GameSession A :=
  on_part state (fun st s => s <| state := st |>) op.
Definition on_peer {A} (op : eff Peer A) : eff GameSession A :=
  on_part peer (fun p s => s <| peer := p |>) op.
Definition update_state (f : GameSessionState -> GameSessionState) : eff GameSession unit :=
  modify_state (fun s => s <| state := f (state s) |>).
Definition push_event (e : SessionEvent) : eff GameSession unit := update_state (push e).

(** ** The status of the channel *)
Definition should_emit_status (old new : option ChannelStatusSnapshot) : bool :=
  if bool_decide (new = old) then false
  else if negb (bool_decide (snap_state <$> new = snap_state <$> old)) then true
  else if negb (bool_decide ((new ≫= snap_session_disposition) = (old ≫= snap_session_disposition)))
    then true
  else if negb (bool_decide ((new ≫= snap_unroll_initiator) = (old ≫= snap_unroll_initiator)))
          || negb (bool_decide ((new ≫= snap_semantic_phase) = (old ≫= snap_semantic_phase)))
    then true
  else bool_decide (snap_state <$> new = Some Active).

Definition no_channel_yet : ChannelStatusSnapshot :=
  mkChannelStatusSnapshot Handshaking None None None None None None None None None None.

Definition status_of (s : GameSession) : option ChannelStatusSnapshot :=
  match session_disposition (state s) with
  | Some disposition =>
      let snapshot :=
        match channel_status_snapshot (peer s), last_channel_status s with
        | Some snapshot, _ => snapshot
        | None, Some snapshot => snapshot
        | None, None => no_channel_yet
        end in
      Some (snapshot <| snap_session_disposition := Some disposition |>)
  | None => channel_status_snapshot (peer s)
  end.

(** What the session concludes from a status it reports. *)
Definition note_status (snap : ChannelStatusSnapshot) (s : GameSessionState) : GameSessionState :=
  match snap_state snap with
  | ShuttingDown | ShutdownTransactionPending => s <| clean_shutdown_received := true |>
  | ResolvedClean => s <| clean_shutdown := snap_coin snap |>
  | ResolvedUnrolled | ResolvedStale =>
      if is_on_chain s then s <| peer_disconnected := true |> else s
  | GoingOnChain | Unrolling => s <| peer_disconnected := true |>
  | _ => s
  end.

Definition emit_channel_status_if_changed : eff GameSession unit :=
  s ← get_state;
  if channel_expired (state s) then mret tt
  else
    let snapshot := status_of s in
    if should_emit_status (last_channel_status s) snapshot then
      _ ← (match snapshot with
           | Some snap =>
               update_state (fun st => push (Notification (ChannelStatus snap)) (note_status snap st))
           | None => mret tt
           end);
      modify_state (fun s => s <| last_channel_status := snapshot |>)
    else mret tt.

Definition detect_phase_transition : eff GameSession unit :=
  next ← on_peer take_next_phase;
  _ ← (match next with Some next => modify_state (fun s => s <| peer := next |>) | None => mret tt end);
  _ ← modify_state (fun s => s <| state := (state s)
        <| is_on_chain := match peer s with OnChain _ => true | _ => false end |>
        <| is_failed := bool_decide (snap_state <$> channel_status_snapshot (peer s) = Some Failed) |> |>);
  emit_channel_status_if_changed.

Definition mark_abandoned : eff GameSession unit :=
  _ ← update_state (fun st => st <| session_disposition := Some Abandoned |>
        <| pending_outbound_terminal := None |> <| peer_disconnected := true |>
        <| inbound_messages := [] |> <| events := [] |> <| resync := None |>);
  emit_channel_status_if_changed.

Definition should_abandon_on_go_on_chain (s : GameSession) : bool :=
  match peer_channel_state (peer s) with Ok ch => has_zero_payout ch | Err _ => false end.

(** ** Effects *)

(** The effects the session keeps for itself, and those it passes on. *)
Fixpoint intercept_effects (effects : list Effect) : eff GameSessionState (list Effect) :=
  match effects with
  | [] => mret []
  | e :: effects =>
      passed ← (match e with
                | QueueTerminalHandoff coin_spend =>
                    message ← lift_result (encode_peer_message (CleanShutdownComplete coin_spend));
                    s ← get_state;
                    _ ← guard_or (bool_decide (pending_outbound_terminal s = None))
                          (Panicked "only one terminal outbound handoff may be pending");
                    _ ← put_state (s <| pending_outbound_terminal :=
                              Some (mkTerminalHandoff (next_terminal_handoff_id s) message) |>
                            <| next_terminal_handoff_id := u64_add (next_terminal_handoff_id s) 1 |>
                            <| session_disposition := Some AwaitOutboundTerminal |>);
                    mret []
                | NeedLauncherCoinId => _ ← modify_state (push NeedLauncherCoin); mret []
                | EffNeedCoinSpend request => _ ← modify_state (push (NeedCoinSpend request)); mret []
                | GoOnChainAfterPeerError => mret []
                | e => mret [e]
                end);
      rest ← intercept_effects effects;
      mret (passed ++ rest)
  end.

Definition completes_zero_payout (e : Effect) : bool :=
  match e with CompleteZeroPayoutShutdown => true | _ => false end.
Definition escalates_peer_error (e : Effect) : bool :=
  match e with GoOnChainAfterPeerError => true | _ => false end.

(** The calls that lead back to [process_effects]. *)
Section calls.
Context (env : ChannelEnv) (exhausted : Error) (process : list Effect -> eff GameSession unit).

Definition go_on_chain_with (got_error : bool) : eff GameSession unit :=
  s ← get_state;
  if bool_decide (is_Some (session_disposition (state s))) then mret tt
  else if should_abandon_on_go_on_chain s then mark_abandoned
  else
    _ ← update_state (fun st => st <| peer_disconnected := true |>);
    reported_effects ← on_peer (PeerPhase.go_on_chain env got_error);
    if bool_decide (length reported_effects = 0) then detect_phase_transition
    else process reported_effects.

Definition handle_peer_protocol_error : eff GameSession unit :=
  _ ← push_event (ReceiveError "peer protocol error"); go_on_chain_with true.

(** The direct funding of a channel whose parent is the funding coin. *)
Definition create_partial_spend_for_channel_coin (ph : PuzzleHash) : eff GameSession bool :=
  s ← get_state;
  match funding_coin (state s) with
  | None => mret false
  | Some parent =>
      _ ← update_state (fun st => st <| channel_puzzle_hash := None |>);
      ch ← lift_result (peer_channel_state (peer s));
      '(ch_parent, coin_ph, amt) ← lift_result (ok_or (StrErr "no channel coin")
                                                  (to_parts (channel_coin ch)));
      _ ← guard_or (bool_decide (coin_ph = ph)) (StrErr "channel coin puzzle hash mismatch");
      if bool_decide (ch_parent = to_coin_id parent) then
        let identity := session_identity (state s) in
        spend ← lift_result (standard_solution_partial (synthetic_private_key identity)
          (to_coin_id parent) (list_node [create_coin_node ph amt])
          (synthetic_public_key identity) (env_agg_sig_me_additional_data env) false);
        reported ← on_peer (PeerPhase.channel_offer
          (mkSpendBundle (Some "create channel"%string)
             [mkCoinSpend parent (mkSpend (identity_puzzle identity) (broken_solution spend)
                                    (broken_signature spend))]));
        _ ← (match reported with Some e => process [e] | None => mret tt end);
        mret true
      else mret false
  end.

Definition respond_to_unfunded_offer (offer : SpendBundle) : eff GameSession bool :=
  s ← get_state;
  match funding_coin (state s) with
  | None => mret false
  | Some parent =>
      let identity := session_identity (state s) in
      _ ← update_state (fun st => st <| unfunded_offer := None |>);
      quoted ← lift_result (to_quoted_program nil_node);
      solution ← lift_result (solution_for_conditions nil_node);
      quoted_hash ← lift_result (Program_sha256tree quoted);
      _ ← guard_or (negb (bool_decide (length (spends offer) = 0)))
            (StrErr "respond_to_unfunded_offer: empty spend bundle");
      signature ← lift_result (sign_agg_sig_me (synthetic_private_key identity)
        (PuzzleHash_bytes quoted_hash) (to_coin_id parent) (env_agg_sig_me_additional_data env));
      solution_program ← lift_result (Program_from_nodeptr solution);
      let all := spends offer ++ [mkCoinSpend parent
                   (mkSpend (identity_puzzle identity) solution_program signature)] in
      _ ← guard_or (bool_decide (length all = 2))
            (StrErr "respond_to_unfunded_offer: expected 2 spends");
      _ ← push_event (OutboundTransaction (mkSpendBundle (name offer) all) None);
      reported ← on_peer (PeerPhase.channel_transaction_completion offer);
      _ ← (if bool_decide (length reported = 0) then mret tt else process reported);
      mret true
  end.

Definition settle_funding : eff GameSession unit :=
  s ← get_state;
  if is_ok (peer_channel_state (peer s)) then
    _ ← (match channel_puzzle_hash (state s) with
         | Some ph =>
             _ ← update_state (fun st => st <| channel_puzzle_hash := None |>);
             created ← create_partial_spend_for_channel_coin ph;
             if (created : bool) then mret tt
             else update_state (fun st => st <| channel_puzzle_hash := Some ph |>)
         | None => mret tt
         end);
    s ← get_state;
    _ ← update_state (fun st => st <| unfunded_offer := None |>);
    match is_initiator (state s), unfunded_offer (state s) with
    | false, Some offer =>
        answered ← respond_to_unfunded_offer offer;
        if (answered : bool) then mret tt
        else update_state (fun st => st <| unfunded_offer := Some offer |>)
    | _, _ => mret tt
    end
  else mret tt.

(** The loops over the messages and the actions that wait: stop at the first
    that has no effect or fails. *)
Fixpoint queue_loop (fuel : nat) (waiting : Peer -> bool) (next : eff Peer (list Effect))
    : eff GameSession unit :=
  match fuel with
  | O => throw exhausted
  | S fuel =>
      s ← get_state;
      if waiting (peer s) then
        result ← attempt (on_peer next);
        match result with
        | Ok effects =>
            if bool_decide (length effects = 0) then mret tt
            else
              _ ← process effects;
              _ ← detect_phase_transition;
              queue_loop fuel waiting next
        | Err (Panicked msg) => throw (Panicked msg)
        | Err _ => handle_peer_protocol_error
        end
      else mret tt
  end.

Definition process_effects_with (fuel : nat) (effects : list Effect) : eff GameSession unit :=
  s ← get_state;
  if bool_decide (is_Some (session_disposition (state s))) then mret tt
  else
    passthrough ← on_state (intercept_effects effects);
    _ ← on_state (apply_effects passthrough);
    _ ← detect_phase_transition;
    if existsb completes_zero_payout effects then mark_abandoned
    else if existsb escalates_peer_error effects then go_on_chain_with true
    else
      s ← get_state;
      if peer_disconnected (state s) && handshake_finished (peer s) && negb (is_on_chain (state s))
      then go_on_chain_with true
      else
        _ ← settle_funding;
        s ← get_state;
        if handshake_finished (peer s) then
          _ ← queue_loop fuel PeerPhase.has_queued_message (PeerPhase.process_queued_message env);
          queue_loop fuel PeerPhase.has_queued_action PeerPhase.process_queued_action
        else mret tt.
End calls.

Fixpoint process_effects (env : ChannelEnv) (exhausted : Error) (fuel : nat) (effects : list Effect)
    : eff GameSession unit :=
  match fuel with
  | O => throw exhausted
  | S fuel =>
      process_effects_with env exhausted (process_effects env exhausted fuel) fuel effects
  end.

Definition go_on_chain (env : ChannelEnv) (exhausted : Error) (fuel : nat) (got_error : bool)
    : eff GameSession unit :=
  go_on_chain_with env (process_effects env exhausted fuel) got_error.

(** ** The wallet *)

(** The outputs an offer makes to the settlement puzzle, claimed by spending
    them for nothing. *)
Definition settlement_claims (spend : CoinSpend) : list CoinSpend :=
  match from_puzzle_and_solution (puzzle_program (puzzle (bundle spend))) (solution (bundle spend)) with
  | Err _ => []
  | Ok conditions =>
      let parent := to_coin_id (coin spend) in
      let settlement_ph := mkPuzzleHash SETTLEMENT_PAYMENT_HASH in
      List.concat ((fun cond =>
        match cond with
        | CreateCoin ph amount =>
            if bool_decide (ph = settlement_ph)
            then [mkCoinSpend (CoinString_from_parts parent settlement_ph amount)
                    (mkSpend (mkPuzzle (mkProgram SETTLEMENT_PAYMENT)) nil_program sig_default)]
            else []
        | _ => []
        end) <$> conditions)
  end.
Definition claim_settlement_coins (b : SpendBundle) : SpendBundle :=
  mkSpendBundle (name b) (spends b ++ List.concat (settlement_claims <$> spends b)).

(** ** The session, as the host calls it *)
Section host.
Context (env : ChannelEnv) (exhausted : Error) (fuel : nat).

(** Call the phase, then apply what it answers. *)
Definition with_effects (op : eff Peer (list Effect)) : eff GameSession unit :=
  effects ← on_peer op; process_effects env exhausted fuel effects.

Definition session_provide_launcher_coin (launcher : CoinString) : eff GameSession unit :=
  with_effects (PeerPhase.provide_launcher_coin env launcher).
Definition session_provide_coin_spend_bundle (b : SpendBundle) : eff GameSession unit :=
  with_effects (PeerPhase.provide_coin_spend_bundle (claim_settlement_coins b)).
Definition session_wallet_callback_failed (reason : string) : eff GameSession unit :=
  _ ← on_peer (PeerPhase.wallet_callback_failed reason); detect_phase_transition.

Definition abandon : eff GameSession unit :=
  s ← get_state;
  _ ← guard_or (negb (bool_decide (session_disposition (state s) = Some AwaitOutboundTerminal)))
        (StrErr "cannot abandon while cooperative terminal handoff is pending");
  mark_abandoned.
Definition complete_outbound_terminal_handoff : eff GameSession unit :=
  s ← get_state;
  _ ← guard_or (bool_decide (session_disposition (state s) = Some AwaitOutboundTerminal))
        (StrErr "no cooperative terminal handoff is pending");
  mark_abandoned.

(** Messages are handled one by one; the first that fails ends the loop, the
    others stay where they are. *)
Fixpoint inbound_loop (n : nat) : eff GameSession unit :=
  match n with
  | O => mret tt
  | S n =>
      s ← get_state;
      match inbound_messages (state s) with
      | [] => mret tt
      | msg :: rest =>
          _ ← update_state (fun st => st <| inbound_messages := rest |>);
          result ← attempt (on_peer (PeerPhase.received_message env msg));
          match result with
          | Ok effects =>
              _ ← process_effects env exhausted fuel effects;
              s ← get_state;
              if bool_decide (is_Some (session_disposition (state s)))
              then update_state (fun st => st <| inbound_messages := [] |>)
              else inbound_loop n
          | Err (Panicked msg) => throw (Panicked msg)
          | Err _ => handle_peer_protocol_error env (process_effects env exhausted fuel)
          end
      end
  end.

Definition drain : eff GameSession (DrainResult GameNotification CoinSpendRequest) :=
  s ← get_state;
  _ ← update_state (fun st => st <| events := [] |> <| resync := None |>);
  mret (mkDrainResult (events (state s)) (resync (state s))).

(** Nothing puts messages back: as many turns as there are messages. *)
Definition flush_and_collect : eff GameSession (DrainResult GameNotification CoinSpendRequest) :=
  s ← get_state;
  if bool_decide (is_Some (session_disposition (state s))) then drain
  else
    _ ← inbound_loop (length (inbound_messages (state s)));
    s ← get_state;
    _ ← (if bool_decide (is_Some (session_disposition (state s))) then mret tt
         else
           result ← attempt (on_peer (PeerPhase.flush_pending_actions env));
           match result with
           | Ok effects => process_effects env exhausted fuel effects
           | Err (Panicked msg) => throw (Panicked msg)
           | Err _ =>
               context ← on_peer PeerPhase.take_failed_queued_action;
               push_event (Notification (ActionFailed (fst <$> context) (snd <$> context)
                                           "queued action failed"))
           end);
    drain.

(** A timeout claim is submitted, or armed again. *)
Definition session_timeout_claim (submitted : bool) (semantic : TimeoutClaimSemantic)
    : eff GameSession unit :=
  s ← get_state;
  match semantic, peer s with
  | ChannelTimeoutFinish, Spending p =>
      changed ← on_peer (fun _ => in_phase Spending
        (if submitted then SpendChannelCoin.timeout_claim_submitted semantic
         else SpendChannelCoin.timeout_claim_rearmed semantic) p);
      if (changed : bool) then emit_channel_status_if_changed else mret tt
  | GameOpponentTurn id, OnChain p =>
      match timeout_claim_status p id submitted with
      | Some notification => push_event (Notification notification)
      | None => mret tt
      end
  | _, _ => mret tt
  end.

Definition check_channel_creation_expiry (height : N) (observations : list CoinObservation)
    : eff GameSession unit :=
  s ← get_state;
  if channel_expired (state s) || channel_established (state s) then mret tt
  else
    let established :=
      match peer_channel_state (peer s) with
      | Ok ch => existsb (fun o => match o with
                                   | Created coin => bool_decide (coin = channel_coin ch)
                                   | Spent _ => false
                                   end) observations
      | Err _ => false
      end in
    if established then update_state (fun st => st <| channel_established := true |>)
    else
      match channel_creation_expiry (state s) with
      | Some expiry =>
          if (height <? expiry)%N then mret tt
          else
            let snapshot := mkChannelStatusSnapshot Failed None
              (Some "channel coin not confirmed in time"%string) None None None None None None None
              None in
            _ ← update_state (fun st => push (Notification (ChannelStatus snapshot))
                  (st <| channel_expired := true |> <| is_failed := true |>));
            modify_state (fun s => s <| last_channel_status := Some snapshot |>)
      | None => mret tt
      end.

(** Observations reach the phase in order, each with its effects applied. *)
Fixpoint observe_all (observations : list CoinObservation) : eff GameSession unit :=
  match observations with
  | [] => mret tt
  | o :: observations =>
      _ ← with_effects
            (match o with
             | Created _ => effects ← PeerPhase.coin_created; mret (default [] effects)
             | Spent coin => PeerPhase.coin_spent coin
             end);
      observe_all observations
  end.

Definition session_new_block (height : N) (observations : list CoinObservation)
    : eff GameSession unit :=
  s ← get_state;
  if bool_decide (is_Some (session_disposition (state s))) then mret tt
  else
    _ ← update_state (fun st => st <| current_height := height |>);
    _ ← observe_all observations;
    s ← get_state;
    _ ← with_effects (PeerPhase.new_block (current_height (state s)));
    check_channel_creation_expiry height observations.

Definition new_block_height_only (height : N) : eff GameSession unit :=
  s ← get_state;
  if bool_decide (is_Some (session_disposition (state s))) then mret tt
  else
    _ ← update_state (fun st => st <| current_height := height |>);
    with_effects (PeerPhase.new_block height).

Definition deliver_message (inbound_message : bytes) : eff GameSession unit :=
  s ← get_state;
  if peer_disconnected (state s) || bool_decide (is_Some (session_disposition (state s)))
  then mret tt
  else
    _ ← guard_or (negb (MAX_MESSAGE_SIZE <? N.of_nat (length inbound_message))%N)
          (StrErr "Inbound message size exceeds maximum");
    update_state (fun st => st <| inbound_messages := inbound_messages st ++ [inbound_message] |>).

Definition session_go_on_chain (got_error : bool) : eff GameSession unit :=
  go_on_chain env exhausted fuel got_error.

Definition report_puzzle_and_solution (coin_id : CoinString)
    (puzzle_and_solution : option (Program * Program)) : eff GameSession unit :=
  s ← get_state;
  if bool_decide (is_Some (session_disposition (state s))) then mret tt
  else
    '(effects, sync) ← on_peer (PeerPhase.coin_puzzle_and_solution env coin_id puzzle_and_solution);
    _ ← (match sync with
         | Some info => update_state (fun st =>
             st <| resync := Some (resync_state_number info, resync_is_my_turn info) |>)
         | None => mret tt
         end);
    process_effects env exhausted fuel effects.

(** [set_funding_coin] names the coin first, then starts as well. *)
Definition start_handshake : eff GameSession unit :=
  s ← get_state;
  if is_initiator (state s) then
    with_effects PeerPhase.start_handshake
  else mret tt.
Definition set_funding_coin (coin : CoinString) : eff GameSession unit :=
  _ ← update_state (fun st => st <| funding_coin := Some coin |>); start_handshake.

Definition session_propose_games (games : list GameProposal) : eff GameSession (list GameID) :=
  '(ids, effects) ← on_peer (PeerPhase.propose_games games);
  _ ← process_effects env exhausted fuel effects;
  mret ids.
Definition session_accept_proposal (id : GameID) : eff GameSession unit :=
  with_effects (PeerPhase.accept_proposal id).
Definition session_cancel_proposal (id : GameID) : eff GameSession unit :=
  with_effects (PeerPhase.cancel_proposal id).
Definition session_make_move (id : GameID) (readable : ReadableMove) (entropy : Hash)
    : eff GameSession unit := with_effects (PeerPhase.make_move id readable entropy).
Definition accept_proposal_and_move (id : GameID) (readable : ReadableMove) (entropy : Hash)
    : eff GameSession unit :=
  with_effects (effects ← PeerPhase.accept_proposal id;
                rest ← PeerPhase.make_move id readable entropy;
                mret (effects ++ rest)).
Definition session_accept_settlement (id : GameID) : eff GameSession unit :=
  with_effects (PeerPhase.accept_settlement id).
Definition session_shut_down : eff GameSession unit := with_effects PeerPhase.shut_down.
Definition cheat (id : GameID) (share : Amount) : eff GameSession unit :=
  with_effects (PeerPhase.cheat_game id share zero_hash).
End host.

(** ** What the host sees *)
Definition historical_unroll_count (s : GameSession) : option nat :=
  match peer_channel_state (peer s) with
  | Ok ch => Some (size (unroll_puzzle_hash_map ch))
  | Err _ => None
  end.
Definition session_our_current_share (s : GameSession) : option Amount :=
  match peer_channel_state (peer s) with Ok ch => Some (my_out_of_game_balance ch) | Err _ => None end.
Definition session_their_current_share (s : GameSession) : option Amount :=
  match peer_channel_state (peer s) with
  | Ok ch => Some (their_out_of_game_balance ch)
  | Err _ => None
  end.
Definition session_is_abandoned (s : GameSession) : bool :=
  bool_decide (session_disposition (state s) = Some Abandoned).
Definition terminal_status (k : ChannelStatusKind) : bool :=
  match k with ResolvedClean | ResolvedUnrolled | ResolvedStale | Failed => true | _ => false end.
Definition channel_status_terminal (s : GameSession) : bool :=
  channel_expired (state s)
  || match last_channel_status s with Some snap => terminal_status (snap_state snap) | None => false end.
Definition is_fully_resolved (s : GameSession) : bool :=
  session_is_abandoned s
  || bool_decide (session_disposition (state s) = None) && channel_status_terminal s
     && negb (PeerPhase.has_active_on_chain_games (peer s)).
Definition session_reward_puzzle_hash (s : GameSession) : result Error PuzzleHash :=
  ch_reward_puzzle_hash <$> peer_channel_state (peer s).
Definition session_game_state_id (s : GameSession) : option Hash :=
  match peer_channel_state (peer s) with Ok ch => Some (get_game_state_id ch) | Err _ => None end.

(** ** What the transaction manager drives *)
#[export] Instance session_managed (env : ChannelEnv) (exhausted : Error) (fuel : nat) :
    ManagedGameSession GameNotification CoinSpendRequest GameSession := {|
  session_observe := fun height observations =>
    match observations with
    | Some observations => session_new_block env exhausted fuel height observations
    | None => new_block_height_only env exhausted fuel height
    end;
  session_flush_and_collect := flush_and_collect env exhausted fuel;
  session_timeout_claim_submitted := session_timeout_claim true;
  session_timeout_claim_rearmed := session_timeout_claim false;
  is_abandoned := session_is_abandoned;
|}.
End session.
