(* ===== verification/HandshakeProperties.v ===== *)
(** * The handshake: properties

    Whatever the peer, the wallet and the chain do, and however often a step of
    the handshake fails and is tried again, a player leaves the handshake only
    with a channel that was made with the contributions agreed on and for which
    the peer's first signatures were verified: the state from which the
    theorems about the off-chain phase start. *)
From stdpp Require Import relations.
From S2P Require Import Prelude Extern World Coins Clvm StandardCoin TransactionManager UnrollCoin.
From S2P Require Import GameHandler RefereeTypes Referee LiveGame ChannelState ChannelGames.
From S2P Require Import ChannelOnChain Effects OnChainPhase OnChainActions OnChainSpend HandlerBase.
From S2P Require Import SpendChannelCoin UnrollTransition OffChainPhase OffChainReceive HandshakeBase.
From S2P Require Import HandshakeInitiator HandshakeReceiver PeerPhase.
From S2P Require Import ToyGame ToyChannel ChannelLemmas ChannelUnrolls OffChainProperties.

Section handshake.
Context {arch : Arch} {sha2 : Sha2} {bigint : BigInt} {clvm : Clvm} {bls : Bls}.
Context {puzzles : ChiaPuzzles} {order : HashOrder} {codec : PeerCodec} {singleton : LauncherPuzzle}.
Variables (env : ChannelEnv) (phi : OffChainPhaseInit).
(** The games the player's factories make stake what the two players put in. *)
Hypothesis fair : forall p, game_types p = phi_game_types phi -> fair_types p.

(** ** Channels of the handshake *)
Definition agreed (ch : ChannelState) : Prop :=
  my_out_of_game_balance ch = phi_my_contribution phi
  /\ their_out_of_game_balance ch = phi_their_contribution phi.
Definition made (ch : ChannelState) : Prop :=
  channel_made env (negb (phi_have_potato phi)) ch /\ agreed ch.
Definition ready (ch : ChannelState) (info : ChannelCoinSpendInfo) : Prop :=
  channel_ready env (negb (phi_have_potato phi)) ch info /\ agreed ch.

(** What the handshake hands over. *)
Definition handed_over (q : OffChainPhase) : Prop :=
  exists ch, set_up env q ch /\ agreed ch /\ has_potato q = phi_have_potato phi.

Lemma make_channel_made keys parent timeout reward msg ch i :
  make_channel_state env keys (phi_my_contribution phi) (phi_their_contribution phi) timeout reward
    parent (negb (phi_have_potato phi)) msg = Ok (ch, i) -> made ch.
Proof.
  unfold make_channel_state. intros (_ & _ & H)%bind_Ok. split.
  - do 13 eexists. split; [exact H|done].
  - apply ChannelState_new_Ok in H as (_ & half & u & uph & h & spend & puz & _ & _ & _ & ->). done.
Qed.

Lemma verified_ready sigs ch info ch' :
  made ch -> verify_and_store_initial_peer_signatures env sigs ch = (Ok info, ch') ->
  made ch' /\ ready ch' info.
Proof.
  intros [Hmade Hbal] Hver. assert (agreed ch') as Hbal'.
  { apply verify_initial_Ok in Hver as (spend & _ & ->). exact Hbal. }
  split; split; try done.
  - destruct Hmade as (keys & launcher & tc & tu & tr & tph & tsig & mine & theirs & timeout & ph & s0
      & i & Hnew & Hsteps).
    do 13 eexists. split; [exact Hnew|]. eapply rtc_r; [exact Hsteps|]. by exists sigs, info.
  - by exists ch, sigs.
Qed.

Lemma verify_refused sigs ch e ch' :
  verify_and_store_initial_peer_signatures env sigs ch = (Err e, ch') -> ch' = ch.
Proof.
  unfold verify_and_store_initial_peer_signatures, mbind, eff_bind, get_state, lift_result, guard_or,
    put_state. intros H. cbn in H. repeat case_match; cbn in *; simplify_eq; try done.
Qed.

Lemma ready_made ch info : ready ch info -> made ch.
Proof.
  intros [(s & sigs & (keys & launcher & tc & tu & tr & tph & tsig & mine & theirs & timeout & ph & s0
    & i & Hnew & Hsteps) & Hver) Hbal].
  split; [|done]. do 13 eexists. split; [exact Hnew|]. eapply rtc_r; [exact Hsteps|].
  by exists sigs, info.
Qed.

Lemma ready_handed_over ch info b keys mine theirs ct ut rph incoming :
  ready ch info ->
  handed_over (from_completed_handshake b ch (if phi_have_potato phi then Present else Absent)
    (phi_game_types phi) keys mine theirs ct ut rph incoming (Some info)).
Proof.
  intros [Hready Hbal]. exists ch. split_and!; [|done|by destruct (phi_have_potato phi)].
  split; [|by apply fair]. exists (negb (phi_have_potato phi)), info. do 9 eexists.
  split; [exact Hready|]. by destruct (phi_have_potato phi).
Qed.

(** A channel that may be there, on its way to be verified. *)
Definition maybe_made (o : option ChannelState) : Prop :=
  match o with Some ch => made ch | None => True end.
Definition maybe_handed (o : option OffChainPhase) : Prop :=
  match o with Some q => handed_over q | None => True end.
Definition settled (o : option ChannelState) (saved : option ChannelCoinSpendInfo) : Prop :=
  exists ch info, o = Some ch /\ saved = Some info /\ ready ch info.

Lemma settled_made o saved : settled o saved -> maybe_made o.
Proof. intros (ch & info & -> & _ & H). by eapply ready_made. Qed.

(** Walk through a step, the state at hand; what is left are the states it may
    leave. *)
Section steps.
Context {S : Type} (P : S -> Prop).
Lemma after_lift_bind {A B} (r : result Error A) (f : A -> eff S B) s :
  P s -> (forall a, r = Ok a -> holds_after P (f a) s) -> holds_after P (lift_result r ≫= f) s.
Proof. intros Hs Hf. destruct r as [a|e]; [by apply Hf|done]. Qed.
Lemma after_guard_bind {B} (c : bool) (e : Error) (f : unit -> eff S B) s :
  P s -> (c = true -> holds_after P (f tt) s) -> holds_after P (guard_or c e ≫= f) s.
Proof. destruct c; [auto|done]. Qed.
Lemma after_run_bind {A B} (m : eff S A) (f : A -> eff S B) s :
  (forall a s', m s = (Ok a, s') -> holds_after P (f a) s') ->
  (forall e s', m s = (Err e, s') -> P s') -> holds_after P (m ≫= f) s.
Proof.
  unfold holds_after, mbind, eff_bind. intros Hok Herr.
  destruct (m s) as [[a|e] s'] eqn:Hm; [by apply Hok|by eapply Herr].
Qed.
Lemma after_bind_with {A B} (Q : S -> Prop) (m : eff S A) (f : A -> eff S B) s :
  holds_after Q m s -> (forall s', Q s' -> P s') -> (forall a s', Q s' -> holds_after P (f a) s') ->
  holds_after P (m ≫= f) s.
Proof.
  unfold holds_after at 1. intros Hm Hweak Hf. apply after_run_bind.
  - intros a s' Hrun. rewrite Hrun in Hm. by apply Hf.
  - intros e s' Hrun. rewrite Hrun in Hm. by apply Hweak.
Qed.
End steps.

Ltac hs_walk :=
  repeat (cbv beta zeta;
    lazymatch goal with
    | |- holds_after _ (get_state ≫= _) _ => apply after_get_bind
    | |- holds_after _ (lift_result _ ≫= _) _ => apply after_lift_bind; [|intros ? ?]
    | |- holds_after _ (guard_or _ _ ≫= _) _ => apply after_guard_bind; [|intros ?]
    | |- holds_after ?P (put_state ?s ≫= ?f) _ => change (holds_after P (f tt) s)
    | |- holds_after ?P (modify_state ?g ≫= ?f) ?s => change (holds_after P (f tt) (g s))
    | |- holds_after _ (mret ?a) _ => apply (after_pure _ (Ok a))
    | |- holds_after _ (throw ?e) _ => apply (after_pure _ (Err e))
    | |- holds_after _ (put_state _) _ => apply after_put
    | |- holds_after _ (modify_state _) _ => apply after_modify
    | |- holds_after _ ((match ?x with _ => _ end) ≫= _) _ => destruct x eqn:?
    | |- holds_after _ (match ?x with _ => _ end) _ => destruct x eqn:?
    end).

(** A step changes some fields and leaves the others. *)
Ltac fields := split; cbn in *; try congruence; try done.

(** ** The initiator *)
Section initiator.
Hypothesis starts : phi_have_potato phi = true.

Record ini_ok (p : HandshakeInitiatorPhase) : Prop := {
  io_mine : ini_my_contribution p = phi_my_contribution phi;
  io_theirs : ini_their_contribution p = phi_their_contribution phi;
  io_types : ini_game_types p = phi_game_types phi;
  io_potato : match ini_state p with IniDone => True | _ => ini_have_potato p = Present end;
  io_made : maybe_made (ini_channel_state p);
  io_settled : match ini_state p with
               | WaitingForOffer _ _ | IniFinished _ =>
                   settled (ini_channel_state p) (ini_last_channel_coin_spend_info p)
               | _ => True
               end;
  io_handed : maybe_handed (ini_replacement p);
}.

Lemma ini_new_ok : ini_ok (Initiator_new phi).
Proof. by split. Qed.

Lemma ini_start_ok p : ini_ok p -> holds_after ini_ok ini_start p.
Proof. intros Hp. unfold ini_start. hs_walk; try done. destruct Hp. fields. by destruct (ini_state p). Qed.

(** Asking for the funding only sets the deadline. *)
Lemma ini_request_keeps P p :
  P p -> (forall d, P (p <| ini_channel_deadline := d |>)) -> holds_after P ini_request_funding p.
Proof. intros Hp Hd. unfold ini_request_funding. hs_walk; [done|]. apply Hd. Qed.

Lemma ini_transition_ok p : ini_ok p -> holds_after ini_ok ini_try_transition_to_potato p.
Proof.
  intros Hp. unfold ini_try_transition_to_potato. hs_walk; try done.
  pose proof Hp as [Hm Ht Hg Hpot Hmade Hset Hh].
  match goal with H : ini_state p = IniFinished _ |- _ => rewrite H in * end.
  destruct Hset as (ch & info & Hch & Hinfo & Hready).
  match goal with H : ok_or _ _ = Ok ?a |- _ =>
    apply ok_or_Ok in H; assert (a = ch) as -> by congruence end.
  fields. rewrite Hg, Hpot, Hinfo.
  replace Present with (if phi_have_potato phi then Present else Absent) by by rewrite starts.
  by apply ready_handed_over.
Qed.

Lemma ini_receive_b_ok mine msg p :
  ini_state p = SentA mine -> ini_ok p -> holds_after ini_ok (ini_receive_b mine msg) p.
Proof.
  intros Hst Hp. unfold ini_receive_b. hs_walk; try done. destruct Hp. rewrite Hst in *. fields.
Qed.

Lemma ini_verified sigs p :
  ini_ok p ->
  match catch (ini_on_ch (verify_and_store_initial_peer_signatures env sigs))
          (fun _ => throw (StrErr "initiator step D: verify/store initial peer signatures failed")) p
  with
  | (Ok info, p') => exists ch, p' = p <| ini_channel_state := Some ch |> /\ made ch /\ ready ch info
  | (Err _, p') => p' = p
  end.
Proof.
  intros Hp. unfold catch, ini_on_ch. destruct (ini_ch p) as [ch|e] eqn:Hch; [|by destruct e].
  apply ok_or_Ok in Hch. pose proof (io_made _ Hp) as Hmade. rewrite Hch in Hmade.
  destruct (verify_and_store_initial_peer_signatures env sigs ch) as [[info|e] ch'] eqn:Hv.
  - exists ch'. split; [done|]. by eapply verified_ready.
  - apply verify_refused in Hv as ->. assert (p <| ini_channel_state := Some ch |> = p) as Heq.
    { destruct p. cbn in *. by subst. }
    rewrite Heq. by destruct e.
Qed.

Lemma ini_receive_d_ok info msg p :
  ini_state p = SentC info -> ini_ok p -> holds_after ini_ok (ini_receive_d env info msg) p.
Proof.
  intros Hst Hp. unfold ini_receive_d. hs_walk; [done|].
  pose proof (ini_verified (d_signatures msg) p Hp) as Hv.
  apply after_run_bind; [|by intros e p' Hrun; rewrite Hrun in Hv; subst].
  intros spend p' Hrun. rewrite Hrun in Hv. destruct Hv as (ch & -> & Hmade & Hready).
  set (stored := fun q => ini_ok q /\ ini_state q = SentC info
    /\ settled (ini_channel_state q) (ini_last_channel_coin_spend_info q)).
  assert (stored (p <| ini_channel_state := Some ch |>
                    <| ini_last_channel_coin_spend_info := Some spend |>)) as Hq.
  { destruct Hp. rewrite Hst in *. split; [|split; [done|by exists ch, spend]]. fields; by rewrite Hst. }
  assert (forall (effects : list Effect) q, stored q -> holds_after ini_ok
    (_ ← modify_state (fun p => p <| ini_state := WaitingForOffer info a |>); mret effects) q) as Hend.
  { intros effects q ([] & Hst' & Hset). hs_walk. rewrite Hst' in *. fields. }
  hs_walk; (apply (after_bind_with _ stored); [|by intros q []|by intros; apply Hend]).
  - apply ini_request_keeps; [done|]. intros d. destruct Hq as [[] Hq]. by split; [split|].
  - hs_walk. destruct Hq as [[] Hq]. by split; [split|].
Qed.

Lemma ini_put_back_ok msg p : ini_ok p -> holds_after ini_ok (ini_put_back msg) p.
Proof. intros []. unfold ini_put_back. hs_walk. fields. Qed.

Lemma ini_handle_ok msg p : ini_ok p -> holds_after ini_ok (ini_handle env msg) p.
Proof.
  intros Hp. unfold ini_handle. apply after_get_bind. cbv beta.
  destruct (ini_state p) eqn:Hst, msg; cbn beta iota;
    try (by apply (after_pure _ (Err _))); try (by apply ini_put_back_ok).
  - by eapply ini_receive_b_ok.
  - by eapply ini_receive_d_ok.
  - unfold ini_receive_f. hs_walk. destruct Hp. rewrite Hst in *. fields; by rewrite Hst.
Qed.

(** A step, then perhaps the next phase. *)
Lemma ini_then_transition {A} (op : eff HandshakeInitiatorPhase A) p :
  holds_after ini_ok op p -> holds_after ini_ok (a ← op; _ ← ini_try_transition_to_potato; mret a) p.
Proof.
  intros Hop. apply after_bind; [done|]. intros a q Hq. apply after_bind; [by apply ini_transition_ok|].
  intros ? ? Hq'. by apply (after_pure _ (Ok a)).
Qed.

Lemma ini_process_ok p : ini_ok p -> holds_after ini_ok (Initiator_process_queued_message env) p.
Proof.
  intros Hp. unfold Initiator_process_queued_message. hs_walk; [done|].
  apply ini_then_transition, ini_handle_ok. destruct Hp. fields.
Qed.

Lemma ini_received_ok msg p : ini_ok p -> holds_after ini_ok (Initiator_received_message env msg) p.
Proof.
  intros Hp. unfold Initiator_received_message. hs_walk; try done.
  apply ini_process_ok. destruct Hp. fields.
Qed.

Lemma ini_created_ok p : ini_ok p -> holds_after ini_ok Initiator_coin_created p.
Proof.
  intros Hp. unfold Initiator_coin_created. hs_walk; try done.
  apply after_bind; [apply ini_transition_ok; destruct Hp; fields; by rewrite Heqo in *|].
  intros. by apply (after_pure _ (Ok _)).
Qed.

Lemma ini_block_ok height p : ini_ok p -> holds_after ini_ok (Initiator_new_block height) p.
Proof.
  intros Hp. unfold Initiator_new_block. hs_walk; [|destruct Hp; fields].
  apply ini_request_keeps; [destruct Hp; fields|]. intros d. destruct Hp. fields.
Qed.

Lemma ini_offer_ok b p : ini_ok p -> holds_after ini_ok (Initiator_channel_offer b) p.
Proof.
  intros Hp. unfold Initiator_channel_offer. hs_walk; try (by destruct Hp; fields).
  apply ini_then_transition. unfold try_send_step_e. hs_walk; destruct Hp; cbn in *;
    match goal with H : ini_state p = WaitingForOffer _ _ |- _ => rewrite H in * end; fields;
    try (by match goal with H : ini_state p = WaitingForOffer _ _ |- _ => rewrite H end).
Qed.

Lemma ini_launcher_ok launcher p :
  ini_ok p -> holds_after ini_ok (Initiator_provide_launcher_coin env launcher) p.
Proof.
  intros Hp. unfold Initiator_provide_launcher_coin. hs_walk; try done.
  assert (made c) as Hmade.
  { eapply make_channel_made. rewrite starts. rewrite <-(io_mine _ Hp), <-(io_theirs _ Hp). eassumption. }
  destruct Hp. match goal with H : ini_state p = _ |- _ => rewrite H in * end. fields.
Qed.

Lemma ini_bundle_ok b p : ini_ok p -> holds_after ini_ok (Initiator_provide_coin_spend_bundle b) p.
Proof.
  intros Hp. unfold Initiator_provide_coin_spend_bundle. apply after_get_bind. cbv beta.
  apply after_bind; [destruct (ini_state p); hs_walk; done|]. intros bundle q Hq.
  apply after_bind; [by apply ini_offer_ok|]. intros ? ? Hq'. by apply (after_pure _ (Ok _)).
Qed.

Lemma ini_fails_ok p : ini_ok p -> holds_after ini_ok Initiator_go_on_chain p.
Proof. intros []. unfold Initiator_go_on_chain. hs_walk. fields. Qed.
Lemma ini_callback_ok reason p : ini_ok p -> holds_after ini_ok (Initiator_wallet_callback_failed reason) p.
Proof. intros []. unfold Initiator_wallet_callback_failed. hs_walk. fields. Qed.
Lemma ini_taken_ok p : ini_ok p -> holds_after ini_ok ini_take_next_phase p.
Proof. intros []. unfold ini_take_next_phase. hs_walk. fields. Qed.
End initiator.

(** ** The receiver *)
Section receiver.
Hypothesis joins : phi_have_potato phi = false.

Record rec_ok (p : HandshakeReceiverPhase) : Prop := {
  ro_mine : rec_my_contribution p = phi_my_contribution phi;
  ro_theirs : rec_their_contribution p = phi_their_contribution phi;
  ro_types : rec_game_types p = phi_game_types phi;
  ro_potato : match rec_state p with RecDone => True | _ => rec_have_potato p = Absent end;
  ro_made : maybe_made (rec_channel_state p);
  ro_settled : match rec_state p with
               | WaitingForCompletion _ _ | RecFinished _ =>
                   settled (rec_channel_state p) (rec_last_channel_coin_spend_info p)
               | _ => True
               end;
  ro_handed : maybe_handed (rec_replacement p);
}.

Lemma rec_new_ok : rec_ok (Receiver_new phi).
Proof. by split. Qed.

Lemma rec_request_keeps P p :
  P p -> (forall d, P (p <| rec_channel_deadline := d |>)) -> holds_after P rec_request_funding p.
Proof. intros Hp Hd. unfold rec_request_funding. hs_walk; [done|]. apply Hd. Qed.

Lemma rec_transition_ok p : rec_ok p -> holds_after rec_ok rec_try_transition_to_potato p.
Proof.
  intros Hp. unfold rec_try_transition_to_potato. hs_walk; try done.
  pose proof Hp as [Hm Ht Hg Hpot Hmade Hset Hh].
  match goal with H : rec_state p = RecFinished _ |- _ => rewrite H in * end.
  destruct Hset as (ch & info & Hch & Hinfo & Hready).
  match goal with H : ok_or _ _ = Ok ?a |- _ =>
    apply ok_or_Ok in H; assert (a = ch) as -> by congruence end.
  fields. rewrite Hg, Hpot, Hinfo.
  replace Absent with (if phi_have_potato phi then Present else Absent) by by rewrite joins.
  by apply ready_handed_over.
Qed.

Lemma rec_then_transition {A} (op : eff HandshakeReceiverPhase A) p :
  holds_after rec_ok op p -> holds_after rec_ok (a ← op; _ ← rec_try_transition_to_potato; mret a) p.
Proof.
  intros Hop. apply after_bind; [done|]. intros a q Hq. apply after_bind; [by apply rec_transition_ok|].
  intros ? ? Hq'. by apply (after_pure _ (Ok a)).
Qed.

Lemma rec_send_f_ok info p :
  rec_ok p -> settled (rec_channel_state p) (rec_last_channel_coin_spend_info p) ->
  match rec_state p with RecDone => False | _ => True end -> holds_after rec_ok (try_send_step_f info) p.
Proof.
  intros [] Hset Hst. unfold try_send_step_f. hs_walk; fields. by destruct (rec_state p).
Qed.

Lemma rec_receive_a_ok msg p :
  rec_state p = WaitingForA -> rec_ok p -> holds_after rec_ok (rec_receive_a msg) p.
Proof.
  intros Hst Hp. unfold rec_receive_a. hs_walk; try done. destruct Hp. rewrite Hst in *. fields.
Qed.

Lemma rec_receive_c_ok info msg p :
  rec_state p = SentB info -> rec_ok p -> holds_after rec_ok (rec_receive_c env info msg) p.
Proof.
  intros Hst Hp. unfold rec_receive_c. hs_walk; try done;
    try (by destruct Hp; rewrite Hst in *; fields).
  assert (made c) as Hmade.
  { eapply make_channel_made. rewrite joins. rewrite <-(ro_mine _ Hp), <-(ro_theirs _ Hp). eassumption. }
  destruct Hp. rewrite Hst in *. fields.
Qed.

Lemma rec_verified sigs p :
  rec_ok p ->
  match catch (rec_on_ch (verify_and_store_initial_peer_signatures env sigs))
          (fun _ => throw (StrErr "receiver step E: verify/store initial peer signatures failed")) p
  with
  | (Ok info, p') => exists ch, p' = p <| rec_channel_state := Some ch |> /\ made ch /\ ready ch info
  | (Err _, p') => p' = p
  end.
Proof.
  intros Hp. unfold catch, rec_on_ch. destruct (rec_ch p) as [ch|e] eqn:Hch; [|by destruct e].
  apply ok_or_Ok in Hch. pose proof (ro_made _ Hp) as Hmade. rewrite Hch in Hmade.
  destruct (verify_and_store_initial_peer_signatures env sigs ch) as [[info|e] ch'] eqn:Hv.
  - exists ch'. split; [done|]. by eapply verified_ready.
  - apply verify_refused in Hv as ->. assert (p <| rec_channel_state := Some ch |> = p) as Heq.
    { destruct p. cbn in *. by subst. }
    rewrite Heq. by destruct e.
Qed.

Lemma rec_receive_e_ok info msg p :
  rec_state p = SentD info -> rec_ok p -> holds_after rec_ok (rec_receive_e env info msg) p.
Proof.
  intros Hst Hp. unfold rec_receive_e. pose proof (rec_verified (e_signatures msg) p Hp) as Hv.
  apply after_run_bind; [|by intros e p' Hrun; rewrite Hrun in Hv; subst].
  intros spend p' Hrun. rewrite Hrun in Hv. destruct Hv as (ch & -> & Hmade & Hready).
  set (stored := fun q => rec_ok q /\ rec_state q = SentD info
    /\ settled (rec_channel_state q) (rec_last_channel_coin_spend_info q)).
  assert (stored (p <| rec_channel_state := Some ch |>
                    <| rec_last_channel_coin_spend_info := Some spend |>)) as Hq.
  { destruct Hp. rewrite Hst in *. split; [|split; [done|by exists ch, spend]]. fields; by rewrite Hst. }
  assert (forall (effects : list Effect) q, stored q -> holds_after rec_ok
    (_ ← guard_or (negb (bool_decide (length (spends (e_bundle msg)) = 0)))
           (StrErr "No spends to draw the channel coin from");
     _ ← modify_state (fun p => p <| rec_state := WaitingForCompletion info (e_bundle msg) |>);
     step_f ← try_send_step_f info; mret (effects ++ step_f)) q) as Hend.
  { intros effects q (Hok & Hst' & Hset). hs_walk; [done|].
    apply after_bind; [|intros; by apply (after_pure _ (Ok _))].
    apply rec_send_f_ok; [|done|done]. destruct Hok. rewrite Hst' in *. fields. }
  hs_walk; (apply (after_bind_with _ stored); [|by intros q []|by intros; apply Hend]).
  - apply rec_request_keeps; [done|]. intros d. destruct Hq as [[] Hq]. by split; [split|].
  - hs_walk. destruct Hq as [[] Hq]. by split; [split|].
Qed.

Lemma rec_put_back_ok msg p : rec_ok p -> holds_after rec_ok (rec_put_back msg) p.
Proof. intros []. unfold rec_put_back. hs_walk. fields. Qed.

Lemma rec_handle_ok msg p : rec_ok p -> holds_after rec_ok (rec_handle env msg) p.
Proof.
  intros Hp. unfold rec_handle. apply after_get_bind. cbv beta.
  destruct (rec_state p) eqn:Hst, msg; cbn beta iota;
    try (by apply (after_pure _ (Err _))); try (by apply rec_put_back_ok).
  - by apply rec_receive_a_ok.
  - by eapply rec_receive_c_ok.
  - by eapply rec_receive_e_ok.
Qed.

Lemma rec_process_ok p : rec_ok p -> holds_after rec_ok (Receiver_process_queued_message env) p.
Proof.
  intros Hp. unfold Receiver_process_queued_message. hs_walk; [done|].
  apply rec_then_transition, rec_handle_ok. destruct Hp. fields.
Qed.

Lemma rec_received_ok msg p : rec_ok p -> holds_after rec_ok (Receiver_received_message env msg) p.
Proof.
  intros Hp. unfold Receiver_received_message. hs_walk; try done.
  apply rec_process_ok. destruct Hp. fields.
Qed.

Lemma rec_created_ok p : rec_ok p -> holds_after rec_ok Receiver_coin_created p.
Proof.
  intros Hp. unfold Receiver_coin_created. hs_walk; try done.
  all: apply after_bind; [|intros ? q Hq; apply after_bind;
         [by apply rec_transition_ok|intros; by apply (after_pure _ (Ok _))]].
  all: try (by hs_walk; destruct Hp; fields; rewrite ?Heqo, ?Heqr in *).
  destruct Hp. match goal with H : rec_state p = _ |- _ => rewrite H in * end.
  apply rec_send_f_ok; [|done|]; cbn;
    try (by match goal with H : rec_state p = _ |- _ => rewrite H end).
Qed.

Lemma rec_block_ok height p : rec_ok p -> holds_after rec_ok (Receiver_new_block height) p.
Proof.
  intros Hp. unfold Receiver_new_block. hs_walk; [|destruct Hp; fields].
  apply rec_request_keeps; [destruct Hp; fields|]. intros d. destruct Hp. fields.
Qed.

Lemma rec_completion_ok b p :
  rec_ok p -> holds_after rec_ok (Receiver_channel_transaction_completion b) p.
Proof.
  intros Hp. unfold Receiver_channel_transaction_completion. hs_walk; try (by destruct Hp; fields).
  apply rec_then_transition. destruct Hp.
  match goal with H : rec_state p = _ |- _ => rewrite H in * end.
  apply rec_send_f_ok; [|done|]; cbn;
    try (by match goal with H : rec_state p = _ |- _ => rewrite H end).
Qed.

Lemma rec_bundle_ok b p : rec_ok p -> holds_after rec_ok (Receiver_provide_coin_spend_bundle b) p.
Proof.
  intros Hp. unfold Receiver_provide_coin_spend_bundle. hs_walk; try (by apply rec_completion_ok).
  apply after_bind; [by apply rec_completion_ok|]. intros. hs_walk. done.
Qed.

Lemma rec_fails_ok p : rec_ok p -> holds_after rec_ok Receiver_go_on_chain p.
Proof. intros []. unfold Receiver_go_on_chain. hs_walk. fields. Qed.
Lemma rec_callback_ok reason p : rec_ok p -> holds_after rec_ok (Receiver_wallet_callback_failed reason) p.
Proof. intros []. unfold Receiver_wallet_callback_failed. hs_walk. fields. Qed.
Lemma rec_taken_ok p : rec_ok p -> holds_after rec_ok rec_take_next_phase p.
Proof. intros []. unfold rec_take_next_phase. hs_walk. fields. Qed.
End receiver.

(** ** Either player *)
Definition handshake_ok (peer : Peer) : Prop :=
  match peer with
  | Initiator p => phi_have_potato phi = true /\ ini_ok p
  | Receiver p => phi_have_potato phi = false /\ rec_ok p
  | _ => False
  end.

Lemma new_peer_ok : handshake_ok (new_peer phi).
Proof. unfold new_peer. by destruct (phi_have_potato phi) eqn:H; (split; [done|by split]). Qed.

(** Everything that happens to a phase before it is replaced. *)
Inductive PeerInput : Type :=
| Starts
| MessageArrives (msg : bytes)
| MessageRetried
| CoinSeen
| HeightSeen (height : N)
| WalletOffers (b : SpendBundle)
| WalletCompletes (b : SpendBundle)
| LauncherKnown (launcher : CoinString)
| FundingPaid (b : SpendBundle)
| WalletFails (reason : string)
| GivesUp (got_error : bool).

(** The phase afterwards, whether the step succeeds or fails. *)
Definition peer_after (peer : Peer) (i : PeerInput) : Peer :=
  match i with
  | Starts => (PeerPhase.start_handshake peer).2
  | MessageArrives msg => (PeerPhase.received_message env msg peer).2
  | MessageRetried => (PeerPhase.process_queued_message env peer).2
  | CoinSeen => (PeerPhase.coin_created peer).2
  | HeightSeen height => (PeerPhase.new_block height peer).2
  | WalletOffers b => (PeerPhase.channel_offer b peer).2
  | WalletCompletes b => (PeerPhase.channel_transaction_completion b peer).2
  | LauncherKnown launcher => (PeerPhase.provide_launcher_coin env launcher peer).2
  | FundingPaid b => (PeerPhase.provide_coin_spend_bundle b peer).2
  | WalletFails reason => (PeerPhase.wallet_callback_failed reason peer).2
  | GivesUp got_error => (PeerPhase.go_on_chain env got_error peer).2
  end.

Lemma after_initiator {A} (op : eff HandshakeInitiatorPhase A) p :
  phi_have_potato phi = true -> holds_after ini_ok op p -> handshake_ok (in_phase Initiator op p).2.
Proof. unfold holds_after, in_phase. intros Hs H. by destruct (op p). Qed.
Lemma after_receiver {A} (op : eff HandshakeReceiverPhase A) p :
  phi_have_potato phi = false -> holds_after rec_ok op p -> handshake_ok (in_phase Receiver op p).2.
Proof. unfold holds_after, in_phase. intros Hs H. by destruct (op p). Qed.

Lemma peer_after_ok peer i : handshake_ok peer -> handshake_ok (peer_after peer i).
Proof.
  destruct peer as [p|p| | |]; try done; intros [Hs Hp]; destruct i; cbn [peer_after]; try done.
  - apply after_initiator; [done|]. by apply ini_start_ok.
  - apply after_initiator; [done|]. by apply ini_received_ok.
  - apply after_initiator; [done|]. by apply ini_process_ok.
  - apply after_initiator; [done|]. by apply ini_created_ok.
  - apply after_initiator; [done|]. by apply ini_block_ok.
  - apply after_initiator; [done|]. by apply ini_offer_ok.
  - apply after_initiator; [done|]. by apply ini_launcher_ok.
  - apply after_initiator; [done|]. by apply ini_bundle_ok.
  - apply after_initiator; [done|]. by apply ini_callback_ok.
  - apply after_initiator; [done|]. by apply ini_fails_ok.
  - apply after_receiver; [done|]. by apply rec_received_ok.
  - apply after_receiver; [done|]. by apply rec_process_ok.
  - apply after_receiver; [done|]. by apply rec_created_ok.
  - apply after_receiver; [done|]. by apply rec_block_ok.
  - apply after_receiver; [done|]. by apply rec_completion_ok.
  - apply after_receiver; [done|]. by apply rec_bundle_ok.
  - apply after_receiver; [done|]. by apply rec_callback_ok.
  - apply after_receiver; [done|]. by apply rec_fails_ok.
Qed.

Lemma run_ok inputs peer : handshake_ok peer -> handshake_ok (foldl peer_after peer inputs).
Proof.
  revert peer. induction inputs as [|i inputs IH]; intros peer Hp; cbn; [done|].
  by apply IH, peer_after_ok.
Qed.

Lemma taken_handed_over peer q :
  handshake_ok peer -> (PeerPhase.take_next_phase peer).1 = Ok (Some (OffChain q)) -> handed_over q.
Proof.
  destruct peer as [p|p| | |]; try done; intros [_ Hp]; cbn; intros [= H].
  - pose proof (io_handed _ Hp) as Hh. destruct (ini_replacement p); [|done]. by injection H as ->.
  - pose proof (ro_handed _ Hp) as Hh. destruct (rec_replacement p); [|done]. by injection H as ->.
Qed.
End handshake.

Section properties.
Context {arch : Arch} {sha2 : Sha2} {bigint : BigInt} {clvm : Clvm} {bls : Bls}.
Context {puzzles : ChiaPuzzles} {order : HashOrder} {codec : PeerCodec} {singleton : LauncherPuzzle}.

(** C7: the handshake hands over a channel that is set up.  Whatever happens to
    the handshake of either player, with steps that fail included, an off-chain
    phase that comes out of it is in the state from which the off-chain theorems
    start: its channel was made with the contributions agreed on, the peer's
    signatures of its first state were verified, the spend they complete is
    saved, and the potato is with the initiator. *)
Theorem handshake_sets_up env phi inputs q
    (Hfair : forall p, game_types p = phi_game_types phi -> fair_types p)
    (Hnext : (PeerPhase.take_next_phase (foldl (peer_after env) (new_peer phi) inputs)).1
             = Ok (Some (OffChain q))) :
  exists ch, set_up env q ch
  /\ my_out_of_game_balance ch = phi_my_contribution phi
  /\ their_out_of_game_balance ch = phi_their_contribution phi
  /\ has_potato q = phi_have_potato phi.
Proof.
  assert (handed_over env phi q) as (ch & Hset & [Hmine Htheirs] & Hpot).
  { eapply taken_handed_over; [|exact Hnext]. by apply run_ok, new_peer_ok. }
  by exists ch.
Qed.
End properties.

Module Witnesses.
Import Toy ToyGame ToyChannel.

#[export] Instance toy_launcher : LauncherPuzzle := {|
  SINGLETON_LAUNCHER := toy_encode (Atom [x98]);
  SINGLETON_LAUNCHER_HASH := toy_digest [x98];
|}.

(** Bob opens the channel; Alice answers with what she computes herself. *)
Definition bob_phi : OffChainPhaseInit :=
  mkOffChainPhaseInit true bob_keys ∅ 200 300 20 15 (ph xbb).
Definition launcher_of_bob : CoinString :=
  CoinString_from_parts (mkCoinID (toy_digest [x70])) (mkPuzzleHash (toy_digest [x98])) 0.

Abbreviation alice_payload_run := (my_handshake_b alice_keys (ph xaa) 300 200).
Lemma alice_payload_ok : is_ok alice_payload_run = true.
Proof. vm_compute. reflexivity. Qed.
Definition alice_payload : HandshakePayloadB := Eval vm_compute in the_ok _ alice_payload_ok.
Abbreviation bob_payload_run := (my_handshake_b bob_keys (ph xbb) 200 300).
Lemma bob_payload_ok : is_ok bob_payload_run = true.
Proof. vm_compute. reflexivity. Qed.
Definition bob_payload : HandshakePayloadB := Eval vm_compute in the_ok _ bob_payload_ok.
Abbreviation alice_sigs_run :=
  ('(ch, _) ← make_channel_state env alice_keys 300 200 15 (ph xaa) (to_coin_id launcher_of_bob) true
                bob_payload; get_initial_signatures ch).
Lemma alice_sigs_ok : is_ok alice_sigs_run = true.
Proof. vm_compute. reflexivity. Qed.
Definition alice_sigs : StateUpdateSignatures := Eval vm_compute in the_ok _ alice_sigs_ok.

#[export] Instance handshake_codec : PeerCodec := {|
  decode_peer_message := fun b =>
    match b with
    | [x01] => Ok (HandshakeB alice_payload)
    | [x02] => Ok (HandshakeD (mkHandshakePayloadD alice_sigs))
    | _ => Err (StrErr "bencodex deserialize error")
    end |}.

Definition exchange : list PeerInput :=
  [Starts; MessageArrives [x01]; MessageArrives [x00]; LauncherKnown launcher_of_bob; HeightSeen 7;
   MessageArrives [x02]; FundingPaid (mkSpendBundle None []); CoinSeen].
Abbreviation outcome := (PeerPhase.take_next_phase (foldl (peer_after env) (new_peer bob_phi) exchange)).1.
Definition off_chain_of (r : result Error (option Peer)) : option OffChainPhase :=
  match r with Ok (Some (OffChain q)) => Some q | _ => None end.
Definition bob_playing : option OffChainPhase := Eval vm_compute in off_chain_of outcome.
Lemma bob_plays : is_Some bob_playing.
Proof. by eexists. Qed.
Lemma exchange_run : outcome = Ok (OffChain <$> bob_playing).
Proof. by_running. Qed.

Lemma bob_fair p : game_types p = phi_game_types bob_phi -> fair_types p.
Proof.
  intros Htypes proposal games (f & Hf%ok_or_Ok & _)%bind_Ok. rewrite Htypes in Hf.
  change (phi_game_types bob_phi) with (∅ : gmap GameType GameFactory) in Hf.
  by rewrite lookup_empty in Hf.
Qed.

Lemma handshake_sets_up_witness :
  exists q ch, bob_playing = Some q /\ set_up env q ch /\ my_out_of_game_balance ch = 200%N
  /\ has_potato q = true.
Proof.
  destruct bob_plays as [q Hq]. pose proof exchange_run as Hrun. rewrite Hq in Hrun.
  destruct (handshake_sets_up env bob_phi exchange q bob_fair Hrun) as (ch & Hset & Hmine & _ & Hpot).
  exists q, ch. split; [exact Hq|]. split; [exact Hset|]. split; [exact Hmine|exact Hpot].
Defined.
End Witnesses.
