(* ===== verification/HandshakeCompletion.v ===== *)
(** * The handshake of two honest players

    Nothing of what one player of a handshake asks of the other is refused: the
    payloads pass each other's checks, the first states are signed and the
    signatures accepted, and both leave the handshake with the two sides of one
    channel. *)
From S2P Require Import Prelude Extern World Coins Clvm StandardCoin TransactionManager UnrollCoin.
From S2P Require Import GameHandler RefereeTypes Referee LiveGame ChannelState ChannelGames.
From S2P Require Import ChannelOnChain Effects OnChainPhase OnChainActions OnChainSpend HandlerBase.
From S2P Require Import SpendChannelCoin UnrollTransition OffChainPhase OffChainReceive HandshakeBase.
From S2P Require Import HandshakeInitiator HandshakeReceiver PeerPhase ChannelLemmas ChannelMirror.
From S2P Require Import ToyGame ToyChannel HandshakeProperties.

Section initial.
Context {arch : Arch} {sha2 : Sha2} {bigint : BigInt} {clvm : Clvm} {bls : Bls}.
Context {puzzles : ChiaPuzzles} {order : HashOrder}.

(** ** The first signatures *)
Lemma new_puzzle env keys launcher potato tc tu tr tph tsig mine theirs timeout ph s i :
  ChannelState_new env keys launcher potato tc tu tr tph tsig mine theirs timeout ph = Ok (s, i) ->
  exists puz, puzzle_for_synthetic_public_key (standard_puzzle env)
    (pk_add (private_to_public_key (my_channel_coin_private_key keys)) tc) = Ok puz.
Proof.
  unfold ChannelState_new. intros (? & _ & H)%bind_Ok. apply bind_Ok in H as (? & _ & H).
  apply bind_Ok in H as (? & _ & H). cbn zeta in H.
  match type of H with context [set_up_channel ?e ?p ?s0] =>
    destruct (set_up_channel e p s0) as [[i'|] s'] eqn:Hrun; [|done] end. clear H.
  unfold set_up_channel in Hrun. apply eff_bind_Ok in Hrun as (? & ? & [= <- <-] & H). cbn zeta in H.
  apply eff_bind_Ok in H as (half & s1 & Hup & H). unfold update_sent_coin in Hup.
  apply eff_bind_Ok in Hup as (? & ? & [= <- <-] & Hup). unfold on_part in Hup.
  destruct (UnrollCoin_update _ _ _ _) as [r u] eqn:Hsign in Hup. injection Hup as -> <-.
  apply eff_bind_Ok in H as ([] & s2 & Hrec & H). unfold record_unroll_puzzle_hash in Hrec.
  apply eff_bind_Ok in Hrec as (? & ? & [= <- <-] & Hrec). apply record_Ok in Hrec as (uph & h & _ & ->).
  apply eff_bind_Ok in H as (? & ? & [= <- <-] & H). apply eff_bind_Ok in H as (spend & ? & [= _ <-] & H).
  apply eff_bind_Ok in H as (puz & ? & [= Hpuz <-] & _). by exists puz.
Qed.

Lemma new_keys env keys launcher potato tc tu tr tph tsig mine theirs timeout ph s i :
  ChannelState_new env keys launcher potato tc tu tr tph tsig mine theirs timeout ph = Ok (s, i) ->
  tc <> channel_pk keys /\ tu <> unroll_pk keys /\ timeout <> 0%N.
Proof.
  unfold ChannelState_new. intros (? & Hc & H)%bind_Ok. apply bind_Ok in H as (? & Hu & H).
  apply bind_Ok in H as (? & Ht & _).
  apply check_Ok, negb_true_iff, bool_decide_eq_false in Hc, Hu. apply check_Ok, negb_true_iff, N.eqb_neq in Ht.
  done.
Qed.

(** If one of the players can make the channel, so can the other. *)
Lemma new_other env keysA keysB launcher potato sigA sigB mine theirs timeout phA phB s iA :
  ChannelState_new env keysA launcher potato (channel_pk keysB) (unroll_pk keysB) (referee_pk keysB)
    phB sigB mine theirs timeout phA = Ok (s, iA) ->
  exists t iB, ChannelState_new env keysB launcher (negb potato) (channel_pk keysA) (unroll_pk keysA)
    (referee_pk keysA) phA sigA theirs mine timeout phB = Ok (t, iB).
Proof.
  intros HA. destruct (new_keys _ _ _ _ _ _ _ _ _ _ _ _ _ _ _ HA) as (Hc & Hu & Ht).
  destruct (new_puzzle _ _ _ _ _ _ _ _ _ _ _ _ _ _ _ HA) as [puz Hpuz].
  apply ChannelState_new_Ok in HA as (_ & half & u & uph & h & spend & puz' & Hup & Hrec & Hspend & _).
  set (s0 := initial_channel_state _ _ _ _ _ _ _ _ _ _ _ _ _) in *.
  unfold ChannelState_new, check. rewrite !bool_decide_eq_false_2 by (unfold channel_pk, unroll_pk in *; congruence).
  apply N.eqb_neq in Ht. rewrite Ht. cbn.
  set (t0 := initial_channel_state keysB _ _ _ _ _ _ _ _ _ _ _ _).
  assert (same_channel s0 t0) as Hsame.
  { split; try done. subst s0 t0. unfold channel_coin. cbn. unfold channel_pk.
    rewrite (pk_add_comm (private_to_public_key (my_channel_coin_private_key keysB))).
    unfold Amount_add, u64_add. by rewrite (N.add_comm theirs mine). }
  assert (mirror_coins (mkUnrollCoin potato 0 None) (mkUnrollCoin (negb potato) 0 None)) as Hmir by done.
  destruct (UnrollCoin_update_other _ (my_unroll_coin_private_key keysB) _ (unroll_pk keysA) _ _ _ _ _
    Hmir Hup) as (o & half' & Ho & Hon & Hv).
  set (v := (mkUnrollCoin (negb potato) 0 None) <| outcome := _ |>) in Hv.
  assert (same_commitment u v) as Hcommit by by do 2 eexists.
  destruct Hrec as (node & o' & Hnode & -> & Ho' & ->). rewrite <-(curried_mirror _ _ _ _ _ Hsame Hcommit) in Hnode.
  destruct (create_conditions_mirror env s0 t0 u v spend Hsame Hcommit Hspend) as (spend' & _ & Hspend' & _).
  unfold channel_pk in Hpuz. rewrite pk_add_comm in Hpuz.
  match goal with |- context [set_up_channel ?e ?p t0] =>
    assert (exists i t, set_up_channel e p t0 = (Ok i, t)) as (i & t & ->); [|by exists t, i] end.
  do 2 eexists. unfold set_up_channel. apply eff_bind_Ok. do 2 eexists. split; [reflexivity|]. cbv beta zeta.
  apply eff_bind_Ok. exists half', (set_sent_coin v t0). split.
  { unfold update_sent_coin. apply eff_bind_Ok. do 2 eexists. split; [reflexivity|].
    unfold on_part. match goal with |- context [UnrollCoin_update ?k ?p ?i ?u] =>
      assert (UnrollCoin_update k p i u = (Ok half', v)) as -> by exact Hv end. done. }
  apply eff_bind_Ok. exists tt. eexists. split.
  { unfold record_unroll_puzzle_hash. apply eff_bind_Ok. do 2 eexists. split; [reflexivity|].
    unfold record_unroll_puzzle_hash_for. apply eff_bind_Ok. do 2 eexists. split; [reflexivity|].
    apply eff_bind_Ok. exists node. eexists. split; [by unfold lift_result; f_equal|]. reflexivity. }
  apply eff_bind_Ok. do 2 eexists. split; [reflexivity|].
  apply eff_bind_Ok. exists spend'. eexists. split; [unfold lift_result; f_equal; exact Hspend'|].
  apply eff_bind_Ok. exists puz. eexists. split; [unfold lift_result; f_equal; exact Hpuz|]. reflexivity.
Qed.

(** What one player signs of the first state, the other accepts. *)
Lemma initial_accepted env keysA keysB launcher potato sigA sigB mine theirs timeout phA phB s t iA iB :
  ChannelState_new env keysA launcher potato (channel_pk keysB) (unroll_pk keysB) (referee_pk keysB)
    phB sigB mine theirs timeout phA = Ok (s, iA) ->
  ChannelState_new env keysB launcher (negb potato) (channel_pk keysA) (unroll_pk keysA)
    (referee_pk keysA) phA sigA theirs mine timeout phB = Ok (t, iB) ->
  exists sigs info t', get_initial_signatures s = Ok sigs
  /\ verify_and_store_initial_peer_signatures env sigs t = (Ok info, t').
Proof.
  intros HA HB. pose proof (new_mirror _ _ _ _ _ _ _ _ _ _ _ _ _ _ _ _ HA HB) as Hm.
  pose proof (cm_same _ _ Hm) as Hsame. apply new_puzzle in HB as Hpuz. destruct Hpuz as [puz Hpuz].
  apply ChannelState_new_Ok in HA as (_ & halfA & u & uphA & hA & spendA & puzA & Hu & _ & HspendA & Hs).
  apply ChannelState_new_Ok in HB as (_ & halfB & v & uphB & hB & spendB & puzB & Hv & _ & _ & Ht).
  destruct (UnrollCoin_update_Ok _ _ _ _ _ _ Hu) as (b & tc & th & bh & Hb & Htc & Hth & Hbh & HhalfA & Hu').
  assert (mirror_coins (mkUnrollCoin potato 0 None) (mkUnrollCoin (negb potato) 0 None)) as Hmir by done.
  destruct (UnrollCoin_update_other _ (my_unroll_coin_private_key keysB) _ (unroll_pk keysA) _ _ _ _ _
    Hmir Hu) as (o & half' & Ho & Hon & Hv').
  match type of Hv with UnrollCoin_update _ _ ?i _ = _ =>
    match type of Hv' with UnrollCoin_update _ _ ?i' _ = _ => assert (i' = i) as Hi by done end end.
  rewrite Hi, Hv in Hv'. injection Hv' as _ Hv'.
  assert (same_commitment u v) as Hcommit by (rewrite Hv'; by do 2 eexists).
  assert (create_conditions_and_signature_of_channel_coin s env u = Ok spendA) as Hspend.
  { rewrite Hs. exact HspendA. }
  destruct (create_conditions_mirror env s t u v spendA Hsame Hcommit Hspend)
    as (spend' & full & Hspend' & Hfull & _).
  assert (sent_coin t = v) as Hsent by by rewrite Ht.
  assert (get_aggregate_channel_public_key t
    = pk_add (private_to_public_key (my_channel_coin_private_key keysB)) (channel_pk keysA)) as Hagg
    by by rewrite Ht.
  assert (UnrollCoin_verify (get_aggregate_unroll_public_key t) halfA v = Ok true) as Hverify.
  { assert (get_aggregate_unroll_public_key t
      = pk_add (unroll_pk keysB) (private_to_public_key (my_unroll_coin_private_key keysA))) as ->
      by by rewrite Ht.
    eapply exchange_verifies; [apply mirror_coins_sym, Hmir|rewrite <-Hi in Hv; exact Hv|].
    rewrite mirror_inputs_twice. exact Hu. }
  exists (mkStateUpdateSignatures (broken_signature spendA) halfA). do 2 eexists. split.
  - unfold get_initial_signatures. rewrite Hs. cbn. rewrite Hu'. done.
  - unfold verify_and_store_initial_peer_signatures, mbind, eff_bind, get_state, lift_result, guard_or,
      put_state, mret, eff_ret. cbn [unroll_preempt_half_sig channel_half_sig].
    rewrite Hsent, Hverify, Hspend', Hfull, Hagg, Hpuz. reflexivity.
Qed.

(** Storing them leaves the channel what it was. *)
Lemma verified_coin env sigs t info t' :
  verify_and_store_initial_peer_signatures env sigs t = (Ok info, t') -> channel_coin t' = channel_coin t.
Proof.
  unfold verify_and_store_initial_peer_signatures, mbind, eff_bind, get_state, lift_result,
    guard_or, put_state, mret, eff_ret. intros H. repeat case_match; cbn in *; by simplify_eq.
Qed.

Lemma verified_mirror env sigs s t info t' :
  channel_mirror s t -> verify_and_store_initial_peer_signatures env sigs t = (Ok info, t') ->
  channel_mirror s t'.
Proof.
  intros Hm Hv. symmetry. symmetry in Hm. apply verified_coin in Hv as Hcoin.
  apply verify_initial_Ok in Hv as (spend & _ & ->).
  apply (mirror_frame t); cbn; try done; [|by destruct Hm..]. cbn in Hcoin. by rewrite Hcoin.
Qed.

Lemma new_coin env keys launcher potato tc tu tr tph tsig mine theirs timeout ph s i :
  ChannelState_new env keys launcher potato tc tu tr tph tsig mine theirs timeout ph = Ok (s, i) ->
  exists coin_ph total, get_coin_string_parts (channel_coin s) = Ok (launcher, coin_ph, total).
Proof.
  intros (_ & ? & ? & ? & ? & ? & ? & _ & _ & _ & ->)%ChannelState_new_Ok. do 2 eexists.
  unfold get_coin_string_parts. cbn. unfold channel_coin. cbn.
  by rewrite to_parts_from_parts by apply u64_add_is_u64.
Qed.
End initial.

(** ** Two players at a table

    Both phases, with what lies between them: the messages on their way to each
    player, what he has asked his wallet for, and whether the funding
    transaction was handed to the chain. *)
Inductive Side : Type := Ini | Rec.
#[export] Instance Side_eq : EqDecision Side.
Proof. solve_decision. Defined.
Definition opposite (who : Side) : Side := match who with Ini => Rec | Rec => Ini end.

Section table.
Context {arch : Arch} {sha2 : Sha2} {bigint : BigInt} {clvm : Clvm} {bls : Bls}.
Context {puzzles : ChiaPuzzles} {order : HashOrder} {codec : PeerCodec} {singleton : LauncherPuzzle}.

(** What a player's effects leave on his desk: letters to the other one, and
    whether he published a transaction. *)
Record Desk := mkDesk { letters : list PeerMessage; publishes : bool }.
#[export] Instance desk_system : EffectSystem Desk := {|
  sys_notification := fun _ => mret tt;
  sys_log := fun _ => mret tt;
  sys_send_message := fun m d => (Ok tt, mkDesk (letters d ++ [m]) (publishes d));
  sys_spend_transaction_and_add_fee := fun _ _ d => (Ok tt, mkDesk (letters d) true);
  sys_register_coin := fun _ _ _ _ _ => mret tt;
  sys_request_puzzle_and_solution := fun _ => mret tt;
  sys_channel_puzzle_hash := fun _ => mret tt;
  sys_received_channel_offer := fun _ => mret tt;
|}.

Record Seat := mkSeat {
  seat_peer : Peer;
  mail : list PeerMessage;
  wants_launcher : bool;
  wants_funding : bool;
  saw_coin : bool;
}.
#[export] Instance Seat_eta : RecordEta Seat := fun s =>
  mkSeat (seat_peer s) (mail s) (wants_launcher s) (wants_funding s) (saw_coin s).
Record Table := mkTable { ini_seat : Seat; rec_seat : Seat; opened : bool; published : bool }.
#[export] Instance Table_eta : RecordEta Table := fun t =>
  mkTable (ini_seat t) (rec_seat t) (opened t) (published t).

Definition seat (who : Side) (t : Table) : Seat :=
  match who with Ini => ini_seat t | Rec => rec_seat t end.
Definition with_seat (who : Side) (f : Seat -> Seat) (t : Table) : Table :=
  match who with
  | Ini => t <| ini_seat := f (ini_seat t) |>
  | Rec => t <| rec_seat := f (rec_seat t) |>
  end.

(** What the seats do with a message once it is decoded. *)
Definition deliver (env : ChannelEnv) (m : PeerMessage) : eff Peer (list Effect) := fun peer =>
  match peer with
  | Initiator p => in_phase Initiator
      (_ ← modify_state (fun p => p <| ini_incoming_messages := ini_incoming_messages p ++ [m] |>);
       Initiator_process_queued_message env) p
  | Receiver p => in_phase Receiver
      (_ ← modify_state (fun p => p <| rec_incoming_messages := rec_incoming_messages p ++ [m] |>);
       Receiver_process_queued_message env) p
  | OffChain p => in_phase OffChain
      (_ ← modify_state (fun p => p <| incoming_messages := incoming_messages p ++ [m] |>);
       catch (OffChainReceive.process_queued_message env) (fun _ => mret peer_error)) p
  | Spending _ | OnChain _ => observed (Ok []) peer
  end.

Lemma received_delivers env m msg peer :
  handshake_finished peer = false \/ (exists p, peer = OffChain p) ->
  decode_peer_message msg = Ok m -> (N.of_nat (length msg) <= MAX_MESSAGE_SIZE)%N ->
  PeerPhase.received_message env msg peer = deliver env m peer.
Proof.
  intros Hpeer Hm Hlen. apply N.ltb_ge in Hlen. destruct peer as [p|p|p|p|p].
  4-5: by destruct Hpeer as [?|[??]].
  all: cbn; unfold Initiator_received_message, Receiver_received_message, OffChainPhase_received_message,
    in_phase, mbind, eff_bind, guard_or, lift_result; by rewrite Hlen, Hm.
Qed.

Definition is_launcher_wish (e : Effect) : bool :=
  match e with NeedLauncherCoinId => true | _ => false end.
Definition is_funding_wish (e : Effect) : bool :=
  match e with EffNeedCoinSpend _ => true | _ => false end.

(** A call of a player's phase: the phase that replaces it, if any, takes the
    seat, and the effects are carried out. *)
Definition turn (op : eff Peer (list Effect)) (who : Side) (t : Table) : result Error Table :=
  let '(outcome, peer) := op (seat_peer (seat who t)) in
  effects ← outcome;
  let '(next, peer) := take_next_phase peer in
  next ← next;
  let '(applied, desk) := apply_effects effects (mkDesk [] (published t)) in
  _ ← applied;
  let t := with_seat who (fun s => s <| seat_peer := default peer next |>
             <| wants_launcher := wants_launcher s || existsb is_launcher_wish effects |>
             <| wants_funding := wants_funding s || existsb is_funding_wish effects |>) t in
  mret (with_seat (opposite who) (fun s => s <| mail := mail s ++ letters desk |>) t
          <| published := publishes desk |>).

Inductive TableEvent : Type :=
| Opens
| LetterArrives (to : Side)
| LauncherFound
| FundingArrives (who : Side) (wallet_bundle : SpendBundle)
| BlockSeen (who : Side) (height : N)
| ChannelCoinSeen (who : Side).

(** An event happens when there is cause for it. *)
Definition can_happen (e : TableEvent) (t : Table) : bool :=
  match e with
  | Opens => negb (opened t)
  | LetterArrives to => match mail (seat to t) with [] => false | _ => true end
  | LauncherFound => wants_launcher (ini_seat t)
  | FundingArrives who _ => wants_funding (seat who t)
  | BlockSeen _ height => (0 <? height)%N
  | ChannelCoinSeen who => published t && negb (saw_coin (seat who t))
  end.

Definition happen (env : ChannelEnv) (launcher : CoinString) (e : TableEvent) (t : Table)
    : result Error Table :=
  match e with
  | Opens => turn start_handshake Ini (t <| opened := true |>)
  | LetterArrives to =>
      match mail (seat to t) with
      | [] => Ok t
      | m :: rest => turn (deliver env m) to (with_seat to (fun s => s <| mail := rest |>) t)
      end
  | LauncherFound =>
      turn (provide_launcher_coin env launcher) Ini
        (with_seat Ini (fun s => s <| wants_launcher := false |>) t)
  | FundingArrives who b =>
      turn (provide_coin_spend_bundle b) who
        (with_seat who (fun s => s <| wants_funding := false |>) t)
  | BlockSeen who height => turn (PeerPhase.new_block height) who t
  | ChannelCoinSeen who =>
      turn (effects ← coin_created; mret (default [] effects)) who
        (with_seat who (fun s => s <| saw_coin := true |>) t)
  end.

Definition take_step (env : ChannelEnv) (launcher : CoinString) (e : TableEvent) (t : Table)
    : result Error Table :=
  if can_happen e t then happen env launcher e t else mret t.
Fixpoint play (env : ChannelEnv) (launcher : CoinString) (events : list TableEvent) (t : Table)
    : result Error Table :=
  match events with
  | [] => mret t
  | e :: events =>
      t ← take_step env launcher e t; play env launcher events t
  end.

Lemma play_app env launcher events rest t :
  play env launcher (events ++ rest) t = (t ← play env launcher events t; play env launcher rest t).
Proof.
  revert t. induction events as [|e events IH]; intros t; [done|]. cbn.
  destruct (take_step env launcher e t) as [t'|err]; [apply IH|done].
Qed.

(** Two events a schedule does not tell apart: what the wallet pays with and
    which height is seen make no difference, but a height is not zero. *)
Definition same_kind (e e' : TableEvent) : bool :=
  match e, e' with
  | Opens, Opens | LauncherFound, LauncherFound => true
  | LetterArrives who, LetterArrives who'
  | FundingArrives who _, FundingArrives who' _
  | ChannelCoinSeen who, ChannelCoinSeen who' => bool_decide (who = who')
  | BlockSeen who _, BlockSeen who' height => bool_decide (who = who') && (0 <? height)%N
  | _, _ => false
  end.
(** A part of a schedule in which every kind of event gets its turn, in any
    order and any number of times. *)
Definition full_round (events : list TableEvent) : Prop :=
  forall e, existsb (same_kind e) events = true.

Definition new_table (phi_ini phi_rec : OffChainPhaseInit) : Table :=
  mkTable (mkSeat (Initiator (Initiator_new phi_ini)) [] false false false)
    (mkSeat (Receiver (Receiver_new phi_rec)) [] false false false) false false.
End table.

(** ** The rounds of the exchange *)
Section rounds.
Context {arch : Arch} {sha2 : Sha2} {bigint : BigInt} {clvm : Clvm} {bls : Bls}.
Context {puzzles : ChiaPuzzles} {order : HashOrder} {codec : PeerCodec} {singleton : LauncherPuzzle}.
Variables (env : ChannelEnv) (launcher : CoinString) (phi_ini phi_rec : OffChainPhaseInit).

(** What the players compute on the way, and that none of it fails. *)
Record Exchange := mkExchange {
  ini_says : HandshakePayloadB;
  rec_says : HandshakePayloadB;
  ini_channel : ChannelState;
  rec_channel : ChannelState;
  ini_signs : StateUpdateSignatures;
  rec_signs : StateUpdateSignatures;
  ini_verified : ChannelState;
  rec_verified : ChannelState;
  ini_info : ChannelCoinSpendInfo;
  rec_info : ChannelCoinSpendInfo;
}.

Definition make_side (phi : OffChainPhaseInit) (potato : bool) (peer_says : HandshakePayloadB) :=
  make_channel_state env (phi_private_keys phi) (phi_my_contribution phi)
    (phi_their_contribution phi) (phi_unroll_timeout phi) (phi_reward_puzzle_hash phi)
    (to_coin_id launcher) potato peer_says.
Definition says (phi : OffChainPhaseInit) :=
  my_handshake_b (phi_private_keys phi) (phi_reward_puzzle_hash phi) (phi_my_contribution phi)
    (phi_their_contribution phi).

(** A payload that passes the checks of the player it is sent to. *)
Record acceptable (phi : OffChainPhaseInit) (msg : HandshakePayloadB) : Prop := {
  payload_checked a b : check_payload a b msg = Ok tt;
  contributions_checked a b :
    check_contributions a b (phi_my_contribution phi) (phi_their_contribution phi) msg = Ok tt;
}.

Record exchange_runs (x : Exchange) : Prop := {
  er_ini_says : says phi_ini = Ok (ini_says x);
  er_rec_says : says phi_rec = Ok (rec_says x);
  er_ini_said : acceptable phi_rec (ini_says x);
  er_rec_said : acceptable phi_ini (rec_says x);
  er_launcher : check_launcher launcher = Ok tt;
  er_launcher_parts : exists parts, get_coin_string_parts launcher = Ok parts;
  er_ini_channel : exists i, make_side phi_ini false (rec_says x) = Ok (ini_channel x, i);
  er_rec_channel : exists i, make_side phi_rec true (ini_says x) = Ok (rec_channel x, i);
  er_ini_signs : get_initial_signatures (ini_channel x) = Ok (ini_signs x);
  er_rec_signs : get_initial_signatures (rec_channel x) = Ok (rec_signs x);
  er_ini_verifies : verify_and_store_initial_peer_signatures env (rec_signs x) (ini_channel x)
    = (Ok (ini_info x), ini_verified x);
  er_rec_verifies : verify_and_store_initial_peer_signatures env (ini_signs x) (rec_channel x)
    = (Ok (rec_info x), rec_verified x);
  er_ini_coin : exists parent ph total,
    get_coin_string_parts (channel_coin (ini_verified x)) = Ok (parent, ph, total)
    /\ exists solution, Program_from_nodeptr (launcher_solution_node ph total) = Ok solution;
  er_rec_coin : exists parts, get_coin_string_parts (channel_coin (rec_verified x)) = Ok parts;
}.

Variables (x : Exchange) (runs : exchange_runs x).

(** *** The initiator *)
Definition ini_at (st : InitiatorState) (ch : option ChannelState) (tx : option SpendBundle)
    (lc : option CoinString) (h : N) (deadline : option N) (pending pushed : bool)
    (info : option ChannelCoinSpendInfo) : HandshakeInitiatorPhase :=
  mkInitiator st Present ch tx lc (phi_private_keys phi_ini) (phi_game_types phi_ini)
    (phi_my_contribution phi_ini) (phi_their_contribution phi_ini) (phi_channel_timeout phi_ini)
    (phi_unroll_timeout phi_ini) (phi_reward_puzzle_hash phi_ini) h deadline pending true pushed []
    info false None None.

Definition info_ini : HandshakeStepInfo := mkHandshakeStepInfo (ini_says x) (rec_says x).

(** Run a call of a handshake phase down to the calls the exchange speaks of. *)
Ltac run_phase :=
  cbn [PeerPhase.start_handshake PeerPhase.provide_launcher_coin PeerPhase.provide_coin_spend_bundle
    PeerPhase.new_block PeerPhase.coin_created deliver];
  unfold in_phase, ini_start, Initiator_process_queued_message, Initiator_provide_launcher_coin,
    Initiator_provide_coin_spend_bundle, Initiator_channel_offer, try_send_step_e,
    Initiator_new_block, Initiator_coin_created, ini_handle, ini_receive_b, ini_receive_d,
    ini_receive_f, ini_request_funding, build_alice_coin_spend_request, build_launcher_coin_spend,
    get_launcher_coin, ini_on_ch, ini_ch, ini_try_transition_to_potato,
    Receiver_process_queued_message, Receiver_provide_coin_spend_bundle,
    Receiver_channel_transaction_completion, Receiver_new_block, Receiver_coin_created, rec_handle,
    rec_receive_a, rec_receive_c, rec_receive_e, rec_request_funding, build_bob_coin_spend_request,
    rec_get_launcher_coin, rec_on_ch, rec_ch, try_send_step_f, rec_try_transition_to_potato,
    mbind, eff_bind, get_state, guard_or, lift_result, modify_state, put_state,
    catch;
  cbn.

(** Run it on what the exchange computes. *)
Ltac run_exchange :=
  destruct runs as [HsaysI HsaysR [HpayI HconI] [HpayR HconR] Hl [[[??]?] Hlparts] [? HchI] [? HchR]
    HsigI HsigR HverI HverR (? & ? & ? & HcoinI & ? & Hsol) [[[??]?] HcoinR]];
  cbn in Hsol; unfold says, make_side in *; try eexists; try eexists; run_phase;
  repeat match goal with
    | H : forall a b, _ = Ok _ |- _ => rewrite H; cbn
    | H : ?l = Ok _ |- context [?l] => rewrite H; cbn
    | H : ?l = (Ok _, _) |- context [?l] => rewrite H; cbn
    | H : ?l = true |- context [?l] => rewrite H; cbn
    end; try reflexivity.

Lemma ini_says_a h :
  start_handshake (Initiator (ini_at WaitingForStart None None None h None false false None))
  = (Ok [PeerHandshakeA (ini_says x)],
     Initiator (ini_at (SentA (ini_says x)) None None None h None false false None)).
Proof. run_exchange. Qed.

Lemma ini_takes_b h :
  exists ph, deliver env (HandshakeB (rec_says x))
    (Initiator (ini_at (SentA (ini_says x)) None None None h None false false None))
  = (Ok [ChannelPuzzleHash ph; NeedLauncherCoinId],
     Initiator (ini_at (WaitingForLauncher info_ini) None None None h None false false None)).
Proof. run_exchange. Qed.

Lemma ini_finds_launcher h :
  provide_launcher_coin env launcher
    (Initiator (ini_at (WaitingForLauncher info_ini) None None None h None false false None))
  = (Ok [register_channel_coin (ini_channel x); PeerHandshakeC (mkHandshakePayloadC launcher)],
     Initiator (ini_at (SentC info_ini) (Some (ini_channel x)) None (Some launcher) h None false false None)).
Proof. run_exchange. Qed.

(** The initiator with the peer's signatures, at work on the funding. *)
Definition ini_offering (h : N) (deadline : option N) (pending : bool) : HandshakeInitiatorPhase :=
  ini_at (WaitingForOffer info_ini (ini_signs x)) (Some (ini_verified x)) None (Some launcher) h
    deadline pending false (Some (ini_info x)).

Lemma ini_takes_d_early :
  deliver env (HandshakeD (mkHandshakePayloadD (rec_signs x)))
    (Initiator (ini_at (SentC info_ini) (Some (ini_channel x)) None (Some launcher) 0 None false false None))
  = (Ok [], Initiator (ini_offering 0 None true)).
Proof. run_exchange. Qed.

Lemma ini_takes_d h :
  (0 <? h)%N = true ->
  exists request deadline,
    deliver env (HandshakeD (mkHandshakePayloadD (rec_signs x)))
      (Initiator (ini_at (SentC info_ini) (Some (ini_channel x)) None (Some launcher) h None false false None))
    = (Ok [EffNeedCoinSpend request], Initiator (ini_offering h deadline false)).
Proof. intros Hh. run_exchange. Qed.

Lemma ini_learns_height h :
  (0 <? h)%N = true ->
  exists request deadline, PeerPhase.new_block h (Initiator (ini_offering 0 None true))
    = (Ok [EffNeedCoinSpend request], Initiator (ini_offering h deadline false)).
Proof. intros Hh. run_exchange. Qed.

(** What the initiator sends with his signatures, and where it leaves him. *)
Definition ini_done (h : N) (deadline : option N) (pushed : bool) (tx : SpendBundle)
    : HandshakeInitiatorPhase :=
  ini_at (IniFinished (mkHandshakeStepWithSpend info_ini tx)) (Some (ini_verified x)) (Some tx)
    (Some launcher) h deadline false pushed (Some (ini_info x)).

Lemma ini_funds h deadline b :
  exists launcher_spend, let tx := mkSpendBundle None (spends b ++ [launcher_spend]) in
    provide_coin_spend_bundle b (Initiator (ini_offering h deadline false))
    = (Ok [PeerHandshakeE (mkHandshakePayloadE tx (ini_signs x))],
       Initiator (ini_done h deadline false tx)).
Proof. cbv zeta. run_exchange. Qed.

Lemma ini_takes_f h deadline pushed tx f :
  deliver env (HandshakeF f) (Initiator (ini_done h deadline pushed tx))
  = (Ok [SpendTransaction (f_bundle f) deadline], Initiator (ini_done h deadline true tx)).
Proof. run_exchange. Qed.

(** *** The receiver *)
Definition rec_at (st : ReceiverState) (ch : option ChannelState) (tx : option SpendBundle)
    (lc : option CoinString) (h : N) (deadline : option N) (pending : bool)
    (info : option ChannelCoinSpendInfo) : HandshakeReceiverPhase :=
  mkReceiver st Absent ch tx lc (phi_private_keys phi_rec) (phi_game_types phi_rec)
    (phi_my_contribution phi_rec) (phi_their_contribution phi_rec) (phi_channel_timeout phi_rec)
    (phi_unroll_timeout phi_rec) (phi_reward_puzzle_hash phi_rec) h deadline pending true [] info
    false None None.

Lemma rec_takes_a h :
  deliver env (HandshakeA (ini_says x)) (Receiver (rec_at WaitingForA None None None h None false None))
  = (Ok [PeerHandshakeB (rec_says x)],
     Receiver (rec_at (SentB info_ini) None None None h None false None)).
Proof. run_exchange. Qed.

Lemma rec_takes_c h :
  deliver env (HandshakeC (mkHandshakePayloadC launcher))
    (Receiver (rec_at (SentB info_ini) None None None h None false None))
  = (Ok [EffLog "[recv]"; register_channel_coin (rec_channel x);
         PeerHandshakeD (mkHandshakePayloadD (rec_signs x))],
     Receiver (rec_at (SentD info_ini) (Some (rec_channel x)) None (Some launcher) h None false None)).
Proof. run_exchange. Qed.

(** The receiver with the initiator's signatures and half of the funding. *)
Definition rec_accepting (h : N) (deadline : option N) (pending : bool) (tx : SpendBundle)
    : HandshakeReceiverPhase :=
  rec_at (WaitingForCompletion info_ini tx) (Some (rec_verified x)) None (Some launcher) h deadline
    pending (Some (rec_info x)).

Lemma rec_takes_e_early tx :
  spends tx <> [] ->
  deliver env (HandshakeE (mkHandshakePayloadE tx (ini_signs x)))
    (Receiver (rec_at (SentD info_ini) (Some (rec_channel x)) None (Some launcher) 0 None false None))
  = (Ok [], Receiver (rec_accepting 0 None true tx)).
Proof. intros Htx. destruct tx as [nm [|sp tx]]; [done|]. run_exchange. Qed.

Lemma rec_takes_e h tx :
  (0 <? h)%N = true -> spends tx <> [] ->
  exists request deadline,
    deliver env (HandshakeE (mkHandshakePayloadE tx (ini_signs x)))
      (Receiver (rec_at (SentD info_ini) (Some (rec_channel x)) None (Some launcher) h None false None))
    = (Ok [EffNeedCoinSpend request], Receiver (rec_accepting h deadline false tx)).
Proof. intros Hh Htx. destruct tx as [nm [|sp tx]]; [done|]. run_exchange. Qed.

Lemma rec_learns_height h tx :
  (0 <? h)%N = true ->
  exists request deadline, PeerPhase.new_block h (Receiver (rec_accepting 0 None true tx))
    = (Ok [EffNeedCoinSpend request], Receiver (rec_accepting h deadline false tx)).
Proof. intros Hh. run_exchange. Qed.

Definition rec_done (h : N) (deadline : option N) (tx : SpendBundle) : HandshakeReceiverPhase :=
  rec_at (RecFinished (mkHandshakeStepWithSpend info_ini tx)) (Some (rec_verified x)) (Some tx)
    (Some launcher) h deadline false (Some (rec_info x)).

Lemma rec_funds h deadline b alice :
  let tx := mkSpendBundle None (spends alice ++ spends b) in
  provide_coin_spend_bundle b (Receiver (rec_accepting h deadline false alice))
  = (Ok [PeerHandshakeF (mkHandshakePayloadF tx); SpendTransaction tx deadline],
     Receiver (rec_done h deadline tx)).
Proof. cbv zeta. run_exchange. Qed.

(** *** The next phase *)
Definition ini_plays : OffChainPhase :=
  from_completed_handshake true (ini_verified x) Present (phi_game_types phi_ini)
    (phi_private_keys phi_ini) (phi_my_contribution phi_ini) (phi_their_contribution phi_ini)
    (phi_channel_timeout phi_ini) (phi_unroll_timeout phi_ini) (phi_reward_puzzle_hash phi_ini) []
    (Some (ini_info x)).
Definition rec_plays : OffChainPhase :=
  from_completed_handshake false (rec_verified x) Absent (phi_game_types phi_rec)
    (phi_private_keys phi_rec) (phi_my_contribution phi_rec) (phi_their_contribution phi_rec)
    (phi_channel_timeout phi_rec) (phi_unroll_timeout phi_rec) (phi_reward_puzzle_hash phi_rec) []
    (Some (rec_info x)).

Lemma late_f_ignored f : deliver env (HandshakeF f) (OffChain ini_plays) = (Ok [], OffChain ini_plays).
Proof. reflexivity. Qed.

(** *** Where the exchange stands *)
Inductive Position : Type :=
| Unopened | AFlies | BFlies | LauncherSought | CFlies | DFlies
| HeightSought (who : Side) | FundingSought (who : Side) | EFlies
| Underway (f_flies ini_saw rec_saw : bool).

Definition table_of (ini rec : Peer) (to_ini to_rec : list PeerMessage) (launcher_wanted : bool)
    (funding_wanted : option Side) : Table :=
  mkTable (mkSeat ini to_ini launcher_wanted (bool_decide (funding_wanted = Some Ini)) false)
    (mkSeat rec to_rec false (bool_decide (funding_wanted = Some Rec)) false) true false.

(** The table at a position, the players at the heights [hi] and [hr]. *)
Inductive stands (hi hr : N) : Position -> Table -> Prop :=
| stands_unopened :
    stands hi hr Unopened
      (mkTable (mkSeat (Initiator (ini_at WaitingForStart None None None hi None false false None)) []
                  false false false)
               (mkSeat (Receiver (rec_at WaitingForA None None None hr None false None)) []
                  false false false) false false)
| stands_a :
    stands hi hr AFlies
      (table_of (Initiator (ini_at (SentA (ini_says x)) None None None hi None false false None))
         (Receiver (rec_at WaitingForA None None None hr None false None))
         [] [HandshakeA (ini_says x)] false None)
| stands_b :
    stands hi hr BFlies
      (table_of (Initiator (ini_at (SentA (ini_says x)) None None None hi None false false None))
         (Receiver (rec_at (SentB info_ini) None None None hr None false None))
         [HandshakeB (rec_says x)] [] false None)
| stands_launcher :
    stands hi hr LauncherSought
      (table_of (Initiator (ini_at (WaitingForLauncher info_ini) None None None hi None false false None))
         (Receiver (rec_at (SentB info_ini) None None None hr None false None)) [] [] true None)
| stands_c :
    stands hi hr CFlies
      (table_of (Initiator (ini_at (SentC info_ini) (Some (ini_channel x)) None (Some launcher) hi None
                              false false None))
         (Receiver (rec_at (SentB info_ini) None None None hr None false None))
         [] [HandshakeC (mkHandshakePayloadC launcher)] false None)
| stands_d :
    stands hi hr DFlies
      (table_of (Initiator (ini_at (SentC info_ini) (Some (ini_channel x)) None (Some launcher) hi None
                              false false None))
         (Receiver (rec_at (SentD info_ini) (Some (rec_channel x)) None (Some launcher) hr None false None))
         [HandshakeD (mkHandshakePayloadD (rec_signs x))] [] false None)
| stands_ini_height :
    hi = 0%N ->
    stands hi hr (HeightSought Ini)
      (table_of (Initiator (ini_offering hi None true))
         (Receiver (rec_at (SentD info_ini) (Some (rec_channel x)) None (Some launcher) hr None false None))
         [] [] false None)
| stands_ini_funding deadline :
    stands hi hr (FundingSought Ini)
      (table_of (Initiator (ini_offering hi deadline false))
         (Receiver (rec_at (SentD info_ini) (Some (rec_channel x)) None (Some launcher) hr None false None))
         [] [] false (Some Ini))
| stands_e deadline tx :
    spends tx <> [] ->
    stands hi hr EFlies
      (table_of (Initiator (ini_done hi deadline false tx))
         (Receiver (rec_at (SentD info_ini) (Some (rec_channel x)) None (Some launcher) hr None false None))
         [] [HandshakeE (mkHandshakePayloadE tx (ini_signs x))] false None)
| stands_rec_height deadline tx :
    hr = 0%N ->
    stands hi hr (HeightSought Rec)
      (table_of (Initiator (ini_done hi deadline false tx)) (Receiver (rec_accepting hr None true tx))
         [] [] false None)
| stands_rec_funding deadline tx rec_deadline :
    stands hi hr (FundingSought Rec)
      (table_of (Initiator (ini_done hi deadline false tx))
         (Receiver (rec_accepting hr rec_deadline false tx)) [] [] false (Some Rec))
| stands_underway deadline pushed tx rec_deadline all f (f_flies ini_saw rec_saw : bool) :
    stands hi hr (Underway f_flies ini_saw rec_saw)
      (mkTable (mkSeat (if ini_saw then OffChain ini_plays else Initiator (ini_done hi deadline pushed tx))
                  (if f_flies then [HandshakeF f] else []) false false ini_saw)
               (mkSeat (if rec_saw then OffChain rec_plays else Receiver (rec_done hr rec_deadline all))
                  [] false false rec_saw) true true).
Hint Constructors stands : core.

(** What an event does to the position, given who knows the height. *)
Definition advance (knows_ini knows_rec : bool) (e : TableEvent) (p : Position) : Position :=
  match e, p with
  | Opens, Unopened => AFlies
  | LetterArrives Rec, AFlies => BFlies
  | LetterArrives Ini, BFlies => LauncherSought
  | LauncherFound, LauncherSought => CFlies
  | LetterArrives Rec, CFlies => DFlies
  | LetterArrives Ini, DFlies => if knows_ini then FundingSought Ini else HeightSought Ini
  | BlockSeen Ini h, HeightSought Ini => if (0 <? h)%N then FundingSought Ini else p
  | FundingArrives Ini _, FundingSought Ini => EFlies
  | LetterArrives Rec, EFlies => if knows_rec then FundingSought Rec else HeightSought Rec
  | BlockSeen Rec h, HeightSought Rec => if (0 <? h)%N then FundingSought Rec else p
  | FundingArrives Rec _, FundingSought Rec => Underway true false false
  | LetterArrives Ini, Underway _ i r => Underway false i r
  | ChannelCoinSeen Ini, Underway f _ r => Underway f true r
  | ChannelCoinSeen Rec, Underway f i _ => Underway f i true
  | _, p => p
  end.

#[local] Arguments deliver : simpl never.
#[local] Arguments provide_launcher_coin : simpl never.
#[local] Arguments provide_coin_spend_bundle : simpl never.
#[local] Arguments start_handshake : simpl never.
#[local] Arguments PeerPhase.new_block : simpl never.

(** One event, taken from a position, leads to the position it should. *)
Definition leads (hi hr : N) (e : TableEvent) (p : Position) (t : Table) : Prop :=
  exists t' hi' hr', take_step env launcher e t = Ok t'
  /\ stands hi' hr' (advance (0 <? hi)%N (0 <? hr)%N e p) t'
  /\ (0 <? hi')%N = (0 <? hi)%N || (match e with BlockSeen Ini h => 0 <? h | _ => false end)%N
  /\ (0 <? hr')%N = (0 <? hr)%N || (match e with BlockSeen Rec h => 0 <? h | _ => false end)%N.

Lemma leads_to hi hr e p t t' :
  match e with BlockSeen _ _ => False | _ => True end ->
  take_step env launcher e t = Ok t' -> stands hi hr (advance (0 <? hi)%N (0 <? hr)%N e p) t' ->
  leads hi hr e p t.
Proof. intros He Ht' Hp. exists t', hi, hr. destruct e; try done; by rewrite !orb_false_r. Qed.

(** Take the step the phases were shown to take. *)
Ltac step_with E := eapply leads_to; [done| |]; [unfold take_step, happen, turn; cbn; rewrite E; reflexivity|].
Ltac stays := eapply leads_to; [done|reflexivity|by constructor].

Lemma opening_leads hi hr p t : stands hi hr p t -> leads hi hr Opens p t.
Proof. destruct 1; try stays. step_with ini_says_a. constructor. Qed.

Lemma letter_to_ini_leads hi hr p t : stands hi hr p t -> leads hi hr (LetterArrives Ini) p t.
Proof.
  destruct 1; try stays.
  - destruct (ini_takes_b hi) as [ph E]. step_with E. constructor.
  - destruct (0 <? hi)%N eqn:Hh.
    + destruct (ini_takes_d hi Hh) as (request & deadline & E). step_with E. cbn. rewrite Hh. constructor.
    + apply N.ltb_ge, N.le_0_r in Hh as ->. step_with ini_takes_d_early. by constructor.
  - destruct f_flies.
    2: { eapply leads_to; [done|reflexivity|].
         apply (stands_underway hi hr deadline pushed tx rec_deadline all f false ini_saw rec_saw). }
    destruct ini_saw.
    + step_with late_f_ignored. apply (stands_underway hi hr deadline pushed tx rec_deadline all f false true).
    + step_with ini_takes_f. apply (stands_underway hi hr deadline true tx rec_deadline all f false false).
Qed.

Lemma letter_to_rec_leads hi hr p t : stands hi hr p t -> leads hi hr (LetterArrives Rec) p t.
Proof.
  destruct 1; try stays.
  - step_with rec_takes_a. constructor.
  - step_with rec_takes_c. constructor.
  - destruct (0 <? hr)%N eqn:Hh.
    + destruct (rec_takes_e hr tx Hh H) as (request & rec_deadline & E). step_with E. cbn. rewrite Hh. constructor.
    + apply N.ltb_ge, N.le_0_r in Hh as ->. step_with (rec_takes_e_early tx H). by constructor.
Qed.

Lemma launcher_leads hi hr p t : stands hi hr p t -> leads hi hr LauncherFound p t.
Proof. destruct 1; try stays. step_with ini_finds_launcher. constructor. Qed.

Lemma funding_leads hi hr who b p t : stands hi hr p t -> leads hi hr (FundingArrives who b) p t.
Proof.
  destruct 1, who; try stays.
  - destruct (ini_funds hi deadline b) as [launcher_spend E]. step_with E. constructor. cbn. by destruct (spends b).
  - step_with rec_funds. apply (stands_underway hi hr deadline false tx rec_deadline _ _ true false false).
Qed.

Lemma coin_leads hi hr who p t : stands hi hr p t -> leads hi hr (ChannelCoinSeen who) p t.
Proof.
  destruct 1, who; try stays; [destruct ini_saw|destruct rec_saw];
    (eapply leads_to; [done|reflexivity|]).
  1-2: apply (stands_underway hi hr deadline pushed tx rec_deadline all f f_flies true rec_saw).
  all: destruct f_flies.
  all: first [apply (stands_underway hi hr deadline pushed tx rec_deadline all f true ini_saw true)
             |apply (stands_underway hi hr deadline pushed tx rec_deadline all f false ini_saw true)].
Qed.

(** A block tells a player the height; one that waited for it asks for his
    funding. *)
Lemma block_leads hi hr who h p t : stands hi hr p t -> leads hi hr (BlockSeen who h) p t.
Proof.
  intros Ht. unfold leads, take_step. cbn [can_happen]. destruct (0 <? h)%N eqn:Hh.
  2: { exists t, hi, hr. destruct who; rewrite ?Hh, ?orb_false_r; (split; [done|]); (split; [|done]);
       destruct p as [| | | | | |[]|[]| |[] [] []]; cbn; by rewrite ?Hh. }
  destruct who; rewrite orb_true_r, orb_false_r.
  - destruct Ht.
    7: { destruct (ini_learns_height h Hh) as (request & deadline & E). eexists _, h, hr. cbn. subst hi. 
      split; [unfold turn; cbn; rewrite E; reflexivity|]. cbn. rewrite Hh. split; [constructor|done]. }
    all: try (eexists _, h, hr; split; [reflexivity|]; split; [by constructor|done]).
    destruct ini_saw; (eexists _, h, hr; split; [reflexivity|]; split; [|done]).
    + apply (stands_underway h hr deadline pushed tx rec_deadline all f f_flies true rec_saw).
    + apply (stands_underway h hr deadline pushed tx rec_deadline all f f_flies false rec_saw).
  - destruct Ht.
    10: { destruct (rec_learns_height h tx Hh) as (request & rec_deadline & E). eexists _, hi, h. cbn. subst hr. 
      split; [unfold turn; cbn; rewrite E; reflexivity|]. cbn. rewrite Hh. split; [constructor|done]. }
    all: try (eexists _, hi, h; split; [reflexivity|]; split; [by constructor|done]).
    destruct rec_saw, f_flies; (eexists _, hi, h; split; [reflexivity|]; split; [|done]).
    + apply (stands_underway hi h deadline pushed tx rec_deadline all f true ini_saw true).
    + apply (stands_underway hi h deadline pushed tx rec_deadline all f false ini_saw true).
    + apply (stands_underway hi h deadline pushed tx rec_deadline all f true ini_saw false).
    + apply (stands_underway hi h deadline pushed tx rec_deadline all f false ini_saw false).
Qed.

Lemma step_leads hi hr e p t : stands hi hr p t -> leads hi hr e p t.
Proof.
  destruct e as [|[]| | | |].
  - apply opening_leads.
  - apply letter_to_ini_leads.
  - apply letter_to_rec_leads.
  - apply launcher_leads.
  - apply funding_leads.
  - apply block_leads.
  - apply coin_leads.
Qed.

(** *** How far the exchange is *)
Definition rank (p : Position) : nat :=
  match p with
  | Unopened => 0 | AFlies => 1 | BFlies => 2 | LauncherSought => 3 | CFlies => 4 | DFlies => 5
  | HeightSought Ini => 6 | FundingSought Ini => 7 | EFlies => 8
  | HeightSought Rec => 9 | FundingSought Rec => 10
  | Underway f_flies ini_saw rec_saw => 11 + Nat.b2n (negb f_flies) + Nat.b2n ini_saw + Nat.b2n rec_saw
  end.

(** The event that takes the exchange further. *)
Definition due (p : Position) : option TableEvent :=
  match p with
  | Unopened => Some Opens
  | AFlies | CFlies | EFlies => Some (LetterArrives Rec)
  | BFlies | DFlies | Underway true _ _ => Some (LetterArrives Ini)
  | LauncherSought => Some LauncherFound
  | HeightSought who => Some (BlockSeen who 1)
  | FundingSought who => Some (FundingArrives who (mkSpendBundle None []))
  | Underway false false _ => Some (ChannelCoinSeen Ini)
  | Underway false true false => Some (ChannelCoinSeen Rec)
  | Underway false true true => None
  end.
Definition is_due (p : Position) (e : TableEvent) : bool :=
  match due p with Some d => same_kind d e | None => false end.

Lemma advance_keeps_or_gains ki kr e p :
  advance ki kr e p = p \/ (rank p < rank (advance ki kr e p)).
Proof.
  destruct e as [|[]| |[]|[] h|[]], p as [| | | | | |[]|[]| |[] [] []]; cbn; auto;
    repeat case_match; cbn; auto; right; lia.
Qed.
Lemma due_gains ki kr e p : is_due p e = true -> rank p < rank (advance ki kr e p).
Proof.
  destruct e as [|[]| |[]|[] h|[]], p as [| | | | | |[]|[]| |[] [] []]; cbn; try done; intros H;
    rewrite ?H; repeat case_match; cbn; lia.
Qed.

Lemma play_gains events hi hr p t :
  stands hi hr p t ->
  exists t' hi' hr' p', play env launcher events t = Ok t' /\ stands hi' hr' p' t'
  /\ rank p <= rank p' /\ (existsb (is_due p) events = true -> rank p < rank p').
Proof.
  revert hi hr p t. induction events as [|e events IH]; intros hi hr p t Ht; [by exists t, hi, hr, p|].
  destruct (step_leads _ _ e _ _ Ht) as (t1 & hi1 & hr1 & Hstep & Ht1 & _).
  destruct (IH _ _ _ _ Ht1) as (t' & hi' & hr' & p' & Hplay & Ht' & Hle & Hgain).
  exists t', hi', hr', p'. cbn [play existsb]. rewrite Hstep. split; [done|]. split; [done|].
  destruct (advance_keeps_or_gains (0 <? hi)%N (0 <? hr)%N e p) as [Heq|Hlt]; [|split; [|intros _]; lia].
  rewrite Heq in Hle, Hgain. split; [done|]. intros [Hdue|Hlater]%orb_true_iff; [|auto].
  apply (due_gains (0 <? hi)%N (0 <? hr)%N) in Hdue. rewrite Heq in Hdue. lia.
Qed.

Lemma full_round_due p round : full_round round -> rank p < 14 -> existsb (is_due p) round = true.
Proof.
  intros Hround Hp. unfold is_due. destruct (due p) as [d|] eqn:Hdue; [apply Hround|].
  destruct p as [| | | | | |[]|[]| |[] [] []]; cbn in *; try done; lia.
Qed.

Lemma rounds_gain rounds hi hr p t :
  Forall full_round rounds -> stands hi hr p t ->
  exists t' hi' hr' p', play env launcher (concat rounds) t = Ok t' /\ stands hi' hr' p' t'
  /\ Nat.min 14 (rank p + length rounds) <= rank p'.
Proof.
  intros Hrounds. revert hi hr p t. induction Hrounds as [|round rounds Hround Hrounds IH]; intros hi hr p t Ht.
  - exists t, hi, hr, p. split; [done|]. split; [done|]. cbn [length]. lia.
  - destruct (play_gains round _ _ _ _ Ht) as (t1 & hi1 & hr1 & p1 & Hplay & Ht1 & Hle & Hgain).
    destruct (IH _ _ _ _ Ht1) as (t' & hi' & hr' & p' & Hrest & Ht' & Hle').
    exists t', hi', hr', p'. split; [|split; [done|]].
    + cbn [concat]. rewrite play_app, Hplay. exact Hrest.
    + cbn [length]. destruct (decide (rank p < 14)) as [Hp|Hp]; [|lia].
      pose proof (Hgain (full_round_due _ _ Hround Hp)). lia.
Qed.

(** Both have left the handshake, and nothing is on its way. *)
Definition finished_table : Table :=
  mkTable (mkSeat (OffChain ini_plays) [] false false true) (mkSeat (OffChain rec_plays) [] false false true)
    true true.
Lemma rank_finished hi hr p t : stands hi hr p t -> 14 <= rank p -> t = finished_table.
Proof.
  intros Ht Hp. destruct Ht; cbn in *; try lia.
  destruct f_flies, ini_saw, rec_saw; cbn in *; try lia. reflexivity.
Qed.

Lemma exchange_completes rounds :
  Forall full_round rounds -> 14 <= length rounds ->
  play env launcher (concat rounds) (new_table phi_ini phi_rec) = Ok finished_table.
Proof.
  intros Hrounds Hlen.
  destruct (rounds_gain rounds 0 0 Unopened (new_table phi_ini phi_rec) Hrounds)
    as (t & hi & hr & p & Hplay & Ht & Hrank); [apply stands_unopened|].
  rewrite Hplay. f_equal. eapply rank_finished; [exact Ht|]. cbn [rank] in Hrank. lia.
Qed.
Lemma exchange_never_fails events :
  exists t, play env launcher events (new_table phi_ini phi_rec) = Ok t.
Proof.
  destruct (play_gains events 0 0 Unopened (new_table phi_ini phi_rec)) as (t & _ & _ & _ & Hplay & _);
    [apply stands_unopened|by exists t].
Qed.
End rounds.

(** ** Two players who agree *)
Section agreement.
Context {arch : Arch} {sha2 : Sha2} {bigint : BigInt} {clvm : Clvm} {bls : Bls}.
Context {puzzles : ChiaPuzzles} {order : HashOrder} {codec : PeerCodec} {singleton : LauncherPuzzle}.

(** The two players put in what the other expects, allow the same time for an
    unroll, and the wallet's launcher is one of which a channel can be made. *)
Record agreed (env : ChannelEnv) (launcher : CoinString) (phi_ini phi_rec : OffChainPhaseInit) : Prop := {
  ag_ini_contribution : phi_their_contribution phi_rec = phi_my_contribution phi_ini;
  ag_rec_contribution : phi_my_contribution phi_rec = phi_their_contribution phi_ini;
  ag_unroll_timeout : phi_unroll_timeout phi_rec = phi_unroll_timeout phi_ini;
  ag_launcher : check_launcher launcher = Ok tt;
  ag_channel : is_ok (msg ← says phi_rec; make_side env launcher phi_ini false msg) = true;
  ag_launcher_solution ph total : exists solution,
    Program_from_nodeptr (launcher_solution_node ph total) = Ok solution;
}.

Lemma says_ok phi : exists msg, says phi = Ok msg
  /\ hs_channel_public_key msg = channel_pk (phi_private_keys phi)
  /\ hs_unroll_public_key msg = unroll_pk (phi_private_keys phi)
  /\ hs_referee_pubkey msg = referee_pk (phi_private_keys phi)
  /\ hs_reward_puzzle_hash msg = phi_reward_puzzle_hash phi
  /\ hs_my_contribution msg = phi_my_contribution phi
  /\ hs_their_contribution msg = phi_their_contribution phi
  /\ forall a b, check_payload a b msg = Ok tt.
Proof.
  unfold says, my_handshake_b.
  destruct (reward_payout_verifies (my_referee_private_key (phi_private_keys phi)) (phi_reward_puzzle_hash phi))
    as (sig & Hsig & Hverify).
  rewrite Hsig. cbn. eexists. do 6 (split; [done|]). split; [done|]. intros a b.
  unfold check_payload, check, sign_own_key. cbn. rewrite Hverify. cbn.
  unfold private_to_public_key. by rewrite !sk_sign_verifies.
Qed.

Lemma agreed_runs env launcher phi_ini phi_rec :
  agreed env launcher phi_ini phi_rec ->
  exists x, exchange_runs env launcher phi_ini phi_rec x
  /\ channel_mirror (ini_verified x) (rec_verified x).
Proof.
  intros [Hini Hrec Htime Hl Hmade Hsol].
  destruct (says_ok phi_ini) as (msg_ini & Hsays_ini & Hic & Hiu & Hir & Hip & Him & Hit & Hichk).
  destruct (says_ok phi_rec) as (msg_rec & Hsays_rec & Hrc & Hru & Hrr & Hrp & Hrm & Hrt & Hrchk).
  rewrite Hsays_rec in Hmade. cbn [mbind result_bind] in Hmade.
  destruct (make_side env launcher phi_ini false msg_rec) as [[s iA]|] eqn:HmadeA; [|done].
  pose proof HmadeA as HA. unfold make_side, make_channel_state in HA. rewrite Hrchk in HA.
  cbn [mbind result_bind] in HA. rewrite Hrc, Hru, Hrr, Hrp in HA.
  destruct (new_other _ _ _ _ _ (reward_payout_signature msg_ini) _ _ _ _ _ _ _ _ HA) as (t & iB & HB).
  assert (make_side env launcher phi_rec true msg_ini = Ok (t, iB)) as HmadeB.
  { unfold make_side, make_channel_state. rewrite Hichk. cbn [mbind result_bind].
    by rewrite Hic, Hiu, Hir, Hip, Hrec, Hini, Htime. }
  destruct (initial_accepted _ _ _ _ _ _ _ _ _ _ _ _ _ _ _ _ HA HB) as (sigs_ini & info_rec & t' & Hsi & Hvr).
  destruct (initial_accepted _ _ _ _ _ _ _ _ _ _ _ _ _ _ _ _ HB HA) as (sigs_rec & info_ini & s' & Hsr & Hvi).
  exists (mkExchange msg_ini msg_rec s t sigs_ini sigs_rec s' t' info_ini info_rec).
  destruct (new_coin _ _ _ _ _ _ _ _ _ _ _ _ _ _ _ HA) as (ph & total & Hparts).
  destruct (new_coin _ _ _ _ _ _ _ _ _ _ _ _ _ _ _ HB) as (ph' & total' & Hparts').
  split.
  - split; cbn; try done; try (by eexists).
    + split; [done|]. intros a b. unfold check_contributions, check. by rewrite Him, Hit, Hrec, Hini, !N.eqb_refl.
    + split; [done|]. intros a b. unfold check_contributions, check. by rewrite Hrm, Hrt, Hrec, Hini, !N.eqb_refl.
    + unfold check_launcher in Hl. apply bind_Ok in Hl as (parts & Hl & _). by exists parts.
    + rewrite (verified_coin _ _ _ _ _ Hvi). exists (to_coin_id launcher), ph, total.
      split; [done|apply Hsol].
    + rewrite (verified_coin _ _ _ _ _ Hvr). by exists (to_coin_id launcher, ph', total').
  - cbn. eapply verified_mirror; [|exact Hvr]. symmetry. eapply verified_mirror; [|exact Hvi].
    symmetry. eapply new_mirror; eassumption.
Qed.

(** C8: the handshake of two players who agree completes.  Whatever the
    order of events - messages, wallet answers, blocks and the creation of the
    channel coin - nothing either player does is refused by the other or fails;
    and a schedule in which every kind of event gets its turn fourteen times
    ends with both players in the off-chain phase, holding the two sides of one
    channel, the potato with the initiator, and nothing on its way. *)
Theorem honest_handshake_completes env launcher phi_ini phi_rec
    (Hagreed : agreed env launcher phi_ini phi_rec) :
  (forall events, exists t, play env launcher events (new_table phi_ini phi_rec) = Ok t)
  /\ forall rounds, Forall full_round rounds -> 14 <= length rounds ->
     exists ini rec ch ch',
       play env launcher (concat rounds) (new_table phi_ini phi_rec)
         = Ok (mkTable (mkSeat (OffChain ini) [] false false true)
                 (mkSeat (OffChain rec) [] false false true) true true)
       /\ off_channel_state ini = Some ch /\ off_channel_state rec = Some ch'
       /\ channel_mirror ch ch'
       /\ has_potato ini = true /\ has_potato rec = false.
Proof.
  destruct (agreed_runs _ _ _ _ Hagreed) as (x & Hruns & Hmirror). split.
  - intros events. by apply exchange_never_fails with x.
  - intros rounds Hrounds Hlen. exists (ini_plays phi_ini x), (rec_plays phi_rec x). do 2 eexists.
    split; [by apply exchange_completes|]. split; [done|]. split; [done|]. by split.
Qed.
End agreement.

Module Witnesses.
Import Toy ToyGame ToyChannel HandshakeProperties.Witnesses.

Definition alice_phi : OffChainPhaseInit :=
  mkOffChainPhaseInit false alice_keys ∅ 300 200 20 15 (ph xaa).
Definition one_round : list TableEvent :=
  [ChannelCoinSeen Rec; Opens; LetterArrives Rec; FundingArrives Ini (mkSpendBundle None []);
   LetterArrives Ini; BlockSeen Rec 0; LauncherFound; BlockSeen Ini 7; BlockSeen Rec 9;
   FundingArrives Rec (mkSpendBundle None []); ChannelCoinSeen Ini].

Lemma bob_and_alice_agree : agreed env launcher_of_bob bob_phi alice_phi.
Proof.
  split; [done|done|done| | | ].
  - vm_compute. reflexivity.
  - vm_compute. reflexivity.
  - intros ph total. eexists. reflexivity.
Qed.

Lemma honest_handshake_completes_witness :
  (forall events, exists t, play env launcher_of_bob events (new_table bob_phi alice_phi) = Ok t)
  /\ exists ini rec ch ch',
       play env launcher_of_bob (concat (replicate 14 one_round)) (new_table bob_phi alice_phi)
         = Ok (mkTable (mkSeat (OffChain ini) [] false false true)
                 (mkSeat (OffChain rec) [] false false true) true true)
       /\ off_channel_state ini = Some ch /\ off_channel_state rec = Some ch'
       /\ channel_mirror ch ch' /\ has_potato ini = true.
Proof.
  destruct (honest_handshake_completes env launcher_of_bob bob_phi alice_phi bob_and_alice_agree)
    as [Hnever Hrounds].
  split; [exact Hnever|].
  destruct (Hrounds (replicate 14 one_round)) as (ini & rec & ch & ch' & Hplay & Hc & Hc' & Hm & Hpot & _).
  - apply Forall_replicate. intros [|[]| |[]|[]|[]]; by vm_compute.
  - reflexivity.
  - exists ini, rec, ch, ch'. auto.
Defined.
End Witnesses.
