(* ===== verification/SessionTermination.v ===== *)
(** * The game session: termination

    [process_effects] applies what a phase answers, lets the next phase take
    over, goes on chain when the peer is gone, and works off the messages and
    actions that wait; each of these may call it again.  It always ends: every
    such call is made with a phase that is further on, or that has less left to
    work off. *)
From S2P Require Import Prelude Extern World Coins Clvm StandardCoin TransactionManager UnrollCoin.
From S2P Require Import GameHandler RefereeTypes Referee LiveGame ChannelState ChannelGames.
From S2P Require Import ChannelOnChain Effects OnChainPhase OnChainActions OnChainSpend HandlerBase.
From S2P Require Import SpendChannelCoin UnrollTransition OffChainPhase OffChainReceive HandshakeBase.
From S2P Require Import HandshakeInitiator HandshakeReceiver PeerPhase GameSession.
From S2P Require Import OnChainProperties.

Section measure.
Context {arch : Arch} {sha2 : Sha2} {bigint : BigInt} {clvm : Clvm} {bls : Bls}.
Context {puzzles : ChiaPuzzles} {order : HashOrder} {codec : PeerCodec} {singleton : LauncherPuzzle}.

(** ** How far a phase is, and what it has left *)
Definition kind (p : Peer) : nat :=
  match p with
  | Initiator p => match ini_state p with WaitingForOffer _ _ => 6 | _ => 5 end
  | Receiver p => match rec_state p with WaitingForCompletion _ _ => 6 | _ => 5 end
  | OffChain _ => 4
  | Spending _ => 3
  | OnChain _ => 2
  end.
Definition messages_left (p : Peer) : nat :=
  match p with OffChain p => length (incoming_messages p) | _ => 0 end.
Definition flag {A} (o : option A) : nat := match o with Some _ => 1 | None => 0 end.
Definition actions_left (p : Peer) : nat :=
  match p with
  | OffChain p => flag (off_channel_state p)
  | Spending p => flag (SpendChannelCoin.last_channel_coin_spend_info p)
  | OnChain p => length (oc_game_action_queue p)
  | _ => 0
  end.

Definition smaller (p q : Peer) : Prop :=
  kind p < kind q
  \/ kind p = kind q /\ (messages_left p < messages_left q
       \/ messages_left p = messages_left q /\ actions_left p < actions_left q).
Definition no_larger (p q : Peer) : Prop :=
  smaller p q
  \/ kind p = kind q /\ messages_left p = messages_left q /\ actions_left p = actions_left q.

Lemma no_larger_refl p : no_larger p p.
Proof. by right. Qed.
Lemma smaller_no_larger p q : smaller p q -> no_larger p q.
Proof. by left. Qed.
Lemma no_larger_trans p q r : no_larger p q -> no_larger q r -> no_larger p r.
Proof. unfold no_larger, smaller. lia. Qed.
Lemma smaller_trans p q r : smaller p q -> no_larger q r -> smaller p r.
Proof. unfold no_larger, smaller. lia. Qed.
Lemma no_larger_kind p q : no_larger p q -> kind p <= kind q.
Proof. unfold no_larger, smaller. lia. Qed.

Lemma smaller_wf : well_founded smaller.
Proof.
  assert (forall k p, kind p < k -> Acc smaller p) as Hkind.
  { induction k as [|k IHk]; [lia|]. intros p Hp.
    assert (forall m q, kind q = k -> messages_left q < m -> Acc smaller q) as Hm.
    { induction m as [|m IHm]; [lia|]. intros q Hq Hmq.
      assert (forall n r, kind r = k -> messages_left r = messages_left q -> actions_left r < n ->
        Acc smaller r) as Hn.
      { induction n as [|n IHn]; [lia|]. intros r Hr Hmr Hnr. constructor. intros r' Hr'.
        destruct Hr' as [Hr'|(Hk & [Hm'|[Hm' Hn']])].
        - apply IHk. lia.
        - apply IHm; lia.
        - apply IHn; lia. }
      by apply (Hn (S (actions_left q))); [..|lia]. }
    destruct (decide (kind p = k)); [by apply (Hm (S (messages_left p))); [|lia]|].
    apply IHk. lia. }
  intros p. apply (Hkind (S (kind p))). lia.
Qed.

(** ** What the session's calls do to it *)
Lemma in_phase_no_larger {P A} (c : P -> Peer) (op : eff P A) p :
  holds_after (fun q => no_larger (c q) (c p)) op p -> no_larger (in_phase c op p).2 (c p).
Proof. unfold holds_after, in_phase. by destruct (op p). Qed.

Lemma take_next_no_larger p : no_larger (PeerPhase.take_next_phase p).2 p.
Proof. destruct p; by right. Qed.

Lemma next_no_larger p next :
  (PeerPhase.take_next_phase p).1 = Ok (Some next) -> smaller next p.
Proof.
  destruct p as [p|p|p|p|p]; cbn; intros [= H]; left.
  - destruct (ini_replacement p); [|done]. injection H as <-. cbn. destruct (ini_state p); lia.
  - destruct (rec_replacement p); [|done]. injection H as <-. cbn. destruct (rec_state p); lia.
  - destruct (channel_spend_next_phase p); [|done]. injection H as <-. cbn. lia.
  - destruct (replacement p); [|done]. injection H as <-. cbn. lia.
Qed.

Lemma off_go_on_chain_run env got_error p r q :
  OffChainPhase_go_on_chain env got_error p = (r, q) ->
  incoming_messages q = incoming_messages p
  /\ flag (off_channel_state q) <= flag (off_channel_state p)
  /\ (is_ok r = true -> flag (off_channel_state q) < flag (off_channel_state p)).
Proof.
  unfold OffChainPhase_go_on_chain, mbind at 1, eff_bind at 1, on_off_ch.
  destruct (off_channel_state p) as [ch|] eqn:Hch; [|intros [= <- <-]; by rewrite Hch].
  destruct (cancel_all_proposals ch) as [[ids|e] ch']; [|intros [= <- <-]; cbn; split_and!; done].
  unfold mbind, eff_bind, get_state, lift_result, off_ch, go_to_spend_phase, modify_state. cbn.
  destruct (off_last_channel_coin_spend_info p) as [info|]; cbn; [|intros [= <- <-]; by split_and!].
  destruct (build_channel_to_unroll_bundle _ _ _ _ _) as [b|e]; cbn; intros [= <- <-]; cbn;
    split_and!; done || lia.
Qed.

Lemma spend_go_on_chain_run env p r q :
  SpendChannelCoinPhase_go_on_chain env p = (r, q) ->
  flag (SpendChannelCoin.last_channel_coin_spend_info q)
    <= flag (SpendChannelCoin.last_channel_coin_spend_info p)
  /\ match r with
     | Ok (_ :: _) => flag (SpendChannelCoin.last_channel_coin_spend_info q)
                      < flag (SpendChannelCoin.last_channel_coin_spend_info p)
     | _ => True
     end.
Proof.
  unfold SpendChannelCoinPhase_go_on_chain, mbind at 1, eff_bind at 1, get_state.
  destruct (sc_state p); try (intros [= <- <-]; by split);
    (destruct (SpendChannelCoin.last_channel_coin_spend_info p) as [info|] eqn:Hinfo;
     [|intros [= <- <-]; rewrite Hinfo; by split]);
    unfold mbind, eff_bind, put_state, lift_result; cbn; destruct (ch_of _); cbn;
    try (intros [= <- <-]; cbn; split; done || lia);
    destruct (build_channel_to_unroll_bundle _ _ _ _ _); cbn; intros [= <- <-]; cbn; split; done || lia.
Qed.

Lemma go_on_chain_no_larger env got_error p :
  no_larger (PeerPhase.go_on_chain env got_error p).2 p.
Proof.
  destruct p as [p|p|p|p|p]; cbn -[OffChainPhase_go_on_chain SpendChannelCoinPhase_go_on_chain];
    try (by right).
  - apply in_phase_no_larger. unfold holds_after, no_larger, smaller.
    destruct (OffChainPhase_go_on_chain env got_error p) as [r q] eqn:H.
    apply off_go_on_chain_run in H as (H1 & H2 & _). cbn. rewrite H1. lia.
  - apply in_phase_no_larger. unfold holds_after, no_larger, smaller.
    destruct (SpendChannelCoinPhase_go_on_chain env p) as [r q] eqn:H.
    apply spend_go_on_chain_run in H as (H1 & _). cbn. lia.
Qed.

Lemma go_on_chain_smaller env got_error p es q :
  PeerPhase.go_on_chain env got_error p = (Ok es, q) -> length es <> 0 -> smaller q p.
Proof.
  destruct p as [p|p|p|p|p]; cbn -[OffChainPhase_go_on_chain SpendChannelCoinPhase_go_on_chain];
    try (by intros [= <-]); unfold in_phase.
  - destruct (OffChainPhase_go_on_chain env got_error p) as [r p'] eqn:H.
    apply off_go_on_chain_run in H as (H1 & _ & H2). intros [= -> <-] _. specialize (H2 eq_refl).
    unfold smaller. cbn. rewrite H1. lia.
  - destruct (SpendChannelCoinPhase_go_on_chain env p) as [r p'] eqn:H.
    apply spend_go_on_chain_run in H as (_ & H). intros [= -> <-] Hes.
    destruct es; [done|]. unfold smaller. cbn. lia.
Qed.

(** The transition out of the handshake is not back to where the funding is
    awaited. *)
Lemma ini_transition_run p r q :
  ini_try_transition_to_potato p = (r, q) -> ini_state q = ini_state p \/ ini_state q = IniDone.
Proof.
  unfold ini_try_transition_to_potato, mbind, eff_bind, get_state, lift_result, put_state.
  destruct (ini_replacement p), (ini_waiting_to_start p), (ini_state p) eqn:Hst, (ini_channel_state p);
    cbn; intros [= <- <-]; cbn; rewrite ?Hst; auto.
Qed.
Lemma rec_transition_run p r q :
  rec_try_transition_to_potato p = (r, q) -> rec_state q = rec_state p \/ rec_state q = RecDone.
Proof.
  unfold rec_try_transition_to_potato, mbind, eff_bind, get_state, lift_result, put_state.
  destruct (rec_replacement p), (rec_waiting_to_start p), (rec_state p) eqn:Hst, (rec_channel_state p);
    cbn; intros [= <- <-]; cbn; rewrite ?Hst; auto.
Qed.

Lemma channel_offer_run b p r q :
  PeerPhase.channel_offer b p = (r, q) ->
  no_larger q p /\ match r with Ok (Some _) => smaller q p | _ => True end.
Proof.
  destruct p as [p|p|p|p|p]; try (intros [= <- <-]; by split; [right|]).
  cbn -[Initiator_channel_offer]. unfold in_phase. destruct (Initiator_channel_offer b p) as [r' p'] eqn:H.
  intros [= -> <-]. unfold Initiator_channel_offer, modify_state, get_state, mbind at 1, eff_bind at 1 in H.
  unfold mbind at 1, eff_bind at 1 in H. cbn in H.
  destruct (ini_state p) eqn:Hst; try (injection H as <- <-; split; [right; cbn; by rewrite Hst|done]).
  unfold try_send_step_e, mbind, eff_bind, get_state, put_state in H. cbn in H.
  match type of H with context [ini_try_transition_to_potato ?q] =>
    destruct (ini_try_transition_to_potato q) as [r' q'] eqn:Ht end.
  apply ini_transition_run in Ht. cbn in Ht.
  assert (smaller (Initiator p') (Initiator p)) as Hs.
  { left. cbn. rewrite Hst. destruct r'; injection H as <- <-; by destruct Ht as [->| ->]; cbn; lia. }
  split; [by apply smaller_no_larger|]. by destruct r as [[?|]|].
Qed.

Lemma completion_run b p r q :
  PeerPhase.channel_transaction_completion b p = (r, q) ->
  no_larger q p /\ match r with Ok (_ :: _) => smaller q p | _ => True end.
Proof.
  destruct p as [p|p|p|p|p]; try (intros [= <- <-]; by split; [right|]).
  cbn -[Receiver_channel_transaction_completion]. unfold in_phase.
  destruct (Receiver_channel_transaction_completion b p) as [r' p'] eqn:H.
  intros [= -> <-]. unfold Receiver_channel_transaction_completion, get_state, put_state, mbind at 1,
    eff_bind at 1 in H.
  unfold mbind at 1, eff_bind at 1 in H. cbn in H.
  destruct (rec_state p) eqn:Hst; try (injection H as <- <-; split; [right; cbn; by rewrite Hst|done]).
  unfold try_send_step_f, mbind, eff_bind, get_state, put_state in H. cbn in H.
  match type of H with context [rec_try_transition_to_potato ?q] =>
    destruct (rec_try_transition_to_potato q) as [r' q'] eqn:Ht end.
  apply rec_transition_run in Ht. cbn in Ht.
  assert (smaller (Receiver p') (Receiver p)) as Hs.
  { left. cbn. rewrite Hst. destruct r'; injection H as <- <-; by destruct Ht as [->| ->]; cbn; lia. }
  split; [by apply smaller_no_larger|]. by destruct r as [[|? ?]|].
Qed.

(** ** Working off what waits *)
Lemma queue_run_shorter p out :
  queue_run p out -> length (oc_game_action_queue out.2) <= pred (length (oc_game_action_queue p)).
Proof.
  intros H. induction H as [p Hq|p a queue e q Hq Hact|p a queue es q Hq Hact Hes|p a queue q out Hq Hact
    _ IH]; [cbn; rewrite Hq; cbn; lia|..]; pose proof (action_queue a p queue) as Hkept; rewrite Hact in Hkept;
    cbn in Hkept; rewrite Hq; cbn [length snd pred]; rewrite Hkept in *; lia.
Qed.

Lemma queued_action_smaller p :
  PeerPhase.has_queued_action p = true -> smaller (PeerPhase.process_queued_action p).2 p.
Proof.
  destruct p as [p|p|p|p|p]; try done. cbn [PeerPhase.has_queued_action PeerPhase.process_queued_action].
  unfold OnChainActions.has_queued_action, in_phase. intros Hq%negb_true_iff%bool_decide_eq_false.
  unfold OnChainActions.process_queued_action, mbind, eff_bind, get_state.
  pose proof (queue_run_shorter p _ (process_queue_run _ p ltac:(done))) as Hlen.
  destruct (process_queue _ p) as [r q]. cbn in Hlen |- *. right. cbn. lia.
Qed.

(** *** Messages: none comes back *)
Definition inbox (l : list PeerMessage) (p : OffChainPhase) : Prop := incoming_messages p = l.

Section inbox.
Variable l : list PeerMessage.

Lemma inbox_on_ch {A} (op : eff ChannelState A) : preserves (inbox l) (on_off_ch op).
Proof. intros p Hp. unfold on_off_ch. destruct (off_channel_state p); [by destruct (op _)|done]. Qed.
Lemma inbox_see {A} (op : ChannelState -> result Error A) : preserves (inbox l) (see_ch op).
Proof. walk_through. Qed.
Hint Resolve inbox_on_ch inbox_see : chia.

Lemma inbox_settle_cached : preserves (inbox l) settle_cached.
Proof. walk_through. Qed.
Lemma inbox_receive_all env games group : preserves (inbox l) (receive_all env games group).
Proof. induction games; walk_through. Qed.
Hint Resolve inbox_settle_cached inbox_receive_all : chia.
Lemma inbox_group env wire : preserves (inbox l) (receive_proposal_group env wire).
Proof. walk_through. Qed.
Lemma inbox_accept id : preserves (inbox l) (receive_accept id).
Proof. walk_through. Qed.
Lemma inbox_move id details : preserves (inbox l) (receive_move id details).
Proof. walk_through. Qed.
Hint Resolve inbox_group inbox_accept inbox_move : chia.
Lemma inbox_action env a : preserves (inbox l) (receive_action env a).
Proof. destruct a; walk_through. Qed.
Hint Resolve inbox_action : chia.
Lemma inbox_actions env actions : preserves (inbox l) (receive_actions env actions).
Proof. induction actions; walk_through. Qed.
Hint Resolve inbox_actions : chia.
Lemma inbox_shutdown env sig conditions : preserves (inbox l) (receive_clean_shutdown env sig conditions).
Proof. walk_through. Qed.
Hint Resolve inbox_shutdown : chia.

Lemma inbox_propose_all env games group : preserves (inbox l) (propose_all env games group).
Proof. induction games; walk_through. Qed.
Hint Resolve inbox_propose_all : chia.
Lemma inbox_drain_action env a locals : preserves (inbox l) (drain_action env a locals).
Proof.
  destruct a; cbn [drain_action]; walk_through.
Qed.
Hint Resolve inbox_drain_action : chia.
Lemma inbox_drain_loop env fuel locals : preserves (inbox l) (drain_loop fuel env locals).
Proof. revert locals. induction fuel; intros locals; walk_through. Qed.
Hint Resolve inbox_drain_loop : chia.
Lemma inbox_drain env : preserves (inbox l) (drain_queue_into_batch env).
Proof. walk_through. Qed.
Hint Resolve inbox_drain : chia.
Lemma inbox_send_empty env : preserves (inbox l) (send_empty env).
Proof. walk_through. Qed.
Lemma inbox_push_action a : preserves (inbox l) (push_action a).
Proof. walk_through. Qed.
Lemma inbox_take_failed : preserves (inbox l) OffChainPhase.take_failed_queued_action.
Proof. walk_through. Qed.
Lemma inbox_retain keep : preserves (inbox l) (retain_actions keep).
Proof. walk_through. Qed.
Hint Resolve inbox_send_empty inbox_push_action inbox_take_failed inbox_retain : chia.
Lemma inbox_pass_back env send_back : preserves (inbox l) (pass_potato_back env send_back).
Proof. walk_through. Qed.
Hint Resolve inbox_pass_back : chia.
Lemma inbox_after_receive env info back :
  preserves (inbox l) (update_channel_coin_after_receive env info back).
Proof. walk_through. Qed.
Hint Resolve inbox_after_receive : chia.
Lemma inbox_batch env actions sigs clean :
  preserves (inbox l) (process_received_batch env actions sigs clean).
Proof. walk_through. Qed.
Hint Resolve inbox_batch : chia.
Lemma inbox_restoring {A} (op : eff OffChainPhase A) :
  preserves (inbox l) op -> preserves (inbox l) (restoring op).
Proof. intros H. walk_through. Qed.
Lemma inbox_go_to_spend make : preserves (inbox l) (go_to_spend_phase make).
Proof. walk_through. Qed.
Hint Resolve inbox_go_to_spend inbox_restoring : chia.
Lemma inbox_pass_on env msg : preserves (inbox l) (pass_on_channel_state_message env msg).
Proof.
  destruct msg; cbn [pass_on_channel_state_message]; try (by eauto with chia);
    apply after_preserves; intros ? ?; walk; try done;
    apply preserves_after; solve [eauto with chia].
Qed.
Hint Resolve inbox_pass_on : chia.
Lemma inbox_process_message env msg : preserves (inbox l) (process_message env msg).
Proof. walk_through. Qed.
End inbox.

Lemma queued_message_smaller env p :
  handshake_finished p = true -> PeerPhase.has_queued_message p = true ->
  smaller (PeerPhase.process_queued_message env p).2 p.
Proof.
  destruct p as [p|p|p|p|p]; try done. intros _.
  cbn [PeerPhase.has_queued_message PeerPhase.process_queued_message].
  unfold OffChainPhase.has_queued_message, in_phase. intros Hq%negb_true_iff%bool_decide_eq_false.
  unfold OffChainReceive.process_queued_message, mbind, eff_bind, get_state, put_state.
  destruct (incoming_messages p) as [|msg rest] eqn:Hin; [done|].
  pose proof (inbox_process_message rest env msg (p <| incoming_messages := rest |>) eq_refl) as Hkept.
  destruct (process_message env msg _) as [r q]. right. cbn in *. rewrite Hkept, Hin. cbn. lia.
Qed.
End measure.

(** ** The session *)
Section session.
Context {arch : Arch} {sha2 : Sha2} {bigint : BigInt} {clvm : Clvm} {bls : Bls}.
Context {puzzles : ChiaPuzzles} {order : HashOrder} {codec : PeerCodec} {singleton : LauncherPuzzle}.
Context {encoder : PeerEncoder} (env : ChannelEnv).
Implicit Types (s : GameSession).

Lemma on_peer_run {A} (op : eff Peer A) s r s' :
  on_peer op s = (r, s') -> op (peer s) = (r, peer s').
Proof. unfold on_peer, on_part. destruct (op (peer s)) as [r' p']. by intros [= <- <-]. Qed.

(** *** The phase never gets larger *)
Definition bounded (p0 : Peer) s : Prop := no_larger (peer s) p0.

Section bounded.
Variable p0 : Peer.

Lemma bounded_peer {A} (op : eff Peer A) :
  (forall p, no_larger (op p).2 p) -> preserves (bounded p0) (on_peer op).
Proof.
  intros H s Hs. unfold on_peer, on_part. specialize (H (peer s)). destruct (op (peer s)) as [r p'].
  cbn in *. unfold bounded. cbn. by eapply no_larger_trans.
Qed.
Lemma bounded_state {A} (op : eff GameSessionState A) : preserves (bounded p0) (on_state op).
Proof. intros s Hs. unfold on_state, on_part. by destruct (op (state s)). Qed.
Hint Resolve bounded_state : chia.
Lemma bounded_update f : preserves (bounded p0) (update_state f).
Proof. walk_through. Qed.
Hint Resolve bounded_update : chia.
Lemma bounded_emit : preserves (bounded p0) emit_channel_status_if_changed.
Proof. walk_through. Qed.
Lemma bounded_push e : preserves (bounded p0) (push_event e).
Proof. walk_through. Qed.
Hint Resolve bounded_emit bounded_push : chia.
Lemma bounded_abandoned : preserves (bounded p0) mark_abandoned.
Proof. walk_through. Qed.

Lemma bounded_detect : preserves (bounded p0) detect_phase_transition.
Proof.
  apply after_preserves. intros s Hs. unfold detect_phase_transition.
  set (rest := fun next : option Peer => _). 
  unfold holds_after, mbind at 1, eff_bind at 1, on_peer, on_part.
  pose proof (take_next_no_larger (peer s)) as Hleft. pose proof (next_no_larger (peer s)) as Hnext.
  destruct (PeerPhase.take_next_phase (peer s)) as [[next|e] p']; cbn in Hleft, Hnext;
    [|by eapply no_larger_trans].
  change (holds_after (bounded p0) (rest next) (s <| peer := p' |>)). unfold rest.
  destruct next as [next|].
  - walk; try done; try (apply preserves_after; [solve [eauto with chia]|done]).
    apply (no_larger_trans _ (peer s)); [|done]. apply smaller_no_larger. by apply Hnext.
  - walk; try done; try (apply preserves_after; [solve [eauto with chia]|done]).
    by eapply no_larger_trans.
Qed.
Hint Resolve bounded_abandoned bounded_detect : chia.

Variable process : list Effect -> eff GameSession unit.
Hypothesis process_bounded : forall es, preserves (bounded p0) (process es).
Hint Resolve process_bounded : chia.

Lemma bounded_go_on_chain got_error : preserves (bounded p0) (go_on_chain_with env process got_error).
Proof.
  assert (preserves (bounded p0) (on_peer (PeerPhase.go_on_chain env got_error))) as Hgo.
  { apply bounded_peer, go_on_chain_no_larger. }
  walk_through.
Qed.
Hint Resolve bounded_go_on_chain : chia.

Lemma bounded_protocol_error : preserves (bounded p0) (handle_peer_protocol_error env process).
Proof. walk_through. Qed.
Hint Resolve bounded_protocol_error : chia.

Lemma bounded_offer b : preserves (bounded p0) (on_peer (PeerPhase.channel_offer b)).
Proof.
  apply bounded_peer. intros p. destruct (PeerPhase.channel_offer b p) as [r q] eqn:H.
  by apply channel_offer_run in H as [H _].
Qed.
Lemma bounded_completion b : preserves (bounded p0) (on_peer (PeerPhase.channel_transaction_completion b)).
Proof.
  apply bounded_peer. intros p. destruct (PeerPhase.channel_transaction_completion b p) as [r q] eqn:H.
  by apply completion_run in H as [H _].
Qed.
Hint Resolve bounded_offer bounded_completion : chia.

Lemma bounded_create ph : preserves (bounded p0) (create_partial_spend_for_channel_coin env process ph).
Proof. walk_through. Qed.
Lemma bounded_respond b : preserves (bounded p0) (respond_to_unfunded_offer env process b).
Proof. walk_through. Qed.
Hint Resolve bounded_create bounded_respond : chia.
Lemma bounded_channel (requested : option PuzzleHash) :
  preserves (bounded p0)
    (match requested with
     | Some ph =>
         _ ← update_state (fun st => st <| channel_puzzle_hash := None |>);
         created ← create_partial_spend_for_channel_coin env process ph;
         if (created : bool) then mret tt
         else update_state (fun st => st <| channel_puzzle_hash := Some ph |>)
     | None => mret tt
     end).
Proof.
  apply after_preserves. intros s Hs. walk; try done; by apply preserves_after; eauto with chia.
Qed.
Lemma bounded_funding : preserves (bounded p0) (settle_funding env process).
Proof. walk_through. Qed.
Hint Resolve bounded_funding : chia.
End bounded.

Lemma kind_finished p : handshake_finished p = true <-> kind p <= 4.
Proof.
  destruct p as [p|p|p|p|p]; cbn; [| |by split; [lia|]..].
  - split; [done|]. destruct (ini_state p); lia.
  - split; [done|]. destruct (rec_state p); lia.
Qed.

Lemma bounded_weaken p0 p1 s : no_larger p1 p0 -> bounded p1 s -> bounded p0 s.
Proof. intros H Hs. by eapply no_larger_trans. Qed.
Lemma after_weaken {S A} (P Q : S -> Prop) (op : eff S A) (t : S) :
  (forall t', P t' -> Q t') -> holds_after P op t -> holds_after Q op t.
Proof. intros H. apply H. Qed.

(** What waits is worked off: each turn has less left. *)
Definition works_off (waiting : Peer -> bool) (next : eff Peer (list Effect)) : Prop :=
  forall p, handshake_finished p = true -> waiting p = true -> smaller (next p).2 p.

Lemma bounded_loop p0 exhausted process waiting next fuel :
  works_off waiting next -> handshake_finished p0 = true ->
  (forall p es, preserves (bounded p) (process es)) ->
  preserves (bounded p0) (queue_loop env exhausted process fuel waiting next).
Proof.
  intros Hwork Hp0 Hprocess. induction fuel as [|fuel IH]; [walk_through|].
  apply after_preserves. intros s Hs. cbn [queue_loop]. apply after_get_bind. cbv beta.
  destruct (waiting (peer s)) eqn:Hw; [|by apply (after_pure _ (Ok tt))].
  assert (handshake_finished (peer s) = true) as Hfin.
  { apply kind_finished. apply kind_finished in Hp0. apply no_larger_kind in Hs. lia. }
  apply after_bind.
  { unfold attempt, on_peer, on_part, holds_after. pose proof (Hwork _ Hfin Hw) as Hsmall.
    destruct (next (peer s)) as [r q]. cbn in *. eapply no_larger_trans; [|exact Hs].
    by apply smaller_no_larger. }
  intros result s1 Hs1. pose proof (bounded_detect p0) as Hdetect.
  pose proof (bounded_protocol_error p0 process (Hprocess p0)) as Herror. specialize (Hprocess p0).
  walk; try done; try (by apply preserves_after); eauto using preserves_after.
Qed.

Lemma queued_messages_work_off :
  works_off PeerPhase.has_queued_message (PeerPhase.process_queued_message env).
Proof. intros p. apply queued_message_smaller. Qed.
Lemma queued_actions_work_off :
  works_off PeerPhase.has_queued_action PeerPhase.process_queued_action.
Proof. intros p _. apply queued_action_smaller. Qed.

Lemma bounded_process exhausted fuel p0 es :
  preserves (bounded p0) (process_effects env exhausted fuel es).
Proof.
  revert p0 es. induction fuel as [|fuel IH]; intros p0 es; [walk_through|]. cbn [process_effects].
  set (process := process_effects env exhausted fuel) in *.
  pose proof (bounded_detect p0) as Hdetect. pose proof (bounded_abandoned p0) as Habandon.
  pose proof (bounded_go_on_chain p0 process (IH p0) true) as Hgo.
  pose proof (bounded_funding p0 process (IH p0)) as Hfund.
  assert (forall s, handshake_finished (peer s) = true -> bounded p0 s -> holds_after (bounded p0)
    (_ ← queue_loop env exhausted process fuel PeerPhase.has_queued_message
           (PeerPhase.process_queued_message env);
     queue_loop env exhausted process fuel PeerPhase.has_queued_action
       PeerPhase.process_queued_action) s) as Hloops.
  { intros s Hfin Hs. apply (after_weaken (bounded (peer s))); [intros s'; by apply bounded_weaken|].
    apply after_bind; [|intros _ s' Hs'];
      (apply preserves_after; [|first [done|by right]]);
      by apply bounded_loop; [first [exact queued_messages_work_off|exact queued_actions_work_off]|..]. }
  apply after_preserves. intros s Hs. unfold process_effects_with. cbv beta.
  repeat (cbv beta zeta; lazymatch goal with
    | |- holds_after _ (queue_loop _ _ _ _ _ _ ≫= _) _ => by apply Hloops
    | |- holds_after _ (get_state ≫= _) _ => apply after_get_bind
    | |- holds_after _ (_ ≫= _) _ => apply after_bind; [|intros ? ? ?]
    | |- holds_after _ (match ?x with _ => _ end) _ => destruct x eqn:?
    | |- holds_after _ (mret ?a) _ => by apply (after_pure _ (Ok a))
    end); eauto using preserves_after, bounded_state.
Qed.

(** *** Enough fuel

    [f exhausted depth turns] settles: once the depth of the calls and the
    turns of the loop are allowed to be large enough, its outcome depends on
    neither, nor on what running out would have answered. *)
Definition settles {A} (f : Error -> nat -> nat -> eff GameSession A) s : Prop :=
  exists n out, forall exhausted depth turns, n <= depth -> n <= turns -> f exhausted depth turns s = out.

Lemma settles_op {A} (op : eff GameSession A) s : settles (fun _ _ _ => op) s.
Proof. by exists 0, (op s). Qed.

Lemma settles_bind {A B} (f : Error -> nat -> nat -> eff GameSession A)
    (g : Error -> nat -> nat -> A -> eff GameSession B) s (P : GameSession -> Prop) :
  settles f s -> (forall exhausted depth turns, holds_after P (f exhausted depth turns) s) ->
  (forall a s', P s' -> settles (fun x d t => g x d t a) s') ->
  settles (fun x d t => f x d t ≫= g x d t) s.
Proof.
  intros (n & [[a|e] s'] & Hf) HP Hg.
  - assert (P s') as Hs'.
    { specialize (HP (StrErr "") n n). unfold holds_after in HP. by rewrite Hf in HP by done. }
    destruct (Hg a s' Hs') as (n' & out & Hout). exists (max n n'), out. intros x d t Hd Ht.
    unfold mbind, eff_bind. rewrite Hf by lia. apply Hout; lia.
  - exists n, (Err e, s'). intros x d t Hd Ht. unfold mbind, eff_bind. by rewrite Hf.
Qed.

Lemma settles_op_bind {A B} (op : eff GameSession A)
    (g : Error -> nat -> nat -> A -> eff GameSession B) s :
  (forall a s', op s = (Ok a, s') -> settles (fun x d t => g x d t a) s') ->
  settles (fun x d t => op ≫= g x d t) s.
Proof.
  intros Hg. destruct (op s) as [[a|e] s'] eqn:Hop.
  - destruct (Hg a s' eq_refl) as (n & out & Hout). exists n, out. intros x d t Hd Ht.
    unfold mbind, eff_bind. rewrite Hop. by apply Hout.
  - exists 0, (Err e, s'). intros x d t _ _. unfold mbind, eff_bind. by rewrite Hop.
Qed.

Definition processes es : Error -> nat -> nat -> eff GameSession unit :=
  fun x d _ => process_effects env x d es.

(** Most steps leave the phase alone. *)
Lemma settles_keep {A B} (op : eff GameSession A) (g : Error -> nat -> nat -> A -> eff GameSession B) s :
  (forall t, peer (op t).2 = peer t) ->
  (forall a s', peer s' = peer s -> settles (fun x d t => g x d t a) s') ->
  settles (fun x d t => op ≫= g x d t) s.
Proof.
  intros Hkeep Hg. apply settles_op_bind. intros a s' Hop. apply Hg.
  specialize (Hkeep s). by rewrite Hop in Hkeep.
Qed.
Lemma on_state_peer {A} (op : eff GameSessionState A) s : peer (on_state op s).2 = peer s.
Proof. unfold on_state, on_part. by destruct (op (state s)). Qed.
Ltac keep := apply settles_keep; [first [done|apply on_state_peer]|intros ? ? ?].

(** The calls back are made with a smaller phase. *)
Section calls.
Variable p0 : Peer.
Hypothesis IH : forall s es, smaller (peer s) p0 -> settles (processes es) s.

Lemma settles_go_on_chain got_error s :
  no_larger (peer s) p0 ->
  settles (fun x d _ => go_on_chain_with env (process_effects env x d) got_error) s.
Proof.
  intros Hs. unfold go_on_chain_with. apply settles_op_bind. intros _ s' [= <- <-].
  destruct (bool_decide _); [apply settles_op|].
  destruct (should_abandon_on_go_on_chain s); [apply settles_op|].
  keep. apply settles_op_bind. intros es s2 Hgo%on_peer_run.
  destruct (bool_decide_reflect (length es = 0)) as [Hnil|Hes]; [apply settles_op|].
  apply (IH s2 es). apply (smaller_trans _ (peer s)); [|done].
  apply (go_on_chain_smaller env got_error _ es); [congruence|done].
Qed.

Lemma settles_protocol_error s :
  no_larger (peer s) p0 ->
  settles (fun x d _ => handle_peer_protocol_error env (process_effects env x d)) s.
Proof.
  intros Hs. unfold handle_peer_protocol_error. keep. apply settles_go_on_chain. congruence.
Qed.

(** The single effects of the direct funding. *)
Lemma settles_create ph s :
  no_larger (peer s) p0 ->
  settles (fun x d _ => create_partial_spend_for_channel_coin env (process_effects env x d) ph) s.
Proof.
  intros Hs. unfold create_partial_spend_for_channel_coin. apply settles_op_bind. intros _ s' [= <- <-].
  destruct (funding_coin (state s)) as [parent|]; [|apply settles_op].
  do 3 keep. destruct a1 as [[ch_parent coin_ph] amt]. keep.
  destruct (bool_decide _); [|apply settles_op]. keep.
  apply settles_op_bind. intros reported s1 [_ Hsmall]%on_peer_run%channel_offer_run.
  apply (settles_bind _ _ _ (fun _ => True)); [|by intros|intros; apply settles_op].
  destruct reported as [e|]; [|apply settles_op]. apply (IH s1 [e]). eapply smaller_trans; [exact Hsmall|].
  congruence.
Qed.

Lemma settles_respond b s :
  no_larger (peer s) p0 ->
  settles (fun x d _ => respond_to_unfunded_offer env (process_effects env x d) b) s.
Proof.
  intros Hs. unfold respond_to_unfunded_offer. apply settles_op_bind. intros _ s' [= <- <-].
  destruct (funding_coin (state s)) as [parent|]; [|apply settles_op].
  cbv zeta. do 9 keep.
  apply settles_op_bind. intros reported s1 [_ Hsmall]%on_peer_run%completion_run.
  apply (settles_bind _ _ _ (fun _ => True)); [|by intros|intros; apply settles_op].
  destruct (bool_decide_reflect (length reported = 0)) as [Hnil|Hne]; [apply settles_op|].
  destruct reported as [|e es]; [done|]. apply (IH s1 (e :: es)).
  eapply smaller_trans; [exact Hsmall|]. congruence.
Qed.

Lemma settles_then (f g : Error -> nat -> nat -> eff GameSession unit) s :
  no_larger (peer s) p0 -> settles f s ->
  (forall x d t, preserves (bounded p0) (f x d t)) ->
  (forall s', no_larger (peer s') p0 -> settles g s') ->
  settles (fun x d t => f x d t ≫= fun _ => g x d t) s.
Proof.
  intros Hs Hf Hbound Hg.
  apply (settles_bind f (fun x d t _ => g x d t) s (bounded p0)); [done| |].
  - intros x d t. by apply preserves_after.
  - intros _ s' Hs'. by apply Hg.
Qed.

Lemma settles_channel ph s :
  no_larger (peer s) p0 ->
  settles (fun x d _ => created ← create_partial_spend_for_channel_coin env (process_effects env x d) ph;
    if (created : bool) then mret tt
    else update_state (fun st => st <| channel_puzzle_hash := Some ph |>)) s.
Proof.
  intros Hs. apply (settles_bind (fun x d _ =>
    create_partial_spend_for_channel_coin env (process_effects env x d) ph)
    (fun _ _ _ (created : bool) => if created then mret tt
      else update_state (fun st => st <| channel_puzzle_hash := Some ph |>)) s (fun _ => True)).
  - by apply settles_create.
  - by intros.
  - intros created s' _. apply settles_op.
Qed.

Lemma settles_funding s :
  no_larger (peer s) p0 -> settles (fun x d _ => settle_funding env (process_effects env x d)) s.
Proof.
  intros Hs. unfold settle_funding. apply settles_op_bind. intros _ s' [= <- <-].
  destruct (is_ok _); [|apply settles_op].
  eapply (settles_then _ _ s Hs).
  - destruct (channel_puzzle_hash (state s)) as [ph|]; [|apply settles_op].
    keep. apply settles_channel. congruence.
  - intros x d _. apply bounded_channel, bounded_process.
  - intros s1 Hs1. apply settles_op_bind. intros _ s' [= <- <-]. keep.
    destruct (is_initiator (state s1)); [apply settles_op|].
    destruct (unfunded_offer (state s1)) as [offer|]; [|apply settles_op].
    apply (settles_bind (fun x d _ => respond_to_unfunded_offer env (process_effects env x d) offer)
      (fun _ _ _ (answered : bool) => if answered then mret tt
        else update_state (fun st => st <| unfunded_offer := Some offer |>)) s' (fun _ => True));
      [|by intros|intros answered s2 _; apply settles_op].
    apply settles_respond. congruence.
Qed.

Lemma settles_loop waiting next s :
  works_off waiting next -> no_larger (peer s) p0 -> handshake_finished (peer s) = true ->
  settles (fun x d t => queue_loop env x (process_effects env x d) t waiting next) s.
Proof.
  intros Hwork. remember (peer s) as p eqn:Hp. revert s Hp.
  induction (smaller_wf p) as [p _ IHp]. intros s -> Hs Hfin.
  destruct (waiting (peer s)) eqn:Hw; cycle 1.
  { exists 1, (Ok tt, s). intros x d t _ Ht. destruct t as [|t]; [lia|]. cbn [queue_loop].
    unfold mbind, eff_bind, get_state. by rewrite Hw. }
  enough (settles (fun x d t => result ← attempt (on_peer next);
    match result with
    | Ok effects =>
        if bool_decide (length effects = 0) then mret tt
        else
          _ ← process_effects env x d effects;
          _ ← detect_phase_transition;
          queue_loop env x (process_effects env x d) t waiting next
    | Err (Panicked msg) => throw (Panicked msg)
    | Err _ => handle_peer_protocol_error env (process_effects env x d)
    end) s) as (n & out & Hout).
  { exists (S n), out. intros x d [|t] Hd Ht; [lia|]. rewrite <- (Hout x d t) by lia.
    cbn [queue_loop]. unfold mbind at 1, eff_bind at 1, get_state. by rewrite Hw. }
  apply settles_op_bind. intros result s1 Hrun.
  assert (smaller (peer s1) (peer s)) as Hsmall.
  { specialize (Hwork _ Hfin Hw). unfold attempt, on_peer, on_part in Hrun.
    destruct (next (peer s)) as [r q]. by injection Hrun as _ <-. }
  assert (no_larger (peer s1) p0) as Hs1.
  { eapply no_larger_trans; [by apply smaller_no_larger|done]. }
  destruct result as [es|e]; [|by destruct e; first [by apply settles_protocol_error|apply settles_op]].
  destruct (bool_decide (length es = 0)); [apply settles_op|].
  apply (settles_bind (fun x d _ => process_effects env x d es) _ s1 (bounded (peer s1))).
  - apply (IH s1 es). by eapply smaller_trans.
  - intros x d _. apply preserves_after; [apply bounded_process|by right].
  - intros _ s2 Hs2.
    apply (settles_bind (fun _ _ _ => detect_phase_transition) _ s2 (bounded (peer s1))).
    + apply settles_op.
    + intros _ _ _. apply preserves_after; [apply bounded_detect|done].
    + intros _ s3 Hs3. apply (IHp (peer s3)); [|done|..].
      * unfold bounded, no_larger, smaller in *. lia.
      * by eapply no_larger_trans.
      * apply kind_finished. apply kind_finished in Hfin.
        pose proof (no_larger_kind _ _ Hs3). unfold smaller in Hsmall. lia.
Qed.

Lemma settles_process_with es s :
  no_larger (peer s) p0 ->
  settles (fun x d t => process_effects_with env x (process_effects env x d) t es) s.
Proof.
  intros Hs. unfold process_effects_with. apply settles_op_bind. intros _ s' [= <- <-].
  destruct (bool_decide _); [apply settles_op|].
  keep. keep. eapply (settles_then (fun _ _ _ => detect_phase_transition)).
  { congruence. } { apply settles_op. } { intros _ _ _. apply bounded_detect. }
  intros s1 Hs1. destruct (existsb completes_zero_payout es); [apply settles_op|].
  destruct (existsb escalates_peer_error es); [by apply settles_go_on_chain|].
  apply settles_op_bind. intros _ ? [= <- <-].
  destruct (_ && _); [by apply settles_go_on_chain|].
  eapply (settles_then (fun x d _ => settle_funding env (process_effects env x d)));
    [done|by apply settles_funding| |].
  { intros x d _. apply bounded_funding, bounded_process. }
  intros s2 Hs2. apply settles_op_bind. intros _ ? [= <- <-].
  destruct (handshake_finished (peer s2)) eqn:Hfin; [|apply settles_op].
  assert (forall s3, no_larger (peer s3) (peer s2) -> handshake_finished (peer s3) = true) as Hstill.
  { intros s3 Hs3%no_larger_kind. apply kind_finished in Hfin. apply kind_finished. lia. }
  apply (settles_bind (fun x d t => queue_loop env x (process_effects env x d) t
    PeerPhase.has_queued_message (PeerPhase.process_queued_message env)) _ s2 (bounded (peer s2))).
  - apply settles_loop; [exact queued_messages_work_off|done..].
  - intros x d t. apply preserves_after; [|by right].
    apply bounded_loop; [exact queued_messages_work_off|done|]. intros p es'. apply bounded_process.
  - intros _ s3 Hs3. apply settles_loop; [exact queued_actions_work_off| |by apply Hstill].
    by eapply no_larger_trans.
Qed.
End calls.

Lemma settles_process es s : settles (processes es) s.
Proof.
  remember (peer s) as p eqn:Hp. revert s es Hp. induction (smaller_wf p) as [p _ IH].
  intros s es ->.
  destruct (settles_process_with (peer s) (fun s' es' H => IH _ H s' es' eq_refl) es s) as (n & out & Hout);
    [by right|].
  exists (S n), out. intros x [|d] t Hd _; [lia|]. apply (Hout x d d); lia.
Qed.
End session.

Section property.
Context {arch : Arch} {sha2 : Sha2} {bigint : BigInt} {clvm : Clvm} {bls : Bls}.
Context {puzzles : ChiaPuzzles} {order : HashOrder} {codec : PeerCodec} {singleton : LauncherPuzzle}.
Context {encoder : PeerEncoder}.

(** C9: Whatever effects a session is given, applying them ends: there is an
    amount of fuel from which on the outcome is always the same one, whatever a
    run out of fuel would have answered.  The mutual calls of [process_effects]
    and [go_on_chain], and the loops over the waiting messages and actions,
    only ever go on with a phase that is further on or has less left to do. *)
Theorem effects_settle (env : ChannelEnv) (es : list Effect) (s : GameSession) :
  exists enough out, forall (exhausted : Error) (fuel : nat),
    enough <= fuel -> process_effects env exhausted fuel es s = out.
Proof.
  destruct (settles_process env es s) as (n & out & Hout). exists n, out.
  intros x d Hd. by apply (Hout x d d).
Qed.
End property.
