(* ===== verification/SessionProperties.v ===== *)
(** * The game session: what every call of the host keeps

    The host drives a session by calls, in any order, of which some fail.  What
    no sequence of them undoes: the phases are only ever left for their
    successors, a session that gave up on its peer sends it no message, and an
    abandoned session neither comes back nor submits anything. *)
From stdpp Require Import relations.
From S2P Require Import Prelude Extern World Coins Clvm StandardCoin TransactionManager UnrollCoin.
From S2P Require Import GameHandler RefereeTypes Referee LiveGame ChannelState ChannelGames.
From S2P Require Import ChannelOnChain Effects OnChainPhase OnChainActions OnChainSpend HandlerBase.
From S2P Require Import SpendChannelCoin UnrollTransition OffChainPhase OffChainReceive HandshakeBase.
From S2P Require Import HandshakeInitiator HandshakeReceiver PeerPhase GameSession.
From S2P Require Import ToyGame ToyChannel HandshakeProperties.

Section session.
Context {arch : Arch} {sha2 : Sha2} {bigint : BigInt} {clvm : Clvm} {bls : Bls}.
Context {puzzles : ChiaPuzzles} {order : HashOrder} {codec : PeerCodec} {singleton : LauncherPuzzle}.
Context {settlement : SettlementPuzzle} {encoder : PeerEncoder}.
Implicit Types (s : GameSession).

(** ** The calls of the host *)
Inductive HostCall : Type :=
| ProvideLauncherCoin (launcher : CoinString)
| ProvideCoinSpendBundle (b : SpendBundle)
| WalletCallbackFailed (reason : string)
| Abandon
| CompleteOutboundTerminalHandoff
| FlushAndCollect
| TimeoutClaim (submitted : bool) (semantic : TimeoutClaimSemantic)
| NewBlock (height : N) (observations : list CoinObservation)
| NewBlockHeightOnly (height : N)
| DeliverMessage (message : bytes)
| GoOnChain (got_error : bool)
| ReportPuzzleAndSolution (coin : CoinString) (seen : option (Program * Program))
| StartHandshake
| SetFundingCoin (coin : CoinString)
| ProposeGames (games : list GameProposal)
| AcceptProposal (id : GameID)
| CancelProposal (id : GameID)
| MakeMove (id : GameID) (readable : ReadableMove) (entropy : Hash)
| AcceptProposalAndMove (id : GameID) (readable : ReadableMove) (entropy : Hash)
| AcceptSettlement (id : GameID)
| ShutDown
| Cheat (id : GameID) (share : Amount)
| ReportFailure (id : option GameID) (action : option FailedGameAction) (reason : string).

Definition host_call (env : ChannelEnv) (exhausted : Error) (fuel : nat) (c : HostCall)
    : eff GameSession unit :=
  match c with
  | ProvideLauncherCoin launcher => session_provide_launcher_coin env exhausted fuel launcher
  | ProvideCoinSpendBundle b => session_provide_coin_spend_bundle env exhausted fuel b
  | WalletCallbackFailed reason => session_wallet_callback_failed reason
  | Abandon => abandon
  | CompleteOutboundTerminalHandoff => complete_outbound_terminal_handoff
  | FlushAndCollect => _ ← flush_and_collect env exhausted fuel; mret tt
  | TimeoutClaim submitted semantic => session_timeout_claim submitted semantic
  | NewBlock height observations => session_new_block env exhausted fuel height observations
  | NewBlockHeightOnly height => new_block_height_only env exhausted fuel height
  | DeliverMessage message => deliver_message message
  | GoOnChain got_error => session_go_on_chain env exhausted fuel got_error
  | ReportPuzzleAndSolution coin seen => report_puzzle_and_solution env exhausted fuel coin seen
  | StartHandshake => GameSession.start_handshake env exhausted fuel
  | SetFundingCoin coin => set_funding_coin env exhausted fuel coin
  | ProposeGames games => _ ← session_propose_games env exhausted fuel games; mret tt
  | AcceptProposal id => session_accept_proposal env exhausted fuel id
  | CancelProposal id => session_cancel_proposal env exhausted fuel id
  | MakeMove id readable entropy => session_make_move env exhausted fuel id readable entropy
  | AcceptProposalAndMove id readable entropy =>
      accept_proposal_and_move env exhausted fuel id readable entropy
  | AcceptSettlement id => session_accept_settlement env exhausted fuel id
  | ShutDown => session_shut_down env exhausted fuel
  | Cheat id share => cheat env exhausted fuel id share
  | ReportFailure id action reason => push_event (Notification (ActionFailed id action reason))
  end.

(** One call, whether it succeeds or fails. *)
Inductive session_step (env : ChannelEnv) s : GameSession -> Prop :=
| session_called exhausted fuel c : session_step env s (host_call env exhausted fuel c s).2.

(** ** What they keep *)
Definition stage (p : Peer) : nat :=
  match p with
  | Initiator _ | Receiver _ => 3
  | OffChain _ => 2
  | Spending _ => 1
  | OnChain _ => 0
  end.
Definition resolving_on_chain (p : Peer) : bool :=
  match p with OnChain _ => true | _ => false end.
Definition to_peer (e : GameSessionEvent GameNotification CoinSpendRequest) : bool :=
  match e with OutboundMessage _ => true | _ => false end.
(** A kind of event that is declared and never made. *)
Definition terminal_message (e : GameSessionEvent GameNotification CoinSpendRequest) : bool :=
  match e with OutboundTerminalMessage _ => true | _ => false end.
Definition to_network (e : GameSessionEvent GameNotification CoinSpendRequest) : bool :=
  match e with
  | OutboundMessage _ | OutboundTransaction _ _ | WatchCoin _ _ _ _ _ => true
  | _ => false
  end.

(** Disconnected, with no message for the peer among the events. *)
Definition silenced s : Prop :=
  peer_disconnected (state s) = true /\ existsb to_peer (events (state s)) = false.

(** The phase is at most [n] stages from the last, the flag that the games are
    resolved on chain is true of the phase, no terminal message is among the
    events, nothing is said if [quiet], and no more than [waits] messages wait,
    if that is given. *)
Record lawful (n : nat) (quiet : bool) (waits : option nat) s : Prop := {
  lawful_stage : stage (peer s) <= n;
  lawful_flag : is_on_chain (state s) = resolving_on_chain (peer s);
  lawful_plain : existsb terminal_message (events (state s)) = false;
  lawful_silent : quiet = true -> silenced s;
  lawful_waiting : forall k, waits = Some k -> length (inbound_messages (state s)) <= k;
}.

Lemma in_phase_stage {P A} (c : P -> Peer) (op : eff P A) p k :
  (forall q, stage (c q) = k) -> stage (in_phase c op p).2 = k.
Proof. intros H. unfold in_phase. destruct (op p). apply H. Qed.

(** Every method of the trait leaves the kind of the phase. *)
Ltac same_stage :=
  lazymatch goal with
  | |- _ = stage ?p => destruct p; first [reflexivity|by apply in_phase_stage]
  end.
Lemma stage_bind {A B} (op : eff Peer A) (f : A -> eff Peer B) p :
  (forall q, stage (op q).2 = stage q) -> (forall a q, stage (f a q).2 = stage q) ->
  stage ((op ≫= f) p).2 = stage p.
Proof.
  intros Hop Hf. unfold mbind, eff_bind. specialize (Hop p). destruct (op p) as [[a|e] q]; [|done].
  cbn in Hop. by rewrite Hf.
Qed.
(** The phase that follows is a later one. *)
Lemma next_stage p next : (PeerPhase.take_next_phase p).1 = Ok (Some next) -> stage next < stage p.
Proof.
  destruct p as [p|p|p|p|p]; cbn; intros [= H]; revert H;
    lazymatch goal with |- _ <$> ?o = _ -> _ => destruct o; [intros [= <-]; cbn; lia|done] end.
Qed.

Section lawful.
Context (n : nat) (quiet : bool) (waits : option nat).
Notation ok := (lawful n quiet waits).

(** What an update of the session's state may not touch. *)
Definition discreet (f : GameSessionState -> GameSessionState) : Prop :=
  forall st, is_on_chain (f st) = is_on_chain st
  /\ (peer_disconnected st = true -> peer_disconnected (f st) = true)
  /\ (existsb to_peer (events st) = false -> existsb to_peer (events (f st)) = false)
  /\ (existsb terminal_message (events st) = false -> existsb terminal_message (events (f st)) = false)
  /\ (is_Some waits -> length (inbound_messages (f st)) <= length (inbound_messages st)).

Lemma discreet_push e : to_peer e = false -> terminal_message e = false -> discreet (push e).
Proof.
  intros He Ht st. cbn. split_and!; [done..| | |done]; intros H; rewrite existsb_app, H; cbn; by rewrite ?He, ?Ht.
Qed.
Lemma discreet_comp f g : discreet f -> discreet g -> discreet (fun st => f (g st)).
Proof.
  intros Hf Hg st. destruct (Hg st) as (H1 & H2 & H3 & H3' & H4), (Hf (g st)) as (H5 & H6 & H7 & H7' & H8).
  split_and!; [congruence|auto..]. intros Hw. specialize (H4 Hw). specialize (H8 Hw). lia.
Qed.
Lemma discreet_note snap : discreet (note_status snap).
Proof. intros st. unfold note_status.
  destruct (snap_state snap); try by cbn. all: destruct (is_on_chain st) eqn:H; by cbn. Qed.

Lemma ok_update f : discreet f -> preserves ok (update_state f).
Proof.
  intros Hf s []. destruct (Hf (state s)) as (H1 & H2 & H3 & H3' & H4). unfold update_state, modify_state.
  split; cbn; [done|congruence|auto| |].
  - unfold silenced in *. cbn. intros Hq. destruct (lawful_silent0 Hq). auto.
  - intros k Hk. specialize (H4 ltac:(by eexists)). specialize (lawful_waiting0 k Hk). lia.
Qed.
Lemma ok_status s snapshot : ok s -> ok (s <| last_channel_status := snapshot |>).
Proof. intros []. by split. Qed.

Lemma ok_peer_at {A} (op : eff Peer A) s :
  stage (op (peer s)).2 = stage (peer s) -> ok s -> holds_after ok (on_peer op) s.
Proof.
  intros H []. unfold holds_after, on_peer, on_part.
  destruct (op (peer s)) as [r p'] eqn:Hop. cbn in H.
  split; cbn; [by rewrite H| |done..]. rewrite lawful_flag0. by destruct (peer s), p'.
Qed.
Lemma ok_peer {A} (op : eff Peer A) :
  (forall p, stage (op p).2 = stage p) -> preserves ok (on_peer op).
Proof. intros H. apply after_preserves. intros s. by apply ok_peer_at. Qed.

Hint Extern 1 (stage _ = stage _) => same_stage : chia.
Hint Resolve ok_peer ok_update : chia.
Ltac discreet :=
  first [by apply discreet_push
        |apply discreet_comp; [by apply discreet_push|by apply discreet_note]
        |intros ?; split_and!; cbn; try done; intros; lia].
Hint Extern 1 (discreet _) => discreet : chia.
Ltac steps := walk_through; eauto using ok_status.

Lemma ok_emit : preserves ok emit_channel_status_if_changed.
Proof. steps. Qed.
Lemma ok_push_event e : to_peer e = false -> terminal_message e = false -> preserves ok (push_event e).
Proof. intros He Ht. apply ok_update. by apply discreet_push. Qed.
Hint Resolve ok_emit ok_push_event : chia.
Lemma ok_abandoned : preserves ok mark_abandoned.
Proof. steps. Qed.

Lemma ok_detect : preserves ok detect_phase_transition.
Proof.
  apply after_preserves. intros s []. unfold detect_phase_transition.
  set (rest := fun next : option Peer => _).
  pose proof (next_stage (peer s)) as Hnext.
  assert (stage (PeerPhase.take_next_phase (peer s)).2 = stage (peer s)) as Hstage by same_stage.
  unfold holds_after, mbind at 1, eff_bind at 1, on_peer, on_part.
  destruct (PeerPhase.take_next_phase (peer s)) as [[next|e] p'] eqn:Htake; cbn in Hnext, Hstage.
  - change (holds_after ok (rest next) (s <| peer := p' |>)). unfold rest. unfold mbind at 1, eff_bind at 1.
    assert (forall q, stage q <= n -> ok ((s <| peer := q |>) <| state := (state s)
      <| is_on_chain := match q with OnChain _ => true | _ => false end |>
      <| is_failed := bool_decide (snap_state <$> channel_status_snapshot q = Some Failed) |> |>)) as Hok.
    { intros q Hq. by split. }
    destruct next as [next|]; apply (preserves_after _ _ _ ok_emit).
    + apply (Hok next). specialize (Hnext _ eq_refl). lia.
    + apply (Hok p'). lia.
  - split; cbn; [by rewrite Hstage| |done..]. rewrite lawful_flag0. by destruct (peer s), p'.
Qed.
Hint Resolve ok_abandoned ok_detect : chia.

(** *** The effects *)
Definition state_ok (flag : bool) (st : GameSessionState) : Prop :=
  is_on_chain st = flag /\ existsb terminal_message (events st) = false
  /\ (quiet = true -> peer_disconnected st = true /\ existsb to_peer (events st) = false)
  /\ (forall k, waits = Some k -> length (inbound_messages st) <= k).

Lemma ok_state {A} (op : eff GameSessionState A) :
  (forall flag, preserves (state_ok flag) op) -> preserves ok (on_state op).
Proof.
  intros H s []. unfold on_state, on_part. specialize (H (resolving_on_chain (peer s)) (state s)).
  destruct (op (state s)) as [r st]. destruct H as (Hflag & Hp & Hq & Hw); [by split_and!|]. by split.
Qed.

Section effects.
Variable flag : bool.
Notation st_ok := (state_ok flag).

Lemma st_modify f : discreet f -> preserves st_ok (modify_state f).
Proof.
  intros Hf st (Hflag & Hp & Hq & Hw). destruct (Hf st) as (H1 & H2 & H3 & H3' & H4).
  split_and!; cbn; [congruence|auto|intros Hquiet; destruct (Hq Hquiet); auto|].
  intros k Hk. specialize (H4 ltac:(by eexists)). specialize (Hw k Hk). lia.
Qed.
Hint Resolve st_modify : chia.

Lemma st_send msg : preserves st_ok (send_message msg).
Proof.
  apply after_preserves. intros st Hst. unfold send_message. apply after_get_bind. cbv beta.
  destruct (peer_disconnected st) eqn:Hd; [done|].
  assert (quiet = true -> False) as Hspeak by (intros Hq; destruct Hst as (_ & _ & Hst & _); destruct (Hst Hq); congruence).
  apply after_bind; [done|]. intros msg_data st' _. destruct Hst as (Hflag & Hp & _ & Hw).
  split_and!; [done| | |done]; [by cbn; rewrite existsb_app, Hp|]. intros Hq. by destruct Hspeak.
Qed.
Lemma st_spend b expiry : preserves st_ok (spend_transaction_and_add_fee b expiry).
Proof.
  apply st_modify. intros st.
  destruct expiry; cbn; (split_and!; [done..| | |done]); intros H; rewrite existsb_app, H; done.
Qed.
Hint Resolve st_send st_spend : chia.

Lemma st_apply e : preserves st_ok (apply_effect e).
Proof.
  destruct e; cbn [apply_effect session_effects sys_notification sys_log sys_send_message
    sys_spend_transaction_and_add_fee sys_register_coin sys_request_puzzle_and_solution
    sys_channel_puzzle_hash sys_received_channel_offer]; unfold register_coin; eauto with chia.
Qed.
Hint Resolve st_apply : chia.
Lemma st_apply_all es : preserves st_ok (apply_effects es).
Proof. induction es; walk_through. Qed.

Lemma st_intercept es : preserves st_ok (intercept_effects es).
Proof. induction es as [|e es IH]; [walk_through|].
  walk_through; eauto; match goal with
  | |- st_ok (push ?event _) => by apply (st_modify (push event)); [apply discreet_push|]
  end.
Qed.
End effects.
Hint Resolve ok_state st_apply_all st_intercept : chia.

(** *** The calls back *)
Section calls.
Context (env : ChannelEnv) (process : list Effect -> eff GameSession unit).
Hypothesis process_ok : forall es, preserves ok (process es).
Hint Resolve process_ok : chia.

Lemma ok_go_on_chain got_error : preserves ok (go_on_chain_with env process got_error).
Proof. steps. Qed.
Hint Resolve ok_go_on_chain : chia.
Lemma ok_protocol_error : preserves ok (handle_peer_protocol_error env process).
Proof. steps. Qed.
Lemma ok_create ph : preserves ok (create_partial_spend_for_channel_coin env process ph).
Proof. steps. Qed.
Lemma ok_respond b : preserves ok (respond_to_unfunded_offer env process b).
Proof. steps. Qed.
Hint Resolve ok_protocol_error ok_create ok_respond : chia.
Lemma ok_funding : preserves ok (settle_funding env process).
Proof. steps. Qed.
Hint Resolve ok_funding : chia.

Lemma ok_loop exhausted fuel waiting next :
  (forall p, stage (next p).2 = stage p) ->
  preserves ok (queue_loop env exhausted process fuel waiting next).
Proof. intros Hnext. induction fuel; steps. Qed.
Hint Resolve ok_loop : chia.
Lemma ok_process_with exhausted fuel es :
  preserves ok (process_effects_with env exhausted process fuel es).
Proof. steps. Qed.
End calls.
Hint Resolve ok_process_with ok_protocol_error ok_go_on_chain : chia.

Lemma ok_process env exhausted fuel es : preserves ok (process_effects env exhausted fuel es).
Proof. revert es. induction fuel; intros es; [walk_through|]. cbn [process_effects]. eauto with chia. Qed.
Hint Resolve ok_process : chia.

End lawful.

(** *** The calls of the host *)
Section host.
Context (env : ChannelEnv) (exhausted : Error) (fuel : nat) (n : nat) (quiet : bool).
Notation ok := (lawful n quiet None).

Lemma discreet_anyway f :
  (forall st, is_on_chain (f st) = is_on_chain st /\ peer_disconnected (f st) = peer_disconnected st
     /\ events (f st) = events st) -> discreet None f.
Proof.
  intros H st. destruct (H st) as (-> & -> & ->). split_and!; [done..|]. by intros [].
Qed.
Hint Extern 1 (stage _ = stage _) => same_stage : chia.
Hint Extern 1 (discreet _ _) =>
  first [by apply discreet_push|apply discreet_anyway; intros ?; by split_and!
        |intros ?; split_and!; cbn; try done; intros; lia] : chia.
Hint Resolve ok_peer ok_update ok_process ok_detect ok_emit ok_push_event ok_abandoned
  ok_protocol_error ok_go_on_chain : chia.
Ltac steps := walk_through; eauto using ok_status.

Lemma ok_with_effects op :
  (forall p, stage (op p).2 = stage p) -> preserves ok (with_effects env exhausted fuel op).
Proof. intros Hop. steps. Qed.
Hint Resolve ok_with_effects : chia.
Lemma ok_inbound k : preserves ok (inbound_loop env exhausted fuel k).
Proof. induction k; steps. Qed.
Lemma ok_drain : preserves ok drain.
Proof. steps. Qed.
Hint Resolve ok_inbound ok_drain : chia.
Lemma ok_flush : preserves ok (flush_and_collect env exhausted fuel).
Proof. steps. Qed.
Lemma ok_expiry h observations : preserves ok (check_channel_creation_expiry h observations).
Proof. steps. Qed.
Lemma ok_observe observations : preserves ok (observe_all env exhausted fuel observations).
Proof.
  induction observations as [|o observations IH]; [walk_through|].
  steps. apply preserves_after; [|done]. apply ok_with_effects. intros p.
  destruct o; [apply stage_bind; intros|]; first [reflexivity|same_stage].
Qed.
Hint Resolve ok_flush ok_expiry ok_observe : chia.
Lemma ok_timeout submitted semantic : preserves ok (session_timeout_claim submitted semantic).
Proof.
  steps. apply ok_peer_at; [|done].
  match goal with H : peer s = _ |- _ => rewrite H end. by apply in_phase_stage.
Qed.
Hint Resolve ok_timeout : chia.

Lemma ok_start : preserves ok (GameSession.start_handshake env exhausted fuel).
Proof. steps. Qed.
Hint Resolve ok_start : chia.
Lemma ok_go got_error : preserves ok (go_on_chain env exhausted fuel got_error).
Proof. steps. Qed.
Lemma ok_propose games : preserves ok (session_propose_games env exhausted fuel games).
Proof. steps. Qed.
Hint Resolve ok_go ok_propose : chia.
Lemma ok_accept_and_move id readable entropy :
  preserves ok (accept_proposal_and_move env exhausted fuel id readable entropy).
Proof.
  apply ok_with_effects. intros p. apply stage_bind; [intros; same_stage|].
  intros. apply stage_bind; [intros; same_stage|done].
Qed.
Hint Resolve ok_accept_and_move : chia.

Lemma ok_then_done {A} (op : eff GameSession A) : preserves ok op -> preserves ok (_ ← op; mret tt).
Proof. intros Hop. apply after_preserves. intros s Hs. walk; [by apply preserves_after|done]. Qed.
Lemma ok_call c : preserves ok (host_call env exhausted fuel c).
Proof. destruct c; cbn [host_call]; eauto using ok_then_done with chia; steps. Qed.
End host.

(** The loop over the messages has enough turns: none adds a message. *)
Lemma inbound_turns env exhausted fuel n m k1 k2 s :
  lawful n false (Some m) s -> m <= k1 -> m <= k2 ->
  inbound_loop env exhausted fuel k1 s = inbound_loop env exhausted fuel k2 s.
Proof.
  revert k1 k2 s. induction m as [|m IH]; intros k1 k2 s Hs Hk1 Hk2.
  { assert (inbound_messages (state s) = []) as Hnil.
    { apply nil_length_inv. pose proof (lawful_waiting _ _ _ _ Hs 0 eq_refl). lia. }
    destruct k1, k2; cbn [inbound_loop]; unfold mbind, eff_bind, get_state; by rewrite ?Hnil. }
  destruct k1 as [|k1], k2 as [|k2]; [lia..|]. cbn [inbound_loop].
  cbv beta iota delta [mbind eff_bind get_state update_state modify_state attempt].
  destruct (inbound_messages (state s)) as [|msg rest] eqn:Hin; [done|].
  assert (lawful n false (Some m) (s <| state := (state s) <| inbound_messages := rest |> |>)) as Hs1.
  { destruct Hs. split; [done..|]. cbn. intros k [= <-].
    specialize (lawful_waiting0 _ eq_refl). rewrite Hin in lawful_waiting0. cbn in lawful_waiting0. lia. }
  pose proof (ok_peer n false (Some m) (PeerPhase.received_message env msg) ltac:(intros; same_stage) _ Hs1)
    as Hs2.
  destruct (on_peer (PeerPhase.received_message env msg) _) as [[es|e] s2]; [|done]. cbn in Hs2.
  pose proof (ok_process n false (Some m) env exhausted fuel es _ Hs2) as Hs3.
  destruct (process_effects env exhausted fuel es s2) as [[u|e] s3]; [|done]. cbn in Hs3.
  destruct (bool_decide _); [done|]. apply IH; [done|lia..].
Qed.

Lemma lawful_steps env n quiet s s' :
  lawful n quiet None s -> rtc (session_step env) s s' -> lawful n quiet None s'.
Proof.
  intros Hs Hsteps. induction Hsteps as [s|s s1 s2 [x fuel c] _ IH]; [done|]. by apply IH, ok_call.
Qed.

(** What a flush returns holds no terminal message. *)
Lemma flush_plain env x fuel n s r s' :
  lawful n false None s ->
  flush_and_collect env x fuel s = (Ok r, s') -> existsb terminal_message (drain_events r) = false.
Proof.
  intros Hok.
  unfold flush_and_collect. intros (s0 & s1 & [= <- <-] & H)%eff_bind_Ok.
  assert (forall s2, lawful n false None s2 -> drain s2 = (Ok r, s') ->
    existsb terminal_message (drain_events r) = false) as Hdrain.
  { intros s2 Hs2 H2. unfold drain, mbind, eff_bind, get_state in H2. cbn in H2. injection H2 as <- _.
    apply (lawful_plain _ _ _ _ Hs2). }
  case_bool_decide; [by apply (Hdrain s)|].
  apply eff_bind_Ok in H as ([] & s2 & H2 & H).
  pose proof (ok_inbound env x fuel n false (length (inbound_messages (state s))) s Hok) as Hok2.
  rewrite H2 in Hok2. cbn in Hok2. apply eff_bind_Ok in H as (? & ? & [= <- <-] & H).
  apply eff_bind_Ok in H as ([] & s3 & H3 & H). apply (Hdrain s3); [|done].
  match type of H3 with ?op s2 = _ => assert (preserves (lawful n false None) op) as Hop end.
  { apply after_preserves. intros s4 Hs4. walk; try done; eauto with chia.
    all: try (apply preserves_after; [|done]; first [by apply ok_process|by apply ok_push_event
      |apply ok_peer; intros; same_stage]). }
  specialize (Hop s2 Hok2). by rewrite H3 in Hop.
Qed.

(** ** An abandoned session *)
Definition left_for_good s : Prop :=
  session_disposition (state s) = Some Abandoned /\ existsb to_network (events (state s)) = false.
Notation gone := left_for_good.

Section abandoned.
Context (env : ChannelEnv) (exhausted : Error) (fuel : nat).

Lemma gone_peer {A} (op : eff Peer A) : preserves gone (on_peer op).
Proof. intros s Hs. unfold on_peer, on_part. by destruct (op (peer s)). Qed.
(** An update that keeps the disposition and submits nothing. *)
Definition inert (f : GameSessionState -> GameSessionState) : Prop :=
  forall st, session_disposition (f st) = session_disposition st
  /\ (existsb to_network (events st) = false -> existsb to_network (events (f st)) = false).
Lemma inert_push e : to_network e = false -> inert (push e).
Proof. intros He st. cbn. split; [done|]. intros H. rewrite existsb_app, H. cbn. by rewrite He. Qed.
Lemma inert_note e snap : to_network e = false -> inert (fun st => push e (note_status snap st)).
Proof.
  intros He st. unfold note_status.
  destruct (snap_state snap), (is_on_chain st); cbn; (split; [done|]);
    intros H; rewrite existsb_app, H; cbn; by rewrite He.
Qed.
Lemma gone_update f : inert f -> preserves gone (update_state f).
Proof.
  intros Hf s [Hd Hn]. destruct (Hf (state s)) as [H1 H2]. split; cbn; [by rewrite H1|auto].
Qed.
Hint Resolve gone_peer gone_update : chia.
Hint Extern 1 (inert _) =>
  first [by apply inert_push|by apply inert_note|intros ?; by split] : chia.

Lemma gone_emit : preserves gone emit_channel_status_if_changed.
Proof. walk_through. Qed.
Lemma gone_push_event e : to_network e = false -> preserves gone (push_event e).
Proof. intros He. apply gone_update. by apply inert_push. Qed.
Hint Resolve gone_emit gone_push_event : chia.
Lemma gone_detect : preserves gone detect_phase_transition.
Proof. walk_through. Qed.
Lemma abandoned_gone s : holds_after gone mark_abandoned s.
Proof.
  unfold mark_abandoned. apply (after_bind gone); [by split|].
  intros _ s' Hs'. by apply preserves_after; [apply gone_emit|].
Qed.
Lemma gone_abandoned : preserves gone mark_abandoned.
Proof. intros s _. apply abandoned_gone. Qed.

(** It ignores what its phase asks for. *)
Lemma gone_process es : preserves gone (process_effects env exhausted fuel es).
Proof.
  destruct fuel as [|k]; [walk_through|]. apply after_preserves. intros s Hs. cbn [process_effects].
  unfold process_effects_with. apply after_get_bind. cbv beta. pose proof Hs as [Hd _]. by rewrite Hd.
Qed.
Hint Resolve gone_detect gone_abandoned gone_process : chia.
Lemma gone_with_effects op : preserves gone (with_effects env exhausted fuel op).
Proof. walk_through. Qed.
Hint Resolve gone_with_effects : chia.

(** The calls that look at the disposition first. *)
Ltac looks := apply after_preserves; intros s Hs; lazymatch goal with
  | |- holds_after _ ?op _ => let f := head_of op in unfold f end;
  apply after_get_bind; cbv beta; pose proof Hs as [Hd _]; rewrite ?Hd, ?orb_true_r.
Lemma gone_go_on_chain got_error : preserves gone (session_go_on_chain env exhausted fuel got_error).
Proof. unfold session_go_on_chain, go_on_chain. by looks. Qed.
Lemma gone_new_block h observations : preserves gone (session_new_block env exhausted fuel h observations).
Proof. by looks. Qed.
Lemma gone_height_only h : preserves gone (new_block_height_only env exhausted fuel h).
Proof. by looks. Qed.
Lemma gone_deliver msg : preserves gone (deliver_message msg).
Proof. by looks. Qed.
Lemma gone_report coin seen : preserves gone (report_puzzle_and_solution env exhausted fuel coin seen).
Proof. by looks. Qed.
Lemma gone_complete : preserves gone complete_outbound_terminal_handoff.
Proof. by looks. Qed.
Lemma gone_abandon : preserves gone abandon.
Proof. walk_through. Qed.
Lemma gone_flush : preserves gone (flush_and_collect env exhausted fuel).
Proof.
  assert (preserves gone drain) as Hdrain by walk_through. looks.
  rewrite bool_decide_eq_true_2 by done. by apply preserves_after.
Qed.
Lemma gone_timeout submitted semantic : preserves gone (session_timeout_claim submitted semantic).
Proof. walk_through. Qed.
Lemma gone_start : preserves gone (GameSession.start_handshake env exhausted fuel).
Proof. walk_through. Qed.
Hint Resolve gone_start : chia.
Lemma gone_set_funding coin : preserves gone (set_funding_coin env exhausted fuel coin).
Proof. walk_through. Qed.
Lemma gone_propose games : preserves gone (session_propose_games env exhausted fuel games).
Proof. walk_through. Qed.
Lemma gone_wallet_failed reason : preserves gone (session_wallet_callback_failed reason).
Proof. walk_through. Qed.
Lemma gone_then_done {A} (op : eff GameSession A) : preserves gone op -> preserves gone (_ ← op; mret tt).
Proof. intros Hop. apply after_preserves. intros s Hs. walk; [by apply preserves_after|done]. Qed.

Hint Resolve gone_go_on_chain gone_new_block gone_height_only gone_deliver gone_report gone_complete
  gone_abandon gone_flush gone_timeout gone_set_funding gone_propose gone_wallet_failed : chia.
Lemma gone_call c : preserves gone (host_call env exhausted fuel c).
Proof. destruct c; cbn [host_call]; eauto using gone_then_done with chia; apply gone_with_effects. Qed.
End abandoned.
End session.

Section properties.
Context {arch : Arch} {sha2 : Sha2} {bigint : BigInt} {clvm : Clvm} {bls : Bls}.
Context {puzzles : ChiaPuzzles} {order : HashOrder} {codec : PeerCodec} {singleton : LauncherPuzzle}.
Context {settlement : SettlementPuzzle} {encoder : PeerEncoder}.

Lemma abandon_leaves s s1 : abandon s = (Ok tt, s1) -> left_for_good s1.
Proof.
  pose proof (abandoned_gone s) as Hmark. unfold holds_after in Hmark.
  unfold abandon, mbind, eff_bind, get_state, guard_or. cbn. intros H. case_in H; [|done].
  by rewrite H in Hmark.
Qed.
Lemma complete_leaves s s1 : complete_outbound_terminal_handoff s = (Ok tt, s1) -> left_for_good s1.
Proof.
  pose proof (abandoned_gone s) as Hmark. unfold holds_after in Hmark.
  unfold complete_outbound_terminal_handoff, mbind, eff_bind, get_state, guard_or. cbn. intros H.
  case_in H; [|done]. by rewrite H in Hmark.
Qed.

Lemma new_session_lawful config keys : lawful 3 false None (new_with_keys config keys).
Proof. unfold new_with_keys, new_peer. by split; destruct (phi_have_potato _); cbn. Qed.

Lemma sessions_plain env config keys s x fuel r s' :
  rtc (session_step env) (new_with_keys config keys) s ->
  flush_and_collect env x fuel s = (Ok r, s') -> existsb terminal_message (drain_events r) = false.
Proof.
  intros Hs. apply (flush_plain env x fuel 3). by apply (lawful_steps env _ _ _ _ (new_session_lawful config keys)).
Qed.

(** C17: a session only moves forward.  Whatever the host calls, in any order
    and with calls that fail, a session leaves its phase only for a later one
    of handshake, off-chain play, spending of the channel coin and resolution on
    chain; and the flag by which it decides whether it is on chain is true
    exactly while its phase is the last one. *)
Theorem phases_advance env config keys s s'
    (Hreached : rtc (session_step env) (new_with_keys config keys) s)
    (Hsteps : rtc (session_step env) s s') :
  (is_on_chain (state s') = true <-> exists p, peer s' = OnChain p)
  /\ stage (peer s') <= stage (peer s).
Proof.
  pose proof (lawful_steps env _ _ _ _ (new_session_lawful config keys) Hreached) as [Hst Hflag Hplain _ _].
  assert (lawful (stage (peer s)) false None s') as [Hst' Hflag' _ _ _].
  { by apply (lawful_steps env _ _ s). }
  split; [|done]. rewrite Hflag'. destruct (peer s') as [p|p|p|p|p]; cbn; split; try done.
  1-4: by intros [? ?].
  by exists p.
Qed.

(** C16: a session that has given up on its peer stays silent.  Once it counts the
    peer as disconnected and the messages it had for it are collected, no call
    of the host makes it send another or takes the peer back. *)
Theorem disconnected_stays_silent env config keys s s'
    (Hreached : rtc (session_step env) (new_with_keys config keys) s)
    (Hgone : peer_disconnected (state s) = true)
    (Hcollected : existsb to_peer (events (state s)) = false)
    (Hsteps : rtc (session_step env) s s') :
  peer_disconnected (state s') = true /\ existsb to_peer (events (state s')) = false.
Proof.
  pose proof (lawful_steps env _ _ _ _ (new_session_lawful config keys) Hreached) as [Hst Hflag Hplain _ _].
  assert (lawful (stage (peer s)) true None s') as [_ _ _ Hsilent _].
  { apply (lawful_steps env _ _ s); [|done]. by split. }
  by apply Hsilent.
Qed.

(** C18: abandoning a session is final.  After the player abandons it, or it
    completes a shutdown that pays nothing, whatever the host calls next leaves
    it abandoned, and it sends no message, submits no transaction and watches
    no further coin, whatever its phase still asks for. *)
Theorem abandoned_is_final env s s1 s' (c : eff GameSession unit)
    (Hcall : c = abandon \/ c = complete_outbound_terminal_handoff)
    (Habandoned : c s = (Ok tt, s1)) (Hsteps : rtc (session_step env) s1 s') :
  session_disposition (state s') = Some Abandoned /\ existsb to_network (events (state s')) = false.
Proof.
  assert (left_for_good s1) as Hs1.
  { destruct Hcall as [-> | ->]; [by apply (abandon_leaves s)|by apply (complete_leaves s)]. }
  clear Habandoned. induction Hsteps as [|s1 s2 s3 [x fuel k] _ IH]; [done|]. by apply IH, gone_call.
Qed.
End properties.

Module Witnesses.
Import Toy ToyGame ToyChannel HandshakeProperties.Witnesses.

#[export] Instance toy_settlement : SettlementPuzzle := {|
  SETTLEMENT_PAYMENT := toy_encode (Atom [x97]);
  SETTLEMENT_PAYMENT_HASH := toy_digest [x97];
|}.
#[export] Instance toy_peer_encoder : PeerEncoder := {| encode_peer_message := fun _ => Ok [x04] |}.

Definition bob_config : GameSessionConfig :=
  mkSessionConfig ∅ true (ToyGame.identity sk_bob) 200 300 20 15 (ph xbb).
Definition bob_session : GameSession := new_with_keys bob_config bob_keys.
Definition calls (s : GameSession) (cs : list HostCall) : GameSession :=
  foldl (fun s c => (host_call env (StrErr "") 5 c s).2) s cs.
Lemma calls_steps s cs : rtc (session_step env) s (calls s cs).
Proof.
  revert s. induction cs as [|c cs IH]; intros s; [done|].
  apply (rtc_l _ _ (host_call env (StrErr "") 5 c s).2); [constructor|apply IH].
Qed.

(** Bob starts, and plays once the channel is there. *)
Definition opening : list HostCall := [StartHandshake; FlushAndCollect].
Definition to_the_channel : list HostCall :=
  [DeliverMessage [x01]; FlushAndCollect;
   ProvideLauncherCoin launcher_of_bob; NewBlockHeightOnly 7; DeliverMessage [x02]; FlushAndCollect;
   ProvideCoinSpendBundle (mkSpendBundle None []); NewBlock 8 [Created launcher_of_bob]].
Definition channel_made : GameSession := calls (calls bob_session opening) to_the_channel.
Lemma bob_off_chain : stage (peer channel_made) = 2.
Proof. vm_compute. reflexivity. Qed.
Lemma phases_advance_witness :
  stage (peer channel_made) = 2 /\ stage (peer channel_made) <= stage (peer (calls bob_session opening)).
Proof.
  split; [exact bob_off_chain|].
  exact (proj2 (phases_advance env bob_config bob_keys _ _ (calls_steps bob_session opening)
           (calls_steps _ to_the_channel))).
Defined.

(** Bob leaves, and an answer of the peer comes too late. *)
Definition left : list HostCall := [StartHandshake; FlushAndCollect; GoOnChain false; FlushAndCollect].
Definition left_alone : GameSession := calls bob_session left.
Lemma left_alone_quiet :
  peer_disconnected (state left_alone) = true /\ existsb to_peer (events (state left_alone)) = false.
Proof. vm_compute. split; reflexivity. Qed.
Lemma disconnected_stays_silent_witness :
  existsb to_peer (events (state (calls left_alone to_the_channel))) = false.
Proof.
  exact (proj2 (disconnected_stays_silent env bob_config bob_keys left_alone _ (calls_steps bob_session left)
           (proj1 left_alone_quiet) (proj2 left_alone_quiet) (calls_steps left_alone to_the_channel))).
Defined.

Definition started : GameSession := calls bob_session opening.
Definition abandoned : GameSession := (abandon started).2.
Lemma abandon_ok : (abandon started).1 = Ok tt.
Proof. vm_compute. reflexivity. Qed.
Lemma abandoned_run : abandon started = (Ok tt, abandoned).
Proof. exact (eff_run abandon started (Ok tt) abandon_ok). Qed.
Lemma abandoned_is_final_witness :
  session_disposition (state (calls abandoned to_the_channel)) = Some Abandoned.
Proof.
  exact (proj1 (abandoned_is_final env _ abandoned _ abandon (or_introl eq_refl) abandoned_run
           (calls_steps abandoned to_the_channel))).
Defined.
End Witnesses.
