(* ===== verification/ManagedSession.v ===== *)
(** * The transaction manager and the session together

    [src/src/transaction_manager.rs] around [src/src/game_session.rs], as the
    host runs them: the manager turns the chain's snapshots into observations
    and calls the session through [ManagedGameSession], of which
    [session_managed] is the program's instance; the host also calls the session
    itself, through [DerefMut]. *)
From stdpp Require Import relations.
From S2P Require Import Prelude Extern World Coins Clvm StandardCoin TransactionManager ManagerProperties.
From S2P Require Import UnrollCoin GameHandler RefereeTypes Referee LiveGame ChannelState ChannelGames.
From S2P Require Import ChannelOnChain Effects OnChainPhase OnChainActions OnChainSpend HandlerBase.
From S2P Require Import SpendChannelCoin UnrollTransition OffChainPhase OffChainReceive HandshakeBase.
From S2P Require Import HandshakeInitiator HandshakeReceiver PeerPhase GameSession.
From S2P Require Import ToyGame ToyChannel HandshakeProperties SessionProperties.

(** ** A manager that has nothing left to do *)
Section idle.
Context {order : HashOrder} {sha2 : Sha2} {bigint : BigInt} {clvm : Clvm} {bls : Bls}.
Context {C : Type} {session : ManagedGameSession GameNotification CoinSpendRequest C}.
Abbreviation TM := (TransactionManager GameNotification CoinSpendRequest C).

(** No coin is watched, nothing is queued and nothing is retained. *)
Definition idle (m : TM) : Prop :=
  watched_coins m = ∅ /\ pending_submissions m = [] /\ submitted m = [].

Lemma hm_iter_nothing {K V} `{Countable K} : hm_iter (∅ : gmap K V) = [].
Proof.
  apply Permutation_nil_r. pose proof (hm_iter_perm (∅ : gmap K V)) as H'.
  by rewrite map_to_list_empty in H'.
Qed.

Lemma idle_cradle {A} (op : eff C A) : preserves idle (on_cradle op).
Proof. intros m Hm. unfold on_cradle, on_part. destruct (op (cradle m)). exact Hm. Qed.
Lemma idle_rearms rearmed reported : preserves idle (rearm_loop rearmed reported).
Proof.
  revert reported. induction rearmed as [|semantic rearmed IH]; intros reported; cbn; [auto with chia|].
  case_bool_decide; [apply IH|]. apply preserves_bind; [apply idle_cradle|intros _; apply IH].
Qed.
Lemma idle_status : preserves idle reconcile_timeout_claim_status.
Proof.
  apply preserves_get_bind. intros m (Hw & Hp & Hs). destruct (timeout_claim_status_reconciled m); [done|].
  rewrite Hw, hm_iter_nothing. cbn. done.
Qed.
Lemma idle_evaluate height : preserves idle (evaluate_mature_timeout_claims height).
Proof.
  intros m (Hw & Hp & Hs). rewrite evaluate_unfold, Hw, hm_iter_nothing. cbn.
  split_and!; [|done..]. apply map_imap_empty.
Qed.
Lemma idle_invalidate height rollback :
  preserves idle (invalidate_timeout_claims_for_rollback_epoch height rollback).
Proof.
  intros m (Hw & Hp & Hs). destruct rollback.
  - destruct (decide (timeout_rollback_height m = Some height)) as [Heq|Hne].
    + unfold invalidate_timeout_claims_for_rollback_epoch, get_state, mbind, eff_bind. cbn [negb].
      by rewrite bool_decide_eq_true_2 by done.
    + rewrite invalidate_unfold by done. cbn. rewrite Hw. split_and!; [|done..]. apply map_imap_empty.
  - unfold invalidate_timeout_claims_for_rollback_epoch, get_state, modify_state, mbind, eff_bind. cbn.
    by destruct (timeout_rollback_height m) as [h|]; [destruct (h <? height)%N|].
Qed.
Hint Resolve idle_cradle idle_rearms idle_status idle_evaluate idle_invalidate : chia.

Lemma idle_height height : preserves idle (report_height height).
Proof. walk_through. Qed.

(** A snapshot finds nothing to reconcile. *)
Lemma records_idle reorg present l records :
  l_watched l = ∅ -> l_watched (reconcile_records reorg present l records) = ∅.
Proof.
  unfold reconcile_records. revert l. induction records as [|rec records IH]; intros l Hl; [done|].
  cbn. apply IH. unfold reconcile_record.
  destruct (reorg && _), (is_live rec); cbn; by rewrite Hl, lookup_empty.
Qed.
Lemma confirm_idle height deleted : confirm_deleted height deleted ∅ = ∅.
Proof.
  unfold confirm_deleted. induction (hs_iter deleted) as [|coin l IH]; [done|]. cbn.
  by rewrite alter_empty.
Qed.
Lemma reconcile_idle height records reorg rearmed m :
  idle m -> idle (reconcile_snapshot height records reorg rearmed m).1.1.
Proof.
  intros (Hw & Hp & Hs). unfold reconcile_snapshot.
  assert ((if reorg then roll_back_births height (watched_coins m) (vanished_coins m) rearmed
           else (watched_coins m, (vanished_coins m, [], rearmed)))
    = (∅, (vanished_coins m, [], rearmed))) as ->.
  { rewrite Hw. destruct reorg; [|done]. unfold roll_back_births.
    rewrite hm_for_each_mut_spec, hm_iter_nothing, map_imap_empty. done. }
  pose proof (records_idle reorg (present_coins m) (mkRecordLocals (vanished_coins m) ∅ ∅ [] rearmed)
    records eq_refl) as Hl.
  cbv beta iota. set (l := reconcile_records _ _ _ _) in *. clearbody l.
  cbn. unfold idle, resubmit_vanished. cbn. rewrite Hl, confirm_idle. split_and!; [done..|].
  rewrite Hs. unfold reconcile_submitted. by destruct (bool_decide _).
Qed.
Lemma evict_idle height m : idle m -> idle (evict_confirmed_spends height m).
Proof.
  intros (Hw & Hp & Hs). unfold evict_confirmed_spends. rewrite Hw, hm_iter_nothing. cbn.
  split_and!; cbn; [|done..]. rewrite Hw. done.
Qed.
Lemma idle_snapshot height records : preserves idle (report_coin_states height records).
Proof.
  apply after_preserves. intros m Hm. unfold report_coin_states. walk; try done.
  all: try (apply preserves_after; [solve [eauto with chia]|done]).
  all: try by apply evict_idle.
  match goal with H : reconcile_snapshot ?h ?r ?reorg ?re ?m = _ |- _ =>
    pose proof (reconcile_idle h r reorg re m) as Hidle; rewrite H in Hidle; by apply Hidle end.
Qed.

Lemma idle_drain m : idle m -> drain_submissions m = (Ok [], (drain_submissions m).2).
Proof. intros (_ & Hp & _). unfold drain_submissions, mbind, eff_bind, get_state. by rewrite Hp. Qed.
End idle.

Section program.
Context {arch : Arch} {sha2 : Sha2} {bigint : BigInt} {clvm : Clvm} {bls : Bls}.
Context {puzzles : ChiaPuzzles} {order : HashOrder} {codec : PeerCodec} {singleton : LauncherPuzzle}.
Context {settlement : SettlementPuzzle} {encoder : PeerEncoder}.

(** [TransactionManager<GameSession>] *)
Abbreviation Managed := (TransactionManager GameNotification CoinSpendRequest GameSession).

(** What the host does: report the chain, submit, collect, or call the session. *)
Inductive program_step (env : ChannelEnv) : Managed -> Managed -> Prop :=
| reported_height x fuel height m :
    program_step env m (report_height (session := session_managed env x fuel) height m).2
| reported_states x fuel height records m :
    program_step env m (report_coin_states (session := session_managed env x fuel) height records m).2
| collected x fuel m :
    program_step env m
      (TransactionManager.flush_and_collect (session := session_managed env x fuel) m).2
| submissions_drained m : program_step env m (drain_submissions m).2
| submitted_requeued m : program_step env m (requeue_submitted m)
| session_reached x fuel c m :
    program_step env m (m <| cradle := (host_call env x fuel c (cradle m)).2 |>).

Lemma program_step_manager env m m' :
  program_step env m m' -> manager_wf m -> manager_wf m'.
Proof.
  destruct 1 as [x fuel height m|x fuel height records m|x fuel m|m|m|x fuel c m]; intros Hm.
  - by apply (preserves_report_height (session := session_managed env x fuel)).
  - by apply (preserves_report_coin_states (session := session_managed env x fuel)).
  - by apply (preserves_flush_and_collect (session := session_managed env x fuel)).
  - by apply preserves_drain_submissions.
  - by apply manager_wf_requeue.
  - destruct Hm. by split.
Qed.

(** ** The manager calls the session as a host would *)
Section calls.
Context (env : ChannelEnv) (Q : GameSession -> Prop).
Hypothesis Q_call : forall x fuel c, preserves Q (host_call env x fuel c).

Lemma observe_keeps (x : Error) (fuel : nat) height observations :
  preserves Q (session_observe (ManagedGameSession := session_managed env x fuel) height observations).
Proof.
  destruct observations as [observations|].
  - exact (Q_call x fuel (NewBlock height observations)).
  - exact (Q_call x fuel (NewBlockHeightOnly height)).
Qed.
Lemma flush_keeps (x : Error) (fuel : nat) :
  preserves Q (session_flush_and_collect (ManagedGameSession := session_managed env x fuel)).
Proof.
  intros s Hs. pose proof (Q_call x fuel FlushAndCollect s Hs) as H. cbn [host_call] in H.
  unfold mbind, eff_bind in H. cbn [session_flush_and_collect session_managed].
  by destruct (GameSession.flush_and_collect env x fuel s) as [[r|e] s'].
Qed.
Lemma claims_keep_session (x : Error) (fuel : nat) submitted semantic :
  preserves Q (session_timeout_claim submitted semantic).
Proof. exact (Q_call x fuel (TimeoutClaim submitted semantic)). Qed.

Lemma program_keeps (m m' : Managed) : program_step env m m' -> Q (cradle m) -> Q (cradle m').
Proof.
  destruct 1 as [x fuel height m|x fuel height records m|x fuel m|m|m|x fuel c m]; intros Hm.
  - by apply (in_session_height (session := session_managed env x fuel) Q
      (observe_keeps x fuel) (claims_keep_session x fuel true) (claims_keep_session x fuel false)).
  - by apply (in_session_snapshot (session := session_managed env x fuel) Q
      (observe_keeps x fuel) (claims_keep_session x fuel true) (claims_keep_session x fuel false)).
  - by apply (in_session_flush (session := session_managed env x fuel) Q (flush_keeps x fuel)).
  - by apply (in_session_drain Q).
  - done.
  - by apply (Q_call x fuel c).
Qed.
End calls.

Lemma program_steps_keep env (Q : GameSession -> Prop) (m m' : Managed) :
  (forall x fuel c, preserves Q (host_call env x fuel c)) ->
  rtc (program_step env) m m' -> Q (cradle m) -> Q (cradle m').
Proof. intros HQ. induction 1 as [|m1 m2 m3 Hstep _ IH]; [done|]. intros Hm. by eapply IH, program_keeps. Qed.

(** ** After an abandonment *)
Lemma quiet_absorbed events (m : Managed) :
  existsb to_network events = false ->
  pending_submissions (absorb_events events m) = pending_submissions m
  /\ watched_coins (absorb_events events m) = watched_coins m.
Proof.
  unfold absorb_events. revert m. induction events as [|e events IH]; intros m; [done|]. cbn.
  intros [He Hevents]%orb_false_iff. destruct (IH (absorb_event m e) Hevents) as [-> ->]. by destruct e.
Qed.

(** Collecting once leaves nothing behind. *)
Lemma collected_idle env x fuel (m : Managed) :
  left_for_good (cradle m) ->
  idle (TransactionManager.flush_and_collect (session := session_managed env x fuel) m).2.
Proof.
  intros [Hd Hn].
  destruct (abandoned_flush_discards (session := session_managed env x fuel) m
    (mkDrainResult (GameSession.events (state (cradle m))) (GameSession.resync (state (cradle m))))
    (GameSession.drain (cradle m)).2) as (d & m' & Hrun & Hsub & _ & _ & _ & Hp & Hw & _).
  - cbn [session_flush_and_collect session_managed].
    unfold GameSession.flush_and_collect, mbind, eff_bind, get_state.
    by rewrite bool_decide_eq_true_2 by (by rewrite Hd).
  - cbn [is_abandoned session_managed]. unfold session_is_abandoned. by apply bool_decide_eq_true_2.
  - rewrite Hrun. cbn [snd]. cbn [drain_events] in Hp, Hw.
    destruct (quiet_absorbed (GameSession.events (state (cradle m)))
      (TransactionManager_new (GameSession.drain (cradle m)).2) Hn) as [Hp' Hw'].
    split_and!; [by rewrite Hw, Hw'|by rewrite Hp, Hp'|done].
Qed.

Lemma idle_step env (m m' : Managed) :
  program_step env m m' -> left_for_good (cradle m) -> idle m -> idle m'.
Proof.
  destruct 1 as [x fuel height m|x fuel height records m|x fuel m|m|m|x fuel c m]; intros Hgone Hm.
  - by apply (idle_height (session := session_managed env x fuel)).
  - by apply (idle_snapshot (session := session_managed env x fuel)).
  - by apply collected_idle.
  - destruct Hm as (Hw & Hp & Hs). unfold drain_submissions, mbind, eff_bind, get_state. rewrite Hp.
    cbn. by split_and!; cbn.
  - destruct Hm as (Hw & Hp & Hs). unfold requeue_submitted, idle. cbn. by rewrite Hw, Hp, Hs.
  - exact Hm.
Qed.

(** C19: a program whose session was abandoned goes quiet.  Once the events of
    the abandoned session are collected the manager watches no coin and submits
    no transaction ever again, whatever the chain reports, reorgs included, and
    whatever is requested of the session. *)
Theorem abandoned_program_quiet env x fuel (m : Managed) s1 m2 m3
    (Habandon : abandon (cradle m) = (Ok tt, s1))
    (Hbefore : rtc (program_step env) (m <| cradle := s1 |>) m2)
    (Hafter : rtc (program_step env)
      (TransactionManager.flush_and_collect (session := session_managed env x fuel) m2).2 m3) :
  (drain_submissions m3).1 = Ok [] /\ watched_coins m3 = ∅.
Proof.
  assert (left_for_good s1) as Hs1 by by apply (abandon_leaves (cradle m)).
  assert (forall m m' : Managed, rtc (program_step env) m m' -> left_for_good (cradle m) ->
    left_for_good (cradle m')) as Hkeep.
  { intros m0 m1 Hrun. apply (program_steps_keep env left_for_good _ _ (gone_call env) Hrun). }
  pose proof (Hkeep _ _ Hbefore Hs1) as Hm2. pose proof (collected_idle env x fuel m2 Hm2) as Hidle.
  assert (left_for_good (cradle
    (TransactionManager.flush_and_collect (session := session_managed env x fuel) m2).2)) as Hgone.
  { apply (program_keeps env left_for_good (gone_call env) m2); [constructor|done]. }
  assert (idle m3) as (Hw & Hp & Hs).
  { revert Hgone Hidle. clear Hkeep. induction Hafter as [|a b c Hstep _ IH]; [done|]. intros Hgone Hidle.
    apply IH; [|by eapply idle_step]. by apply (program_keeps env left_for_good (gone_call env) a). }
  split; [|done]. rewrite (idle_drain m3) by done. done.
Qed.
End program.

Module Witnesses.
Import Toy ToyGame ToyChannel HandshakeProperties.Witnesses SessionProperties.Witnesses.

Abbreviation Managed := (TransactionManager GameNotification CoinSpendRequest GameSession).
Abbreviation managed := (session_managed env (StrErr "") 5).

(** Bob starts, his messages are collected, the chain grows, he is done. *)
Definition p0 : Managed := TransactionManager_new bob_session.
Definition p1 : Managed := p0 <| cradle := (host_call env (StrErr "") 5 StartHandshake (cradle p0)).2 |>.
Definition p2 : Managed := (TransactionManager.flush_and_collect (session := managed) p1).2.
Definition p3 : Managed := (report_height (session := managed) 7 p2).2.

Definition given_up : GameSession := (abandon (cradle p3)).2.
Lemma given_up_ok : (abandon (cradle p3)).1 = Ok tt.
Proof. vm_compute. reflexivity. Qed.
Lemma given_up_run : abandon (cradle p3) = (Ok tt, given_up).
Proof. exact (eff_run abandon (cradle p3) (Ok tt) given_up_ok). Qed.
Definition p4 : Managed := p3 <| cradle := given_up |>.
Definition p5 : Managed := (TransactionManager.flush_and_collect (session := managed) p4).2.
Definition p6 : Managed := (report_height (session := managed) 6 p5).2.

Lemma abandoned_program_quiet_witness : (drain_submissions p6).1 = Ok [] /\ watched_coins p6 = ∅.
Proof.
  apply (abandoned_program_quiet env (StrErr "") 5 p3 given_up p4 p6 given_up_run).
  - apply rtc_refl.
  - apply rtc_once. exact (reported_height env (StrErr "") 5 6 p5).
Defined.
End Witnesses.
