(* ===== verification/SnapshotDelivery.v ===== *)
(** * What a snapshot of the chain does to the session

    [src/src/transaction_manager.rs] around [src/src/game_session.rs]: an
    accepted snapshot becomes calls of the session, in a fixed order; which calls,
    with which claims and coins, follows from the snapshot and from what the
    manager watched. *)
From stdpp Require Import relations.
From S2P Require Import Prelude Extern World Coins Clvm StandardCoin TransactionManager ManagerProperties.
From S2P Require Import UnrollCoin GameHandler RefereeTypes Referee LiveGame ChannelState ChannelGames.
From S2P Require Import ChannelOnChain Effects OnChainPhase OnChainActions OnChainSpend HandlerBase.
From S2P Require Import SpendChannelCoin UnrollTransition OffChainPhase OffChainReceive HandshakeBase.
From S2P Require Import HandshakeInitiator HandshakeReceiver PeerPhase GameSession.
From S2P Require Import ToyGame ToyChannel HandshakeProperties SessionProperties ManagedSession.

Lemma related_weaken {A B} (R S : A -> B -> Prop) o o' :
  option_Forall2 R o o' -> (forall a b, R a b -> S a b) -> option_Forall2 S o o'.
Proof. destruct 1; constructor; auto. Qed.
Lemma related_Some {A B} (R : A -> B -> Prop) a o :
  option_Forall2 R (Some a) o -> exists b, o = Some b /\ R a b.
Proof. inversion 1; eauto. Qed.
Lemma related_None {A B} (R : A -> B -> Prop) o : option_Forall2 R None o -> o = None.
Proof. by inversion 1. Qed.

(** ** The claims of the watched coins through a snapshot *)
Section claims.
Context {order : HashOrder} {sha2 : Sha2} {bigint : BigInt} {clvm : Clvm} {bls : Bls}.
Context {GameNotification CoinSpendRequest C : Type}.
Abbreviation TM := (TransactionManager GameNotification CoinSpendRequest C).

(** A record tells another birthday of the coin than the one known. *)
Definition reborn (records : list CoinStateRecord) (coin : CoinString) (w : WatchedCoin) : bool :=
  existsb (fun rec => bool_decide (rec_coin rec = coin)
    && match created_height rec with
       | Some created => negb (bool_decide (birthday w = Some created))
       | None => false
       end) records.

Definition follows (records : list CoinStateRecord) (coin : CoinString) (w w' : WatchedCoin) : Prop :=
  timeout_claim_semantic w' = timeout_claim_semantic w
  /\ claim_submitted w' = claim_submitted w && negb (reborn records coin w).

Lemma elem_of_claim_semantics s w :
  s ∈ claim_semantics w <-> claim_submitted w = true /\ timeout_claim_semantic w = Some s.
Proof.
  unfold claim_semantics. destruct (claim_submitted w), (timeout_claim_semantic w) as [s'|]; cbn;
    rewrite ?list_elem_of_singleton, ?elem_of_nil; naive_solver.
Qed.

Lemma record_claims reorg present l rec :
  let l' := reconcile_record reorg present l rec in
  l_watched l' = match l_watched l !! rec_coin rec with
                 | Some w => <[rec_coin rec := (observe_spend rec (bool_decide (rec_coin rec ∈ present))
                                                  (observe_birthday rec w).1).1]> (l_watched l)
                 | None => l_watched l
                 end
  /\ rearmed_timeout_claims l' = rearmed_timeout_claims l
     ++ match l_watched l !! rec_coin rec with Some w => (observe_birthday rec w).2 | None => [] end.
Proof.
  unfold reconcile_record.
  destruct (reorg && _), (is_live rec); cbn; destruct (l_watched l !! rec_coin rec) as [w|]; cbn;
    rewrite ?app_nil_r; try done.
  all: destruct (observe_birthday rec w) as [wb r]; cbn; by destruct (observe_spend rec _ wb).
Qed.

(** One record of the coin itself. *)
Lemma observe_claims rec records was_present w :
  let w' := (observe_spend rec was_present (observe_birthday rec w).1).1 in
  follows [rec] (rec_coin rec) w w'
  /\ (observe_birthday rec w).2 = (if reborn [rec] (rec_coin rec) w then claim_semantics w else [])
  /\ (reborn [rec] (rec_coin rec) w = false ->
      reborn records (rec_coin rec) w' = reborn records (rec_coin rec) w).
Proof.
  unfold follows. cbn. rewrite bool_decide_eq_true_2 by done. cbn. rewrite orb_false_r.
  unfold observe_birthday, observe_spend.
  destruct (created_height rec) as [created|]; [case_bool_decide as Hb|]; cbn.
  all: destruct (spent_height rec); cbn; rewrite ?andb_true_r, ?andb_false_r; by split_and!.
Qed.

Lemma reborn_cons rec records coin w :
  reborn (rec :: records) coin w = reborn [rec] coin w || reborn records coin w.
Proof. unfold reborn. cbn. by rewrite orb_false_r. Qed.
Lemma reborn_other rec coin w : coin <> rec_coin rec -> reborn [rec] coin w = false.
Proof. intros Hne. unfold reborn. cbn. by rewrite bool_decide_eq_false_2. Qed.

Lemma records_claims reorg present l records :
  let l' := reconcile_records reorg present l records in
  (forall coin, option_Forall2 (follows records coin) (l_watched l !! coin) (l_watched l' !! coin))
  /\ (forall s, s ∈ rearmed_timeout_claims l' <-> s ∈ rearmed_timeout_claims l
        \/ exists coin w, l_watched l !! coin = Some w /\ s ∈ claim_semantics w
           /\ reborn records coin w = true).
Proof.
  unfold reconcile_records. cbn. revert l. induction records as [|rec records IH]; intros l; cbn [fold_left].
  { split; [|naive_solver]. intros coin. destruct (l_watched l !! coin) as [w|]; constructor.
    split; [done|]. cbn. by rewrite andb_true_r. }
  destruct (record_claims reorg present l rec) as [Hw Hr].
  set (l1 := reconcile_record reorg present l rec) in *. destruct (IH l1) as [IHw IHr]. clear IH.
  set (c := rec_coin rec) in *. destruct (l_watched l !! c) as [w0|] eqn:Hc.
  2: { rewrite Hw in IHw, IHr. rewrite app_nil_r in Hr. rewrite Hr in IHr. split.
    - intros coin. specialize (IHw coin). destruct (decide (coin = c)) as [->|Hne].
      + rewrite Hc in *. inversion IHw. constructor.
      + apply (related_weaken _ _ _ _ IHw). intros w w' [H1 H2]. split; [done|].
        by rewrite (reborn_cons rec records), reborn_other.
    - intros s. rewrite IHr. f_equiv. split; intros (coin & w & Hin & Hs & Hre); exists coin, w;
        (split_and!; [done..|]); assert (coin <> c) by congruence;
        rewrite (reborn_cons rec records), reborn_other in *; done. }
  set (w1 := (observe_spend rec _ _).1) in *.
  destruct (observe_claims rec records (bool_decide (c ∈ present)) w0) as ([Hsem Hclaim] & Hrearm & Hsame).
  fold c w1 in Hsem, Hclaim, Hrearm, Hsame. rewrite Hw in IHw, IHr. rewrite Hr, Hrearm in IHr. split.
  - intros coin. specialize (IHw coin). destruct (decide (coin = c)) as [->|Hne].
    + rewrite lookup_insert_eq in IHw. rewrite Hc.
      apply related_Some in IHw as (w' & -> & H1 & H2). constructor. split; [congruence|]. rewrite H2, Hclaim, (reborn_cons rec records).
      destruct (claim_submitted w0), (reborn [rec] c w0) eqn:Hb; cbn [andb negb orb]; try done. by rewrite Hsame.
    + rewrite lookup_insert_ne in IHw by done. apply (related_weaken _ _ _ _ IHw).
      intros w w' [H1 H2]. split; [done|]. by rewrite (reborn_cons rec records), reborn_other.
  - intros s. rewrite IHr, elem_of_app. split.
    + intros [[?|Hin]|(coin & w & Hin & Hs & Hre)]; [by left| |].
      * destruct (reborn [rec] c w0) eqn:Hb; [|by apply not_elem_of_nil in Hin].
        right. exists c, w0. split_and!; [done..|]. by rewrite (reborn_cons rec records), Hb.
      * right. destruct (decide (coin = c)) as [->|Hne].
        -- rewrite lookup_insert_eq in Hin. injection Hin as <-. exists c, w0.
           apply elem_of_claim_semantics in Hs as [Hs1 Hs2]. rewrite Hclaim in Hs1. rewrite Hsem in Hs2.
           apply andb_prop in Hs1 as [Hs1 Hb%negb_true_iff]. split_and!; [done| |].
           ++ by apply elem_of_claim_semantics.
           ++ by rewrite (reborn_cons rec records), Hb, <-Hsame.
        -- rewrite lookup_insert_ne in Hin by done. exists coin, w. split_and!; [done..|].
           by rewrite (reborn_cons rec records), Hre, orb_true_r.
    + intros [?|(coin & w & Hin & Hs & Hre)]; [by do 2 left|]. destruct (decide (coin = c)) as [->|Hne].
      * assert (w = w0) as -> by congruence. rewrite (reborn_cons rec records) in Hre.
        destruct (reborn [rec] c w0) eqn:Hb; [left; by right|]. right. exists c, w1.
        rewrite lookup_insert_eq. split_and!; [done| |by rewrite Hsame].
        apply elem_of_claim_semantics in Hs as [Hs1 Hs2]. apply elem_of_claim_semantics.
        by rewrite Hclaim, Hsem, Hs1, Hs2.
      * right. exists coin, w. rewrite lookup_insert_ne by done. split_and!; [done..|].
        by rewrite (reborn_cons rec records), reborn_other in Hre.
Qed.

(** The loop over the coins that left the live set touches no claim. *)
Lemma confirm_claims height (deleted : gset CoinString) (ws : gmap CoinString WatchedCoin) coin :
  option_Forall2 (fun w w' => timeout_claim_semantic w' = timeout_claim_semantic w
                              /\ claim_submitted w' = claim_submitted w)
    (ws !! coin) (confirm_deleted height deleted ws !! coin).
Proof.
  unfold confirm_deleted. generalize (hs_iter deleted). intros l. revert ws.
  induction l as [|c l IH]; intros ws; cbn.
  { destruct (ws !! coin); by constructor. }
  specialize (IH (alter (confirm_spend height) c ws)). destruct (decide (coin = c)) as [->|Hne].
  - rewrite lookup_alter_eq in IH. destruct (ws !! c) as [w|]; cbn in IH; [|exact IH].
    apply related_Some in IH as (w' & -> & H1 & H2). constructor. rewrite H1, H2. unfold confirm_spend.
    by destruct (spent_confirmed_at w).
  - by rewrite lookup_alter_ne in IH.
Qed.

(** What a snapshot of a chain that goes forward leaves to evaluate. *)
Lemma snapshot_claims height records (m m2 : TM) rearmed observations :
  reconcile_snapshot height records false [] m = (m2, rearmed, observations) ->
  cradle m2 = cradle m
  /\ timeout_claim_status_reconciled m2 = timeout_claim_status_reconciled m
  /\ (forall coin, option_Forall2 (follows records coin) (watched_coins m !! coin) (watched_coins m2 !! coin))
  /\ (forall s, s ∈ rearmed <-> exists coin w, watched_coins m !! coin = Some w
        /\ s ∈ claim_semantics w /\ reborn records coin w = true).
Proof.
  unfold reconcile_snapshot. cbn [created_deleted].
  pose proof (records_claims false (present_coins m)
    (mkRecordLocals (vanished_coins m) (watched_coins m) ∅ [] []) records) as [Hw Hr].
  set (l := reconcile_records _ _ _ _) in *. cbn in Hw, Hr.
  intros [= <- <- _]. cbn. split_and!; [done|done| |].
  - intros coin. specialize (Hw coin). pose proof (confirm_claims height
      ((present_coins m ∖ present_now l) ∖ l_vanished l ∪ list_to_set (first_seen_spent l))
      (l_watched l) coin) as Hc.
    destruct Hw as [w w' [H1 H2]|]; [|rewrite (related_None _ _ Hc); constructor].
    apply related_Some in Hc as (w2 & -> & H3 & H4). constructor. by split; [rewrite H3|rewrite H4].
  - intros s. rewrite Hr. split; [intros [?%not_elem_of_nil|?]; done|by right].
Qed.

(** The claims of the state a snapshot leaves, before and after the evictions. *)
Lemma marked_claims height w :
  timeout_claim_semantic (mark_claimed height w) = timeout_claim_semantic w
  /\ spent_confirmed_at (mark_claimed height w) = spent_confirmed_at w.
Proof. unfold mark_claimed. by destruct (due_claim height w). Qed.
Lemma due_claim_Some height w claim :
  due_claim height w = Some claim ->
  claim_submitted w = false /\ spent_confirmed_at w = None /\ claim.2 = timeout_claim_semantic w.
Proof.
  unfold due_claim. destruct (ripe height w && _ && _) eqn:H; [|done].
  apply andb_prop in H as [[_ Hc%negb_true_iff]%andb_prop Hs%bool_decide_eq_true].
  destruct (timeout_spend w); [|done]. by intros [= <-].
Qed.
End claims.

(** ** The session, called by the manager *)
Section program.
Context {arch : Arch} {sha2 : Sha2} {bigint : BigInt} {clvm : Clvm} {bls : Bls}.
Context {puzzles : ChiaPuzzles} {order : HashOrder} {codec : PeerCodec} {singleton : LauncherPuzzle}.
Context {settlement : SettlementPuzzle} {encoder : PeerEncoder}.
Abbreviation Managed := (TransactionManager GameNotification CoinSpendRequest GameSession).

(** *** The height and the two flags of the channel's creation

    Only the block handlers and the expiry test write them. *)
Definition clock (st : GameSessionState) : N * bool * bool :=
  (current_height st, channel_established st, channel_expired st).
Section clock.
Variable now : N * bool * bool.
Definition at_time (s : GameSession) : Prop := clock (state s) = now.
Notation timed := at_time.
Definition untimed (f : GameSessionState -> GameSessionState) : Prop := forall st, clock (f st) = clock st.

Lemma timed_peer {A} (op : eff Peer A) : preserves timed (on_peer op).
Proof. intros s Hs. unfold on_peer, on_part. by destruct (op (peer s)). Qed.
Lemma timed_update f : untimed f -> preserves timed (update_state f).
Proof. intros Hf s Hs. unfold at_time in *. cbn. by rewrite Hf. Qed.
Lemma untimed_note e snap : untimed (fun st => push e (note_status snap st)).
Proof. intros st. unfold note_status. by destruct (snap_state snap), (is_on_chain st). Qed.
Hint Resolve timed_peer timed_update : chia.
Hint Extern 1 (untimed _) => first [by apply untimed_note|intros ?; reflexivity] : chia.

Lemma timed_emit : preserves timed emit_channel_status_if_changed.
Proof. walk_through. Qed.
Lemma timed_push_event e : preserves timed (push_event e).
Proof. by apply timed_update. Qed.
Hint Resolve timed_emit timed_push_event : chia.
Lemma timed_detect : preserves timed detect_phase_transition.
Proof. walk_through. Qed.
Lemma timed_abandoned : preserves timed mark_abandoned.
Proof. walk_through. Qed.
Hint Resolve timed_detect timed_abandoned : chia.

Definition st_timed (st : GameSessionState) : Prop := clock st = now.
Lemma timed_state {A} (op : eff GameSessionState A) : preserves st_timed op -> preserves timed (on_state op).
Proof.
  intros H s Hs. unfold on_state, on_part. specialize (H (state s) Hs). by destruct (op (state s)).
Qed.
Lemma st_timed_modify f : untimed f -> preserves st_timed (modify_state f).
Proof. intros Hf st Hst. unfold st_timed in *. cbn. by rewrite Hf. Qed.
Hint Resolve timed_state st_timed_modify : chia.
Lemma st_timed_send msg : preserves st_timed (send_message msg).
Proof. walk_through. Qed.
Lemma st_timed_spend b expiry : preserves st_timed (spend_transaction_and_add_fee b expiry).
Proof. apply st_timed_modify. intros st. by destruct expiry. Qed.
Hint Resolve st_timed_send st_timed_spend : chia.
Lemma st_timed_apply e : preserves st_timed (apply_effect e).
Proof.
  destruct e; cbn [apply_effect session_effects sys_notification sys_log sys_send_message
    sys_spend_transaction_and_add_fee sys_register_coin sys_request_puzzle_and_solution
    sys_channel_puzzle_hash sys_received_channel_offer]; unfold register_coin; eauto with chia.
Qed.
Hint Resolve st_timed_apply : chia.
Lemma st_timed_apply_all es : preserves st_timed (apply_effects es).
Proof. induction es; walk_through. Qed.
Lemma st_timed_intercept es : preserves st_timed (intercept_effects es).
Proof. induction es as [|e es IH]; walk_through; eauto. Qed.
Hint Resolve st_timed_apply_all st_timed_intercept : chia.

Section calls.
Context (env : ChannelEnv) (process : list Effect -> eff GameSession unit).
Hypothesis process_timed : forall es, preserves timed (process es).
Hint Resolve process_timed : chia.
Lemma timed_go_on_chain got_error : preserves timed (go_on_chain_with env process got_error).
Proof. walk_through. Qed.
Hint Resolve timed_go_on_chain : chia.
Lemma timed_protocol_error : preserves timed (handle_peer_protocol_error env process).
Proof. walk_through. Qed.
Lemma timed_create ph : preserves timed (create_partial_spend_for_channel_coin env process ph).
Proof. walk_through. Qed.
Lemma timed_respond b : preserves timed (respond_to_unfunded_offer env process b).
Proof. walk_through. Qed.
Hint Resolve timed_protocol_error timed_create timed_respond : chia.
Lemma timed_funding : preserves timed (settle_funding env process).
Proof. walk_through. Qed.
Lemma timed_loop exhausted fuel waiting next :
  preserves timed (queue_loop env exhausted process fuel waiting next).
Proof. induction fuel; walk_through. Qed.
Hint Resolve timed_funding timed_loop : chia.
Lemma timed_process_with exhausted fuel es :
  preserves timed (process_effects_with env exhausted process fuel es).
Proof. walk_through. Qed.
End calls.
Hint Resolve timed_process_with : chia.
Lemma timed_process env exhausted fuel es : preserves timed (process_effects env exhausted fuel es).
Proof. revert es. induction fuel; intros es; [walk_through|]. cbn [process_effects]. eauto with chia. Qed.
Hint Resolve timed_process : chia.
Lemma timed_with_effects env x fuel op : preserves timed (with_effects env x fuel op).
Proof. walk_through. Qed.
Hint Resolve timed_with_effects : chia.
Lemma timed_observe env x fuel observations : preserves timed (observe_all env x fuel observations).
Proof. induction observations; walk_through. Qed.
End clock.

(** What a new block does to a session that goes on. *)
Lemma expiry_checked height observations s s' :
  check_channel_creation_expiry height observations s = (Ok tt, s') ->
  peer s' = peer s /\ current_height (state s') = current_height (state s)
  /\ channel_creation_expiry (state s') = channel_creation_expiry (state s)
  /\ let seen := exists ch, peer_channel_state (peer s') = Ok ch /\ Created (channel_coin ch) ∈ observations in
     let late := exists e, channel_creation_expiry (state s') = Some e /\ (e <= height)%N in
     let pending := channel_expired (state s) = false /\ channel_established (state s) = false in
     (channel_established (state s') = true <-> channel_established (state s) = true \/ (pending /\ seen))
     /\ (channel_expired (state s') = true <-> channel_expired (state s) = true \/ (pending /\ ~ seen /\ late)).
Proof.
  unfold check_channel_creation_expiry. intros (? & ? & [= <- <-] & H)%eff_bind_Ok.
  destruct (channel_expired (state s)) eqn:Hx; [injection H as <-; naive_solver|].
  destruct (channel_established (state s)) eqn:Hest; [injection H as <-; naive_solver|]. cbn [orb] in H.
  set (established := match peer_channel_state (peer s) with Ok _ => _ | Err _ => _ end) in H.
  assert (established = true <-> exists ch, peer_channel_state (peer s) = Ok ch
    /\ Created (channel_coin ch) ∈ observations) as Hseen.
  { subst established. destruct (peer_channel_state (peer s)) as [ch|e]; [|naive_solver].
    rewrite existsb_exists. setoid_rewrite <-list_elem_of_In. split.
    - intros (o & Ho & Heq). destruct o as [c|c]; [|done]. apply bool_decide_eq_true in Heq as ->. eauto.
    - intros (ch' & [= <-] & Ho). exists (Created (channel_coin ch)). split; [done|]. by apply bool_decide_eq_true. }
  destruct established.
  { injection H as <-. cbn. rewrite Hx. naive_solver. }
  destruct (channel_creation_expiry (state s)) as [e|] eqn:He; [|injection H as <-; rewrite Hx, Hest, He; naive_solver].
  destruct (N.ltb_spec height e).
  - injection H as <-. rewrite Hx, Hest, He. do 3 (split; [done|]). cbv zeta. split; [naive_solver|].
    split; [done|]. intros [?|(_ & _ & e' & [= <-] & ?)]; [done|lia].
  - apply eff_bind_Ok in H as ([] & ? & [= <-] & [= <-]). cbn. rewrite Hest, He.
    split_and!; try done; naive_solver.
Qed.

Section host.
Context (env : ChannelEnv) (x : Error) (fuel : nat).
Abbreviation managed := (session_managed env x fuel).

Lemma new_block_Ok height observations s s' :
  session_new_block env x fuel height observations s = (Ok tt, s') ->
  if bool_decide (is_Some (session_disposition (state s))) then s' = s
  else current_height (state s') = height
    /\ let seen := exists ch, peer_channel_state (peer s') = Ok ch /\ Created (channel_coin ch) ∈ observations in
       let late := exists e, channel_creation_expiry (state s') = Some e /\ (e <= height)%N in
       let pending := channel_expired (state s) = false /\ channel_established (state s) = false in
       (channel_established (state s') = true <-> channel_established (state s) = true \/ (pending /\ seen))
       /\ (channel_expired (state s') = true <-> channel_expired (state s) = true \/ (pending /\ ~ seen /\ late)).
Proof.
  unfold session_new_block. intros (? & ? & [= <- <-] & H)%eff_bind_Ok.
  case_bool_decide; [by injection H as <-|]. apply eff_bind_Ok in H as ([] & s1 & [= <-] & H).
  match type of H with _ ?s0 = _ => set (s1 := s0) in H end. set (now := (height, channel_established (state s), channel_expired (state s))).
  apply eff_bind_Ok in H as ([] & s2 & Hobs & H).
  assert (at_time now s2) as H2
    by (pose proof (timed_observe now env x fuel observations s1 eq_refl) as Ht; by rewrite Hobs in Ht).
  apply eff_bind_Ok in H as (? & ? & [= <- <-] & H). apply eff_bind_Ok in H as ([] & s3 & Hblock & H).
  assert (at_time now s3) as H3.
  { match type of Hblock with with_effects _ _ _ ?op _ = _ =>
      pose proof (timed_with_effects now env x fuel op s2 H2) as Ht end. by rewrite Hblock in Ht. }
  injection H3 as Hh He Hx. apply expiry_checked in H as (_ & Hh' & _ & Hcheck).
  cbv zeta in Hcheck. rewrite He, Hx in Hcheck. rewrite Hh', Hh. by split.
Qed.

(** The calls of a run, all of which succeed. *)
Fixpoint host_calls (cs : list HostCall) : eff GameSession unit :=
  match cs with [] => mret tt | c :: cs => _ ← host_call env x fuel c; host_calls cs end.

Lemma host_calls_app cs1 cs2 s s' :
  host_calls (cs1 ++ cs2) s = (Ok tt, s')
  <-> exists s1, host_calls cs1 s = (Ok tt, s1) /\ host_calls cs2 s1 = (Ok tt, s').
Proof.
  revert s. induction cs1 as [|c cs1 IH]; intros s; cbn.
  { split; [by exists s|]. by intros (? & [= <-] & ?). }
  rewrite eff_bind_Ok. setoid_rewrite eff_bind_Ok. setoid_rewrite IH. naive_solver.
Qed.

Lemma rearms_called rearmed reported (m m' : Managed) :
  rearm_loop (session := managed) rearmed reported m = (Ok tt, m') ->
  exists told, NoDup told /\ (forall s, s ∈ told <-> s ∈ rearmed /\ s ∉ reported)
    /\ host_calls (TimeoutClaim false <$> told) (cradle m) = (Ok tt, cradle m')
    /\ m' = m <| cradle := cradle m' |>.
Proof.
  revert reported m. induction rearmed as [|semantic rearmed IH]; intros reported m; cbn [rearm_loop].
  { intros [= <-]. exists []. split_and!; [constructor|set_solver|done|by destruct m]. }
  case_bool_decide as Hin.
  { intros (told & Hnd & Htold & Hcalls & Hm)%IH. exists told. split_and!; [done| |done..].
    intros s. rewrite Htold, elem_of_cons. naive_solver. }
  intros ([] & m1 & (c & Hc & ->)%on_cradle_Ok & H)%eff_bind_Ok.
  apply IH in H as (told & Hnd & Htold & Hcalls & Hm). cbn in Hcalls, Hm. exists (semantic :: told). split_and!.
  - apply NoDup_cons. split; [|done]. rewrite Htold. set_solver.
  - intros s. rewrite !elem_of_cons, Htold, elem_of_app. destruct (decide (s = semantic)); set_solver.
  - cbn. apply eff_bind_Ok. exists tt, c. by split.
  - rewrite Hm. by destruct m.
Qed.

Lemma submitted_called semantics (m m' : Managed) :
  notify_submitted (session := managed) semantics m = (Ok tt, m') ->
  host_calls (TimeoutClaim true <$> semantics) (cradle m) = (Ok tt, cradle m')
  /\ m' = m <| cradle := cradle m' |>.
Proof.
  revert m. induction semantics as [|semantic semantics IH]; intros m; cbn [notify_submitted].
  { intros [= <-]. split; [done|by destruct m]. }
  intros ([] & m1 & (c & Hc & ->)%on_cradle_Ok & [Hcalls Hm]%IH)%eff_bind_Ok. cbn in Hcalls, Hm. split.
  - cbn. apply eff_bind_Ok. exists tt, c. by split.
  - rewrite Hm. by destruct m.
Qed.

Lemma claims_called claims (m m' : Managed) :
  submit_loop (session := managed) claims m = (Ok tt, m') ->
  host_calls (TimeoutClaim true <$> omap snd claims) (cradle m) = (Ok tt, cradle m')
  /\ watched_coins m' = watched_coins m.
Proof.
  revert m. induction claims as [|[spend [semantic|]] claims IH]; intros m; cbn [submit_loop].
  { by intros [= <-]. }
  all: intros (u & m1 & Hu & H)%eff_bind_Ok; apply eff_bind_Ok in H as (? & m2 & [= _ <-] & [Hcalls Hw]%IH).
  - destruct u. apply on_cradle_Ok in Hu as (c & Hc & ->). cbn in Hcalls, Hw. split; [|exact Hw].
    cbn. apply eff_bind_Ok. exists tt, c. by split.
  - injection Hu as _ <-. by split.
Qed.
End host.

(** *** The claims reported as submitted *)
Definition reported_claims (height : N) (m : Managed) : list TimeoutClaimSemantic :=
  (if timeout_claim_status_reconciled m then []
   else omap timeout_claim_semantic
          (retain (fun w => claim_submitted w && bool_decide (spent_confirmed_at w = None))
             (hm_iter (watched_coins m)).*2))
  ++ omap snd (due_claims height m).

Lemma claims_pass env x fuel rearmed height (m m' : Managed) :
  (_ ← report_timeout_claim_rearms (session := session_managed env x fuel) rearmed;
   _ ← reconcile_timeout_claim_status (session := session_managed env x fuel);
   evaluate_mature_timeout_claims (session := session_managed env x fuel) height) m = (Ok tt, m') ->
  exists told, NoDup told /\ (forall s, s ∈ told <-> s ∈ rearmed)
  /\ host_calls env x fuel ((TimeoutClaim false <$> told) ++ (TimeoutClaim true <$> reported_claims height m))
       (cradle m) = (Ok tt, cradle m')
  /\ watched_coins m' = watched_coins (claim_marked height m).
Proof.
  intros ([] & m1 & H1 & H)%eff_bind_Ok. apply eff_bind_Ok in H as ([] & m2 & H2 & H3).
  apply rearms_called in H1 as (told & Hnd & Htold & Hcalls1 & Hm1). exists told. split; [done|].
  split; [intros s; rewrite Htold; set_solver|]. set (reported := reported_claims height m).
  assert (exists statuses, reported = statuses ++ omap snd (due_claims height m)
    /\ host_calls env x fuel (TimeoutClaim true <$> statuses) (cradle m1) = (Ok tt, cradle m2)
    /\ watched_coins m2 = watched_coins m) as (statuses & -> & Hcalls2 & Hw2).
  { eexists. split; [reflexivity|]. unfold reconcile_timeout_claim_status in H2.
    apply eff_bind_Ok in H2 as (? & ? & [= <- <-] & H2). rewrite Hm1 in H2. cbn in H2.
    destruct (timeout_claim_status_reconciled m); [injection H2 as <-; by rewrite Hm1|].
    apply eff_bind_Ok in H2 as ([] & m3 & [Hcalls Hm3]%submitted_called & [= <-]). split; [exact Hcalls|].
    by rewrite Hm3. }
  rewrite evaluate_claims in H3. apply claims_called in H3 as [Hcalls3 Hw3].
  unfold due_claims, claim_marked in Hcalls3, Hw3 |- *. rewrite Hw2 in Hcalls3, Hw3. split; [|exact Hw3].
  rewrite fmap_app. apply host_calls_app. exists (cradle m1). split; [done|].
  apply host_calls_app. by exists (cradle m2).
Qed.

(** They are the claims, submitted and not known spent, of the coins the
    manager goes on watching, without those it had reported before. *)
Lemma reported_spec height records (m m2 m3 : Managed) :
  timeout_claim_status_reconciled m2 = timeout_claim_status_reconciled m ->
  (forall coin, option_Forall2 (follows records coin) (watched_coins m !! coin) (watched_coins m2 !! coin)) ->
  watched_coins m3 = watched_coins (claim_marked height m2) ->
  forall s, s ∈ reported_claims height m2 <-> exists coin w',
    watched_coins (evict_confirmed_spends height m3) !! coin = Some w'
    /\ claim_submitted w' = true /\ spent_confirmed_at w' = None /\ timeout_claim_semantic w' = Some s
    /\ (timeout_claim_status_reconciled m = false \/ exists w, watched_coins m !! coin = Some w
        /\ (claim_submitted w = false \/ reborn records coin w = true)).
Proof.
  intros Hrec Hfollows Hw3 s. unfold reported_claims. rewrite elem_of_app, Hrec.
  assert (forall coin w', spent_confirmed_at w' = None ->
    watched_coins (evict_confirmed_spends height m3) !! coin = Some w'
    <-> exists w2, watched_coins m2 !! coin = Some w2 /\ mark_claimed height w2 = w') as Hwatched.
  { intros coin w' Hs. unfold evict_confirmed_spends.
    match goal with |- context [fold_left evict_coin ?l ?m0] =>
      destruct (evict_coins_spec l m0) as (-> & _) end. cbn. rewrite lookup_hm_retain, Hw3. cbn.
    rewrite map_lookup_imap. unfold buried. split.
    - intros [H _]. destruct (watched_coins m2 !! coin) as [w2|]; [|done]. cbn in H. simplify_eq. eauto.
    - intros (w2 & -> & <-). cbn. by rewrite Hs. }
  split.
  - intros [Hin|Hin].
    + destruct (timeout_claim_status_reconciled m) eqn:Hflag; [by apply not_elem_of_nil in Hin|].
      apply list_elem_of_omap in Hin as (w2 & [Hin [Hc Hs%bool_decide_eq_true]%andb_prop]%elem_of_retain & Hsem).
      apply list_elem_of_fmap in Hin as ([coin w] & -> & Hin%elem_of_hm_iter). cbn in *.
      exists coin, w. assert (mark_claimed height w = w) as Hmark.
      { apply mark_claimed_not_due. destruct (due_claim height w) eqn:Hd; [|done].
        apply due_claim_Some in Hd as (? & _). congruence. }
      split_and!; [apply Hwatched; eauto|done..|by left].
    + apply list_elem_of_omap in Hin as (claim & Hin & Hs).
      apply list_elem_of_omap in Hin as ([coin w2] & Hin%elem_of_hm_iter & Hdue). cbn in Hdue.
      destruct (due_claim_Some _ _ _ Hdue) as (Hc & Hspent & Hclaim).
      destruct (marked_claims height w2) as [Hsem' Hspent'].
      exists coin, (mark_claimed height w2). split_and!.
      * apply Hwatched; [congruence|eauto].
      * unfold mark_claimed. by rewrite Hdue.
      * congruence.
      * congruence.
      * right. specialize (Hfollows coin). rewrite Hin in Hfollows.
        destruct (watched_coins m !! coin) as [w|]; [|by apply related_None in Hfollows].
        apply related_Some in Hfollows as (? & [= <-] & _ & Hf). exists w. split; [done|].
        rewrite Hc in Hf. destruct (claim_submitted w); [right|by left].
        by destruct (reborn records coin w).
  - intros (coin & w' & Hin & Hc & Hspent & Hsem & Hnew). apply Hwatched in Hin as (w2 & Hw2 & <-); [|done].
    destruct (marked_claims height w2) as [Hsem' Hspent']. rewrite Hsem' in Hsem. rewrite Hspent' in Hspent.
    destruct (due_claim height w2) as [claim|] eqn:Hdue.
    + right. apply list_elem_of_omap. exists claim. destruct (due_claim_Some _ _ _ Hdue) as (_ & _ & Heq).
      split; [|congruence]. apply list_elem_of_omap. exists (coin, w2). by rewrite elem_of_hm_iter.
    + left. rewrite mark_claimed_not_due in Hc by done.
      specialize (Hfollows coin). rewrite Hw2 in Hfollows.
      destruct (watched_coins m !! coin) as [w|]; [|by apply related_None in Hfollows].
      apply related_Some in Hfollows as (? & [= <-] & _ & Hf).
      assert (timeout_claim_status_reconciled m = false) as ->.
      { destruct Hnew as [?|(? & [= <-] & Hnew)]; [done|]. rewrite Hc in Hf. symmetry in Hf.
        apply andb_prop in Hf as [Hf1 Hf2%negb_true_iff]. destruct Hnew; congruence. }
      apply list_elem_of_omap. exists w2. split; [|done]. apply elem_of_retain.
      split; [|by rewrite Hc, bool_decide_eq_true_2]. apply list_elem_of_fmap. exists (coin, w2).
      by rewrite elem_of_hm_iter.
Qed.

(** Where the chain goes forward, the start of a rollback epoch does nothing. *)
Lemma forward_report env x fuel height records (m m' : Managed) :
  (last_snapshot_height m <= height)%N ->
  report_coin_states (session := session_managed env x fuel) height records m = (Ok tt, m') ->
  exists m1 m2 rearmed observations m3 c,
    (manager_wf m -> manager_wf m1) /\ cradle m1 = cradle m /\ watched_coins m1 = watched_coins m
    /\ present_coins m1 = present_coins m
    /\ timeout_claim_status_reconciled m1 = timeout_claim_status_reconciled m
    /\ reconcile_snapshot height records false [] m1 = (m2, rearmed, observations)
    /\ (_ ← report_timeout_claim_rearms (session := session_managed env x fuel) rearmed;
        _ ← reconcile_timeout_claim_status (session := session_managed env x fuel);
        evaluate_mature_timeout_claims (session := session_managed env x fuel) height) m2 = (Ok tt, m3)
    /\ session_new_block env x fuel height observations (cradle m3) = (Ok tt, c)
    /\ m' = evict_confirmed_spends height (m3 <| cradle := c |>).
Proof.
  intros Hforward (rearmed0 & m1 & m2 & rearmed & observations & m3 & c & Hmax & Hinv & Hrec & Hclaims & Hobs & ->)%report_coin_states_Ok.
  assert ((height <? last_snapshot_height m)%N = false) as Hlt by (by apply N.ltb_ge). rewrite Hlt in Hinv, Hrec.
  unfold invalidate_timeout_claims_for_rollback_epoch, get_state, modify_state, mret, eff_ret, mbind, eff_bind in Hinv.
  cbn in Hinv. injection Hinv as <- <-. cbn [default from_option] in Hrec.
  eexists _, m2, rearmed, observations, m3, c. split; [|split_and!; [..|exact Hrec|exact Hclaims|exact Hobs|done]].
  - intros []. destruct (timeout_rollback_height m) as [h|]; [destruct (h <? height)%N|]; by split.
  - destruct (timeout_rollback_height m) as [h|]; [by destruct (h <? height)%N|done].
  - destruct (timeout_rollback_height m) as [h|]; [by destruct (h <? height)%N|done].
  - destruct (timeout_rollback_height m) as [h|]; [by destruct (h <? height)%N|done].
  - destruct (timeout_rollback_height m) as [h|]; [by destruct (h <? height)%N|done].
Qed.

(** C10: the session learns what the chain shows.  A snapshot of a chain that
    goes forward, accepted by the manager around a session, reaches the session as
    these calls, all of which succeed and between which nothing happens to it:
    first the claims the manager takes back, each once, those submitted for coins
    that are reported with another birthday; then the claims it submits or had
    submitted without saying so, of coins it goes on watching whose spend is not
    known; last the new block, with the coins that are live now and were not before,
    those that were live and no longer are, and both for a watched coin first seen
    spent.  A session that is over ignores the block; another takes its height, notes
    the channel as established when its coin is among the created ones, and as expired
    when it is not and the height has reached the expiry, unless it had noted one of
    the two before. *)
Theorem snapshot_reaches_session env x fuel height records (m m' : Managed)
    (Hwf : manager_wf m) (Hforward : (last_snapshot_height m <= height)%N)
    (Hrun : report_coin_states (session := session_managed env x fuel) height records m = (Ok tt, m')) :
  exists rearmed claimed created deleted s,
    host_calls env x fuel ((TimeoutClaim false <$> rearmed) ++ (TimeoutClaim true <$> claimed)) (cradle m) = (Ok tt, s)
    /\ host_call env x fuel (NewBlock height ((Created <$> created) ++ (Spent <$> deleted))) s = (Ok tt, cradle m')
    /\ NoDup rearmed /\ NoDup created /\ NoDup deleted
    /\ (forall semantic, semantic ∈ rearmed <-> exists coin w, watched_coins m !! coin = Some w
          /\ claim_submitted w = true /\ timeout_claim_semantic w = Some semantic
          /\ reborn records coin w = true)
    /\ (forall semantic, semantic ∈ claimed <-> exists coin w', watched_coins m' !! coin = Some w'
          /\ claim_submitted w' = true /\ spent_confirmed_at w' = None /\ timeout_claim_semantic w' = Some semantic
          /\ (timeout_claim_status_reconciled m = false \/ exists w, watched_coins m !! coin = Some w
              /\ (claim_submitted w = false \/ reborn records coin w = true)))
    /\ (forall coin, coin ∈ created <->
          (live_in records coin /\ coin ∉ present_coins m) \/ first_spend_in m records coin)
    /\ (forall coin, coin ∈ deleted <->
          (coin ∈ present_coins m /\ ~ live_in records coin) \/ first_spend_in m records coin)
    /\ if bool_decide (is_Some (session_disposition (state s))) then cradle m' = s
       else current_height (state (cradle m')) = height
         /\ let seen := exists ch, peer_channel_state (peer (cradle m')) = Ok ch /\ channel_coin ch ∈ created in
            let late := exists e, channel_creation_expiry (state (cradle m')) = Some e /\ (e <= height)%N in
            let pending := channel_expired (state s) = false /\ channel_established (state s) = false in
            (channel_established (state (cradle m')) = true
             <-> channel_established (state s) = true \/ (pending /\ seen))
            /\ (channel_expired (state (cradle m')) = true
                <-> channel_expired (state s) = true \/ (pending /\ ~ seen /\ late)).
Proof.
  apply forward_report in Hrun as (m1 & m2 & rearmed & observations & m3 & c & Hwf1 & Hc1 & Hw1 & Hp1 & Hst1
    & Hrec & Hclaims & Hobs & ->); [|done].
  destruct (snapshot_observations height records m1 (Hwf1 Hwf)) as (created & deleted & Heq & Hnd1 & Hnd2 & Hcreated & Hdeleted).
  rewrite Hrec in Heq. cbn [snd] in Heq. subst observations.
  apply snapshot_claims in Hrec as (Hc2 & Hst2 & Hfollows & Hrearmed).
  apply claims_pass in Hclaims as (told & Hnd & Htold & Hcalls & Hw3).
  rewrite Hw1 in Hfollows, Hrearmed. rewrite Hst1 in Hst2. rewrite Hc2, Hc1 in Hcalls.
  assert (cradle (evict_confirmed_spends height (m3 <| cradle := c |>)) = c) as Hcradle
    by exact (proj1 (evict_frame height (m3 <| cradle := c |>))).
  exists told, (reported_claims height m2), created, deleted, (cradle m3). rewrite Hcradle.
  split; [exact Hcalls|]. split; [exact Hobs|]. do 3 (split; [done|]). split; [|split; [|split; [|split]]].
  - intros s. rewrite Htold, Hrearmed. setoid_rewrite elem_of_claim_semantics. naive_solver.
  - apply (reported_spec height records m m2); [exact Hst2|exact Hfollows|exact Hw3].
  - unfold first_spend_in in *. by rewrite <-Hw1, <-Hp1.
  - unfold first_spend_in in *. by rewrite <-Hw1, <-Hp1.
  - apply new_block_Ok in Hobs. case_bool_decide; [exact Hobs|]. destruct Hobs as [Hh Hobs]. split; [done|].
    cbv zeta in Hobs |- *. setoid_rewrite elem_of_app in Hobs. setoid_rewrite list_elem_of_fmap in Hobs.
    assert (forall ch, ((exists y, Created ch = Created y /\ y ∈ created)
      \/ exists y, Created ch = Spent y /\ y ∈ deleted) <-> ch ∈ created) as Hiff by naive_solver.
    by setoid_rewrite Hiff in Hobs.
Qed.
End program.

Module Witnesses.
Import Toy ToyGame ToyChannel HandshakeProperties.Witnesses SessionProperties.Witnesses.
Import ManagedSession.Witnesses.

(** The program of [ManagedSession.Witnesses] watches a coin whose timeout it
    will claim, and is shown that the coin exists. *)
Definition some_coin : CoinString := CoinString_from_parts CoinID_default PuzzleHash_default 7.
Definition watching : Managed :=
  absorb_event p2 (WatchCoin (to_coin_id some_coin) some_coin 2 (Some (mkSpendBundle None []))
                     (Some ChannelTimeoutFinish)).
Definition shown : list CoinStateRecord := [mkCoinStateRecord some_coin (Some 3%N) None].

Lemma watching_wf : manager_wf watching.
Proof.
  apply (manager_wf_absorb [WatchCoin (to_coin_id some_coin) some_coin 2 (Some (mkSpendBundle None []))
    (Some ChannelTimeoutFinish)] p2).
  apply (preserves_flush_and_collect (session := managed)). by split; try apply NoDup_nil; cbn.
Qed.

Abbreviation shown_run := (report_coin_states (session := managed) 7 shown watching).
Lemma shown_ok : is_ok shown_run.1 = true.
Proof. vm_compute. reflexivity. Qed.
Lemma shown_done : shown_run = (Ok tt, shown_run.2).
Proof. apply eff_run. pose proof shown_ok as H. by destruct shown_run.1 as [[]|]. Qed.

Lemma snapshot_reaches_session_witness :
  exists created, some_coin ∈ created /\ NoDup created.
Proof.
  destruct (snapshot_reaches_session env (StrErr "") 5 7 shown watching shown_run.2 watching_wf
    ltac:(vm_compute; discriminate) shown_done)
    as (rearmed & claimed & created & deleted & s & _ & _ & _ & Hnd & _ & _ & _ & Hcreated & _).
  exists created. split; [|done]. apply Hcreated. left. split.
  - exists (mkCoinStateRecord some_coin (Some 3%N) None). split; [left|split; reflexivity].
  - apply (bool_decide_unpack _). vm_compute. exact I.
Defined.
End Witnesses.
