(* ===== verification/Simulator.v ===== *)
(** * The full-node simulator

    [src/simulator/mod.rs]: a ledger of coins, a mempool of checked transactions
    and blocks that confirm them, as far as the program and its tests need of a
    chain.  The [RefCell] of the simulator is the state of its operations.  What
    a bundle of spends means is for [chia-consensus] to say: its validation is
    a parameter, and so is the record of constants it is handed. *)
From S2P Require Import Prelude Extern World Coins Clvm StandardCoin TransactionManager.

(** ** [common/constants.rs] *)
Definition AGG_SIG_ME_ADDITIONAL_DATA : Hash := mkHash
  [xcc; xd5; xbb; x71; x18; x35; x32; xbf; xf2; x20; xba; x46; xc2; x68; x99; x1a;
   x3f; xf0; x7e; xb3; x58; xe8; x25; x5a; x65; xc3; x0a; x2d; xce; x0e; x5f; xbb] eq_refl.

(** ** [chia_consensus] *)
Inductive ErrorCode : Type :=
| DuplicateOutput | BadAggregateSignature | InvalidCoinSolution | InvalidBlockSolution
| WrongPuzzleHash | MintingCoin | CostExceeded | InvalidCondition | InvalidPublicKey
| InvalidMessage | InvalidCoinAmount | ReserveFeeConditionFailed | AssertCoinAnnouncementFailed
| AssertPuzzleAnnouncementFailed | AssertHeightRelativeFailed | AssertHeightAbsoluteFailed
| AssertSecondsAbsoluteFailed | AssertSecondsRelativeFailed | AssertMyCoinIdFailed
| AssertMyPuzzleHashFailed | AssertMyAmountFailed | GeneratorRuntimeError | DoubleSpend
| OtherError (n : N).

Section protocol.
Context {sha2 : Sha2} {bigint : BigInt} {clvm : Clvm} {bls : Bls}.

(** [chia_protocol::{Coin, CoinSpend, SpendBundle}] *)
Record ProtocolCoin := mkProtocolCoin {
  parent_coin_info : Hash;
  protocol_puzzle_hash : Hash;
  protocol_amount : N;
}.
Record ProtocolCoinSpend := mkProtocolCoinSpend {
  protocol_coin : ProtocolCoin;
  puzzle_reveal : bytes;
  protocol_solution : bytes;
}.
Record ProtocolSpendBundle := mkProtocolSpendBundle {
  coin_spends : list ProtocolCoinSpend;
  aggregated_signature : Aggsig;
}.
(** The fields the simulator reads of [OwnedSpendBundleConditions]. *)
Record SpendConditions := mkSpendConditions {
  create_coin : list (Hash * N);
  height_relative : option N;
}.
Record BundleConditions := mkBundleConditions {
  validated_spends : list SpendConditions;
  reserve_fee : N;
  before_height_absolute : option N;
  removal_amount : N;
  addition_amount : N;
}.

Definition protocol_coin_id (c : ProtocolCoin) : CoinID :=
  to_coin_id (CoinString_from_parts (mkCoinID (parent_coin_info c))
                (mkPuzzleHash (protocol_puzzle_hash c)) (protocol_amount c)).
End protocol.

(** [validate_clvm_and_signature] with the constants of the simulator, at the
    flags of a height: no coin is spent twice in a bundle ([DoubleSpend]), and
    outputs and fee come out of the inputs ([MintingCoin],
    [ReserveFeeConditionFailed]). *)
Class Consensus `{Sha2, BigInt, Clvm, Bls} := {
  error_number : ErrorCode -> N;
  flags_for_height : N -> N;
  validate_clvm_and_signature : ProtocolSpendBundle -> N -> result ErrorCode BundleConditions;
  validated_distinct : forall b flags v, validate_clvm_and_signature b flags = Ok v ->
    NoDup (protocol_coin_id ∘ protocol_coin <$> coin_spends b);
  validated_amounts : forall b flags v, validate_clvm_and_signature b flags = Ok v ->
    (addition_amount v + reserve_fee v <= removal_amount v)%N;
}.

Section simulator.
Context {order : HashOrder} {sha2 : Sha2} {bigint : BigInt} {clvm : Clvm} {bls : Bls}.
Context {consensus : Consensus}.

(** ** Data *)
Record IncludeTransactionResult := mkIncluded {
  code : N;
  include_error : option N;
  diagnostic : string;
}.

Definition POOL_REWARD_AMOUNT : N := 1750000000000.
Definition FARMER_REWARD_AMOUNT : N := 250000000000.

Record CoinRecord := mkCoinRecord {
  record_coin : CoinString;
  record_puzzle_hash : PuzzleHash;
  record_created : N;
  record_spent : option N;
  coinbase : bool;
}.
#[export] Instance CoinRecord_eta : RecordEta CoinRecord := fun r =>
  mkCoinRecord (record_coin r) (record_puzzle_hash r) (record_created r) (record_spent r) (coinbase r).

Record PendingSpend := mkPendingSpend {
  fingerprint : Hash;
  removals : list CoinID;
  additions : list (CoinID * PuzzleHash * Amount);
  puzzle_solutions : list (CoinID * Program * Program);
}.

Record SimulatorState := mkSimulatorState {
  coins : gmap CoinID CoinRecord;
  mempool : list PendingSpend;
  spent_puzzle_solutions : gmap CoinID (Program * Program);
  confirmed_spend_fingerprints : gset Hash;
  height : N;
}.
#[export] Instance SimulatorState_eta : RecordEta SimulatorState := fun s =>
  mkSimulatorState (coins s) (mempool s) (spent_puzzle_solutions s) (confirmed_spend_fingerprints s)
    (height s).

Record Simulator := mkSimulator { sim_state : SimulatorState; strict : bool }.
#[export] Instance Simulator_eta : RecordEta Simulator := fun s =>
  mkSimulator (sim_state s) (strict s).

Definition SimulatorState_new : SimulatorState := mkSimulatorState ∅ [] ∅ ∅ 0.

(** ** Blocks *)
Definition u32_add (a b : N) : N := ((a + b) mod 2 ^ 32)%N.

Definition add_coin (parent_id : CoinID) (puzzle_hash : PuzzleHash) (amount : Amount)
    (is_coinbase : bool) (s : SimulatorState) : SimulatorState :=
  let coin := CoinString_from_parts parent_id puzzle_hash amount in
  s <| coins ::= <[to_coin_id coin := mkCoinRecord coin puzzle_hash (height s) None is_coinbase]> |>.

Definition reward_parent_id (prefix : bytes) (height : N) : CoinID :=
  mkCoinID (Sha256Input_hash (Sha_Array [Sha_Bytes prefix; Sha_Bytes (be_fixed 4 height)])).

Definition pool_reward_prefix : bytes := String.list_byte_of_string "pool_reward".
Definition farmer_reward_prefix : bytes := String.list_byte_of_string "farmer_reward".

Definition spend_record (next_height : N) (cs : gmap CoinID CoinRecord) (removal : CoinID)
    : gmap CoinID CoinRecord :=
  alter (fun r => r <| record_spent := Some next_height |>) removal cs.
Definition create_record (next_height : N) (cs : gmap CoinID CoinRecord)
    (addition : CoinID * PuzzleHash * Amount) : gmap CoinID CoinRecord :=
  let '(parent_id, ph, amt) := addition in
  let coin := CoinString_from_parts parent_id ph amt in
  <[to_coin_id coin := mkCoinRecord coin ph next_height None false]> cs.
Definition record_solution (sols : gmap CoinID (Program * Program))
    (entry : CoinID * Program * Program) : gmap CoinID (Program * Program) :=
  let '(coin_id, puzzle, solution) := entry in <[coin_id := (puzzle, solution)]> sols.

(** One turn of the loop over the drained mempool. *)
Definition confirm_spend_bundle (next_height : N) (s : SimulatorState) (spend : PendingSpend)
    : SimulatorState :=
  s <| confirmed_spend_fingerprints ::= union {[fingerprint spend]} |>
    <| coins ::= fun cs => foldl (spend_record next_height) cs (removals spend) |>
    <| coins ::= fun cs => foldl (create_record next_height) cs (additions spend) |>
    <| spent_puzzle_solutions ::= fun sols => foldl record_solution sols (puzzle_solutions spend) |>.

Definition next_block_height (s : SimulatorState) : N :=
  if bool_decide (coins s = ∅) && (height s =? 0)%N then 0%N else u32_add (height s) 1.

Definition farm_block_inner (puzzle_hash : PuzzleHash) (s : SimulatorState) : SimulatorState :=
  let next_height := next_block_height s in
  let pool_parent := reward_parent_id pool_reward_prefix next_height in
  let farmer_parent := reward_parent_id farmer_reward_prefix next_height in
  let s := add_coin pool_parent puzzle_hash POOL_REWARD_AMOUNT true s in
  let s := add_coin farmer_parent puzzle_hash FARMER_REWARD_AMOUNT true s in
  let pending := mempool s in
  let s := s <| mempool := [] |> in
  let s := foldl (confirm_spend_bundle next_height) s pending in
  s <| height := next_height |>.

Definition farm_block (puzzle_hash : PuzzleHash) (sim : Simulator) : Simulator :=
  sim <| sim_state ::= farm_block_inner puzzle_hash |>.

Definition Simulator_new (is_strict : bool) : Simulator :=
  mkSimulator (farm_block_inner (mkPuzzleHash zero_hash) SimulatorState_new) is_strict.

(** ** Reorganisations *)
Definition created_above (new_height : N) (r : CoinRecord) : bool := (new_height <? record_created r)%N.
Definition respent_above (new_height : N) (r : CoinRecord) : bool :=
  match record_spent r with Some h => (new_height <? h)%N | None => false end.

Definition reorg_inner (depth : N) (s : SimulatorState) : SimulatorState :=
  let new_height := (height s - depth)%N in
  let removed := (retain (fun kv => created_above new_height kv.2) (hm_iter (coins s))).*1 in
  let s := foldl (fun s id => s <| coins ::= delete id |> <| spent_puzzle_solutions ::= delete id |>)
             s removed in
  let '(cs, unspent) := hm_for_each_mut (fun id r unspent =>
    if respent_above new_height r then (r <| record_spent := None |>, unspent ++ [id])
    else (r, unspent)) (coins s) [] in
  let s := s <| coins := cs |> in
  let s := foldl (fun s id => s <| spent_puzzle_solutions ::= delete id |>) s unspent in
  s <| confirmed_spend_fingerprints := ∅ |> <| height := new_height |>.
Definition reorg (depth : N) (sim : Simulator) : Simulator := sim <| sim_state ::= reorg_inner depth |>.

(** ** Observations *)
Definition is_unspent (r : CoinRecord) : bool := bool_decide (record_spent r = None).

Definition get_current_height (sim : Simulator) : N := height (sim_state sim).
Definition records_of (sim : Simulator) : list CoinRecord := (hm_iter (coins (sim_state sim))).*2.
Definition get_all_coins (sim : Simulator) : list CoinString :=
  record_coin <$> retain (fun r => is_unspent r && negb (coinbase r)) (records_of sim).
Definition get_my_coins (puzzle_hash : PuzzleHash) (sim : Simulator) : list CoinString :=
  record_coin <$> retain (fun r => is_unspent r && bool_decide (record_puzzle_hash r = puzzle_hash))
                    (records_of sim).

Fixpoint first_of_amount (amount : Amount) (cs : list CoinString) : result Error (option CoinString) :=
  match cs with
  | [] => mret None
  | coin :: cs =>
      '(_, _, coin_amount) ← ok_or (StrErr "malformed coin string (to_parts failed)") (to_parts coin);
      if (amount <=? coin_amount)%N then mret (Some coin) else first_of_amount amount cs
  end.
Definition select_coins (puzzle_hash : PuzzleHash) (amount : Amount) (sim : Simulator)
    : result Error (option CoinString) := first_of_amount amount (get_my_coins puzzle_hash sim).

Definition find_coin_by_id (coin_id : CoinID) (sim : Simulator) : option CoinString :=
  match coins (sim_state sim) !! coin_id with
  | Some r => if is_unspent r then Some (record_coin r) else None
  | None => None
  end.
Definition get_puzzle_and_solution (coin_id : CoinID) (sim : Simulator) : option (Program * Program) :=
  match coins (sim_state sim) !! coin_id with
  | Some r => if is_unspent r then None else spent_puzzle_solutions (sim_state sim) !! coin_id
  | None => spent_puzzle_solutions (sim_state sim) !! coin_id
  end.
Definition is_coin_spendable (coin : CoinString) (sim : Simulator) : bool :=
  match coins (sim_state sim) !! to_coin_id coin with Some r => is_unspent r | None => false end.
Definition is_coin_spent (coin : CoinString) (sim : Simulator) : bool :=
  match coins (sim_state sim) !! to_coin_id coin with Some r => negb (is_unspent r) | None => false end.
Definition get_watched_coin_snapshot (coin_id : CoinID) (sim : Simulator)
    : option (CoinString * N * option N) :=
  (fun r => (record_coin r, record_created r, record_spent r)) <$> coins (sim_state sim) !! coin_id.

(** What the transaction manager is told of the chain. *)
Definition get_all_coin_states (sim : Simulator) : list CoinStateRecord :=
  (fun r => mkCoinStateRecord (record_coin r) (Some (record_created r)) None)
    <$> retain (fun r => is_unspent r && negb (coinbase r)) (records_of sim).
Definition get_coin_states (watched : list CoinString) (sim : Simulator) : list CoinStateRecord :=
  (fun coin =>
     let rec := coins (sim_state sim) !! to_coin_id coin in
     mkCoinStateRecord coin (record_created <$> rec) (rec ≫= record_spent)) <$> watched.

(** ** Transactions *)
Definition to_protocol_spend (tx : CoinSpend) : result Error ProtocolCoinSpend :=
  '(parent, ph, amount) ← get_coin_string_parts (coin tx);
  solution_node ← Program_to_clvm (solution (bundle tx));
  solution_program ← Program_from_nodeptr solution_node;
  mret (mkProtocolCoinSpend (mkProtocolCoin (coin_id_hash parent) (ph_hash ph) amount)
          (program_bytes (puzzle_program (puzzle (bundle tx)))) (program_bytes solution_program)).
Definition sum_signatures (txs : list CoinSpend) : Aggsig :=
  match (fun tx => signature (bundle tx)) <$> txs with
  | [] => sig_default
  | sig :: sigs => foldl sig_add sig sigs
  end.
Definition to_protocol_spend_bundle (txs : list CoinSpend) : result Error ProtocolSpendBundle :=
  protocol_spends ← mapM_result to_protocol_spend txs;
  mret (mkProtocolSpendBundle protocol_spends (sum_signatures txs)).

(** The text before the code's own name. *)
Definition format_validation_error (c : ErrorCode) : string :=
  match c with
  | DuplicateOutput => "duplicate output (two CREATE_COINs with same puzzle_hash and amount)"
  | BadAggregateSignature => "bad aggregate signature"
  | InvalidCoinSolution => "invalid coin solution"
  | InvalidBlockSolution => "invalid puzzle reveal"
  | WrongPuzzleHash => "wrong puzzle hash"
  | MintingCoin => "minting coin (outputs exceed input amount)"
  | CostExceeded => "cost exceeded"
  | InvalidCondition => "invalid condition"
  | InvalidPublicKey => "invalid public key in condition"
  | InvalidMessage => "invalid message in condition"
  | InvalidCoinAmount => "invalid coin amount"
  | ReserveFeeConditionFailed => "RESERVE_FEE condition failed"
  | AssertCoinAnnouncementFailed => "ASSERT_COIN_ANNOUNCEMENT failed"
  | AssertPuzzleAnnouncementFailed => "ASSERT_PUZZLE_ANNOUNCEMENT failed"
  | AssertHeightRelativeFailed => "ASSERT_HEIGHT_RELATIVE failed"
  | AssertHeightAbsoluteFailed => "ASSERT_HEIGHT_ABSOLUTE failed"
  | AssertSecondsAbsoluteFailed => "ASSERT_SECONDS_ABSOLUTE failed"
  | AssertSecondsRelativeFailed => "ASSERT_SECONDS_RELATIVE failed"
  | AssertMyCoinIdFailed => "ASSERT_MY_COIN_ID failed"
  | AssertMyPuzzleHashFailed => "ASSERT_MY_PUZZLEHASH failed"
  | AssertMyAmountFailed => "ASSERT_MY_AMOUNT failed"
  | GeneratorRuntimeError => "CLVM runtime error"
  | DoubleSpend => "double spend"
  | OtherError _ => "validation error"
  end.

Definition fingerprint_spend_bundle (txs : list CoinSpend) : Hash :=
  Sha256Input_hash (Sha_Array (Sha_Bytes <$> concat ((fun tx =>
    [coin_bytes (coin tx); program_bytes (puzzle_program (puzzle (bundle tx)));
     program_bytes (solution (bundle tx)); sig_bytes (signature (bundle tx))]) <$> txs))).

(** A step of the checks: it may end the call with an answer, or go on. *)
Abbreviation checked A := (result Error (IncludeTransactionResult + A)).
Definition go_on {A} (a : A) : checked A := Ok (inr a).
Definition answer {A} (r : IncludeTransactionResult) : checked A := Ok (inl r).
Definition and_then {A B} (m : checked A) (f : A -> checked B) : checked B :=
  r ← m; match r with inl out => answer out | inr a => f a end.
(** A strict simulator panics where the other one answers. *)
Definition refuse {A} (is_strict : bool) (e : N) (why : string) : checked A :=
  if is_strict then Err (Panicked why) else answer (mkIncluded 3 (Some e) why).

(** The locals of the loop over the spends. *)
Record PushLocals := mkPushLocals {
  l_removals : list CoinID;
  l_additions : list (CoinID * PuzzleHash * Amount);
  l_solutions : list (CoinID * Program * Program);
  l_ephemeral : gmap CoinID PuzzleHash;
}.

Definition new_children (coin_id : CoinID) (conds : SpendConditions)
    : list (CoinID * PuzzleHash * Amount) :=
  (fun '(ph, amt) => (coin_id, mkPuzzleHash ph, amt)) <$> create_coin conds.
Definition add_ephemeral (ephemeral : gmap CoinID PuzzleHash) (child : CoinID * PuzzleHash * Amount)
    : gmap CoinID PuzzleHash :=
  let '(parent, ph, amt) := child in <[to_coin_id (CoinString_from_parts parent ph amt) := ph]> ephemeral.

(** The height the coin was created at, and what is left of the ephemeral
    coins. *)
Definition find_input (is_strict : bool) (st : SimulatorState) (coin_id : CoinID)
    (ephemeral : gmap CoinID PuzzleHash) : checked (N * gmap CoinID PuzzleHash) :=
  match coins st !! coin_id with
  | Some r =>
      if is_unspent r then go_on (record_created r, ephemeral)
      else refuse is_strict 5 "Coin already spent"
  | None =>
      match ephemeral !! coin_id with
      | Some _ => go_on (height st, delete coin_id ephemeral)
      | None => refuse is_strict 5 "Coin not found"
      end
  end.

Definition check_spend (is_strict : bool) (st : SimulatorState) (validated : list SpendConditions)
    (i : nat) (tx : CoinSpend) (l : PushLocals) : checked PushLocals :=
  let coin_id := to_coin_id (coin tx) in
  and_then (find_input is_strict st coin_id (l_ephemeral l)) (fun '(created, ephemeral) =>
  match validated !! i with
  | None => refuse is_strict 1 "validated.spends missing index"
  | Some conds =>
      let children := new_children coin_id conds in
      let ephemeral := foldl add_ephemeral ephemeral children in
      let locked := match height_relative conds with
                    | Some required => (height st - created <? required)%N
                    | None => false
                    end in
      if locked : bool then refuse is_strict 8 "Relative timelock not satisfied"
      else
        solution_node ← Program_to_clvm (solution (bundle tx));
        solution_program ← Program_from_nodeptr solution_node;
        go_on (mkPushLocals (l_removals l ++ [coin_id]) (l_additions l ++ children)
                 (l_solutions l ++ [(coin_id, puzzle_program (puzzle (bundle tx)), solution_program)])
                 ephemeral)
  end).
Fixpoint check_spends (is_strict : bool) (st : SimulatorState) (validated : list SpendConditions)
    (i : nat) (txs : list CoinSpend) (l : PushLocals) : checked PushLocals :=
  match txs with
  | [] => go_on l
  | tx :: txs =>
      and_then (check_spend is_strict st validated i tx l)
        (check_spends is_strict st validated (S i) txs)
  end.

(** Against what is in the mempool: the same transaction, or one that spends
    the same coin. *)
Fixpoint check_mempool (is_strict : bool) (tx_fingerprint : Hash) (removed : list CoinID)
    (pool : list PendingSpend) : checked unit :=
  match pool with
  | [] => go_on tt
  | existing :: pool =>
      if bool_decide (fingerprint existing = tx_fingerprint)
      then answer (mkIncluded 1 None "duplicate transaction de-duplicated")
      else if existsb (fun r => bool_decide (r ∈ removals existing)) removed
      then refuse is_strict 9 "Conflicting transaction: overlapping spends"
      else check_mempool is_strict tx_fingerprint removed pool
  end.

Definition check_fees (is_strict : bool) (v : BundleConditions) : checked unit :=
  if is_strict && negb (removal_amount v - addition_amount v =? reserve_fee v)%N
  then Err (Panicked "Strict mode: implicit fee != declared RESERVE_FEE") else go_on tt.
Definition check_before_height (is_strict : bool) (st : SimulatorState) (v : BundleConditions)
    : checked unit :=
  match before_height_absolute v with
  | Some before =>
      if (before <=? height st)%N then refuse is_strict 20 "ASSERT_BEFORE_HEIGHT_ABSOLUTE not satisfied"
      else go_on tt
  | None => go_on tt
  end.

(** Everything before the push: the pending spend, or the answer. *)
Definition check_transactions (txs : list CoinSpend) (sim : Simulator) : checked PendingSpend :=
  let st := sim_state sim in
  if bool_decide (txs = []) then answer (mkIncluded 3 (Some 1%N) "Empty spend bundle")
  else
    let tx_fingerprint := fingerprint_spend_bundle txs in
    if bool_decide (tx_fingerprint ∈ confirmed_spend_fingerprints st)
    then answer (mkIncluded 1 None "duplicate confirmed transaction re-submitted")
    else
      protocol_bundle ← to_protocol_spend_bundle txs;
      match validate_clvm_and_signature protocol_bundle (flags_for_height (height st)) with
      | Err c => refuse (strict sim) (error_number c) (format_validation_error c)
      | Ok validated =>
          and_then (check_spends (strict sim) st (validated_spends validated) 0 txs
                      (mkPushLocals [] [] [] ∅)) (fun l =>
          and_then (check_fees (strict sim) validated) (fun _ =>
          and_then (check_before_height (strict sim) st validated) (fun _ =>
          and_then (check_mempool (strict sim) tx_fingerprint (l_removals l) (mempool st)) (fun _ =>
          go_on (mkPendingSpend tx_fingerprint (l_removals l) (l_additions l) (l_solutions l))))))
      end.

Definition push_transactions (txs : list CoinSpend) : eff Simulator IncludeTransactionResult :=
  sim ← get_state;
  outcome ← lift_result (check_transactions txs sim);
  match outcome with
  | inl out => mret out
  | inr pending =>
      _ ← modify_state (fun sim => sim <| sim_state ::= fun st => st <| mempool ::= fun m => m ++ [pending] |> |>);
      mret (mkIncluded 1 None "")
  end.

(** ** The wallet of the tests *)

(** [r.expect(what)] *)
Definition expect {A} (what : string) (r : result Error A) : result Error A :=
  match r with Ok a => Ok a | Err _ => Err (Panicked what) end.

(** The signed spend of a coin of the standard puzzle to some conditions. *)
Definition sign_standard_spend (owner : ChiaIdentity) (source : CoinString) (conditions : sexp)
    : result Error CoinSpend :=
  quoted_conditions ← to_quoted_program conditions;
  quoted_conditions_hash ← Program_sha256tree quoted_conditions;
  standard_solution ← solution_for_conditions conditions;
  sig ← sign_agg_sig_me (synthetic_private_key owner) (PuzzleHash_bytes quoted_conditions_hash)
          (to_coin_id source) AGG_SIG_ME_ADDITIONAL_DATA;
  solution_program ← Program_from_nodeptr standard_solution;
  mret (mkCoinSpend source (mkSpend (identity_puzzle owner) solution_program sig)).

Definition spend_coin_to_puzzle_hash (identity : ChiaIdentity) (puz : Puzzle) (source : CoinString)
    (target_coins : list (PuzzleHash * Amount)) : eff Simulator (list CoinString) :=
  '(_, first_coin_ph, _) ← lift_result (get_coin_string_parts source);
  puzzle_hash ← lift_result (Program_sha256tree (puzzle_program puz));
  _ ← guard_or (bool_decide (puzzle_hash = first_coin_ph)) (Panicked "assertion failed: puzzle hash");
  let conditions := list_node ((fun '(ph, amt) => create_coin_node ph amt) <$> target_coins) in
  info ← lift_result (expect "should build"
           (standard_solution_partial (synthetic_private_key identity) (to_coin_id source) conditions
              (synthetic_public_key identity) AGG_SIG_ME_ADDITIONAL_DATA false));
  quoted_conds ← lift_result (expect "should work" (to_quoted_program conditions));
  hashed_conds ← lift_result (Program_sha256tree quoted_conds);
  let signature2 := sk_sign (synthetic_private_key identity)
    (agg_sig_me_message (PuzzleHash_bytes hashed_conds) (to_coin_id source) AGG_SIG_ME_ADDITIONAL_DATA) in
  _ ← guard_or (bool_decide (broken_signature info = signature2)) (Panicked "assertion failed: signature");
  status ← push_transactions
    [mkCoinSpend source (mkSpend (identity_puzzle identity) (broken_solution info) (broken_signature info))];
  _ ← guard_or (negb (code status =? 3)%N) (StrErr "failed to spend coin");
  mret ((fun '(ph, amt) => CoinString_from_parts (to_coin_id source) ph amt) <$> target_coins).

Definition transfer_coin_amount (identity_target : PuzzleHash) (identity_source : ChiaIdentity)
    (source_coin : CoinString) (target_amt : Amount) : eff Simulator (CoinString * CoinString) :=
  '(_, _, amt) ← lift_result (get_coin_string_parts source_coin);
  change_amt ← lift_result (Amount_checked_sub amt target_amt);
  let source_id := to_coin_id source_coin in
  let first_coin := CoinString_from_parts source_id identity_target target_amt in
  let second_coin := CoinString_from_parts source_id (identity_puzzle_hash identity_source) change_amt in
  let conditions := list_node (create_coin_node identity_target target_amt ::
    (if (change_amt =? 0)%N then [] else [create_coin_node (identity_puzzle_hash identity_source) change_amt])) in
  tx ← lift_result (sign_standard_spend identity_source source_coin conditions);
  included ← push_transactions [tx];
  _ ← guard_or (code included =? 1)%N (StrErr "failed to spend");
  mret (first_coin, second_coin).

(** All the coins but the last create nothing; the last creates their sum. *)
Fixpoint combine_spends (owner : ChiaIdentity) (target_ph : PuzzleHash) (amount : Amount)
    (sources : list CoinString) : result Error (Amount * list CoinSpend) :=
  match sources with
  | [] => mret (amount, [])
  | c :: rest =>
      '(_, _, amt) ← get_coin_string_parts c;
      let amount := Amount_add amount amt in
      let conditions := match rest with
                        | [] => list_node [create_coin_node target_ph amount]
                        | _ => nil_node
                        end in
      tx ← sign_standard_spend owner c conditions;
      '(amount, txs) ← combine_spends owner target_ph amount rest;
      mret (amount, tx :: txs)
  end.
Definition combine_coins (owner : ChiaIdentity) (target_ph : PuzzleHash) (sources : list CoinString)
    : eff Simulator CoinString :=
  _ ← guard_or (negb (bool_decide (sources = []))) (StrErr "no coins");
  '(amount, spends) ← lift_result (combine_spends owner target_ph 0%N sources);
  included ← push_transactions spends;
  _ ← guard_or (code included =? 1)%N (StrErr "failed to spend");
  mret (CoinString_from_parts (to_coin_id (List.last sources (mkCoinString []))) target_ph amount).
End simulator.
