(* ===== verification/SimulatorProperties.v ===== *)
(** * What the simulated chain promises

    The ledger is consistent along every run of the simulator, its blocks are
    blocks of the abstract ledger of unspent coins, and the transaction manager
    that is shown a snapshot of the chain sees the chain. *)
From stdpp Require Import relations.
From S2P Require Import Prelude Extern World Coins Clvm StandardCoin TransactionManager ManagerProperties Simulator.

Section chain.
Context {order : HashOrder} {sha2 : Sha2} {bigint : BigInt} {clvm : Clvm} {bls : Bls}.
Context {consensus : Consensus}.
Implicit Types (sim : Simulator) (s st : SimulatorState) (p : PendingSpend).

(** ** The abstract ledger

    A block takes the set of unspent coins through the bundles it confirms: a
    bundle spends coins that exist, or that it creates, each of them once. *)
Definition addition_id (a : CoinID * PuzzleHash * Amount) : CoinID :=
  let '(parent, ph, amt) := a in to_coin_id (CoinString_from_parts parent ph amt).
Definition spent_by p : gset CoinID := list_to_set (removals p).
Definition created_by p : gset CoinID := list_to_set (addition_id <$> additions p).

Lemma elem_of_spent_by p id : id ∈ spent_by p <-> id ∈ removals p.
Proof. apply elem_of_list_to_set. Qed.
Lemma elem_of_created_by p id : id ∈ created_by p <-> id ∈ addition_id <$> additions p.
Proof. apply elem_of_list_to_set. Qed.


(** The unspent coins of the simulator. *)
Definition utxo s : gset CoinID :=
  dom (filter (fun kv => is_unspent kv.2 = true) (coins s)).

Lemma elem_of_utxo s id :
  id ∈ utxo s <-> exists r, coins s !! id = Some r /\ record_spent r = None.
Proof.
  unfold utxo. rewrite elem_of_dom. unfold is_some. split.
  - intros [r [Hr Hu]%map_lookup_filter_Some]. exists r. split; [done|].
    by apply bool_decide_eq_true in Hu.
  - intros (r & Hr & Hu). exists r. apply map_lookup_filter_Some. split; [done|].
    by apply bool_decide_eq_true.
Qed.


(** ** The records of a block *)
Lemma lookup_spend_records h ids (cs : gmap CoinID CoinRecord) id :
  foldl (spend_record h) cs ids !! id
  = (fun r => if bool_decide (id ∈ ids) then r <| record_spent := Some h |> else r) <$> cs !! id.
Proof.
  revert cs. induction ids as [|a ids IH]; intros cs; cbn [foldl].
  - destruct (cs !! id) as [r|]; [|done]. cbn. by rewrite bool_decide_eq_false_2 by apply not_elem_of_nil.
  - rewrite IH. unfold spend_record. destruct (decide (a = id)) as [->|Hne].
    + rewrite lookup_alter_eq, (bool_decide_eq_true_2 (id ∈ id :: ids)) by (by left).
      destruct (cs !! id) as [r|]; [|done]. cbn. by case_bool_decide.
    + rewrite lookup_alter_ne by done. destruct (cs !! id) as [r|]; [|done]. cbn.
      by rewrite (bool_decide_ext (id ∈ a :: ids) (id ∈ ids)) by set_solver.
Qed.

Lemma lookup_create_records h adds (cs : gmap CoinID CoinRecord) id r :
  foldl (create_record h) cs adds !! id = Some r ->
  (id ∈ addition_id <$> adds
   /\ to_coin_id (record_coin r) = id /\ record_created r = h /\ record_spent r = None)
  \/ (id ∉ addition_id <$> adds /\ cs !! id = Some r).
Proof.
  revert cs. induction adds as [|[[parent ph] amt] adds IH]; intros cs; cbn [foldl].
  { right. split; [apply not_elem_of_nil|done]. }
  intros [(Hin & H)|[Hout H]]%IH; [left; split; [by right|done]|].
  unfold create_record in H. apply lookup_insert_Some in H as [[<- <-]|[Hne H]].
  - left. split; [by left|done].
  - right. split; [|done]. rewrite fmap_cons, not_elem_of_cons. split; [|done]. by intros ->.
Qed.


(** A record after a bundle: of a coin it created, of a coin it spent, or what
    it was. *)
Lemma confirm_record h s p id r :
  coins (confirm_spend_bundle h s p) !! id = Some r ->
  (id ∈ created_by p /\ to_coin_id (record_coin r) = id /\ record_created r = h /\ record_spent r = None)
  \/ (id ∉ created_by p /\ exists r0, coins s !! id = Some r0
      /\ r = if bool_decide (id ∈ spent_by p) then r0 <| record_spent := Some h |> else r0).
Proof.
  cbn. intros [(Hin & H)|[Hout H]]%lookup_create_records.
  - left. split; [by apply elem_of_created_by|done].
  - right. split; [by rewrite elem_of_created_by|]. rewrite lookup_spend_records in H.
    apply fmap_Some in H as (r0 & Hr & ->). exists r0. split; [done|].
    rewrite (bool_decide_ext (id ∈ removals p) (id ∈ spent_by p)); [done|]. by rewrite elem_of_spent_by.
Qed.



(** ** Acceptance of a transaction *)
Lemma and_then_inr {A B} (m : result Error (IncludeTransactionResult + A))
    (f : A -> result Error (IncludeTransactionResult + B)) b :
  and_then m f = Ok (inr b) -> exists a, m = Ok (inr a) /\ f a = Ok (inr b).
Proof. destruct m as [[?|a]|?]; [done| |done]. cbn. eauto. Qed.

Lemma refuse_inr {A} is_strict e why (a : A) : refuse is_strict e why <> Ok (inr a).
Proof. by destruct is_strict. Qed.

Lemma dom_add_ephemeral children (ephemeral : gmap CoinID PuzzleHash) :
  dom (foldl add_ephemeral ephemeral children)
  = dom ephemeral ∪ list_to_set (addition_id <$> children).
Proof.
  revert ephemeral. induction children as [|[[parent ph] amt] children IH]; intros ephemeral; cbn [foldl].
  { set_solver. }
  rewrite IH. unfold add_ephemeral. rewrite dom_insert_L. set_solver.
Qed.

Definition coin_ids (txs : list CoinSpend) : list CoinID := (to_coin_id ∘ coin) <$> txs.

(** The inputs that were checked are unspent coins of the ledger or outputs of
    the same bundle; the ephemeral coins left are outputs too. *)
Record checked_locals st (l : PushLocals) : Prop := {
  checked_inputs : forall id, id ∈ l_removals l ->
    id ∈ utxo st \/ id ∈ addition_id <$> l_additions l;
  checked_ephemeral : forall id, id ∈ dom (l_ephemeral l) -> id ∈ addition_id <$> l_additions l;
}.

Lemma check_spend_inr is_strict st validated i tx l l' :
  check_spend is_strict st validated i tx l = Ok (inr l') -> checked_locals st l ->
  checked_locals st l' /\ l_removals l' = l_removals l ++ [to_coin_id (coin tx)].
Proof.
  unfold check_spend. intros ([created ephemeral] & Hfind & H)%and_then_inr [Hin Heph].
  destruct (validated !! i) as [conds|]; [|by apply refuse_inr in H].
  match type of H with (if ?c then _ else _) = _ => destruct c end; [by apply refuse_inr in H|].
  destruct (Program_to_clvm _) as [node|]; [|done]. cbn in H.
  destruct (Program_from_nodeptr node) as [program|]; [|done]. cbn in H. injection H as <-.
  assert ((to_coin_id (coin tx) ∈ utxo st \/ to_coin_id (coin tx) ∈ addition_id <$> l_additions l)
    /\ dom ephemeral ⊆ dom (l_ephemeral l)) as [Hinput Hsub].
  { unfold find_input in Hfind. destruct (coins st !! _) as [r|] eqn:Hr.
    - destruct (is_unspent r) eqn:Hu; [|by apply refuse_inr in Hfind]. injection Hfind as <- <-.
      split; [left; apply elem_of_utxo; exists r; split; [done|by apply bool_decide_eq_true in Hu]|done].
    - destruct (l_ephemeral l !! _) as [ph|] eqn:He; [|by apply refuse_inr in Hfind].
      injection Hfind as <- <-. rewrite dom_delete_L. split; [|set_solver].
      right. by apply Heph, elem_of_dom. }
  split; [|done]. split; cbn; intros id; rewrite fmap_app, elem_of_app.
  - rewrite elem_of_app, list_elem_of_singleton. intros [H| ->]; [|tauto]. apply Hin in H. tauto.
  - rewrite dom_add_ephemeral, elem_of_union, elem_of_list_to_set.
    intros [H|H]; [left; by apply Heph, Hsub|by right].
Qed.

Lemma check_spends_inr is_strict st validated i txs l l' :
  check_spends is_strict st validated i txs l = Ok (inr l') -> checked_locals st l ->
  checked_locals st l' /\ l_removals l' = l_removals l ++ coin_ids txs.
Proof.
  revert i l. induction txs as [|tx txs IH]; intros i l; cbn [check_spends].
  { intros [= <-] Hl. by rewrite app_nil_r. }
  intros (l1 & H1 & H)%and_then_inr Hl. apply check_spend_inr in H1 as [Hl1 Hr1]; [|done].
  apply IH in H as [Hl' ->]; [|done]. split; [done|]. rewrite Hr1, <-app_assoc. done.
Qed.

Lemma check_mempool_inr is_strict fp removed pool :
  check_mempool is_strict fp removed pool = Ok (inr tt) ->
  forall p, p ∈ pool -> fingerprint p <> fp /\ forall id, id ∈ removed -> id ∉ removals p.
Proof.
  induction pool as [|q pool IH]; cbn [check_mempool]; intros H p Hp; [by apply not_elem_of_nil in Hp|].
  case_bool_decide as Hfp; [done|]. destruct (existsb _ _) eqn:Hover; [by apply refuse_inr in H|].
  apply elem_of_cons in Hp as [->|Hp]; [|by apply IH]. split; [done|]. intros id Hid Hin.
  apply Bool.not_true_iff_false in Hover. apply Hover, existsb_exists. exists id.
  split; [by apply list_elem_of_In|by apply bool_decide_eq_true].
Qed.

(** The program names coins by the strings of their parts. *)
Definition canonical_coin (c : CoinString) : Prop :=
  exists parent ph amt, is_u64 amt /\ c = CoinString_from_parts parent ph amt.

Lemma protocol_ids txs spends :
  Forall (fun tx => canonical_coin (coin tx)) txs -> mapM_result to_protocol_spend txs = Ok spends ->
  (protocol_coin_id ∘ protocol_coin) <$> spends = coin_ids txs.
Proof.
  intros Hcan. revert spends. induction Hcan as [|tx txs (parent & ph & amt & Hamt & Hc) _ IH]; intros spends H.
  { by injection H as <-. }
  cbn in H. destruct (to_protocol_spend tx) as [sp|] eqn:Hsp; [|done]. cbn in H.
  destruct (mapM_result _ txs) as [sps|]; [|done]. injection H as <-.
  rewrite !fmap_cons, (IH sps eq_refl). unfold coin_ids. rewrite fmap_cons. f_equal. cbn.
  unfold to_protocol_spend, get_coin_string_parts in Hsp.
  rewrite Hc, (proj2 (to_parts_Some _ parent ph amt)) in Hsp
    by (eexists; split; [done|by apply u64_from_atom_encode_number]).
  cbn in Hsp. destruct (Program_to_clvm _) as [node|]; [|done]. cbn in Hsp.
  destruct (Program_from_nodeptr node) as [program|]; [|done]. injection Hsp as <-.
  rewrite Hc. unfold protocol_coin_id. cbn. by destruct parent, ph.
Qed.

Lemma check_transactions_inr txs sim p :
  check_transactions txs sim = Ok (inr p) -> Forall (fun tx => canonical_coin (coin tx)) txs ->
  NoDup (removals p)
  /\ spent_by p ⊆ utxo (sim_state sim) ∪ created_by p
  /\ forall q, q ∈ mempool (sim_state sim) -> forall id, id ∈ removals p -> id ∉ removals q.
Proof.
  unfold check_transactions. intros H Hcan. case_bool_decide; [done|]. case_bool_decide; [done|].
  destruct (to_protocol_spend_bundle txs) as [bundle|] eqn:Hb; [|done]. cbn in H.
  destruct (validate_clvm_and_signature _ _) as [v|] eqn:Hv; [|by apply refuse_inr in H].
  apply and_then_inr in H as (l & Hl & H). apply and_then_inr in H as (? & _ & H).
  apply and_then_inr in H as (? & _ & H). apply and_then_inr in H as ([] & Hm & H). injection H as <-.
  apply check_spends_inr in Hl as [[Hin _] Hrem]; [|split; cbn; set_solver].
  rewrite app_nil_l in Hrem. split_and!.
  - apply validated_distinct in Hv. unfold to_protocol_spend_bundle in Hb.
    destruct (mapM_result _ txs) as [spends|] eqn:Hsp; [|done]. injection Hb as <-.
    cbn in Hv. apply protocol_ids in Hsp; [|done]. by rewrite Hrem, <-Hsp.
  - intros id Hid. apply elem_of_spent_by in Hid. apply elem_of_union.
    rewrite elem_of_created_by. by apply Hin.
  - intros q Hq id Hid. by apply (proj2 (check_mempool_inr _ _ _ _ Hm q Hq)).
Qed.

(** What a push does to the simulator: nothing, or a pending bundle that was
    accepted. *)
Lemma push_transactions_spec txs sim sim' :
  (push_transactions txs sim).2 = sim' ->
  sim' = sim \/ exists p, check_transactions txs sim = Ok (inr p)
    /\ sim' = sim <| sim_state ::= fun st => st <| mempool ::= fun m => m ++ [p] |> |>.
Proof.
  unfold push_transactions, get_state, lift_result, mbind, eff_bind. cbn.
  destruct (check_transactions txs sim) as [[out|p]|e]; intros <-; [by left|right; by exists p|by left].
Qed.

(** ** Reorganisations *)
Lemma foldl_pointwise {A B} (f g : A -> B -> A) l a :
  (forall a b, f a b = g a b) -> foldl f a l = foldl g a l.
Proof. intros Hfg. revert a. induction l as [|b l IH]; intros a; cbn; [done|]. by rewrite Hfg, IH. Qed.

Lemma reorg_records depth s :
  let new_height := (height s - depth)%N in
  mempool (reorg_inner depth s) = mempool s
  /\ height (reorg_inner depth s) = new_height
  /\ forall id r, coins (reorg_inner depth s) !! id = Some r ->
       exists r0, coins s !! id = Some r0 /\ (record_created r0 <= new_height)%N
         /\ r = if respent_above new_height r0 then r0 <| record_spent := None |> else r0.
Proof.
  intros new_height. unfold reorg_inner. cbv zeta. fold new_height.
  set (removed := (retain (fun kv => created_above new_height kv.2) (hm_iter (coins s))).*1).
  set (s1 := foldl (fun s id => s <| coins ::= delete id |> <| spent_puzzle_solutions ::= delete id |>) s removed).
  assert (mempool s1 = mempool s /\ coins s1 = foldl (fun cs id => delete id cs) (coins s) removed) as [Hm1 Hc1].
  { subst s1. clearbody removed. clear. revert s. induction removed as [|a l IH]; intros s; [done|].
    exact (IH (s <| coins ::= delete a |> <| spent_puzzle_solutions ::= delete a |>)). }
  assert (hm_for_each_mut (fun id r unspent =>
      if respent_above new_height r then (r <| record_spent := None |>, unspent ++ [id]) else (r, unspent))
      (coins s1) []
    = hm_for_each_mut (fun id r unspent =>
      (if respent_above new_height r then r <| record_spent := None |> else r,
       if respent_above new_height r then unspent ++ [id] else unspent)) (coins s1) []) as ->.
  { unfold hm_for_each_mut. apply foldl_pointwise. intros [m acc] [k v].
    by destruct (respent_above new_height v). }
  rewrite (hm_for_each_mut_spec (fun _ r => if respent_above new_height r then r <| record_spent := None |> else r)
    (fun id r unspent => if respent_above new_height r then unspent ++ [id] else unspent)).
  set (cs := map_imap _ _). set (unspent := foldl _ [] _).
  set (s2 := foldl (fun s id => s <| spent_puzzle_solutions ::= delete id |>) (s1 <| coins := cs |>) unspent).
  assert (mempool s2 = mempool s /\ coins s2 = cs) as [Hm2 Hc2].
  { subst s2. rewrite <-Hm1. assert (mempool (s1 <| coins := cs |>) = mempool s1
      /\ coins (s1 <| coins := cs |>) = cs) as H by done. revert H. generalize (s1 <| coins := cs |>).
    clearbody cs unspent. clear. induction unspent as [|a l IH]; intros s2 [? ?]; [done|]. by apply IH. }
  cbn. rewrite Hm2, Hc2. split_and!; [done..|]. intros id r Hr. subst cs.
  rewrite map_lookup_imap, Hc1 in Hr.
  assert (forall l (m : gmap CoinID CoinRecord), foldl (fun cs id => delete id cs) m l !! id
    = if bool_decide (id ∈ l) then None else m !! id) as Hdel.
  { clear. induction l as [|a l IH]; intros m; cbn; [by rewrite bool_decide_eq_false_2 by apply not_elem_of_nil|].
    rewrite IH. destruct (decide (id = a)) as [->|Hne].
    - rewrite lookup_delete_eq, (bool_decide_eq_true_2 (a ∈ a :: l)) by (by left). by case_bool_decide.
    - rewrite lookup_delete_ne by done. by rewrite (bool_decide_ext (id ∈ a :: l) (id ∈ l)) by set_solver. }
  rewrite Hdel in Hr. case_bool_decide as Hid; [done|].
  destruct (coins s !! id) as [r0|] eqn:Hr0; [|done]. injection Hr as <-. exists r0. split; [done|]. split; [|done].
  apply N.nlt_ge. intros Hlt. apply Hid. apply list_elem_of_fmap. exists (id, r0). split; [done|].
  apply elem_of_retain. split; [by apply elem_of_hm_iter|]. by apply N.ltb_lt.
Qed.

(** ** Runs

    A block is farmed while the height fits its [u32]; in a settled run the
    chain is only rolled back with an empty mempool. *)
Inductive sim_step (settled : bool) : Simulator -> Simulator -> Prop :=
| step_farm puzzle_hash sim : (height (sim_state sim) + 1 < 2 ^ 32)%N ->
    sim_step settled sim (farm_block puzzle_hash sim)
| step_push txs sim : Forall (fun tx => canonical_coin (coin tx)) txs ->
    sim_step settled sim (push_transactions txs sim).2
| step_reorg depth sim : (settled = true -> mempool (sim_state sim) = []) ->
    sim_step settled sim (reorg depth sim).

Definition sim_reachable (settled : bool) sim : Prop :=
  exists is_strict, rtc (sim_step settled) (Simulator_new is_strict) sim.

Definition record_ok (h : N) (id : CoinID) (r : CoinRecord) : Prop :=
  to_coin_id (record_coin r) = id /\ (record_created r <= h)%N
  /\ forall spent, record_spent r = Some spent -> (record_created r <= spent <= h)%N.

Record chain_ok (settled : bool) s : Prop := {
  ok_records : forall id r, coins s !! id = Some r -> record_ok (height s) id r;
  ok_height : (height s < 2 ^ 32)%N;
  ok_spent_once : NoDup (concat (removals <$> mempool s));
  ok_inputs : settled = true -> forall p, p ∈ mempool s -> spent_by p ⊆ utxo s ∪ created_by p;
}.

Lemma next_block_height_bounds s :
  (height s + 1 < 2 ^ 32)%N -> (height s <= next_block_height s <= height s + 1)%N.
Proof.
  intros Hh. unfold next_block_height, u32_add.
  destruct (bool_decide _) eqn:?, (N.eqb_spec (height s) 0); cbn [andb]; rewrite ?N.mod_small by done; lia.
Qed.

(** The block without its rewards. *)
Definition block_start (puzzle_hash : PuzzleHash) s : SimulatorState :=
  let h := next_block_height s in
  (add_coin (reward_parent_id farmer_reward_prefix h) puzzle_hash FARMER_REWARD_AMOUNT true
    (add_coin (reward_parent_id pool_reward_prefix h) puzzle_hash POOL_REWARD_AMOUNT true s))
  <| mempool := [] |>.
Lemma farm_block_unfold puzzle_hash s :
  farm_block_inner puzzle_hash s
  = (foldl (confirm_spend_bundle (next_block_height s)) (block_start puzzle_hash s) (mempool s))
      <| height := next_block_height s |>.
Proof. done. Qed.

Lemma confirmed_mempool h s pool : mempool (foldl (confirm_spend_bundle h) s pool) = mempool s.
Proof. revert s. induction pool as [|p pool IH]; intros s; cbn [foldl]; [done|]. by rewrite IH. Qed.

(** What holds of every record at the start of a block, and of every record a
    bundle writes, holds at the end of it. *)
Lemma confirmed_records (P : CoinID -> CoinRecord -> Prop) h pool s :
  (forall id r, coins s !! id = Some r -> P id r) ->
  (forall id r, P id r -> P id (r <| record_spent := Some h |>)) ->
  (forall id r, to_coin_id (record_coin r) = id -> record_created r = h -> record_spent r = None -> P id r) ->
  forall id r, coins (foldl (confirm_spend_bundle h) s pool) !! id = Some r -> P id r.
Proof.
  intros Hs Hspent Hnew. revert s Hs. induction pool as [|p pool IH]; intros s Hs; cbn [foldl]; [done|].
  apply IH. intros id r [(_ & ? & ? & ?)|(_ & r0 & Hr & ->)]%confirm_record; [by apply Hnew|].
  case_bool_decide; [apply Hspent|]; by apply Hs.
Qed.

Lemma record_ok_mono h h' id r : record_ok h id r -> (h <= h')%N -> record_ok h' id r.
Proof. intros (? & ? & Hs) Hle. split_and!; [done|lia|]. intros spent ?%Hs. lia. Qed.

Lemma block_start_record puzzle_hash s id r :
  coins (block_start puzzle_hash s) !! id = Some r ->
  coins s !! id = Some r
  \/ (to_coin_id (record_coin r) = id /\ record_created r = height s /\ record_spent r = None).
Proof.
  unfold block_start. cbn. intros [[<- <-]|[_ [[<- <-]|[_ H]]%lookup_insert_Some]]%lookup_insert_Some;
    [by right..|by left].
Qed.

Lemma farm_block_ok settled puzzle_hash s :
  chain_ok settled s -> (height s + 1 < 2 ^ 32)%N -> chain_ok settled (farm_block_inner puzzle_hash s).
Proof.
  intros Hok Hh. pose proof (next_block_height_bounds s Hh) as Hn. rewrite farm_block_unfold.
  set (h := next_block_height s) in *.
  assert (mempool ((foldl (confirm_spend_bundle h) (block_start puzzle_hash s) (mempool s)) <| height := h |>) = [])
    as Hm by exact (confirmed_mempool h (block_start puzzle_hash s) (mempool s)).
  split; rewrite ?Hm.
  - apply (confirmed_records (record_ok h)).
    + intros id r [H|(? & Hc & Hs)]%block_start_record.
      * apply (record_ok_mono (height s)); [|lia]. by apply (ok_records _ _ Hok).
      * split_and!; [done|lia|]. intros spent. by rewrite Hs.
    + intros id r (? & ? & Hs). split_and!; [done|done|]. cbn. intros spent [= <-]. lia.
    + intros id r ? Hc Hs. split_and!; [done|lia|]. intros spent. by rewrite Hs.
  - change (h < 2 ^ 32)%N. lia.
  - constructor.
  - intros _ p []%not_elem_of_nil.
Qed.

Lemma reorg_ok settled depth s :
  chain_ok settled s -> (settled = true -> mempool s = []) -> chain_ok settled (reorg_inner depth s).
Proof.
  intros Hok Hempty. destruct (reorg_records depth s) as (Hm & Hh & Hr). split.
  - intros id r (r0 & Hr0 & Hc & ->)%Hr. rewrite Hh. apply (ok_records _ _ Hok) in Hr0 as (? & _ & Hs).
    unfold respent_above. destruct (record_spent r0) as [spent|] eqn:Hsp.
    + destruct (N.ltb_spec (height s - depth) spent); (split_and!; [done|done|]); cbn; [done|].
      rewrite Hsp. intros ? [= <-]. specialize (Hs _ eq_refl). lia.
    + split_and!; [done|done|]. by rewrite Hsp.
  - rewrite Hh. pose proof (ok_height _ _ Hok). lia.
  - rewrite Hm. apply Hok.
  - intros Hset p. rewrite Hm, Hempty by done. by intros []%not_elem_of_nil.
Qed.

Lemma push_ok settled txs sim :
  chain_ok settled (sim_state sim) -> Forall (fun tx => canonical_coin (coin tx)) txs ->
  chain_ok settled (sim_state (push_transactions txs sim).2).
Proof.
  intros Hok Hcan. destruct (push_transactions_spec txs sim _ eq_refl) as [->|(p & Hp & ->)]; [done|].
  apply check_transactions_inr in Hp as (Hnd & Hin & Hdisj); [|done]. split; cbn; [apply Hok..| |].
  - rewrite fmap_app, concat_app. cbn. rewrite app_nil_r. apply NoDup_app. split_and!; [apply Hok| |done].
    intros id (ids & Hids & Hid)%list_elem_of_In%in_concat Hip. apply list_elem_of_In in Hid.
    apply list_elem_of_In, list_elem_of_fmap in Hids as (q & -> & Hq). by apply (Hdisj q Hq id).
  - intros Hset q [Hq|Hq%list_elem_of_singleton]%elem_of_app; [by apply Hok|]. by subst q.
Qed.

Lemma reachable_ok settled sim : sim_reachable settled sim -> chain_ok settled (sim_state sim).
Proof.
  intros (is_strict & Hrun). revert Hrun. set (start := Simulator_new is_strict).
  assert (chain_ok settled (sim_state start)) as Hstart.
  { apply farm_block_ok; [|done]. split; cbn; [done|done|constructor|]. intros _ p []%not_elem_of_nil. }
  induction 1 as [sim|sim sim1 sim2 Hstep _ IH]; [done|]. apply IH. clear IH.
  destruct Hstep; [by apply farm_block_ok|by apply push_ok|by apply reorg_ok].
Qed.



End chain.

(** ** The chain as the transaction manager sees it *)
Section snapshot.
Context {order : HashOrder} {sha2 : Sha2} {bigint : BigInt} {clvm : Clvm} {bls : Bls}.
Context {consensus : Consensus} {GameNotification CoinSpendRequest C : Type}.
Context {session : ManagedGameSession GameNotification CoinSpendRequest C}.
Abbreviation TM := (TransactionManager GameNotification CoinSpendRequest C).
Implicit Types (m : TM) (rec : CoinStateRecord) (w : WatchedCoin).

(** What the chain said of a watched coin. *)
Definition seen w : option N * option N := (birthday w, spent_confirmed_at w).
Definition seen_as rec w : Prop :=
  (forall h, created_height rec = Some h -> birthday w = Some h)
  /\ (forall h, spent_height rec = Some h -> spent_confirmed_at w = Some h).

Lemma reconcile_record_seen reorg present l rec w :
  l_watched (reconcile_record reorg present l rec) !! rec_coin rec = Some w -> seen_as rec w.
Proof.
  unfold reconcile_record. set (l1 := if reorg && _ then _ else _). set (l2 := if is_live rec then _ else _).
  destruct (l_watched l2 !! rec_coin rec) as [w0|] eqn:Hw; [|by rewrite Hw].
  pose proof (observe_birthday_spent rec w0) as _. unfold seen_as.
  destruct (observe_birthday rec w0) as [wb rearmed] eqn:Hb.
  assert (forall h, created_height rec = Some h -> birthday wb = Some h) as Hborn.
  { intros h Hc. unfold observe_birthday in Hb. rewrite Hc in Hb. case_bool_decide; by injection Hb as <- _. }
  unfold observe_spend. destruct (spent_height rec) as [s|]; cbn; rewrite lookup_insert_eq; intros [= <-]; cbn.
  - split; [done|]. by intros h [= <-].
  - by split.
Qed.

Lemma reconcile_records_seen reorg present records l rec w :
  NoDup (rec_coin <$> records) -> rec ∈ records ->
  l_watched (reconcile_records reorg present l records) !! rec_coin rec = Some w -> seen_as rec w.
Proof.
  intros Hnd (before & after & ->)%list_elem_of_split. rewrite fmap_app, fmap_cons in Hnd.
  apply NoDup_app in Hnd as (_ & _ & [Hn _]%NoDup_cons).
  unfold reconcile_records. rewrite fold_left_app. cbn [fold_left].
  set (l1 := reconcile_record reorg present _ rec).
  destruct (reconcile_records_spec reorg present l1 after) as (_ & Hrest & _).
  destruct (Hrest (rec_coin rec) Hn) as [Heq _]. unfold reconcile_records in Heq. rewrite Heq.
  apply reconcile_record_seen.
Qed.

Lemma confirm_deleted_seen height deleted (ws : gmap CoinString WatchedCoin) coin w rec :
  confirm_deleted height deleted ws !! coin = Some w ->
  (forall w0, ws !! coin = Some w0 -> seen_as rec w0) -> seen_as rec w.
Proof.
  unfold confirm_deleted. generalize (hs_iter deleted). intros l. revert ws.
  induction l as [|c l IH]; intros ws; cbn [fold_left]; [by eauto|].
  intros Hw Hws. apply (IH _ Hw). intros w0 H. apply lookup_alter_Some in H as [(-> & w1 & Hw1 & ->)|[_ H]].
  - destruct (Hws _ Hw1) as [Hb Hs]. unfold confirm_spend, seen_as.
    destruct (spent_confirmed_at w1) as [s|] eqn:Hsp; [by rewrite Hsp|]. split; [done|].
    intros h Hh. by apply Hs in Hh.
  - by apply Hws.
Qed.

Lemma reconcile_snapshot_seen height records reorg rearmed m m2 rearmed2 obs :
  reconcile_snapshot height records reorg rearmed m = (m2, rearmed2, obs) ->
  NoDup (rec_coin <$> records) ->
  (forall coin, coin ∈ present_coins m2 <-> live_in records coin)
  /\ forall rec w, rec ∈ records -> watched_coins m2 !! rec_coin rec = Some w -> seen_as rec w.
Proof.
  unfold reconcile_snapshot. set (start := if reorg then _ else _).
  destruct start as [ws [[vanished newly] rearmed']]. set (l := reconcile_records _ _ _ _).
  cbn [created_deleted]. intros [= <- _ _] Hnd. split.
  - intros coin. rewrite (proj2 (resubmit_vanished_frame newly height _)). cbn. subst l.
    destruct (reconcile_records_spec reorg (present_coins m) (mkRecordLocals vanished ws ∅ [] rearmed') records)
      as [-> _]. cbn. rewrite elem_of_union, elem_of_list_to_set, list_elem_of_fmap. unfold live_in.
    setoid_rewrite elem_of_retain. set_solver.
  - intros rec w Hrec. match goal with |- context [resubmit_vanished newly height ?m0] =>
      destruct (resubmit_vanished_spec newly height m0) as (_ & _ & -> & _) end. cbn. intros Hw.
    apply (confirm_deleted_seen _ _ _ _ _ rec Hw). intros w0. by apply reconcile_records_seen.
Qed.

(** The calls about timeout claims change nothing of it. *)
Lemma seen_mark_claimed height w : seen (mark_claimed height w) = seen w.
Proof. unfold mark_claimed. by destruct (due_claim height w). Qed.

Lemma claims_seen rearmed height (ws : gmap CoinString (option N * option N)) :
  preserves (fun m => seen <$> watched_coins m = ws)
    (_ ← report_timeout_claim_rearms rearmed; _ ← reconcile_timeout_claim_status;
     evaluate_mature_timeout_claims height).
Proof.
  set (P := fun m : TM => _). 
  assert (forall A (op : eff C A), preserves P (on_cradle op)) as Hcradle
    by (intros; by apply preserves_on_part).
  apply preserves_bind; [|intros _; apply preserves_bind; [|intros _]].
  - unfold report_timeout_claim_rearms. generalize (@nil TimeoutClaimSemantic).
    induction rearmed as [|semantic rearmed IH]; intros reported; cbn [rearm_loop]; [by apply preserves_ret|].
    case_bool_decide; [done|]. apply preserves_bind; [done|]. by intros _.
  - apply preserves_get_bind. intros m Hm. destruct (timeout_claim_status_reconciled m); [done|].
    refine (preserves_bind P _ _ _ _ m Hm); [|intros _; by apply preserves_modify].
    match goal with |- preserves _ (notify_submitted ?l) => generalize l end.
    induction l as [|semantic l IH]; cbn [notify_submitted]; [by apply preserves_ret|].
    by apply preserves_bind.
  - intros m Hm. rewrite evaluate_unfold.
    assert (preserves P (submit_loop (foldl (fun acc kv => acc ++ option_list (due_claim height kv.2)) []
      (hm_iter (watched_coins m))))) as Hloop.
    { match goal with |- preserves _ (submit_loop ?l) => generalize l end.
      induction l as [|[spend [semantic|]] l IH]; cbn [submit_loop]; [by apply preserves_ret|..];
        (apply preserves_bind; [first [done|by apply preserves_ret]|intros _]);
        (apply preserves_bind; [by apply preserves_modify|by intros _]). }
    apply Hloop. subst P. cbn in *. rewrite <-Hm. apply map_eq. intros coin.
    rewrite !lookup_fmap, map_lookup_imap. destruct (watched_coins m !! coin) as [w|]; [|done].
    cbn. by rewrite seen_mark_claimed.
Qed.

(** What the simulator reports of the coins it is asked about. *)
Lemma get_coin_states_records watched sim :
  rec_coin <$> get_coin_states watched sim = watched.
Proof. unfold get_coin_states. induction watched as [|c cs IH]; cbn; [done|]. by rewrite IH. Qed.

Lemma live_coin_states watched sim coin :
  live_in (get_coin_states watched sim) coin <-> coin ∈ watched /\ is_coin_spendable coin sim = true.
Proof.
  unfold live_in, get_coin_states. setoid_rewrite list_elem_of_fmap. unfold is_coin_spendable, is_unspent, is_live.
  split.
  - intros (rec & (c & -> & Hc) & <- & Hlive). cbn in *. split; [done|].
    destruct (coins (sim_state sim) !! _) as [r|]; [|done]. cbn in Hlive.
    by destruct (record_spent r).
  - intros [Hc Hs]. eexists. split; [by exists coin|]. split; [done|]. cbn.
    destruct (coins (sim_state sim) !! _) as [r|]; [|done]. cbn.
    by apply bool_decide_eq_true in Hs as ->.
Qed.

Lemma coin_states_in_range settled watched sim :
  chain_ok settled (sim_state sim) -> forallb record_in_range (get_coin_states watched sim) = true.
Proof.
  intros Hok. apply forallb_forall. intros rec (c & -> & _)%list_elem_of_In%list_elem_of_fmap.
  pose proof (ok_height _ _ Hok) as Hh.
  assert (2 ^ 32 < MAX_REPORTED_HEIGHT)%N as Hmax by done.
  apply record_in_range_spec. cbn. destruct (coins (sim_state sim) !! _) as [r|] eqn:Hr; [|by split].
  apply (ok_records _ _ Hok) in Hr as (_ & Hc & Hs). cbn. split.
  - intros h [= <-]. lia.
  - intros h ?%Hs. lia.
Qed.

(** C39: The transaction manager mirrors the chain it is shown.  At any point
    of any run of the simulator, its answer for a set of watched coins is in
    the range the manager accepts; and when the report succeeds, every coin the
    manager believes present is unspent on the chain, and of each coin it was
    told of and still watches it knows exactly whether it is unspent, the height
    it was created at and the height it was spent at. *)
Theorem manager_mirrors_chain settled sim watched m m'
    (Hreach : sim_reachable settled sim) (Hnd : NoDup watched)
    (Hreport : report_coin_states (get_current_height sim) (get_coin_states watched sim) m = (Ok tt, m')) :
  ((get_current_height sim <= MAX_REPORTED_HEIGHT)%N
    /\ forallb record_in_range (get_coin_states watched sim) = true)
  /\ (forall coin, coin ∈ present_coins m' -> coin ∈ watched /\ is_coin_spendable coin sim = true)
  /\ (forall coin w, coin ∈ watched -> watched_coins m' !! coin = Some w ->
        (coin ∈ present_coins m' <-> is_coin_spendable coin sim = true)
        /\ forall r, coins (sim_state sim) !! to_coin_id coin = Some r ->
             birthday w = Some (record_created r)
             /\ forall h, record_spent r = Some h -> spent_confirmed_at w = Some h).
Proof.
  pose proof (reachable_ok _ _ Hreach) as Hok.
  apply report_coin_states_Ok in Hreport as (r0 & m1 & m2 & rearmed & obs & m3 & c & Hh & _ & Hrec & Hcl & _ & ->).
  split; [split; [done|by eapply coin_states_in_range]|].
  apply reconcile_snapshot_seen in Hrec as [Hlive Hseen]; [|by rewrite get_coin_states_records].
  pose proof (frame_claims (fun _ p => p = present_coins m2) ltac:(done) rearmed (get_current_height sim) m2
    ltac:(done)) as Hp3.
  pose proof (claims_seen rearmed (get_current_height sim) (seen <$> watched_coins m2) m2 ltac:(done)) as Hw3.
  unfold frame in Hp3. rewrite Hcl in Hp3, Hw3. cbn in Hp3, Hw3.
  unfold evict_confirmed_spends. cbn [cradle].
  set (evicted := (retain (fun kv => buried _ _ kv.2) (hm_iter _)).*1).
  match goal with |- context [fold_left evict_coin evicted ?m0] =>
    destruct (evict_coins_spec evicted m0) as (-> & _ & _ & -> & _) end. cbn.
  rewrite Hp3. setoid_rewrite elem_of_difference. setoid_rewrite Hlive. setoid_rewrite live_coin_states.
  split; [by intros coin [? _]|]. intros coin w Hwatched [Hw Hkeep]%lookup_hm_retain. split.
  - assert (coin ∉ (list_to_set evicted : gset CoinString)) as Hev; [|tauto].
    rewrite elem_of_list_to_set. intros ([c0 w0] & -> & [Hin%elem_of_hm_iter Hb]%elem_of_retain)%list_elem_of_fmap.
    cbn in *. rewrite Hin in Hw. injection Hw as ->. by rewrite Hb in Hkeep.
  - intros r Hr. assert (seen <$> watched_coins m2 !! coin = Some (seen w)) as H2.
    { by rewrite <-lookup_fmap, <-Hw3, lookup_fmap, Hw. }
    apply fmap_Some in H2 as (w2 & Hw2 & [= Hb Hs]).
    assert (seen_as (mkCoinStateRecord coin (Some (record_created r)) (record_spent r)) w2) as [Hborn Hspent].
    { apply Hseen; [|done]. apply list_elem_of_fmap. exists coin. by rewrite Hr. }
    rewrite Hb, Hs. split; [by apply Hborn|]. exact Hspent.
Qed.
End snapshot.

(** ** One concrete chain *)
Module Witnesses.
Import Toy.

(** A validation under which every coin is spent to one of the same amount. *)
Definition toy_conditions (b : ProtocolSpendBundle) : BundleConditions :=
  mkBundleConditions
    ((fun sp => mkSpendConditions [(zero_hash, protocol_amount (protocol_coin sp))] None) <$> coin_spends b)
    0 None 0 0.
#[local] Program Instance toy_consensus : Consensus := {|
  error_number _ := 5%N;
  flags_for_height _ := 0%N;
  validate_clvm_and_signature b _ :=
    if bool_decide (NoDup ((protocol_coin_id ∘ protocol_coin) <$> coin_spends b))
    then Ok (toy_conditions b) else Err DoubleSpend;
|}.
Next Obligation. intros b flags v. cbn. by case_bool_decide. Qed.
Next Obligation. intros b flags v. cbn. case_bool_decide; [|done]. intros [= <-]. done. Qed.

Definition zero_ph : PuzzleHash := mkPuzzleHash zero_hash.
Definition spend_of (c : CoinString) : CoinSpend :=
  mkCoinSpend c (mkSpend (mkPuzzle (mkProgram [x80])) (mkProgram [x80]) x01).
Definition child_of (c : CoinString) : CoinString :=
  CoinString_from_parts (to_coin_id c) zero_ph POOL_REWARD_AMOUNT.
Definition reward_coin (h : N) : CoinString :=
  CoinString_from_parts (reward_parent_id pool_reward_prefix h) zero_ph POOL_REWARD_AMOUNT.

Definition genesis : Simulator := Simulator_new false.
Definition coin_a : CoinString := reward_coin 0.
Definition coin_b : CoinString := child_of coin_a.
Definition pushed : Simulator := (push_transactions [spend_of coin_a] genesis).2.
Definition farmed : Simulator := farm_block zero_ph pushed.

Lemma canonical_parts parent ph amt : is_u64 amt -> canonical_coin (CoinString_from_parts parent ph amt).
Proof. intros ?. by exists parent, ph, amt. Qed.

Lemma genesis_reachable : sim_reachable true genesis.
Proof. by exists false. Qed.

Lemma pushed_reachable : sim_reachable true pushed.
Proof.
  exists false. apply rtc_once, (step_push true [spend_of coin_a] genesis).
  repeat constructor. by apply canonical_parts.
Qed.

Lemma farmed_reachable : sim_reachable true farmed.
Proof.
  destruct pushed_reachable as [is_strict Hrun]. exists is_strict. eapply rtc_r; [exact Hrun|].
  apply step_farm. vm_compute. reflexivity.
Qed.


(** A manager whose session watches [coin_b]. *)
#[local] Instance watching_session : ManagedGameSession unit unit unit := {|
  session_observe _ _ := mret tt;
  session_flush_and_collect :=
    mret (mkDrainResult [WatchCoin (to_coin_id coin_b) coin_b 10 None None] None);
  session_timeout_claim_submitted _ := mret tt;
  session_timeout_claim_rearmed _ := mret tt;
  is_abandoned _ := false;
|}.
Definition manager : TransactionManager unit unit unit :=
  (TransactionManager.flush_and_collect (TransactionManager_new tt)).2.
Definition manager' : TransactionManager unit unit unit :=
  (report_coin_states (get_current_height farmed) (get_coin_states [coin_b] farmed) manager).2.

Lemma manager_mirrors_chain_witness :
  coin_b ∈ present_coins manager' /\ is_Some (watched_coins manager' !! coin_b)
  /\ (forall coin, coin ∈ present_coins manager' -> coin ∈ [coin_b] /\ is_coin_spendable coin farmed = true).
Proof.
  split; [by_evaluation|]. split; [by_evaluation|].
  apply (manager_mirrors_chain true farmed [coin_b] manager manager' farmed_reachable).
  - apply NoDup_singleton.
  - apply (eff_run _ manager (Ok tt)). by_evaluation.
Defined.

(** An output that its own bundle spends is unspent after the block: the coins
    of a bundle are marked as spent before its outputs are recorded. *)
Lemma ephemeral_coin_stays_unspent :
  let sim := (push_transactions [spend_of coin_a; spend_of coin_b] genesis).2 in
  removals <$> mempool (sim_state sim) = [[to_coin_id coin_a; to_coin_id coin_b]]
  /\ is_coin_spendable coin_b (farm_block zero_ph sim) = true.
Proof. split; by_evaluation. Qed.

(** The rewards of a block carry the height before it: they outlive the block
    when it is rolled back, while the other coins of the block do not. *)
Lemma reward_survives_reorg :
  get_current_height (reorg 1 farmed) = 0%N
  /\ is_coin_spendable (reward_coin 1) (reorg 1 farmed) = true
  /\ is_coin_spendable coin_b (reorg 1 farmed) = false.
Proof. split_and!; by_evaluation. Qed.

(** A reorganisation keeps the mempool: a pending bundle whose input was rolled
    back still mints its outputs. *)
Lemma rolled_back_input_mints :
  let sim := (push_transactions [spend_of coin_b] farmed).2 in
  let sim' := farm_block zero_ph (reorg 1 sim) in
  find_coin_by_id (to_coin_id coin_b) (reorg 1 sim) = None
  /\ is_coin_spendable coin_a sim' = true
  /\ is_coin_spendable (child_of coin_b) sim' = true.
Proof. split_and!; by_evaluation. Qed.
End Witnesses.
