(* ===== verification/KrunkDict.v ===== *)
(** * The signed dictionary of the krunk game

    [src/games/krunk_dict_tree.rs]: the words of a dictionary leave gaps between
    them; every gap is signed by both players, and a search tree of the words
    has the signatures at its leaves, so that a word outside of the dictionary
    leads to a signature that convicts it.  The lookup a game's own puzzles make
    is [dict_lookup] of [clsp/games/krunk/krunk_dict_tree.clinc]. *)
From S2P Require Import Prelude Extern World Coins Clvm StandardCoin.

(** ** Words of five bytes, read as signed big-endian numbers *)
Definition MIN_WORD : bytes := [x80; x00; x00; x00; x00].
Definition MAX_WORD : bytes := [x7f; xff; xff; xff; xff].

(** The loop over the indexes from the last to the first, with its carry. *)
Definition word_add_one (word : bytes) : bytes :=
  (foldr (fun b '(result, carry) =>
            if carry : bool then (byte_of_N (Byte.to_N b + 1) :: result, (Byte.to_N b =? 255)%N)
            else (b :: result, false)) ([], true) word).1.
Definition word_sub_one (word : bytes) : bytes :=
  (foldr (fun b '(result, borrow) =>
            if borrow : bool then (byte_of_N (Byte.to_N b + 255) :: result, (Byte.to_N b =? 0)%N)
            else (b :: result, false)) ([], true) word).1.

Definition bytes_le (a b : bytes) : bool := match bytes_cmp a b with Gt => false | _ => true end.
Definition bytes_gt (a b : bytes) : bool := match bytes_cmp a b with Gt => true | _ => false end.

(** [slice.try_into().expect("word must be 5 bytes")] *)
Definition as_word (w : bytes) : result Error bytes :=
  if (length w =? 5)%nat then Ok w else Err (Panicked "word must be 5 bytes").

(** ** The gaps *)

(** Between one word and the next; nothing between consecutive words. *)
Fixpoint interior_gaps (prev : bytes) (words : list bytes) : result Error (list bytes) :=
  match words with
  | [] => mret []
  | curr :: words =>
      p ← as_word prev;
      c ← as_word curr;
      let left := word_add_one p in
      let right := word_sub_one c in
      rest ← interior_gaps curr words;
      mret (if bytes_le left right then (left ++ right) :: rest else rest)
  end.
Definition generate_gap_evidence (sorted_words : list bytes) : result Error (list bytes) :=
  match sorted_words with
  | [] => mret [MIN_WORD ++ MAX_WORD]
  | w :: words =>
      first ← as_word w;
      interior ← interior_gaps w words;
      last ← as_word (List.last words w);
      mret ((if bool_decide (first = MIN_WORD) then [] else [MIN_WORD ++ word_sub_one first])
            ++ interior
            ++ (if bool_decide (last = MAX_WORD) then [] else [word_add_one last ++ MAX_WORD]))
  end.

Fixpoint interior_mask (prev : bytes) (words : list bytes) : result Error (list bool) :=
  match words with
  | [] => mret []
  | curr :: words =>
      p ← as_word prev;
      c ← as_word curr;
      rest ← interior_mask curr words;
      mret (bytes_le (word_add_one p) (word_sub_one c) :: rest)
  end.
Definition reachable_gap_mask (sorted_words : list bytes) : result Error (list bool) :=
  match sorted_words with
  | [] => mret [true]
  | w :: words =>
      first ← as_word w;
      interior ← interior_mask w words;
      last ← as_word (List.last words w);
      mret (negb (bool_decide (first = MIN_WORD)) :: interior
            ++ [negb (bool_decide (last = MAX_WORD))])
  end.

Section krunk.
Context {arch : Arch} {sha2 : Sha2} {bigint : BigInt} {clvm : Clvm} {bls : Bls}.

(** ** The signatures *)

(** [reachable_sigs[sig_idx]] panics when there are too few. *)
Fixpoint fill_mask (mask : list bool) (reachable_sigs : list Aggsig) : result Error (list Aggsig) :=
  match mask, reachable_sigs with
  | [], _ => mret []
  | false :: mask, sigs => full ← fill_mask mask sigs; mret (sig_default :: full)
  | true :: mask, sig :: sigs => full ← fill_mask mask sigs; mret (sig :: full)
  | true :: _, [] => Err (Panicked "index out of bounds")
  end.
Definition expand_signatures_for_tree (sorted_words : list bytes) (reachable_sigs : list Aggsig)
    : result Error (list Aggsig) :=
  mask ← reachable_gap_mask sorted_words; fill_mask mask reachable_sigs.

Definition sigs_to_bytes (sigs : list Aggsig) : bytes := concat (sig_bytes <$> sigs).

(** [blob.chunks_exact(96)] of [n * 96] bytes. *)
Fixpoint chunks_exact (n : nat) (blob : bytes) : list bytes :=
  match n with O => [] | S n => take 96 blob :: chunks_exact n (drop 96 blob) end.
Definition sig_from_bytes_or_default (fixed : bytes) : Aggsig :=
  match sig_from_bytes fixed with Ok sig => sig | Err _ => sig_default end.
Definition sigs_from_bytes (blob : bytes) : result Error (list Aggsig) :=
  _ ← check (length blob mod 96 =? 0)%nat (StrErr "dict sig blob length not a multiple of 96");
  mret (sig_from_bytes_or_default <$> chunks_exact (length blob / 96) blob).

Definition sign_gap_evidence (sk : PrivateKey) (aggregate_pk : PublicKey) (gaps : list bytes)
    : list Aggsig := partial_signer sk aggregate_pk <$> gaps.
End krunk.

(** The pairing of [chia_bls], on which the check of a partial signature rests:
    [e(sk * h, g1) = e(h, sk * g1)]. *)
Class Pairing `{Bls} := {
  GTElement : Type;
  GTElement_eq_dec :: EqDecision GTElement;
  pair_with : Aggsig -> PublicKey -> GTElement;
  pk_generator : PublicKey;
  pair_partial : forall sk m, pair_with (sign_raw sk m) pk_generator
    = pair_with (hash_to_g2 m) (sk_public sk);
}.

Section verify.
Context {arch : Arch} {sha2 : Sha2} {bigint : BigInt} {clvm : Clvm} {bls : Bls} {pairing : Pairing}.

Definition partial_signature_valid (sender_pk aggregate_pk : PublicKey) (sig : Aggsig) (gap : bytes)
    : bool :=
  bool_decide (pair_with sig pk_generator = pair_with (hash_to_g2 (pk_bytes aggregate_pk ++ gap)) sender_pk).
Definition verify_gap_signatures (sigs : list Aggsig) (sender_pk aggregate_pk : PublicKey)
    (sorted_words : list bytes) : result Error unit :=
  gaps ← generate_gap_evidence sorted_words;
  _ ← check (length sigs =? length gaps)%nat (Channel "dict partial sig count mismatch");
  check (forallb (fun '(sig, gap) => partial_signature_valid sender_pk aggregate_pk sig gap)
           (zip sigs gaps)) (Channel "invalid dict partial signature").
End verify.

(** ** The trees *)
Section tree.
Context {arch : Arch} {sha2 : Sha2} {bigint : BigInt} {clvm : Clvm} {bls : Bls}.

(** The slices get shorter: as much fuel as there are words is enough, and one
    more for the leaves. *)
Fixpoint build_signed_dict_tree_inner (fuel : nat) (words : list bytes) (sigs : list Aggsig)
    (gap_offset : nat) : result Error sexp :=
  match fuel with
  | O => Err (Panicked "out of fuel")
  | S fuel =>
      match words with
      | [] => match sigs !! gap_offset with
              | Some sig => mret (Atom (sig_bytes sig))
              | None => Err (Panicked "index out of bounds")
              end
      | _ =>
          let mid := length words / 2 in
          left_node ← build_signed_dict_tree_inner fuel (take mid words) sigs gap_offset;
          right_node ← build_signed_dict_tree_inner fuel (drop (mid + 1) words) sigs (gap_offset + mid + 1);
          mret (Pair left_node (Pair right_node (Pair (Atom (default [] (words !! mid))) nil_node)))
      end
  end.
Definition build_signed_dict_tree (sorted_words : list bytes) (aggregated_sigs : list Aggsig)
    : result Error sexp :=
  build_signed_dict_tree_inner (S (length sorted_words)) sorted_words aggregated_sigs 0.

(** [allocator.atom(node)] panics on a pair. *)
Definition expect_atom_bytes (node : sexp) : result Error bytes :=
  match node with Atom b => Ok b | Pair _ _ => Err (Panicked "expected atom, got pair") end.

Fixpoint lookup_gap_signature (tree : sexp) (word : bytes) : result Error (option Aggsig) :=
  match tree with
  | Pair left_node (Pair right_node (Pair word_node _)) =>
      word_here ← expect_atom_bytes word_node;
      if bool_decide (word_here = word) then mret None
      else if bytes_gt word word_here then lookup_gap_signature right_node word
      else lookup_gap_signature left_node word
  | Pair _ _ => mret None
  | Atom sig => mret (if (length sig =? 96)%nat
                      then match sig_from_bytes sig with Ok sig => Some sig | Err _ => None end
                      else None)
  end.

(** The unsigned tree of the same words, a nil at each leaf. *)
Fixpoint build_dict_tree_inner (fuel : nat) (sorted_words : list bytes) : sexp :=
  match fuel with
  | O => nil_node
  | S fuel =>
      match sorted_words with
      | [] => nil_node
      | _ =>
          let mid := length sorted_words / 2 in
          let left_node := build_dict_tree_inner fuel (take mid sorted_words) in
          let right_node := build_dict_tree_inner fuel (drop (mid + 1) sorted_words) in
          Pair left_node (Pair (Atom (default [] (sorted_words !! mid))) (Pair right_node nil_node))
      end
  end.
Definition build_dict_tree (sorted_words : list bytes) : sexp :=
  build_dict_tree_inner (length sorted_words) sorted_words.

(** ** [games/mod.rs] and the generator [bin/gen_krunk_dict.rs]

    The word list is a data file: its text is an argument. *)

(** [str::lines]: what is between newlines, less a carriage return at the end;
    nothing after the last newline. *)
Definition strip_cr (line : bytes) : bytes :=
  match rev line with x0d :: line' => rev line' | _ => line end.
Fixpoint lines_from (line text : bytes) : list bytes :=
  match text with
  | [] => match line with [] => [] | _ => [line] end
  | x0a :: text => strip_cr line :: lines_from [] text
  | b :: text => lines_from (line ++ [b]) text
  end.
Definition krunk_dictionary (text : bytes) : list bytes :=
  retain (fun l => length l =? 5)%nat (lines_from [] text).
Definition krunk_game_type : bytes := String.list_byte_of_string "krunk".

(** The file the generator writes: the public key and the serialized tree. *)
Definition signed_dictionary_dat (sk : PrivateKey) (text : bytes) : result Error bytes :=
  let pk := private_to_public_key sk in
  let dictionary := krunk_dictionary text in
  gaps ← generate_gap_evidence dictionary;
  expanded ← expand_signatures_for_tree dictionary (sign_gap_evidence sk pk gaps);
  tree_node ← build_signed_dict_tree dictionary expanded;
  tree_program ← Program_from_nodeptr tree_node;
  mret (pk_bytes pk ++ program_bytes tree_program).

(** ** The lookup of the puzzles

    The bounds are CLVM numbers; [=] compares bytes and [>] signed numbers, and
    a missing [f] or [r] raises. *)
Fixpoint dict_lookup (left_bound right_bound : Z) (word : bytes) (node : sexp)
    : result string (option (Z * Z * sexp)) :=
  match node with
  | Pair left_node (Pair right_node (Pair word_node _)) =>
      match word_node with
      | Atom word_here =>
          if bool_decide (word = word_here) then Ok None
          else if (from_signed_bytes_be word_here <? from_signed_bytes_be word)%Z
          then dict_lookup (from_signed_bytes_be word_here + 1) right_bound word right_node
          else dict_lookup left_bound (from_signed_bytes_be word_here - 1) word left_node
      | Pair _ _ => Err "clvm raise"
      end
  | Pair _ _ => Err "clvm raise"
  | Atom _ => Ok (Some (left_bound, right_bound, node))
  end.
End tree.
