(* ===== verification/KrunkProperties.v ===== *)
(** * The signed dictionary of the krunk game: properties

    The gaps of a dictionary cover the words outside of it, each exactly once;
    and a word that is not in the dictionary is led, by the lookup of the
    puzzles and by that of the program, to the one signature of both players
    that covers it. *)
From stdpp Require Import sorting.
From S2P Require Import Prelude Extern World Coins Clvm StandardCoin KrunkDict.

(** ** Bytes and their values *)
Lemma be_value_app a b : be_value (a ++ b) = (be_value a * 256 ^ N.of_nat (length b) + be_value b)%N.
Proof.
  induction b as [|x b IH] using rev_ind; [rewrite app_nil_r; cbn; lia|].
  rewrite app_assoc, !be_value_snoc, IH, length_app. cbn [length].
  replace (N.of_nat (length b + 1)) with (N.succ (N.of_nat (length b))) by lia.
  rewrite N.pow_succ_r'. lia.
Qed.
Lemma be_value_cons x b :
  be_value (x :: b) = (Byte.to_N x * 256 ^ N.of_nat (length b) + be_value b)%N.
Proof. change (x :: b) with ([x] ++ b). rewrite be_value_app. by cbn [be_value foldl]. Qed.

Lemma be_fixed_value k n : be_value (be_fixed k n) = (n mod 256 ^ N.of_nat k)%N.
Proof.
  revert n. induction k as [|k IH]; intros n; [cbn; by rewrite N.mod_1_r|].
  cbn [be_fixed]. rewrite be_value_snoc, IH, to_N_byte_of_N.
  rewrite Nat2N.inj_succ, N.pow_succ_r'. rewrite N.Div0.mod_mul_r. lia.
Qed.

Lemma be_value_inj a b : length a = length b -> be_value a = be_value b -> a = b.
Proof.
  revert b. induction a as [|x a IH]; intros [|y b] Hlen; try done. injection Hlen as Hlen.
  rewrite !be_value_cons, Hlen. intros Heq.
  pose proof (be_value_bound a) as Ha. pose proof (be_value_bound b) as Hb. rewrite Hlen in Ha.
  assert (Byte.to_N x = Byte.to_N y) as Hxy by nia.
  f_equal; [|apply IH; [done|]; rewrite Hxy in Heq; lia].
  apply (f_equal Byte.of_N) in Hxy. rewrite !Byte.of_to_N in Hxy. by injection Hxy.
Qed.

Lemma bytes_cmp_value a b : length a = length b -> bytes_cmp a b = (be_value a ?= be_value b)%N.
Proof.
  revert b. induction a as [|x a IH]; intros [|y b] Hlen; try done. injection Hlen as Hlen.
  cbn [bytes_cmp]. rewrite !be_value_cons, Hlen, (IH _ Hlen).
  pose proof (be_value_bound a) as Ha. pose proof (be_value_bound b) as Hb. rewrite Hlen in Ha.
  symmetry. destruct (N.compare_spec (Byte.to_N x) (Byte.to_N y)) as [->|Hlt|Hgt].
  - destruct (N.compare_spec (be_value a) (be_value b));
      [apply N.compare_eq_iff|apply N.compare_lt_iff|apply N.compare_gt_iff]; lia.
  - apply N.compare_lt_iff. nia.
  - apply N.compare_gt_iff. nia.
Qed.

(** ** Words *)
Definition word_value (w : bytes) : Z :=
  match w with
  | b :: _ => if sign_bit b then (Z.of_N (be_value w) - 2 ^ (8 * Z.of_nat (length w)))%Z
              else Z.of_N (be_value w)
  | [] => 0%Z
  end.
Definition min_value : Z := - 2 ^ 39.
Definition max_value : Z := 2 ^ 39 - 1.
Definition is_word (w : bytes) : Prop := length w = 5.
(** The word of a number of 40 bits. *)
Definition word_of (z : Z) : bytes := be_fixed 5 (Z.to_N (z mod 2 ^ 40)).

Lemma word_of_length z : is_word (word_of z).
Proof. apply be_fixed_length. Qed.

Lemma word_bound w : is_word w -> (be_value w < 2 ^ 40)%N.
Proof. intros Hw. pose proof (be_value_bound w) as H. rewrite Hw in H. exact H. Qed.

Lemma word_value_eq w :
  is_word w -> word_value w = if (2 ^ 39 <=? be_value w)%N then (Z.of_N (be_value w) - 2 ^ 40)%Z
                              else Z.of_N (be_value w).
Proof.
  intros Hw. unfold word_value. rewrite Hw. destruct w as [|x w]; [done|].
  injection Hw as Hw. unfold sign_bit. rewrite be_value_cons, Hw.
  pose proof (be_value_bound w) as Hb. rewrite Hw in Hb.
  change (256 ^ N.of_nat 4)%N with (2 ^ 32)%N in *. change (8 * Z.of_nat 5)%Z with 40%Z.
  destruct (N.leb_spec 128 (Byte.to_N x)), (N.leb_spec (2 ^ 39) (Byte.to_N x * 2 ^ 32 + be_value w)); try done; lia.
Qed.

Lemma word_value_bounds w : is_word w -> (min_value <= word_value w <= max_value)%Z.
Proof.
  intros Hw. rewrite word_value_eq by done. pose proof (word_bound w Hw). unfold min_value, max_value.
  destruct (N.leb_spec (2 ^ 39) (be_value w)); lia.
Qed.

Lemma word_value_mod w : is_word w -> (word_value w mod 2 ^ 40 = Z.of_N (be_value w))%Z.
Proof.
  intros Hw. rewrite word_value_eq by done. pose proof (word_bound w Hw).
  destruct (N.leb_spec (2 ^ 39) (be_value w)).
  - symmetry. apply (Z.mod_unique _ _ (-1)); lia.
  - apply Z.mod_small. lia.
Qed.

Lemma word_of_be z : be_value (word_of z) = Z.to_N (z mod 2 ^ 40).
Proof.
  unfold word_of. rewrite be_fixed_value. apply N.mod_small.
  pose proof (Z.mod_pos_bound z (2 ^ 40)). change (256 ^ N.of_nat 5)%N with (2 ^ 40)%N. lia.
Qed.

Lemma word_of_value w : is_word w -> word_of (word_value w) = w.
Proof.
  intros Hw. apply be_value_inj; [by rewrite word_of_length|].
  rewrite word_of_be, word_value_mod by done. lia.
Qed.

Lemma value_of_word z : (min_value <= z <= max_value)%Z -> word_value (word_of z) = z.
Proof.
  unfold min_value, max_value. intros Hz. rewrite word_value_eq by apply word_of_length. rewrite word_of_be.
  destruct (Z.leb_spec 0 z).
  - rewrite Z.mod_small by lia. destruct (N.leb_spec (2 ^ 39) (Z.to_N z)); lia.
  - assert (z mod 2 ^ 40 = z + 2 ^ 40)%Z as -> by (symmetry; apply (Z.mod_unique _ _ (-1)); lia).
    destruct (N.leb_spec (2 ^ 39) (Z.to_N (z + 2 ^ 40))); lia.
Qed.

Lemma word_value_inj v w : is_word v -> is_word w -> word_value v = word_value w -> v = w.
Proof. intros Hv Hw Heq. by rewrite <-(word_of_value v), <-(word_of_value w), Heq. Qed.

(** The successor and the predecessor, around the end of the range. *)
Lemma add_one_fold w :
  let '(r, carry) := foldr (fun b '(result, carry) =>
            if carry : bool then (byte_of_N (Byte.to_N b + 1) :: result, (Byte.to_N b =? 255)%N)
            else (b :: result, false)) ([], true) w in
  length r = length w
  /\ (be_value r + (if carry then 256 ^ N.of_nat (length w) else 0) = be_value w + 1)%N.
Proof.
  induction w as [|b w IH]; [done|]. cbn [foldr]. destruct (foldr _ _ w) as [r []].
  - destruct IH as [Hlen IH]. split; [by cbn; f_equal|]. rewrite !be_value_cons, Hlen, to_N_byte_of_N. cbn [length].
    rewrite Nat2N.inj_succ, N.pow_succ_r'. pose proof (Byte.to_N_bounded b).
    destruct (N.eqb_spec (Byte.to_N b) 255) as [->|Hne].
    + change ((255 + 1) mod 256)%N with 0%N. lia.
    + rewrite N.mod_small by lia. lia.
  - destruct IH as [Hlen IH]. split; [by cbn; f_equal|]. rewrite !be_value_cons, Hlen. lia.
Qed.
Lemma sub_one_fold w :
  let '(r, borrow) := foldr (fun b '(result, borrow) =>
            if borrow : bool then (byte_of_N (Byte.to_N b + 255) :: result, (Byte.to_N b =? 0)%N)
            else (b :: result, false)) ([], true) w in
  length r = length w
  /\ (be_value r + 1 = be_value w + (if borrow then 256 ^ N.of_nat (length w) else 0))%N.
Proof.
  induction w as [|b w IH]; [done|]. cbn [foldr]. destruct (foldr _ _ w) as [r []].
  - destruct IH as [Hlen IH]. split; [by cbn; f_equal|]. rewrite !be_value_cons, Hlen, to_N_byte_of_N. cbn [length].
    rewrite Nat2N.inj_succ, N.pow_succ_r'. pose proof (Byte.to_N_bounded b).
    destruct (N.eqb_spec (Byte.to_N b) 0) as [->|Hne].
    + change ((0 + 255) mod 256)%N with 255%N. lia.
    + replace (Byte.to_N b + 255)%N with (Byte.to_N b - 1 + 1 * 256)%N by lia.
      rewrite N.Div0.mod_add, N.mod_small by lia. nia.
  - destruct IH as [Hlen IH]. split; [by cbn; f_equal|]. rewrite !be_value_cons, Hlen. lia.
Qed.

Lemma word_add_one_of w : is_word w -> word_add_one w = word_of (word_value w + 1).
Proof.
  intros Hw. unfold word_add_one. pose proof (add_one_fold w) as H. destruct (foldr _ _ w) as [r carry].
  destruct H as [Hlen H]. rewrite Hw in *. cbn [fst]. apply be_value_inj; [by rewrite word_of_length|].
  rewrite word_of_be, Z.add_mod, word_value_mod by done. pose proof (word_bound w Hw) as Hb.
  pose proof (word_bound r Hlen) as Hr. change (256 ^ N.of_nat 5)%N with (2 ^ 40)%N in H.
  change (1 mod 2 ^ 40)%Z with 1%Z. destruct carry.
  - assert (be_value r = 0)%N as -> by lia. replace (Z.of_N (be_value w) + 1)%Z with (2 ^ 40)%Z by lia.
    by rewrite Z_mod_same_full.
  - rewrite Z.mod_small by lia. lia.
Qed.
Lemma word_sub_one_of w : is_word w -> word_sub_one w = word_of (word_value w - 1).
Proof.
  intros Hw. unfold word_sub_one. pose proof (sub_one_fold w) as H. destruct (foldr _ _ w) as [r borrow].
  destruct H as [Hlen H]. rewrite Hw in *. cbn [fst]. apply be_value_inj; [by rewrite word_of_length|].
  rewrite word_of_be, Zminus_mod, word_value_mod by done. pose proof (word_bound w Hw) as Hb.
  pose proof (word_bound r Hlen) as Hr. change (256 ^ N.of_nat 5)%N with (2 ^ 40)%N in H.
  change (1 mod 2 ^ 40)%Z with 1%Z. destruct borrow.
  - assert (be_value w = 0)%N as -> by lia. change ((Z.of_N 0 - 1) mod 2 ^ 40)%Z with (2 ^ 40 - 1)%Z. lia.
  - rewrite Z.mod_small by lia. lia.
Qed.

(** ** Dictionaries and the gaps between their words *)
Definition before (a b : bytes) : Prop := (word_value a < word_value b)%Z.
(** Words of five bytes, none of them negative, in ascending order. *)
Record dictionary (words : list bytes) : Prop := {
  dict_words : Forall (fun w => is_word w /\ 0 <= word_value w)%Z words;
  dict_sorted : StronglySorted before words;
}.
(** A blob of evidence speaks of the words between its two halves. *)
Definition in_gap (w gap : bytes) : Prop :=
  (word_value (take 5 gap) <= word_value w <= word_value (drop 5 gap))%Z.

(** The gaps as ranges of numbers. *)
Fixpoint ranges (lo hi : Z) (words : list bytes) : list (Z * Z) :=
  match words with
  | [] => [(lo, hi)]
  | w :: words => (lo, word_value w - 1)%Z :: ranges (word_value w + 1) hi words
  end.
Definition inhabited (r : Z * Z) : bool := (r.1 <=? r.2)%Z.
Definition gap_blob (r : Z * Z) : bytes := word_of r.1 ++ word_of r.2.
Definition within (v : Z) (r : Z * Z) : Prop := (r.1 <= v <= r.2)%Z.

Lemma in_gap_blob w r :
  (min_value <= r.1 <= max_value)%Z -> (min_value <= r.2 <= max_value)%Z ->
  in_gap w (gap_blob r) <-> within (word_value w) r.
Proof.
  intros Hl Hr. unfold in_gap, within, gap_blob.
  rewrite (take_app_length' (word_of r.1)), (drop_app_length' (word_of r.1)) by by rewrite word_of_length.
  by rewrite !value_of_word.
Qed.

Lemma dictionary_cons w words :
  dictionary (w :: words) <-> is_word w /\ (0 <= word_value w)%Z
    /\ Forall (before w) words /\ dictionary words.
Proof.
  split.
  - intros [[[Hw Hp] Hall]%Forall_cons [Hs Hb]%StronglySorted_cons]. by repeat split.
  - intros (Hw & Hp & Hb & [Hall Hs]). split; [by constructor|by constructor].
Qed.
Lemma dictionary_app a b :
  dictionary (a ++ b) -> dictionary a /\ dictionary b /\ forall x y, x ∈ a -> y ∈ b -> before x y.
Proof.
  intros [[Ha Hb]%Forall_app (Hab & Hsa & Hsb)%StronglySorted_app]. by repeat split.
Qed.

Lemma ranges_length lo hi words : length (ranges lo hi words) = S (length words).
Proof. revert lo. induction words as [|w words IH]; intros lo; cbn; auto. Qed.
Lemma ranges_app lo hi a w b :
  ranges lo hi (a ++ w :: b) = ranges lo (word_value w - 1) a ++ ranges (word_value w + 1) hi b.
Proof. revert lo. induction a as [|x a IH]; intros lo; cbn; [done|by rewrite IH]. Qed.

(** A number lies in one of the ranges, or it is one of the words. *)
Lemma ranges_cover lo hi words v :
  (lo <= v <= hi)%Z ->
  (exists w, w ∈ words /\ word_value w = v) \/ (exists k r, ranges lo hi words !! k = Some r /\ within v r).
Proof.
  revert lo. induction words as [|w words IH]; intros lo Hv; [right; by exists 0, (lo, hi)|].
  destruct (Z.lt_trichotomy v (word_value w)) as [Hlt|[Heq|Hgt]].
  - right. exists 0. eexists. split; [done|]. unfold within. cbn. lia.
  - left. exists w. split; [left|done].
  - destruct (IH (word_value w + 1)%Z) as [(x & Hx & Hv')|(k & r & Hk & Hr)]; [lia| |].
    + left. exists x. split; [by right|done].
    + right. by exists (S k), r.
Qed.

(** The ranges of ascending words are apart from each other and from the words. *)
Lemma ranges_above lo hi words k r :
  Forall (fun w => lo <= word_value w)%Z words -> StronglySorted before words ->
  ranges lo hi words !! k = Some r -> (lo <= r.1)%Z.
Proof.
  revert lo k. induction words as [|w words IH]; intros lo k Hlo Hs Hk.
  - destruct k; [|done]. injection Hk as <-. cbn. lia.
  - apply Forall_cons in Hlo as [Hw Hlo]. apply StronglySorted_cons in Hs as [Hb Hs].
    destruct k as [|k]; [injection Hk as <-; cbn; lia|].
    apply (IH (word_value w + 1)%Z) in Hk; [lia| |done].
    eapply Forall_impl; [exact Hb|]. unfold before. lia.
Qed.
Lemma ranges_apart lo hi words k r v :
  Forall (fun w => lo <= word_value w)%Z words -> StronglySorted before words ->
  ranges lo hi words !! k = Some r -> within v r ->
  (forall w, w ∈ words -> word_value w <> v)
  /\ (forall k' r', ranges lo hi words !! k' = Some r' -> within v r' -> k' = k).
Proof.
  unfold within. revert lo k. induction words as [|w words IH]; intros lo k Hlo Hs Hk Hv.
  - destruct k; [|done]. injection Hk as <-. split; [by intros w Hw%elem_of_nil|]. intros [] r' Hk' _; [done|done].
  - apply Forall_cons in Hlo as [Hw Hlo]. apply StronglySorted_cons in Hs as [Hb Hs].
    assert (Forall (fun x => word_value w + 1 <= word_value x)%Z words) as Hlo'.
    { eapply Forall_impl; [exact Hb|]. unfold before. lia. }
    destruct k as [|k].
    + injection Hk as <-. cbn in Hv. split.
      * intros x [->|Hx]%elem_of_cons; [lia|]. rewrite Forall_forall in Hb. specialize (Hb _ Hx).
        unfold before in Hb. lia.
      * intros [|k'] r' Hk' Hr'; [done|]. cbn in Hk'. apply ranges_above in Hk'; [lia|done|done].
    + cbn in Hk. pose proof (ranges_above _ _ _ _ _ Hlo' Hs Hk) as Habove.
      destruct (IH _ _ Hlo' Hs Hk Hv) as [Hno Huniq]. split.
      * intros x [->|Hx]%elem_of_cons; [lia|auto].
      * intros [|k'] r' Hk' Hr'; [injection Hk' as <-; cbn in Hr'; lia|]. f_equal. by eapply Huniq.
Qed.

Lemma nonneg_above words : dictionary words -> Forall (fun w => min_value <= word_value w)%Z words.
Proof.
  intros [Hall _]. eapply Forall_impl; [exact Hall|]. unfold min_value. cbn. lia.
Qed.

Lemma ranges_bounded lo hi words k r :
  (min_value <= lo)%Z -> (hi <= max_value)%Z -> Forall is_word words ->
  ranges lo hi words !! k = Some r -> inhabited r = true ->
  (min_value <= r.1 <= max_value)%Z /\ (min_value <= r.2 <= max_value)%Z.
Proof.
  revert lo k. induction words as [|w words IH]; intros lo k Hlo Hhi Hall Hk Hin; unfold inhabited in Hin.
  - destruct k; [|done]. injection Hk as <-. cbn in *. lia.
  - apply Forall_cons in Hall as [Hw Hall]. pose proof (word_value_bounds w Hw).
    destruct k as [|k]; [injection Hk as <-; cbn in *; lia|].
    apply (IH (word_value w + 1)%Z k); try done. lia.
Qed.

(** ** The evidence that is generated *)
Fixpoint inner_ranges (lo : Z) (words : list bytes) : list (Z * Z) :=
  match words with
  | [] => []
  | w :: words => (lo, word_value w - 1)%Z :: inner_ranges (word_value w + 1) words
  end.
Lemma last_cons {A} (x w : A) l : List.last (x :: l) w = List.last l x.
Proof.
  revert x w. induction l as [|y l IH]; intros x w; [done|].
  change (List.last (y :: l) w = List.last (y :: l) x). by rewrite !IH.
Qed.
Lemma ranges_inner lo hi w words :
  ranges lo hi (w :: words)
  = (lo, word_value w - 1)%Z :: inner_ranges (word_value w + 1) words
    ++ [(word_value (List.last words w) + 1, hi)%Z].
Proof.
  cbn [ranges]. f_equal. revert w. induction words as [|x words IH]; intros w; [done|].
  cbn [ranges inner_ranges]. by rewrite IH, last_cons.
Qed.

Lemma as_word_ok w : is_word w -> as_word w = Ok w.
Proof. intros Hw. unfold as_word. by rewrite Hw. Qed.

Lemma bytes_le_value a b :
  is_word a -> is_word b -> (0 <= word_value a)%Z -> (0 <= word_value b)%Z ->
  bytes_le a b = (word_value a <=? word_value b)%Z.
Proof.
  intros Ha Hb. rewrite !word_value_eq by done. unfold bytes_le.
  rewrite bytes_cmp_value by (by rewrite Ha, Hb). pose proof (word_bound _ Ha). pose proof (word_bound _ Hb).
  destruct (N.leb_spec (2 ^ 39) (be_value a)), (N.leb_spec (2 ^ 39) (be_value b)); try lia.
  intros _ _. destruct (N.compare_spec (be_value a) (be_value b)); symmetry;
    [apply Z.leb_le|apply Z.leb_le|apply Z.leb_gt]; lia.
Qed.

Lemma interior_reach a b :
  is_word a -> is_word b -> (0 <= word_value a)%Z -> before a b ->
  bytes_le (word_add_one a) (word_sub_one b) = inhabited (word_value a + 1, word_value b - 1)%Z.
Proof.
  unfold before. intros Ha Hb Hp Hab. pose proof (word_value_bounds _ Ha). pose proof (word_value_bounds _ Hb).
  rewrite word_add_one_of, word_sub_one_of by done. unfold min_value, max_value in *.
  assert (word_value (word_of (word_value a + 1)) = word_value a + 1)%Z as Hva
    by (apply value_of_word; unfold min_value, max_value; lia).
  assert (word_value (word_of (word_value b - 1)) = word_value b - 1)%Z as Hvb
    by (apply value_of_word; unfold min_value, max_value; lia).
  rewrite bytes_le_value; [by rewrite Hva, Hvb|apply word_of_length..|lia|lia].
Qed.

Lemma interior_spec prev words :
  dictionary (prev :: words) ->
  interior_gaps prev words
  = Ok (gap_blob <$> List.filter inhabited (inner_ranges (word_value prev + 1) words))
  /\ interior_mask prev words = Ok (inhabited <$> inner_ranges (word_value prev + 1) words).
Proof.
  revert prev. induction words as [|curr words IH]; intros prev Hd; [done|].
  apply dictionary_cons in Hd as (Hw & Hp & Hb & Hd). destruct (IH _ Hd) as [Hg Hm].
  apply dictionary_cons in Hd as (Hc & _). apply Forall_cons in Hb as [Hb _].
  cbn [interior_gaps interior_mask]. rewrite !as_word_ok, Hg, Hm by done. cbn [mbind result_bind mret result_ret].
  rewrite interior_reach by done. cbn [inner_ranges List.filter fmap list_fmap].
  split; [|done]. destruct (inhabited _); [|done]. cbn. unfold gap_blob at 2. cbn.
  by rewrite word_add_one_of, word_sub_one_of.
Qed.

Lemma first_reach w :
  is_word w -> (0 <= word_value w)%Z ->
  bool_decide (w = MIN_WORD) = negb (inhabited (min_value, word_value w - 1)%Z).
Proof.
  intros Hw Hp. rewrite bool_decide_eq_false_2.
  - unfold inhabited, min_value. cbn. symmetry. apply negb_false_iff, Z.leb_le. lia.
  - intros ->. by vm_compute in Hp.
Qed.
Lemma last_reach w :
  is_word w -> bool_decide (w = MAX_WORD) = negb (inhabited (word_value w + 1, max_value)%Z).
Proof.
  intros Hw. pose proof (word_value_bounds w Hw). unfold inhabited. cbn. case_bool_decide as Heq.
  - subst. reflexivity.
  - symmetry. apply negb_false_iff, Z.leb_le. assert (word_value w <> max_value); [|lia].
    intros Hv. apply Heq, word_value_inj; [done|done|]. rewrite Hv. reflexivity.
Qed.

Definition all_ranges (words : list bytes) : list (Z * Z) := ranges min_value max_value words.

Lemma last_in {A} (w : A) words : List.last words w ∈ w :: words.
Proof.
  revert w. induction words as [|x words IH]; intros w; [left|]. rewrite last_cons. right. apply IH.
Qed.

Lemma evidence_spec words :
  dictionary words ->
  generate_gap_evidence words = Ok (gap_blob <$> List.filter inhabited (all_ranges words))
  /\ reachable_gap_mask words = Ok (inhabited <$> all_ranges words).
Proof.
  unfold all_ranges. destruct words as [|w words]; [done|]. intros Hd.
  destruct (interior_spec _ _ Hd) as [Hg Hm]. pose proof Hd as (Hw & Hp & _)%dictionary_cons.
  assert (is_word (List.last words w)) as Hlast.
  { destruct Hd as [Hall _]. rewrite Forall_forall in Hall. apply Hall, last_in. }
  unfold generate_gap_evidence, reachable_gap_mask. rewrite !as_word_ok, Hg, Hm by done.
  cbn [mbind result_bind mret result_ret].
  rewrite !first_reach, !last_reach, !negb_involutive by done. rewrite ranges_inner. split.
  - f_equal. cbn [List.filter]. rewrite List.filter_app, word_sub_one_of, word_add_one_of by done.
    destruct (inhabited (min_value, _)), (inhabited (_, max_value)) eqn:Hl; cbn [negb List.filter];
      rewrite ?Hl; cbn; rewrite ?fmap_app, ?app_nil_r; reflexivity.
  - cbn. by rewrite fmap_app.
Qed.

Section trees.
Context {arch : Arch} {sha2 : Sha2} {bigint : BigInt} {clvm : Clvm} {bls : Bls}.

(** Putting the signatures where the reachable gaps are. *)
Lemma fill_mask_spec {A} (f : A -> bool) l (sigs : list Aggsig) :
  length sigs = length (List.filter f l) ->
  exists full, fill_mask (f <$> l) sigs = Ok full /\ length full = length l
  /\ forall k a, l !! k = Some a -> f a = true ->
     exists i sig, List.filter f l !! i = Some a /\ sigs !! i = Some sig /\ full !! k = Some sig.
Proof.
  revert sigs. induction l as [|a l IH]; intros sigs Hlen.
  - exists []. destruct sigs; [|done]. done.
  - cbn [List.filter fmap list_fmap fill_mask] in *. destruct (f a) eqn:Ha.
    + destruct sigs as [|sig sigs]; [done|]. injection Hlen as Hlen.
      destruct (IH _ Hlen) as (full & Hfull & Hl & Hspec).
      exists (sig :: full). rewrite Hfull. split; [done|]. split; [by cbn; f_equal|].
      intros [|k] b Hk Hb; [injection Hk as <-; by exists 0, sig|].
      destruct (Hspec _ _ Hk Hb) as (i & sig' & ?). by exists (S i), sig'.
    + destruct (IH _ Hlen) as (full & Hfull & Hl & Hspec).
      exists (sig_default :: full). rewrite Hfull. split; [by destruct sigs|]. split; [by cbn; f_equal|].
      intros [|k] b Hk Hb; [injection Hk as <-; congruence|]. by apply Hspec.
Qed.

Lemma from_signed_word w : from_signed_bytes_be w = word_value w.
Proof. apply from_signed_bytes_be_value. Qed.

Lemma bytes_gt_value a b :
  is_word a -> is_word b -> (0 <= word_value a)%Z -> (0 <= word_value b)%Z ->
  bytes_gt a b = (word_value b <? word_value a)%Z.
Proof.
  intros Ha Hb Hpa Hpb. pose proof (bytes_le_value a b Ha Hb Hpa Hpb) as H. unfold bytes_le in H. unfold bytes_gt.
  rewrite Z.ltb_antisym, <-H. by destruct (bytes_cmp a b).
Qed.

(** The two lookups of a word in a tree of signatures: [found] in the
    dictionary, or at the leaf of a range the word lies in. *)
Definition looks_up (words : list bytes) (sigs : list Aggsig) (offset : nat) (tree : sexp) : Prop :=
  forall lo hi w, is_word w -> (lo <= word_value w <= hi)%Z ->
  (w ∈ words /\ dict_lookup lo hi w tree = Ok None
   /\ ((0 <= word_value w)%Z -> lookup_gap_signature tree w = Ok None))
  \/ (exists k r sig, ranges lo hi words !! k = Some r /\ within (word_value w) r
      /\ sigs !! (offset + k) = Some sig
      /\ dict_lookup lo hi w tree = Ok (Some (r.1, r.2, Atom (sig_bytes sig)))
      /\ ((0 <= word_value w)%Z -> lookup_gap_signature tree w = Ok (Some sig))).

Lemma looks_up_leaf sigs offset sig :
  sigs !! offset = Some sig -> looks_up [] sigs offset (Atom (sig_bytes sig)).
Proof.
  intros Hsig lo hi w Hw Hv. right. exists 0, (lo, hi), sig. split; [done|]. split; [done|].
  rewrite Nat.add_0_r. split; [done|]. split; [done|]. intros _. cbn.
  by rewrite sig_bytes_length, sig_from_to_bytes.
Qed.

Lemma looks_up_node a x b sigs offset left_node right_node :
  dictionary (a ++ x :: b) -> looks_up a sigs offset left_node ->
  looks_up b sigs (offset + length a + 1) right_node ->
  looks_up (a ++ x :: b) sigs offset
    (Pair left_node (Pair right_node (Pair (Atom x) nil_node))).
Proof.
  intros Hd Hleft Hright lo hi w Hw Hv. apply dictionary_app in Hd as (_ & Hd & _).
  apply dictionary_cons in Hd as (Hx & Hp & _).
  cbn [dict_lookup lookup_gap_signature expect_atom_bytes mbind result_bind].
  rewrite !from_signed_word. destruct (decide (w = x)) as [->|Hne].
  { left. split; [apply elem_of_app; right; left|]. by rewrite !bool_decide_eq_true_2. }
  assert (word_value w <> word_value x) as Hneq by (intros Heq; by apply Hne, word_value_inj).
  rewrite !bool_decide_eq_false_2 by done. rewrite ranges_app.
  destruct (Z.ltb_spec (word_value x) (word_value w)) as [Hlt|Hge].
  - destruct (Hright (word_value x + 1)%Z hi w Hw) as [(Hin & Hc & Hr)|(k & r & sig & Hk & Hin & Hsig & Hc & Hr)]; [lia| |].
    + left. split; [apply elem_of_app; right; by right|]. split; [done|]. intros Hpw.
      rewrite bytes_gt_value, (proj2 (Z.ltb_lt _ _)) by done. auto.
    + right. exists (length (ranges lo (word_value x - 1) a) + k), r, sig.
      split; [rewrite lookup_app_r by lia; by rewrite Nat.add_comm, Nat.add_sub|]. split; [done|].
      split; [rewrite ranges_length, <-Hsig; f_equal; lia|]. split; [done|]. intros Hpw.
      rewrite bytes_gt_value, (proj2 (Z.ltb_lt _ _)) by done. auto.
  - destruct (Hleft lo (word_value x - 1)%Z w Hw) as [(Hin & Hc & Hr)|(k & r & sig & Hk & Hin & Hsig & Hc & Hr)]; [lia| |].
    + left. split; [apply elem_of_app; by left|]. split; [done|]. intros Hpw.
      rewrite bytes_gt_value, (proj2 (Z.ltb_ge _ _)) by done. auto.
    + right. exists k, r, sig. split; [by apply lookup_app_l_Some|]. split; [done|]. split; [done|].
      split; [done|]. intros Hpw. rewrite bytes_gt_value, (proj2 (Z.ltb_ge _ _)) by done. auto.
Qed.

Lemma middle_split {A} (words : list A) :
  words <> [] -> exists x, words !! (length words / 2) = Some x
  /\ words = take (length words / 2) words ++ x :: drop (length words / 2 + 1) words.
Proof.
  intros Hne. assert (length words <> 0) by (by destruct words).
  destruct (lookup_lt_is_Some_2 words (length words / 2)) as [x Hx]; [apply Nat.div_lt; lia|].
  exists x. split; [done|]. rewrite Nat.add_1_r. by rewrite take_drop_middle.
Qed.

(** Building ends, and the tree it builds finds every word and every gap. *)
Lemma build_looks_up fuel words sigs offset :
  dictionary words -> length words < fuel -> offset + length words < length sigs ->
  exists tree, build_signed_dict_tree_inner fuel words sigs offset = Ok tree
  /\ looks_up words sigs offset tree.
Proof.
  revert words offset. induction fuel as [|fuel IH]; intros words offset Hd Hfuel Hsigs; [lia|].
  cbn [build_signed_dict_tree_inner]. destruct (decide (words = [])) as [->|Hne].
  - destruct (lookup_lt_is_Some_2 sigs offset) as [sig Hsig]; [cbn in Hsigs; lia|]. rewrite Hsig.
    eexists. split; [done|]. by apply looks_up_leaf.
  - destruct (middle_split words Hne) as (x & Hx & Hsplit). set (mid := length words / 2) in *.
    assert (mid < length words) as Hmid by by eapply lookup_lt_Some.
    pose proof Hd as Hd'. rewrite Hsplit in Hd'. pose proof Hd' as (Hda & Hdb & _)%dictionary_app.
    apply dictionary_cons in Hdb as (_ & _ & _ & Hdb).
    destruct (IH (take mid words) offset Hda) as (l & Hl & Hlookl); [rewrite length_take; lia..|].
    destruct (IH (drop (mid + 1) words) (offset + mid + 1) Hdb) as (r & Hr & Hlookr); [rewrite length_drop; lia..|].
    rewrite Hl, Hr, Hx. cbn [mbind result_bind default from_option]. destruct words as [|w words]; [done|].
    eexists. split; [reflexivity|]. rewrite Hsplit. apply looks_up_node; [done|done|].
    by rewrite length_take, Nat.min_l by lia.
Qed.
End trees.

(** ** The depth of the tree *)
Fixpoint dict_depth (tree : sexp) : nat :=
  match tree with
  | Pair left_node (Pair right_node _) => S (dict_depth left_node `max` dict_depth right_node)
  | _ => 0
  end.
Lemma build_depth {bls : Bls} fuel words sigs offset tree d :
  build_signed_dict_tree_inner fuel words sigs offset = Ok tree -> length words < 2 ^ d -> dict_depth tree <= d.
Proof.
  revert words offset tree d. induction fuel as [|fuel IH]; intros words offset tree d Hbuild Hd; [done|].
  cbn [build_signed_dict_tree_inner] in Hbuild. destruct words as [|w words].
  { destruct (sigs !! offset); [|done]. injection Hbuild as <-. cbn. lia. }
  set (mid := length (w :: words) / 2) in *.
  apply bind_Ok in Hbuild as (l & Hl & H). apply bind_Ok in H as (r & Hr & [= <-]).
  destruct d as [|d]; [cbn in Hd; lia|]. rewrite Nat.pow_succ_r' in Hd.
  assert (mid < 2 ^ d) as Hmid by (apply Nat.Div0.div_lt_upper_bound; lia).
  assert (length (w :: words) - (mid + 1) < 2 ^ d) as Hrest.
  { pose proof (Nat.div_mod_eq (length (w :: words)) 2) as H. fold mid in H.
    pose proof (Nat.mod_upper_bound (length (w :: words)) 2). lia. }
  apply (IH _ _ _ d) in Hl; [|rewrite length_take; lia].
  apply (IH _ _ _ d) in Hr; [|rewrite length_drop; lia]. cbn. lia.
Qed.

(** ** Signatures as bytes *)
Lemma sigs_roundtrip {bls : Bls} (sigs : list Aggsig) : sigs_from_bytes (sigs_to_bytes sigs) = Ok sigs.
Proof.
  assert (length (sigs_to_bytes sigs) = length sigs * 96) as Hlen.
  { unfold sigs_to_bytes. induction sigs as [|sig sigs IH]; [done|].
    cbn [fmap list_fmap concat]. rewrite length_app, IH, sig_bytes_length. cbn [length]. lia. }
  unfold sigs_from_bytes, check. rewrite Hlen, Nat.Div0.mod_mul, Nat.div_mul by lia. cbn. f_equal. clear Hlen.
  induction sigs as [|sig sigs IH]; [done|]. unfold sigs_to_bytes in *. cbn [fmap list_fmap concat length chunks_exact].
  rewrite take_app_length', drop_app_length' by (by rewrite sig_bytes_length). cbn. rewrite IH.
  unfold sig_from_bytes_or_default. by rewrite sig_from_to_bytes.
Qed.

(** ** Properties *)

(** The blobs, and the ranges they are written from. *)
Lemma in_gap_range words k r w :
  dictionary words -> all_ranges words !! k = Some r -> inhabited r = true ->
  in_gap w (gap_blob r) <-> within (word_value w) r.
Proof.
  intros Hd Hk Hin. destruct (ranges_bounded min_value max_value words k r) as [Hl Hh]; try done.
  - eapply Forall_impl; [exact (dict_words _ Hd)|]. by intros ? [].
  - by apply in_gap_blob.
Qed.
Lemma blob_range words gap :
  gap ∈ gap_blob <$> List.filter inhabited (all_ranges words) ->
  exists k r, all_ranges words !! k = Some r /\ inhabited r = true /\ gap = gap_blob r.
Proof.
  intros (r & -> & Hr)%list_elem_of_fmap. apply list_elem_of_In, List.filter_In in Hr as [Hr Hin].
  apply list_elem_of_In, list_elem_of_lookup in Hr as [k Hk]. by exists k, r.
Qed.
Lemma range_blob words k r v :
  all_ranges words !! k = Some r -> within v r ->
  exists i, List.filter inhabited (all_ranges words) !! i = Some r /\ inhabited r = true.
Proof.
  intros Hk Hv. assert (inhabited r = true) as Hin by (apply Z.leb_le; unfold within in Hv; lia).
  assert (r ∈ List.filter inhabited (all_ranges words)) as [i Hi]%list_elem_of_lookup; [|by exists i].
  apply list_elem_of_In, List.filter_In. split; [|done]. by apply list_elem_of_In, list_elem_of_lookup_2 with k.
Qed.

Section properties.
Context {arch : Arch} {sha2 : Sha2} {bigint : BigInt} {clvm : Clvm} {bls : Bls} {pairing : Pairing}.

(** C28: The evidence covers exactly the words outside of the dictionary.  For
    any ascending list of words that are not negative, the generated blobs
    leave out the words of the dictionary, and every other word of five bytes,
    a negative one too, lies in exactly one of them. *)
Theorem gaps_partition words (Hdict : dictionary words) :
  exists gaps, generate_gap_evidence words = Ok gaps
  /\ forall w, is_word w ->
     (w ∈ words /\ forall gap, gap ∈ gaps -> ~ in_gap w gap)
     \/ (w ∉ words /\ exists gap, gap ∈ gaps /\ in_gap w gap
         /\ forall gap', gap' ∈ gaps -> in_gap w gap' -> gap' = gap).
Proof.
  destruct (evidence_spec words Hdict) as [Hgaps _]. eexists. split; [exact Hgaps|]. intros w Hw.
  pose proof (nonneg_above _ Hdict) as Habove. pose proof (dict_sorted _ Hdict) as Hsorted.
  pose proof (dict_words _ Hdict) as Hall. rewrite Forall_forall in Hall.
  destruct (ranges_cover min_value max_value words (word_value w)) as [(x & Hx & Hv)|(k & r & Hk & Hr)].
  { by apply word_value_bounds. }
  - apply word_value_inj in Hv as ->; [|by apply Hall|done]. left. split; [done|].
    intros gap (k & r & Hk & Hin & ->)%blob_range Hgap%(in_gap_range _ _ _ _ Hdict Hk Hin).
    destruct (ranges_apart _ _ _ _ _ _ Habove Hsorted Hk Hgap) as [Hno _]. by apply (Hno w).
  - right. destruct (ranges_apart _ _ _ _ _ _ Habove Hsorted Hk Hr) as [Hno Huniq].
    split; [intros Hx; by apply (Hno w)|]. destruct (range_blob _ _ _ _ Hk Hr) as (i & Hi & Hin).
    exists (gap_blob r). split; [apply list_elem_of_fmap_2; by apply list_elem_of_lookup_2 with i|].
    split; [by apply (in_gap_range _ _ _ _ Hdict Hk Hin)|].
    intros gap (k' & r' & Hk' & Hin' & ->)%blob_range Hgap%(in_gap_range _ _ _ _ Hdict Hk' Hin').
    pose proof (Huniq _ _ Hk' Hgap) as ->. unfold all_ranges in Hk'. rewrite Hk in Hk'. by injection Hk' as ->.
Qed.

(** What a player signs, the other finds valid. *)
Lemma signed_gaps_verify sk aggregate_pk words gaps :
  generate_gap_evidence words = Ok gaps ->
  verify_gap_signatures (sign_gap_evidence sk aggregate_pk gaps) (sk_public sk) aggregate_pk words = Ok tt.
Proof.
  intros Hgaps. unfold verify_gap_signatures, check. rewrite Hgaps. cbn [mbind result_bind].
  unfold sign_gap_evidence. rewrite length_fmap, Nat.eqb_refl. cbn [mbind result_bind].
  enough (forallb (fun '(sig, gap) => partial_signature_valid (sk_public sk) aggregate_pk sig gap)
    (zip (partial_signer sk aggregate_pk <$> gaps) gaps) = true) as -> by done.
  clear Hgaps. induction gaps as [|gap gaps IH]; [done|]. cbn [fmap list_fmap zip zip_with forallb].
  rewrite IH, andb_true_r. unfold partial_signature_valid, partial_signer. rewrite <-sign_raw_scalar.
  by apply bool_decide_eq_true_2, pair_partial.
Qed.

(** C37: a word that is not in the dictionary is convicted by both players.
    Both sign the evidence and accept each other's signatures; the tree of the
    sums is built, no deeper than the logarithm of the dictionary; and looking
    up a word of five bytes in it, as the puzzles do, finds the word or else the
    bounds and the joint signature of a blob of evidence that covers it.  The
    lookup of the program does the same for a word that is not negative. *)
Theorem signed_dictionary_convicts sk1 sk2 words (Hdict : dictionary words) :
  let pk := pk_add (sk_public sk1) (sk_public sk2) in
  exists gaps, generate_gap_evidence words = Ok gaps
  /\ let sigs1 := sign_gap_evidence sk1 pk gaps in
     let sigs2 := sign_gap_evidence sk2 pk gaps in
     verify_gap_signatures sigs1 (sk_public sk1) pk words = Ok tt
  /\ verify_gap_signatures sigs2 (sk_public sk2) pk words = Ok tt
  /\ exists tree,
     (full ← expand_signatures_for_tree words (zip_with sig_add sigs1 sigs2);
      build_signed_dict_tree words full) = Ok tree
  /\ dict_depth tree <= S (Nat.log2 (length words))
  /\ forall w, is_word w ->
     (w ∈ words /\ dict_lookup min_value max_value w tree = Ok None
      /\ ((0 <= word_value w)%Z -> lookup_gap_signature tree w = Ok None))
     \/ (w ∉ words /\ exists l h sig,
         let gap := word_of l ++ word_of h in
         gap ∈ gaps /\ in_gap w gap /\ sig_verify sig pk gap = true
         /\ dict_lookup min_value max_value w tree = Ok (Some (l, h, Atom (sig_bytes sig)))
         /\ ((0 <= word_value w)%Z -> lookup_gap_signature tree w = Ok (Some sig))).
Proof.
  intros pk. destruct (evidence_spec words Hdict) as [Hgaps Hmask]. eexists. split; [exact Hgaps|].
  cbv zeta. split; [by apply signed_gaps_verify|]. split; [by apply signed_gaps_verify|].
  set (sigs := zip_with _ _ _).
  destruct (fill_mask_spec inhabited (all_ranges words) sigs) as (full & Hfull & Hlen & Hspec).
  { subst sigs. unfold sign_gap_evidence. rewrite length_zip_with, !length_fmap. lia. }
  destruct (build_looks_up (S (length words)) words full 0 Hdict) as (tree & Htree & Hlook); [lia| |].
  { rewrite Hlen. unfold all_ranges. rewrite ranges_length. lia. }
  exists tree. unfold expand_signatures_for_tree. rewrite Hmask. cbn [mbind result_bind]. rewrite Hfull.
  cbn [mbind result_bind]. split; [exact Htree|]. split.
  { eapply build_depth; [exact Htree|]. destruct words as [|x words']; [cbn; lia|].
    apply Nat.log2_spec. cbn. lia. }
  intros w Hw. destruct (Hlook _ _ w Hw (word_value_bounds w Hw)) as [Hin|(k & r & sig & Hk & Hr & Hsig & Hc & Hrust)];
    [by left|right].
  destruct (ranges_apart _ _ _ _ _ _ (nonneg_above _ Hdict) (dict_sorted _ Hdict) Hk Hr) as [Hno _].
  split; [intros Hx; by apply (Hno w)|].
  destruct (range_blob words k r _ Hk Hr) as (_ & _ & Hin).
  destruct (Hspec _ _ Hk Hin) as (i & sig' & Hi & Hsig' & Hfullk).
  change (0 + k) with k in Hsig. rewrite Hsig in Hfullk. injection Hfullk as <-.
  exists r.1, r.2, sig. split; [|split; [by apply (in_gap_range _ _ _ _ Hdict Hk Hin)|]].
  { apply (list_elem_of_fmap_2 gap_blob). by apply list_elem_of_lookup_2 with i. }
  split; [|by split].
  subst sigs. apply lookup_zip_with_Some in Hsig' as (s1 & s2 & -> & Hs1 & Hs2).
  unfold sign_gap_evidence in Hs1, Hs2. rewrite !list_lookup_fmap, Hi in Hs1, Hs2.
  injection Hs1 as <-. injection Hs2 as <-. unfold partial_signer. rewrite <-!sign_raw_scalar.
  apply partial_signatures_verify.
Qed.
End properties.

Module Witnesses.
Import Toy.

#[export] Program Instance toy_pairing : Pairing := {|
  GTElement := byte;
  pair_with sig pk := toy_mul sig pk;
  pk_generator := x01;
|}.
Next Obligation.
  intros sk m. cbn. unfold toy_mul. rewrite !to_N_byte_of_N. unfold byte_of_N.
  change (Byte.to_N x01) with 1%N. rewrite N.mul_1_r, N.Div0.mod_mod. do 3 f_equal. lia.
Qed.

Definition alpha : bytes := [x61; x6c; x70; x68; x61].
Definition crane : bytes := [x63; x72; x61; x6e; x65].
Definition cranf : bytes := [x63; x72; x61; x6e; x66].
Definition words : list bytes := [alpha; crane; cranf].
Definition sharp : bytes := [x73; x68; x61; x72; x70].
Definition negative : bytes := [xff; x00; x00; x00; x00].

Definition key1 : @PrivateKey toy_bls := x07.
Definition key2 : @PrivateKey toy_bls := x0b.

Lemma words_dictionary : dictionary words.
Proof.
  split.
  - repeat constructor; vm_compute; congruence.
  - repeat constructor; vm_compute; reflexivity.
Qed.

Lemma sharp_absent : sharp ∉ words.
Proof. by repeat (intros [?|H]%elem_of_cons; [done|revert H]); intros ?%elem_of_nil. Qed.

Lemma gaps_partition_witness :
  exists gaps, generate_gap_evidence words = Ok gaps
  /\ exists gap, gap ∈ gaps /\ in_gap sharp gap /\ forall gap', gap' ∈ gaps -> in_gap sharp gap' -> gap' = gap.
Proof.
  destruct (gaps_partition words words_dictionary) as (gaps & Hgaps & Hall). exists gaps. split; [exact Hgaps|].
  destruct (Hall sharp) as [[Hin _]|[_ Hgap]]; [reflexivity| |exact Hgap].
  exfalso. exact (sharp_absent Hin).
Defined.

Lemma signed_dictionary_convicts_witness :
  let pk := pk_add (sk_public key1) (sk_public key2) in
  exists gaps, generate_gap_evidence words = Ok gaps
  /\ exists tree gap sig, gap ∈ gaps /\ in_gap sharp gap /\ sig_verify sig pk gap = true
     /\ lookup_gap_signature tree sharp = Ok (Some sig).
Proof.
  intros pk.
  destruct (signed_dictionary_convicts key1 key2 words words_dictionary)
    as (gaps & Hgaps & _ & _ & tree & _ & _ & Hall).
  exists gaps. split; [exact Hgaps|].
  destruct (Hall sharp) as [[Hin _]|[_ (l & h & sig & Hgap & Hcovers & Hsig & _ & Hlook)]].
  - reflexivity.
  - exfalso. exact (sharp_absent Hin).
  - exists tree, (word_of l ++ word_of h), sig. split; [exact Hgap|]. split; [exact Hcovers|].
    split; [exact Hsig|]. apply Hlook. vm_compute. discriminate.
Defined.

(** A word whose top bit is set is smaller than all others to the puzzles, and
    greater than all others to the program: they find different leaves. *)
Definition some_sigs : list (@Aggsig toy_bls) := [x01; x02; x03; x04].
Lemma negative_word_wrong_leaf :
  exists tree, build_signed_dict_tree words some_sigs = Ok tree
  /\ dict_lookup min_value max_value negative tree
     = Ok (Some (min_value, word_value alpha - 1, Atom (sig_bytes (x01 : @Aggsig toy_bls))))%Z
  /\ lookup_gap_signature tree negative = Ok (Some x04).
Proof. eexists. split; [vm_compute; reflexivity|]. split; vm_compute; reflexivity. Qed.
End Witnesses.
