(* ===== verification/BencodexSer.v ===== *)
(** * The Bencodex serializer

    [src/bencodex/src/ser.rs].  What a [Serialize] implementation does with a
    serializer is its data: the calls of serde's data model, as a tree. *)
From S2P Require Import Prelude Text.
From Stdlib Require Strings.String.

(** [bencodex::Error]; the last two are not values of it: a panic, and a
    recursion of the model cut short, which never happens with enough fuel. *)
Inductive BError : Type :=
| BMessage (msg : string)
| BEof
| BInvalidData (msg : string)
| BPanicked (msg : string)
| BOutOfFuel.

(** What a value tells the serializer.  Strings and names are their UTF-8
    bytes; [SInt] stands for every integer type but [u8], [i128] and [u128]. *)
Inductive SValue : Type :=
| SBool (v : bool)
| SU8 (v : byte)
| SInt (v : Z)
| SI128 (v : Z)
| SU128 (v : Z)
| SFloat
| SChar (v : bytes)
| SStr (v : bytes)
| SBytes (v : bytes)
| SNone
| SSome (v : SValue)
| SUnit
| SUnitStruct
| SUnitVariant (variant : bytes)
| SNewtypeStruct (v : SValue)
| SNewtypeVariant (variant : bytes) (v : SValue)
| SSeq (l : list SValue)
| STuple (l : list SValue)
| STupleStruct (l : list SValue)
| STupleVariant (variant : bytes) (l : list SValue)
| SMap (l : list (SValue * SValue))
| SStruct (l : list (bytes * SValue))
| SStructVariant (variant : bytes) (l : list (bytes * SValue)).

(** ** Writers *)
Definition c_colon : byte := x3a.
Definition c_b : byte := x62.
Definition c_d : byte := x64.
Definition c_e : byte := x65.
Definition c_f : byte := x66.
Definition c_i : byte := x69.
Definition c_l : byte := x6c.
Definition c_n : byte := x6e.
Definition c_t : byte := x74.
Definition c_u : byte := x75.

Definition write_bytestring (bs : bytes) : bytes :=
  nat_digits (N.of_nat (length bs)) ++ c_colon :: bs.
Definition write_unicode (s : bytes) : bytes :=
  c_u :: nat_digits (N.of_nat (length s)) ++ c_colon :: s.
Definition write_int (v : Z) : bytes := c_i :: int_digits v ++ [c_e].

(** [v as i128] *)
Definition as_i128 (v : Z) : Z := (v + 2 ^ 127) mod 2 ^ 128 - 2 ^ 127.

(** ** Keys *)
Inductive DictKey : Type :=
| KBytes (b : bytes)
| KUnicode (b : bytes).
#[export] Instance DictKey_eq_dec : EqDecision DictKey.
Proof. solve_decision. Defined.

Definition DictKey_write_to (k : DictKey) : bytes :=
  match k with
  | KBytes b => write_bytestring b
  | KUnicode b => c_u :: nat_digits (N.of_nat (length b)) ++ c_colon :: b
  end.

Definition DictKey_cmp (k k' : DictKey) : comparison :=
  match k, k' with
  | KBytes a, KBytes b => bytes_cmp a b
  | KUnicode a, KUnicode b => bytes_cmp a b
  | KBytes _, KUnicode _ => Lt
  | KUnicode _, KBytes _ => Gt
  end.

(** [entries.sort_by(|(a, _), (b, _)| a.cmp(b))], the stable sort. *)
Definition key_le (k k' : DictKey) : bool :=
  match DictKey_cmp k k' with Gt => false | _ => true end.
Section sort.
Context {A : Type}.
Fixpoint insert_entry (e : DictKey * A) (l : list (DictKey * A)) : list (DictKey * A) :=
  match l with
  | [] => [e]
  | e' :: l' => if key_le e.1 e'.1 then e :: l else e' :: insert_entry e l'
  end.
Fixpoint sort_entries (l : list (DictKey * A)) : list (DictKey * A) :=
  match l with [] => [] | e :: l => insert_entry e (sort_entries l) end.
End sort.

Definition not_a_key (what : string) : result BError DictKey := Err (BMessage what).

(** [KeyCapture]: the key a value serializes to. *)
Fixpoint key_capture (v : SValue) : result BError DictKey :=
  match v with
  | SStr s => Ok (KUnicode s)
  | SBytes b => Ok (KBytes b)
  | SU8 b => Ok (KBytes [b])
  | SInt z => Ok (KUnicode (int_digits z))
  | SI128 _ => not_a_key "i128 is not supported"
  | SU128 _ => not_a_key "u128 is not supported"
  | SBool _ => not_a_key "bool cannot be a dict key"
  | SFloat => not_a_key "float cannot be a dict key"
  | SChar c => Ok (KUnicode c)
  | SNone => not_a_key "none cannot be a dict key"
  | SSome v => key_capture v
  | SUnit => not_a_key "unit cannot be a dict key"
  | SUnitStruct => not_a_key "unit struct cannot be a dict key"
  | SUnitVariant variant => Ok (KUnicode variant)
  | SNewtypeStruct v => key_capture v
  | SNewtypeVariant _ _ => not_a_key "newtype variant cannot be a dict key"
  | SSeq _ => not_a_key "seq cannot be a dict key"
  | STuple _ => not_a_key "tuple cannot be a dict key"
  | STupleStruct _ => not_a_key "tuple struct cannot be a dict key"
  | STupleVariant _ _ => not_a_key "tuple variant cannot be a dict key"
  | SMap _ => not_a_key "map cannot be a dict key"
  | SStruct _ => not_a_key "struct cannot be a dict key"
  | SStructVariant _ _ => not_a_key "struct variant cannot be a dict key"
  end.

(** ** Sequences that may be byte strings *)
Inductive SeqState : Type :=
| SeqEmpty
| SeqBytes (b : bytes)
| SeqList.

(** [U8Probe]: the value itself is a [u8]; what it wraps does not count. *)
Definition U8Probe (v : SValue) : option byte := match v with SU8 b => Some b | _ => None end.

(** The state and what was written so far. *)
Definition switch_to_list (st : SeqState) (out : bytes) : SeqState * bytes :=
  let prior := match st with SeqBytes b => b | _ => [] end in
  (SeqList, out ++ c_l :: concat ((fun b => write_int (Z.of_N (Byte.to_N b))) <$> prior)).

(** ** Dictionaries *)
Record DictCollector := mkDictCollector {
  dc_entries : list (DictKey * bytes);
  dc_current_key : option DictKey;
}.
Definition new_collector : DictCollector := mkDictCollector [] None.

Definition write_entries (entries : list (DictKey * bytes)) : bytes :=
  concat ((fun e : DictKey * bytes => DictKey_write_to e.1 ++ e.2) <$> sort_entries entries).
Definition DictCollector_flush (c : DictCollector) : bytes :=
  c_d :: write_entries (dc_entries c) ++ [c_e].

Section elements.
Variable serialize : SValue -> result BError bytes.

Definition serialize_seq_element (v : SValue) (s : SeqState * bytes)
    : result BError (SeqState * bytes) :=
  let '(st, out) := s in
  match st with
  | SeqList => b ← serialize v; mret (SeqList, out ++ b)
  | _ =>
      match U8Probe v with
      | Some b => mret (SeqBytes (match st with SeqBytes bs => bs ++ [b] | _ => [b] end), out)
      | None => let '(st, out) := switch_to_list st out in b ← serialize v; mret (st, out ++ b)
      end
  end.
Definition serialize_seq_end (s : SeqState * bytes) : bytes :=
  match s.1 with
  | SeqEmpty => s.2 ++ [c_l; c_e]
  | SeqBytes b => s.2 ++ write_bytestring b
  | SeqList => s.2 ++ [c_e]
  end.
Fixpoint seq_elements (l : list SValue) (s : SeqState * bytes) : result BError (SeqState * bytes) :=
  match l with
  | [] => Ok s
  | v :: l => s ← serialize_seq_element v s; seq_elements l s
  end.

(** The elements of a tuple, one after the other. *)
Fixpoint tuple_elements (l : list SValue) : result BError bytes :=
  match l with
  | [] => Ok []
  | v :: l => b ← serialize v; bs ← tuple_elements l; mret (b ++ bs)
  end.

Definition serialize_key (key : SValue) (c : DictCollector) : result BError DictCollector :=
  k ← key_capture key; mret (mkDictCollector (dc_entries c) (Some k)).
Definition serialize_value (v : SValue) (c : DictCollector) : result BError DictCollector :=
  match dc_current_key c with
  | None => Err (BMessage "value without key")
  | Some key => b ← serialize v; mret (mkDictCollector (dc_entries c ++ [(key, b)]) None)
  end.
Fixpoint map_entries (l : list (SValue * SValue)) (c : DictCollector) : result BError DictCollector :=
  match l with
  | [] => Ok c
  | (k, v) :: l => c ← serialize_key k c; c ← serialize_value v c; map_entries l c
  end.

Definition serialize_field (name : bytes) (v : SValue) (entries : list (DictKey * bytes))
    : result BError (list (DictKey * bytes)) :=
  b ← serialize v; mret (entries ++ [(KUnicode name, b)]).
Fixpoint struct_fields (l : list (bytes * SValue)) (entries : list (DictKey * bytes))
    : result BError (list (DictKey * bytes)) :=
  match l with
  | [] => Ok entries
  | (name, v) :: l => entries ← serialize_field name v entries; struct_fields l entries
  end.
End elements.

(** ** The serializer: what a value writes *)
Fixpoint serialize (v : SValue) : result BError bytes :=
  match v with
  | SBool b => Ok [if b then c_t else c_f]
  | SU8 b => Ok (write_int (Z.of_N (Byte.to_N b)))
  | SInt z | SI128 z => Ok (write_int z)
  | SU128 z => Ok (write_int (as_i128 z))
  | SFloat => Err (BMessage "bencodex does not support floats")
  | SChar s | SStr s => Ok (write_unicode s)
  | SBytes b => Ok (write_bytestring b)
  | SNone | SUnit | SUnitStruct => Ok [c_n]
  | SSome v | SNewtypeStruct v => serialize v
  | SUnitVariant variant => Ok (write_unicode variant)
  | SNewtypeVariant variant v =>
      b ← serialize v; mret (c_d :: write_unicode variant ++ b ++ [c_e])
  | SSeq l => s ← seq_elements serialize l (SeqEmpty, []); mret (serialize_seq_end s)
  | STuple l | STupleStruct l => b ← tuple_elements serialize l; mret (c_l :: b ++ [c_e])
  | STupleVariant variant l =>
      b ← tuple_elements serialize l; mret (c_d :: write_unicode variant ++ c_l :: b ++ [c_e; c_e])
  | SMap l => c ← map_entries serialize l new_collector; mret (DictCollector_flush c)
  | SStruct l =>
      entries ← struct_fields serialize l [];
      mret (DictCollector_flush (mkDictCollector entries None))
  | SStructVariant variant l =>
      entries ← struct_fields serialize l [];
      mret (c_d :: write_unicode variant ++ c_d :: write_entries entries ++ [c_e; c_e])
  end.

Definition to_vec (v : SValue) : result BError bytes := serialize v.

(** Examples of the crate's tests. *)
Example struct_field_sorting :
  to_vec (SStruct [([x7a], SInt 3); ([x61], SInt 1); ([x6d], SInt 2)])
  = Ok (String.list_byte_of_string "du1:ai1eu1:mi2eu1:zi3ee").
Proof. reflexivity. Qed.
Example simple_list :
  to_vec (SSeq [SInt 1; SInt 2; SInt 3]) = Ok (String.list_byte_of_string "li1ei2ei3ee").
Proof. reflexivity. Qed.
Example byte_list :
  to_vec (SSeq [SU8 x73; SU8 x70]) = Ok (String.list_byte_of_string "2:sp").
Proof. reflexivity. Qed.
