(* ===== verification/BencodexDe.v ===== *)
(** * The Bencodex deserializer

    [src/bencodex/src/de.rs]: reading integers, byte strings and text, and the
    methods a type's visitor is served through.  A visitor belongs to the type
    that is decoded: it is an argument. *)
From S2P Require Import Prelude Text BencodexSer.

(** What reads the input: a result and the input left. *)
Definition De (A : Type) : Type := bytes -> result BError (A * bytes).
#[export] Instance De_ret : MRet De := fun A a input => Ok (a, input).
#[export] Instance De_bind : MBind De := fun A B f m input =>
  match m input with Ok (a, rest) => f a rest | Err e => Err e end.
Definition de_err {A} (e : BError) : De A := fun _ => Err e.
Definition de_lift {A} (r : result BError A) : De A := fun input => a ← r; Ok (a, input).

Section de.
Context {arch : Arch}.

Definition peek : De byte := fun input =>
  match input with [] => Err BEof | b :: _ => Ok (b, input) end.
(** [&self.input[n..]] *)
Definition advance (n : nat) : De unit := fun input =>
  if n <=? length input then Ok (tt, drop n input)
  else Err (BPanicked "range start index out of range").
Definition rest_of_input : De bytes := fun input => Ok (input, input).

Definition consume_end : De unit :=
  b ← peek;
  if bool_decide (b = c_e) then advance 1 else de_err (BInvalidData "expected 'e' terminator").

Definition is_byte (c b : byte) : bool := bool_decide (b = c).

Definition parse_int_value : De Z :=
  input ← rest_of_input;
  stop ← de_lift (ok_or (BInvalidData "unterminated integer") (position (is_byte c_e) input));
  let digits := take stop input in
  _ ← de_lift (check (utf8_valid digits) (BInvalidData "non-utf8_valid in integer"));
  _ ← de_lift (check (negb (match digits with
                            | b :: c :: _ => bool_decide (b = c_minus) && bool_decide (c = x30)
                                             || bool_decide (b = x30)
                            | _ => false
                            end)) (BInvalidData "invalid integer encoding"));
  val ← de_lift (ok_or (BInvalidData "cannot parse integer") (parse_i128 digits));
  _ ← advance (stop + 1);
  mret val.

(** [start + len] is a [usize] sum, which wraps in a release build. *)
Definition parse_bytestring : De bytes :=
  input ← rest_of_input;
  colon ← de_lift (ok_or (BInvalidData "missing ':' in bytestring") (position (is_byte c_colon) input));
  let len_str := take colon input in
  _ ← de_lift (check (utf8_valid len_str) (BInvalidData "non-utf8_valid in bytestring length"));
  len ← de_lift (ok_or (BInvalidData "bad bytestring length") (parse_unsigned usize_modulus len_str));
  let start := N.of_nat (colon + 1) in
  let stop := usize_add start len in
  if (N.of_nat (length input) <? stop)%N then de_err BEof
  else if (stop <? start)%N then de_err (BPanicked "slice index starts after its end")
  else
    let data := take (N.to_nat (stop - start)) (drop (colon + 1) input) in
    _ ← advance (N.to_nat stop);
    mret data.

Definition parse_unicode : De bytes :=
  bs ← parse_bytestring;
  _ ← de_lift (check (utf8_valid bs) (BInvalidData "invalid utf-8 in unicode string"));
  mret bs.

(** ** Visitors *)

(** A seed decodes one element: from this deserializer, or from a single byte. *)
Record Seed (T : Type) := mkSeed {
  seed_de : De T;
  seed_u8 : byte -> result BError T;
}.
Arguments mkSeed {T}. Arguments seed_de {T}. Arguments seed_u8 {T}.

(** [SeqAccess] and [MapAccess], over the state [St] of the access; what the
    visitor is served through is generic in it. *)
Definition SeqAccess (St : Type) : Type :=
  forall T, Seed T -> St -> result BError (option T * St).
Record MapAccess := mkMapAccess {
  next_key_seed : forall K, Seed K -> De (option K);
  next_value_seed : forall V, Seed V -> De V;
}.
Definition SeqVisit (V : Type) : Type := forall St, SeqAccess St -> St -> result BError (V * St).
Definition MapVisit (V : Type) : Type := MapAccess -> De V.

Record VariantAccess := mkVariantAccess {
  unit_variant : De unit;
  newtype_variant_seed : forall T, Seed T -> De T;
  tuple_variant : forall V, SeqVisit V -> De V;
  struct_variant : forall V, MapVisit V -> De V;
}.
Definition EnumAccess : Type := forall K, Seed K -> De (K * VariantAccess).

Record Visitor (V : Type) := mkVisitor {
  visit_unit : result BError V;
  visit_bool : bool -> result BError V;
  visit_u64 : Z -> result BError V;
  visit_i64 : Z -> result BError V;
  visit_i128 : Z -> result BError V;
  visit_borrowed_str : bytes -> result BError V;
  visit_borrowed_bytes : bytes -> result BError V;
  visit_none : result BError V;
  visit_some : De V;
  visit_newtype_struct : De V;
  visit_seq : SeqVisit V;
  visit_map : MapVisit V;
  visit_enum : EnumAccess -> De V;
}.
Arguments visit_unit {V}. Arguments visit_bool {V}. Arguments visit_u64 {V}.
Arguments visit_i64 {V}. Arguments visit_i128 {V}. Arguments visit_borrowed_str {V}.
Arguments visit_borrowed_bytes {V}. Arguments visit_none {V}. Arguments visit_some {V}.
Arguments visit_newtype_struct {V}. Arguments visit_seq {V}. Arguments visit_map {V}.
Arguments visit_enum {V}.

(** *** The accesses of this deserializer *)
Definition ListAccess : SeqAccess bytes := fun T seed input =>
  match peek input with
  | Err e => Err e
  | Ok (b, _) =>
      if bool_decide (b = c_e) then Ok (None, input)
      else match seed_de seed input with Ok (v, rest) => Ok (Some v, rest) | Err e => Err e end
  end.

(** A byte string as a sequence of [u8]; the state is what is left of it. *)
Definition BytesSeqAccess : SeqAccess bytes := fun T seed bs =>
  match bs with
  | [] => Ok (None, bs)
  | b :: rest => match seed_u8 seed b with Ok v => Ok (Some v, rest) | Err e => Err e end
  end.

Definition DictAccess : MapAccess := {|
  next_key_seed := fun K seed input =>
    match peek input with
    | Err e => Err e
    | Ok (b, _) =>
        if bool_decide (b = c_e) then Ok (None, input)
        else match seed_de seed input with Ok (k, rest) => Ok (Some k, rest) | Err e => Err e end
    end;
  next_value_seed := fun V seed => seed_de seed;
|}.

Definition unit_only : De unit := mret tt.
Definition UnitOnly : VariantAccess := {|
  unit_variant := unit_only;
  newtype_variant_seed := fun T _ => de_err (BMessage "expected unit variant");
  tuple_variant := fun V _ => de_err (BMessage "expected unit variant");
  struct_variant := fun V _ => de_err (BMessage "expected unit variant");
|}.
Definition UnitVariantAccess : EnumAccess := fun K seed =>
  val ← seed_de seed; mret (val, UnitOnly).

Definition DictVariantValue : VariantAccess := {|
  unit_variant := de_err (BMessage "expected non-unit variant in dict");
  newtype_variant_seed := fun T seed => val ← seed_de seed; _ ← consume_end; mret val;
  tuple_variant := fun V visit =>
    b ← peek;
    if bool_decide (b = c_l) then
      _ ← advance 1; result ← visit bytes ListAccess; _ ← consume_end; _ ← consume_end; mret result
    else de_err (BInvalidData "expected list for tuple variant");
  struct_variant := fun V visit =>
    b ← peek;
    if bool_decide (b = c_d) then
      _ ← advance 1; result ← visit DictAccess; _ ← consume_end; _ ← consume_end; mret result
    else de_err (BInvalidData "expected dict for struct variant");
|}.
Definition DictVariantAccess : EnumAccess := fun K seed =>
  val ← seed_de seed; mret (val, DictVariantValue).

(** ** The methods of the deserializer *)
Section methods.
Context {V : Type}.
Variable v : Visitor V.

Definition visit_list : De V :=
  _ ← advance 1; result ← visit_seq v bytes ListAccess; _ ← consume_end; mret result.
Definition visit_dict : De V :=
  _ ← advance 1; result ← visit_map v DictAccess; _ ← consume_end; mret result.
Definition visit_int (val : Z) : result BError V :=
  if (0 <=? val)%Z && (val <=? 2 ^ 64 - 1)%Z then visit_u64 v val
  else if (- 2 ^ 63 <=? val)%Z && (val <? 0)%Z then visit_i64 v val
  else visit_i128 v val.

Definition deserialize_any : De V :=
  b ← peek;
  if bool_decide (b = c_n) then _ ← advance 1; de_lift (visit_unit v)
  else if bool_decide (b = c_t) then _ ← advance 1; de_lift (visit_bool v true)
  else if bool_decide (b = c_f) then _ ← advance 1; de_lift (visit_bool v false)
  else if bool_decide (b = c_i) then _ ← advance 1; val ← parse_int_value; de_lift (visit_int val)
  else if bool_decide (b = c_l) then visit_list
  else if bool_decide (b = c_d) then visit_dict
  else if bool_decide (b = c_u) then
    _ ← advance 1; s ← parse_unicode; de_lift (visit_borrowed_str v s)
  else if is_digit b then bs ← parse_bytestring; de_lift (visit_borrowed_bytes v bs)
  else de_err (BInvalidData "unexpected byte").

Definition deserialize_bool : De V :=
  b ← peek;
  if bool_decide (b = c_t) then _ ← advance 1; de_lift (visit_bool v true)
  else if bool_decide (b = c_f) then _ ← advance 1; de_lift (visit_bool v false)
  else deserialize_any.

(** [i8] to [i128] and [u8] to [u128], [char], [str] and [string]. *)
Definition deserialize_number : De V := deserialize_any.
Definition deserialize_str : De V := deserialize_any.
Definition deserialize_float : De V := de_err (BMessage "bencodex does not support floats").

Definition deserialize_bytes : De V :=
  b ← peek;
  if is_digit b then bs ← parse_bytestring; de_lift (visit_borrowed_bytes v bs)
  else deserialize_any.
Definition deserialize_byte_buf : De V := deserialize_bytes.

Definition deserialize_option : De V :=
  b ← peek;
  if bool_decide (b = c_n) then _ ← advance 1; de_lift (visit_none v) else visit_some v.

Definition deserialize_unit : De V :=
  b ← peek;
  if bool_decide (b = c_n) then _ ← advance 1; de_lift (visit_unit v) else deserialize_any.
Definition deserialize_unit_struct : De V := deserialize_unit.
Definition deserialize_newtype_struct : De V := visit_newtype_struct v.

Definition deserialize_seq : De V :=
  b ← peek;
  if bool_decide (b = c_l) then visit_list
  else if is_digit b then
    bs ← parse_bytestring;
    de_lift (fst <$> visit_seq v bytes BytesSeqAccess bs)
  else deserialize_any.
Definition deserialize_tuple : De V := deserialize_seq.
Definition deserialize_tuple_struct : De V := deserialize_seq.

Definition deserialize_map : De V :=
  b ← peek; if bool_decide (b = c_d) then visit_dict else deserialize_any.
Definition deserialize_struct : De V := deserialize_map.

Definition deserialize_enum : De V :=
  b ← peek;
  if bool_decide (b = c_u) then visit_enum v UnitVariantAccess
  else if bool_decide (b = c_d) then _ ← advance 1; visit_enum v DictVariantAccess
  else deserialize_any.

Definition deserialize_identifier : De V :=
  b ← peek;
  if bool_decide (b = c_u) then
    _ ← advance 1; s ← parse_unicode; de_lift (visit_borrowed_str v s)
  else if is_digit b then
    bs ← parse_bytestring;
    de_lift (if utf8_valid bs then visit_borrowed_str v bs else visit_borrowed_bytes v bs)
  else deserialize_any.
Definition deserialize_ignored_any : De V := deserialize_any.
End methods.

(** [from_slice::<T>], given how a [T] is deserialized. *)
Definition from_slice {T} (deserialize : De T) (input : bytes) : result BError T :=
  match deserialize input with
  | Ok (value, []) => Ok value
  | Ok (_, _) => Err (BInvalidData "trailing bytes after value")
  | Err e => Err e
  end.
End de.
