(* ===== verification/ProtocolPretty.v ===== *)
(** * The untyped view of serialized state

    [src/src/protocol_pretty.rs]: any Bencodex text as a tree, and the text the
    dashboard shows for it, with some of it elided. *)
From S2P Require Import Prelude Text BencodexSer BencodexDe.
From Stdlib Require Strings.String.

Inductive BencodexValue : Type :=
| VNull
| VBool (b : bool)
| VInt (z : Z)
| VBytes (bs : bytes)
| VText (s : bytes)
| VList (items : list BencodexValue)
| VMap (entries : list (BencodexValue * BencodexValue)).

(** ** Reading *)
Section read.
Context {arch : Arch}.

(** A value is never read from a single byte by this visitor's sequences. *)
Definition value_seed (self : De BencodexValue) : Seed BencodexValue :=
  mkSeed _ self (fun b => Ok (VInt (Z.of_N (Byte.to_N b)))).

(** [while let Some(item) = seq.next_element()? { items.push(item) }] *)
Fixpoint collect_items (fuel : nat) (seed : Seed BencodexValue) {St} (seq : SeqAccess St)
    (items : list BencodexValue) (st : St) : result BError (list BencodexValue * St) :=
  match fuel with
  | O => Err BOutOfFuel
  | S fuel =>
      '(item, st) ← seq BencodexValue seed st;
      match item with
      | Some item => collect_items fuel seed seq (items ++ [item]) st
      | None => Ok (items, st)
      end
  end.

(** [while let Some((k, v)) = map.next_entry()? { entries.push((k, v)) }] *)
Fixpoint collect_entries (fuel : nat) (seed : Seed BencodexValue) (map : MapAccess)
    (entries : list (BencodexValue * BencodexValue)) : De (list (BencodexValue * BencodexValue)) :=
  match fuel with
  | O => de_err BOutOfFuel
  | S fuel =>
      key ← next_key_seed map _ seed;
      match key with
      | Some k => v ← next_value_seed map _ seed; collect_entries fuel seed map (entries ++ [(k, v)])
      | None => mret entries
      end
  end.

Definition ValueVisitor (fuel : nat) (self : De BencodexValue) : Visitor BencodexValue := {|
  visit_unit := Ok VNull;
  visit_bool := fun v => Ok (VBool v);
  visit_u64 := fun v => Ok (VInt v);
  visit_i64 := fun v => Ok (VInt v);
  visit_i128 := fun v => Ok (VInt v);
  visit_borrowed_str := fun s => Ok (VText s);
  visit_borrowed_bytes := fun bs => Ok (VBytes bs);
  visit_none := Ok VNull;
  visit_some := self;
  visit_newtype_struct := de_err (BMessage "invalid type: newtype struct, expected any bencodex value");
  visit_seq := fun St seq st =>
    '(items, st) ← collect_items fuel (value_seed self) seq [] st; Ok (VList items, st);
  visit_map := fun map => entries ← collect_entries fuel (value_seed self) map []; mret (VMap entries);
  visit_enum := fun _ => de_err (BMessage "invalid type: enum, expected any bencodex value");
|}.

(** The recursion of [BencodexValue::deserialize]; every level and every
    element takes a byte of the input, so its length and one is fuel enough. *)
Fixpoint BencodexValue_deserialize (fuel : nat) : De BencodexValue :=
  match fuel with
  | O => de_err BOutOfFuel
  | S fuel' => deserialize_any (ValueVisitor fuel (BencodexValue_deserialize fuel'))
  end.

Definition BencodexValue_from_slice (input : bytes) : result BError BencodexValue :=
  from_slice (BencodexValue_deserialize (S (length input))) input.
End read.

(** ** Printing

    [hex::encode] is a parameter. *)
Class Hex := { hex_encode : bytes -> bytes }.

Section pretty.
Context {hex : Hex}.

Definition str (s : string) : bytes := String.list_byte_of_string s.
Definition c_space : byte := x20.
Definition c_newline : byte := x0a.
Definition c_quote : byte := x22.

Definition ELIDE_BYTES_OVER : nat := 80.

Definition push_indent (indent : nat) : bytes := concat (replicate indent [c_space; c_space]).

Definition bool_repr (b : bool) : bytes := str (if b then "true" else "false").

Definition key_to_string (key : BencodexValue) : bytes :=
  match key with
  | VText s => s
  | VBytes b => str "0x" ++ hex_encode b
  | VInt i => int_digits i
  | VBool b => bool_repr b
  | VNull => str "null"
  | VList _ | VMap _ => str "<key>"
  end.

Definition bytes_repr (b : bytes) : bytes :=
  if ELIDE_BYTES_OVER <? length b
  then str "<elided " ++ nat_digits (N.of_nat (length b)) ++ str " bytes>"
  else str "0x" ++ hex_encode b.

Definition scalar_repr (value : BencodexValue) : option bytes :=
  match value with
  | VNull => Some (str "null")
  | VBool b => Some (bool_repr b)
  | VInt i => Some (int_digits i)
  | VText s => Some (c_quote :: s ++ [c_quote])
  | VBytes b => Some (bytes_repr b)
  | VList _ | VMap _ => None
  end.

Definition should_skip_key (key : bytes) : bool :=
  bool_decide (key ∈ [str "private_keys"; str "game_types"; str "unroll_puzzle_hash_map";
                      str "cached_redo_actions"]).

Definition is_buffer_key (key : bytes) : bool :=
  bool_decide (key ∈ [str "incoming_messages"; str "inbound_messages"; str "game_action_queue"]).
Definition buffered (value : BencodexValue) : nat :=
  match value with
  | VList items => length items
  | VMap entries => length entries
  | VNull => 0
  | _ => 1
  end.
Definition buffer_count (key : bytes) (value : BencodexValue) : option bytes :=
  if is_buffer_key key
  then Some (str "<" ++ nat_digits (N.of_nat (buffered value)) ++ str " buffered>")
  else None.

Section keyed.
Variable write_value : nat -> BencodexValue -> bytes.

Definition write_keyed_value (indent : nat) (key : bytes) (value : BencodexValue) : bytes :=
  match buffer_count key value with
  | Some summary => c_space :: summary ++ [c_newline]
  | None => write_value indent value
  end.

(** The entries of a map that are shown; [prefix] is the indentation. *)
Fixpoint write_map (prefix : bytes) (indent : nat) (entries : list (BencodexValue * BencodexValue))
    : bytes :=
  match entries with
  | [] => []
  | (k, v) :: entries =>
      let key := key_to_string k in
      (if should_skip_key key then []
       else prefix ++ key ++ c_colon :: write_keyed_value indent key v)
      ++ write_map prefix indent entries
  end.
Fixpoint write_list (indent : nat) (items : list BencodexValue) : bytes :=
  match items with
  | [] => []
  | item :: items => push_indent indent ++ c_minus :: write_value indent item ++ write_list indent items
  end.
End keyed.

Fixpoint write_value (indent : nat) (value : BencodexValue) {struct value} : bytes :=
  match value with
  | VMap [] => str " {}" ++ [c_newline]
  | VList [] => str " []" ++ [c_newline]
  | VMap entries => c_newline :: write_map write_value (push_indent (indent + 1)) (indent + 1) entries
  | VList items => c_newline :: write_list write_value (indent + 1) items
  | scalar => c_space :: default [] (scalar_repr scalar) ++ [c_newline]
  end.

Definition pretty_print (value : BencodexValue) : bytes :=
  match value with
  | VMap (e :: entries) => write_map write_value [] 0 (e :: entries)
  | other =>
      match scalar_repr other with
      | Some s => s ++ [c_newline]
      | None => write_value 0 other
      end
  end.
End pretty.
