(* ===== verification/BencodexProperties.v ===== *)
(** * Bencodex: properties

    What is serialized reads back as the same tree; reading always ends, yields
    well-formed trees and refuses what it must; a length near the limit of the
    machine makes it panic.  What the rules of elision hide in the printed state,
    and the private keys they do not. *)
From S2P Require Import Prelude Text BencodexSer BencodexDe ProtocolPretty.
From Stdlib Require Strings.String.

(** ** Induction on what is serialized *)
Section induction.
Variable P : SValue -> Prop.
Let PL := Forall P.
Let PM := Forall (fun kv : SValue * SValue => P kv.1 /\ P kv.2).
Let PF := Forall (fun nv : bytes * SValue => P nv.2).
Hypotheses (HBool : forall b, P (SBool b)) (HU8 : forall b, P (SU8 b)) (HInt : forall z, P (SInt z))
  (HI128 : forall z, P (SI128 z)) (HU128 : forall z, P (SU128 z)) (HFloat : P SFloat)
  (HChar : forall s, P (SChar s)) (HStr : forall s, P (SStr s)) (HBytes : forall b, P (SBytes b))
  (HNone : P SNone) (HSome : forall v, P v -> P (SSome v)) (HUnit : P SUnit)
  (HUnitStruct : P SUnitStruct) (HUnitVariant : forall n, P (SUnitVariant n))
  (HNewtype : forall v, P v -> P (SNewtypeStruct v))
  (HNewtypeVariant : forall n v, P v -> P (SNewtypeVariant n v))
  (HSeq : forall l, PL l -> P (SSeq l)) (HTuple : forall l, PL l -> P (STuple l))
  (HTupleStruct : forall l, PL l -> P (STupleStruct l))
  (HTupleVariant : forall n l, PL l -> P (STupleVariant n l))
  (HMap : forall l, PM l -> P (SMap l)) (HStruct : forall l, PF l -> P (SStruct l))
  (HStructVariant : forall n l, PF l -> P (SStructVariant n l)).

Fixpoint SValue_induction (v : SValue) : P v :=
  let list_ind := fix go l : PL l :=
    match l with
    | [] => Forall_nil_2 P
    | x :: l => Forall_cons_2 P x l (SValue_induction x) (go l)
    end in
  let field_ind := fix go l : PF l :=
    match l with
    | [] => Forall_nil_2 _
    | (n, x) :: l => Forall_cons_2 (fun nv : bytes * SValue => P nv.2) (n, x) l (SValue_induction x) (go l)
    end in
  match v with
  | SBool b => HBool b | SU8 b => HU8 b | SInt z => HInt z | SI128 z => HI128 z
  | SU128 z => HU128 z | SFloat => HFloat | SChar s => HChar s | SStr s => HStr s
  | SBytes b => HBytes b | SNone => HNone | SSome v => HSome v (SValue_induction v)
  | SUnit => HUnit | SUnitStruct => HUnitStruct | SUnitVariant n => HUnitVariant n
  | SNewtypeStruct v => HNewtype v (SValue_induction v)
  | SNewtypeVariant n v => HNewtypeVariant n v (SValue_induction v)
  | SSeq l => HSeq l (list_ind l) | STuple l => HTuple l (list_ind l)
  | STupleStruct l => HTupleStruct l (list_ind l)
  | STupleVariant n l => HTupleVariant n l (list_ind l)
  | SMap l => HMap l ((fix go l : PM l :=
      match l with
      | [] => Forall_nil_2 _
      | (k, x) :: l => Forall_cons_2 (fun kv : SValue * SValue => P kv.1 /\ P kv.2) (k, x) l
          (conj (SValue_induction k) (SValue_induction x)) (go l)
      end) l)
  | SStruct l => HStruct l (field_ind l)
  | SStructVariant n l => HStructVariant n l (field_ind l)
  end.
End induction.

(** ** Sorting the entries of a dictionary *)
Lemma insert_entry_perm {A} (e : DictKey * A) l : insert_entry e l ≡ₚ e :: l.
Proof.
  induction l as [|e' l IH]; cbn; [done|]. destruct (key_le _ _); [done|]. rewrite IH. constructor.
Qed.

Lemma sort_entries_perm {A} (l : list (DictKey * A)) : sort_entries l ≡ₚ l.
Proof. induction l as [|e l IH]; cbn; [done|]. by rewrite insert_entry_perm, IH. Qed.

Section sort_related.
Context {A B : Type} (R : A -> B -> Prop).
Let same_key (e : DictKey * A) (f : DictKey * B) : Prop := e.1 = f.1 /\ R e.2 f.2.

Lemma insert_entry_related e f l l' :
  same_key e f -> Forall2 same_key l l' -> Forall2 same_key (insert_entry e l) (insert_entry f l').
Proof.
  intros He Hl. induction Hl as [|e' f' l l' He' Hl IH]; cbn.
  { by apply Forall2_cons_2. }
  pose proof He as [Hk _]. pose proof He' as [Hk' _]. rewrite <-Hk, <-Hk'.
  destruct (key_le _ _); by repeat apply Forall2_cons_2.
Qed.

Lemma sort_entries_related l l' :
  Forall2 same_key l l' -> Forall2 same_key (sort_entries l) (sort_entries l').
Proof. induction 1 as [|e f l l' He _ IH]; cbn; [constructor|]. by apply insert_entry_related. Qed.
End sort_related.

(** ** Sequences that may be byte strings *)
Lemma seq_list_elements l out :
  seq_elements serialize l (SeqList, out)
  = b ← tuple_elements serialize l; Ok (SeqList, out ++ b).
Proof.
  revert out. induction l as [|v l IH]; intros out; cbn; [by rewrite app_nil_r|].
  destruct (serialize v) as [b|e]; cbn; [|done]. rewrite IH.
  destruct (tuple_elements serialize l) as [bs|e]; cbn; [|done]. by rewrite app_assoc.
Qed.

Lemma tuple_elements_u8 bs l :
  tuple_elements serialize ((SU8 <$> bs) ++ l)
  = b ← tuple_elements serialize l;
    Ok (concat ((fun b => write_int (Z.of_N (Byte.to_N b))) <$> bs) ++ b).
Proof.
  induction bs as [|b bs IH]; cbn -[write_int]; [by destruct (tuple_elements _ _)|].
  cbn in IH. rewrite IH. destruct (tuple_elements serialize l); cbn -[write_int]; [|done].
  by rewrite app_assoc.
Qed.

Lemma seq_bytes_elements l bs :
  seq_elements serialize l (SeqBytes bs, [])
  = match mapM U8Probe l with
    | Some bs' => Ok (SeqBytes (bs ++ bs'), [])
    | None => b ← tuple_elements serialize ((SU8 <$> bs) ++ l); Ok (SeqList, c_l :: b)
    end.
Proof.
  revert bs. induction l as [|v l IH]; intros bs; cbn [seq_elements mapM].
  { cbn. by rewrite app_nil_r. }
  cbn [serialize_seq_element]. destruct (U8Probe v) as [b|] eqn:Hv.
  - cbn [mbind result_bind mret result_ret]. rewrite IH. cbn.
    assert (v = SU8 b) as -> by (destruct v; simplify_eq/=; done).
    destruct (mapM U8Probe l) as [bs'|]; cbn; [by rewrite <-app_assoc|].
    by rewrite fmap_app, <-app_assoc.
  - cbn [mbind result_bind option_bind switch_to_list]. rewrite tuple_elements_u8. cbn [tuple_elements].
    destruct (serialize v) as [b|e]; cbn -[write_int]; [|done].
    rewrite seq_list_elements. destruct (tuple_elements serialize l); cbn -[write_int]; [|done].
    by rewrite <-app_assoc.
Qed.

(** A sequence is a byte string when it is made of [u8]s, the empty one apart. *)
Lemma serialize_seq_spec l :
  serialize (SSeq l)
  = match l with
    | [] => Ok [c_l; c_e]
    | _ => match mapM U8Probe l with
           | Some bs => Ok (write_bytestring bs)
           | None => serialize (STuple l)
           end
    end.
Proof.
  cbn [serialize]. destruct l as [|v l]; [done|]. cbn [seq_elements mapM serialize_seq_element].
  destruct (U8Probe v) as [b|] eqn:Hv.
  - assert (v = SU8 b) as -> by (destruct v; simplify_eq/=; done).
    cbn [mbind result_bind mret result_ret option_bind]. rewrite seq_bytes_elements.
    destruct (mapM U8Probe l) as [bs|]; [done|].
    cbn [fmap list_fmap app]. destruct (tuple_elements serialize (SU8 b :: l)); cbn; [|done].
    done.
  - cbn [mbind result_bind option_bind switch_to_list]. cbn [tuple_elements].
    destruct (serialize v) as [b|e]; cbn -[write_int]; [|done].
    rewrite seq_list_elements. by destruct (tuple_elements serialize l).
Qed.

(** ** What a value reads back as *)
Definition key_value (k : DictKey) : BencodexValue :=
  match k with KBytes b => VBytes b | KUnicode s => VText s end.
Definition captured_key (k : SValue) : DictKey :=
  match key_capture k with Ok key => key | Err _ => KBytes [] end.
Definition dict_value (entries : list (DictKey * BencodexValue)) : BencodexValue :=
  VMap ((fun e : DictKey * BencodexValue => (key_value e.1, e.2)) <$> sort_entries entries).

(** Sequences of [u8] are byte strings, options and newtypes are transparent,
    a variant is a dictionary with one entry, a structure a dictionary whose
    entries are sorted. *)
Fixpoint value_of (v : SValue) : BencodexValue :=
  match v with
  | SBool b => VBool b
  | SU8 b => VInt (Z.of_N (Byte.to_N b))
  | SInt z | SI128 z => VInt z
  | SU128 z => VInt (as_i128 z)
  | SFloat | SNone | SUnit | SUnitStruct => VNull
  | SChar s | SStr s | SUnitVariant s => VText s
  | SBytes b => VBytes b
  | SSome v | SNewtypeStruct v => value_of v
  | SNewtypeVariant n v => VMap [(VText n, value_of v)]
  | SSeq l =>
      match l, mapM U8Probe l with
      | _ :: _, Some bs => VBytes bs
      | _, _ => VList (value_of <$> l)
      end
  | STuple l | STupleStruct l => VList (value_of <$> l)
  | STupleVariant n l => VMap [(VText n, VList (value_of <$> l))]
  | SMap l => dict_value ((fun kv => (captured_key kv.1, value_of kv.2)) <$> l)
  | SStruct l => dict_value ((fun nv => (KUnicode nv.1, value_of nv.2)) <$> l)
  | SStructVariant n l =>
      VMap [(VText n, dict_value ((fun nv => (KUnicode nv.1, value_of nv.2)) <$> l))]
  end.

(** Values of Rust: text is UTF-8, integers are in the range of their type. *)
Fixpoint well_typed (v : SValue) : bool :=
  match v with
  | SInt z => (- 2 ^ 63 <=? z)%Z && (z <? 2 ^ 64)%Z
  | SI128 z => (i128_min <=? z)%Z && (z <=? i128_max)%Z
  | SChar s | SStr s | SUnitVariant s => utf8_valid s
  | SSome v | SNewtypeStruct v => well_typed v
  | SNewtypeVariant n v => utf8_valid n && well_typed v
  | SSeq l | STuple l | STupleStruct l => forallb well_typed l
  | STupleVariant n l => utf8_valid n && forallb well_typed l
  | SMap l => forallb (fun kv => well_typed kv.1 && well_typed kv.2) l
  | SStruct l => forallb (fun nv => utf8_valid nv.1 && well_typed nv.2) l
  | SStructVariant n l => utf8_valid n && forallb (fun nv => utf8_valid nv.1 && well_typed nv.2) l
  | _ => true
  end.

(** ** Reading what was written *)
Section roundtrip.
Context {arch : Arch}.

Ltac de_step := cbn [mbind result_bind ok_or check negb De_bind De_ret mret result_ret].

Lemma position_after (p : byte -> bool) l b rest :
  Forall (fun x => p x = false) l -> p b = true -> position p (l ++ b :: rest) = Some (length l).
Proof.
  intros Hl Hb. induction Hl as [|x l Hx _ IH]; cbn; [by rewrite Hb|]. by rewrite Hx, IH.
Qed.

Lemma nat_digits_no n c :
  is_digit c = false -> Forall (fun x => is_byte c x = false) (nat_digits n).
Proof.
  intros Hc. eapply Forall_impl; [apply nat_digits_digits|]. intros x Hx. cbn.
  apply bool_decide_eq_false_2. intros ->. congruence.
Qed.

Lemma int_digits_no z : Forall (fun x => is_byte c_e x = false) (int_digits z).
Proof.
  unfold int_digits. destruct (z <? 0)%Z; [constructor; [done|]|]; by apply nat_digits_no.
Qed.

Lemma take_length_app {A} (l r : list A) : take (length l) (l ++ r) = l.
Proof. by apply take_app_length. Qed.

(** The length prefix, whatever follows it. *)
Lemma parse_bytestring_spec n body :
  (n < usize_modulus)%N ->
  (N.of_nat (length (nat_digits n ++ c_colon :: body)) < usize_modulus)%N ->
  parse_bytestring (nat_digits n ++ c_colon :: body)
  = if (N.of_nat (S (length (nat_digits n))) + n <? usize_modulus)%N then
      if (n <=? N.of_nat (length body))%N
      then Ok (take (N.to_nat n) body, drop (N.to_nat n) body)
      else Err BEof
    else Err (BPanicked "slice index starts after its end").
Proof.
  intros Hn Hlen. set (d := nat_digits n) in *. set (input := d ++ c_colon :: body) in *.
  assert (length input = S (length d) + length body) as Hin
    by (unfold input; rewrite length_app; cbn; lia).
  unfold parse_bytestring, mbind, De_bind, rest_of_input, de_lift. de_step.
  assert (position (is_byte c_colon) input = Some (length d)) as ->
    by (apply position_after; [by apply nat_digits_no|done]).
  de_step.
  assert (take (length d) input = d) as -> by apply take_length_app.
  rewrite (ascii_utf8 d) by apply nat_digits_ascii. de_step.
  unfold d at 1. rewrite parse_unsigned_digits by done. de_step.
  replace (N.of_nat (length d + 1)) with (N.of_nat (S (length d))) by lia.
  set (start := N.of_nat (S (length d))). pose proof usize_modulus_lower as Hlow.
  unfold usize_add. destruct (N.ltb_spec (start + n) usize_modulus) as [Hfit|Hwrap].
  - rewrite N.mod_small by done.
    destruct (N.leb_spec n (N.of_nat (length body))) as [Hle|Hgt].
    + rewrite (proj2 (N.ltb_ge _ _)) by lia. rewrite (proj2 (N.ltb_ge _ _)) by lia.
      replace (start + n - start)%N with n by lia.
      unfold advance. rewrite (proj2 (Nat.leb_le _ _)) by lia. cbn.
      assert (forall m, drop (S (length d) + m) input = drop m body) as Hdrop.
      { intros m. unfold input. rewrite <-drop_drop, (drop_app_ge d) by lia.
        replace (S (length d) - length d) with 1 by lia. done. }
      replace (length d + 1) with (S (length d) + 0) by lia. rewrite Hdrop, drop_0.
      replace (N.to_nat (start + n)) with (S (length d) + N.to_nat n) by lia. by rewrite Hdrop.
    + rewrite (proj2 (N.ltb_lt _ _)) by lia. done.
  - assert ((start + n) mod usize_modulus = start + n - usize_modulus)%N as ->.
    { symmetry. apply (N.mod_unique _ _ 1); lia. }
    rewrite (proj2 (N.ltb_ge _ _)) by lia. rewrite (proj2 (N.ltb_lt _ _)) by lia. done.
Qed.

Lemma parse_bytestring_run bs rest :
  (N.of_nat (length (write_bytestring bs ++ rest)) < usize_modulus)%N ->
  parse_bytestring (write_bytestring bs ++ rest) = Ok (bs, rest).
Proof.
  unfold write_bytestring. rewrite <-app_assoc. cbn [app]. intros Hlen. pose proof Hlen as Hl.
  rewrite length_app in Hl. cbn in Hl. rewrite length_app in Hl.
  rewrite parse_bytestring_spec by (try done; lia).
  rewrite (proj2 (N.ltb_lt _ _)) by lia. rewrite length_app, (proj2 (N.leb_le _ _)) by lia.
  rewrite Nat2N.id. by rewrite take_length_app, drop_app_length.
Qed.

Lemma parse_unicode_run s rest :
  utf8_valid s = true -> (N.of_nat (length (write_bytestring s ++ rest)) < usize_modulus)%N ->
  parse_unicode (write_bytestring s ++ rest) = Ok (s, rest).
Proof.
  intros Hs Hlen. unfold parse_unicode, mbind, De_bind. rewrite parse_bytestring_run by done.
  unfold de_lift. by rewrite Hs.
Qed.

Lemma int_digits_check z :
  match int_digits z with
  | b :: c :: _ => bool_decide (b = c_minus) && bool_decide (c = x30) || bool_decide (b = x30)
  | _ => false
  end = false.
Proof.
  unfold int_digits. destruct (Z.ltb_spec z 0) as [Hneg|Hpos].
  - destruct (nat_digits (Z.to_N (- z))) as [|c rest] eqn:Hd; [done|]. rewrite bool_decide_eq_true_2 by done.
    rewrite (bool_decide_eq_false_2 (c_minus = x30)) by done. cbn. rewrite orb_false_r.
    apply bool_decide_eq_false_2. intros ->. pose proof (nat_digits_zero _ _ Hd) as ->.
    assert (parse_digits (nat_digits (Z.to_N (- z))) = Some 0%N) as H0 by by rewrite Hd.
    rewrite parse_nat_digits in H0. injection H0 as H0. lia.
  - destruct (nat_digits (Z.to_N z)) as [|b [|c rest]] eqn:Hd; [done..|].
    pose proof (nat_digits_head _ _ _ Hd) as Hb.
    rewrite (bool_decide_eq_false_2 (b = c_minus)) by (by intros ->). cbn.
    apply bool_decide_eq_false_2. intros ->. by apply nat_digits_zero in Hd.
Qed.

Lemma parse_int_run z rest :
  (i128_min <= z <= i128_max)%Z -> parse_int_value (int_digits z ++ c_e :: rest) = Ok (z, rest).
Proof.
  intros Hz. unfold parse_int_value, mbind, De_bind, rest_of_input, de_lift. de_step.
  rewrite (position_after (is_byte c_e)) by (done || apply int_digits_no).
  de_step. rewrite take_length_app. rewrite ascii_utf8 by apply int_digits_ascii.
  de_step. rewrite int_digits_check. de_step.
  rewrite parse_int_digits by done. de_step. unfold advance.
  rewrite (proj2 (Nat.leb_le _ _)) by (rewrite length_app; cbn; lia).
  rewrite drop_app_ge by lia. by replace (length (int_digits z) + 1 - length (int_digits z)) with 1 by lia.
Qed.

(** [out] reads back as [val], whatever follows it. *)
Definition fits (input : bytes) : Prop := (N.of_nat (length input) < usize_modulus)%N.
Definition starts_value (out : bytes) : Prop := exists b t, out = b :: t /\ b <> c_e.
Definition reads (out : bytes) (val : BencodexValue) : Prop :=
  starts_value out /\ forall fuel rest, length out < fuel -> fits (out ++ rest) ->
    BencodexValue_deserialize fuel (out ++ rest) = Ok (val, rest).

Lemma fits_tail l r : fits (l ++ r) -> fits r.
Proof. unfold fits. rewrite length_app. lia. Qed.

Lemma reads_null : reads [c_n] VNull.
Proof. split; [by exists c_n, []|]. intros [|fuel] rest Hf _; [cbn in Hf; lia|done]. Qed.

Lemma reads_bool (b : bool) : reads [if b then c_t else c_f] (VBool b).
Proof.
  split; [exists (if b then c_t else c_f), []; by destruct b|].
  intros [|fuel] rest Hf _; [cbn in Hf; lia|by destruct b].
Qed.

Lemma reads_int z : (i128_min <= z <= i128_max)%Z -> reads (write_int z) (VInt z).
Proof.
  intros Hz. split; [by eexists _, _|]. intros [|fuel] rest Hf _; [cbn in Hf; lia|].
  unfold write_int. cbn [app]. rewrite <-app_assoc. cbn [app].
  change (BencodexValue_deserialize (S fuel) (c_i :: int_digits z ++ c_e :: rest))
    with ((val ← parse_int_value; de_lift (visit_int (ValueVisitor (S fuel)
             (BencodexValue_deserialize fuel)) val)) (int_digits z ++ c_e :: rest)).
  unfold mbind, De_bind. rewrite parse_int_run by done. unfold visit_int, de_lift.
  by repeat case_match.
Qed.

Lemma reads_unicode s : utf8_valid s = true -> reads (write_unicode s) (VText s).
Proof.
  intros Hs. split; [by eexists _, _|]. intros [|fuel] rest Hf Hfit; [cbn in Hf; lia|].
  change (write_unicode s ++ rest) with (c_u :: write_bytestring s ++ rest) in *.
  change (BencodexValue_deserialize (S fuel) (c_u :: write_bytestring s ++ rest))
    with ((t ← parse_unicode; de_lift (Ok (VText t))) (write_bytestring s ++ rest)).
  unfold mbind, De_bind. rewrite parse_unicode_run; [done|done|].
  by apply (fits_tail [c_u]).
Qed.

Lemma write_bytestring_head bs : exists b t, write_bytestring bs = b :: t /\ is_digit b = true.
Proof.
  unfold write_bytestring. pose proof (nat_digits_head (N.of_nat (length bs))) as Hh.
  pose proof (nat_digits_nonnil (N.of_nat (length bs))) as Hn.
  destruct (nat_digits _) as [|b t]; [done|]. exists b, (t ++ c_colon :: bs). split; [done|]. by eapply Hh.
Qed.

Lemma deserialize_digit fuel b input :
  is_digit b = true ->
  BencodexValue_deserialize (S fuel) (b :: input)
  = (bs ← parse_bytestring; de_lift (Ok (VBytes bs))) (b :: input).
Proof. by destruct b. Qed.

Lemma reads_bytestring bs : reads (write_bytestring bs) (VBytes bs).
Proof.
  destruct (write_bytestring_head bs) as (b & t & Hw & Hb).
  split; [exists b, t; split; [done|by intros ->]|].
  intros [|fuel] rest Hf Hfit; [cbn in Hf; lia|]. pose proof (parse_bytestring_run bs rest Hfit) as Hrun.
  rewrite Hw in *. cbn [app] in *. rewrite deserialize_digit by done. unfold mbind, De_bind. by rewrite Hrun.
Qed.

Lemma reads_key k :
  (forall s, k = KUnicode s -> utf8_valid s = true) -> reads (DictKey_write_to k) (key_value k).
Proof.
  destruct k as [b|s]; intros Hk; [apply reads_bytestring|]. apply reads_unicode. by apply Hk.
Qed.

(** *** Lists and dictionaries *)
Definition self_reads (self : De BencodexValue) (out : bytes) (val : BencodexValue) : Prop :=
  starts_value out /\ forall rest, fits (out ++ rest) -> self (out ++ rest) = Ok (val, rest).

Lemma ListAccess_some self out val rest :
  self_reads self out val -> fits (out ++ rest) ->
  ListAccess BencodexValue (value_seed self) (out ++ rest) = Ok (Some val, rest).
Proof.
  intros [(b & t & -> & Hb) Hrun] Hfit. unfold ListAccess. cbn [app peek].
  rewrite bool_decide_eq_false_2 by done. cbn [seed_de value_seed].
  assert (self (b :: t ++ rest) = Ok (val, rest)) as -> by exact (Hrun rest Hfit). done.
Qed.

Lemma DictAccess_some self out val rest :
  self_reads self out val -> fits (out ++ rest) ->
  next_key_seed DictAccess BencodexValue (value_seed self) (out ++ rest) = Ok (Some val, rest).
Proof. exact (ListAccess_some self out val rest). Qed.

Lemma collect_items_run self outs vals : Forall2 (self_reads self) outs vals ->
  forall fuel items rest, length outs < fuel -> fits (concat outs ++ c_e :: rest) ->
  collect_items fuel (value_seed self) ListAccess items (concat outs ++ c_e :: rest)
  = Ok (items ++ vals, c_e :: rest).
Proof.
  induction 1 as [|out val outs vals Hout _ IH]; intros [|fuel] items rest Hf Hfit; cbn in Hf; try lia.
  - cbn. by rewrite app_nil_r.
  - cbn [concat] in *. rewrite <-app_assoc in *. cbn [collect_items].
    rewrite (ListAccess_some self out val) by done. cbn [mbind result_bind].
    rewrite IH; [by rewrite <-app_assoc|lia|by eapply fits_tail].
Qed.

Definition entry_reads (self : De BencodexValue) (e : bytes * bytes)
    (v : BencodexValue * BencodexValue) : Prop :=
  self_reads self e.1 v.1 /\ self_reads self e.2 v.2.
Abbreviation entry_bytes := (fun e : bytes * bytes => e.1 ++ e.2).

Lemma collect_entries_run self outs vals : Forall2 (entry_reads self) outs vals ->
  forall fuel entries rest, length outs < fuel -> fits (concat (entry_bytes <$> outs) ++ c_e :: rest) ->
  collect_entries fuel (value_seed self) DictAccess entries (concat (entry_bytes <$> outs) ++ c_e :: rest)
  = Ok (entries ++ vals, c_e :: rest).
Proof.
  induction 1 as [|[ko vo] [k v] outs vals [Hk [_ Hv]] _ IH];
    intros [|fuel] entries rest Hf Hfit; cbn in Hf; try lia.
  - cbn. by rewrite app_nil_r.
  - cbn [fmap list_fmap concat fst snd] in *. rewrite <-!app_assoc in *. cbn [collect_entries].
    unfold mbind, De_bind. rewrite (DictAccess_some self ko k) by done.
    apply fits_tail in Hfit. cbn [next_value_seed DictAccess seed_de value_seed].
    rewrite Hv by done. rewrite IH; [by rewrite <-app_assoc|lia|by eapply fits_tail].
Qed.

Lemma reads_self fuel out val : reads out val -> length out < fuel ->
  self_reads (BencodexValue_deserialize fuel) out val.
Proof. intros [Hs Hr] Hf. split; [done|]. intros rest. by apply Hr. Qed.

Lemma length_concat_ge (outs : list bytes) :
  Forall (fun o => o <> []) outs -> length outs <= length (concat outs).
Proof.
  induction 1 as [|o outs Ho _ IH]; cbn; [lia|]. rewrite length_app. destruct o; [done|]. cbn. lia.
Qed.

Lemma length_concat_in (outs : list bytes) o : o ∈ outs -> length o <= length (concat outs).
Proof.
  induction 1 as [o outs|o o' outs _ IH]; cbn; rewrite length_app; lia.
Qed.

Lemma starts_nonnil out : starts_value out -> out <> [].
Proof. by intros (b & t & -> & _). Qed.

Lemma visit_list_run fuel input vals rest :
  collect_items (S fuel) (value_seed (BencodexValue_deserialize fuel)) ListAccess [] input
  = Ok (vals, c_e :: rest) ->
  BencodexValue_deserialize (S fuel) (c_l :: input) = Ok (VList vals, rest).
Proof.
  intros H. change (BencodexValue_deserialize (S fuel) (c_l :: input))
    with (visit_list (ValueVisitor (S fuel) (BencodexValue_deserialize fuel)) (c_l :: input)).
  unfold visit_list, mbind, De_bind.
  change (advance 1 (c_l :: input)) with (Ok (E := BError) (tt, input)). cbn [visit_seq ValueVisitor].
  by rewrite H.
Qed.

Lemma visit_dict_run fuel input vals rest :
  collect_entries (S fuel) (value_seed (BencodexValue_deserialize fuel)) DictAccess [] input
  = Ok (vals, c_e :: rest) ->
  BencodexValue_deserialize (S fuel) (c_d :: input) = Ok (VMap vals, rest).
Proof.
  intros H. change (BencodexValue_deserialize (S fuel) (c_d :: input))
    with (visit_dict (ValueVisitor (S fuel) (BencodexValue_deserialize fuel)) (c_d :: input)).
  unfold visit_dict, mbind, De_bind.
  change (advance 1 (c_d :: input)) with (Ok (E := BError) (tt, input)).
  cbn [visit_map ValueVisitor]. unfold mbind, De_bind. by rewrite H.
Qed.

Lemma reads_list outs vals :
  Forall2 reads outs vals -> reads (c_l :: concat outs ++ [c_e]) (VList vals).
Proof.
  intros Hall. split; [by eexists _, _|]. intros [|fuel] rest Hf Hfit; [cbn in Hf; lia|].
  cbn [app length] in *. rewrite <-app_assoc in *. rewrite length_app in Hf. cbn in Hf. cbn [app] in *.
  assert (Forall2 (self_reads (BencodexValue_deserialize fuel)) outs vals) as Hself.
  { apply Forall2_same_length_lookup_2; [by eapply Forall2_length|].
    intros i o v Ho Hv. eapply reads_self; [by eapply Forall2_lookup_lr|].
    apply list_elem_of_lookup_2, length_concat_in in Ho. lia. }
  assert (length outs <= length (concat outs)) as Hle.
  { apply length_concat_ge. eapply Forall2_Forall_l; [exact Hall|]. apply Forall_true.
    intros v o [Ho _]. by apply starts_nonnil. }
  apply visit_list_run. rewrite (collect_items_run _ _ _ Hself); [done|lia|].
  by apply (fits_tail [c_l]).
Qed.

Lemma reads_dict outs vals :
  Forall2 (fun (e : bytes * bytes) v => reads e.1 v.1 /\ reads e.2 v.2) outs vals ->
  reads (c_d :: concat (entry_bytes <$> outs) ++ [c_e]) (VMap vals).
Proof.
  intros Hall. split; [by eexists _, _|]. intros [|fuel] rest Hf Hfit; [cbn in Hf; lia|].
  cbn [app length] in *. rewrite <-app_assoc in *. rewrite length_app in Hf. cbn in Hf. cbn [app] in *.
  assert (forall e, e ∈ outs -> length (e.1 ++ e.2) <= length (concat (entry_bytes <$> outs))) as Hlen.
  { intros e He. by apply length_concat_in, (list_elem_of_fmap_2 entry_bytes). }
  assert (Forall2 (entry_reads (BencodexValue_deserialize fuel)) outs vals) as Hself.
  { apply Forall2_same_length_lookup_2; [by eapply Forall2_length|].
    intros i e v He Hv. destruct (Forall2_lookup_lr _ _ _ _ _ _ Hall He Hv) as [H1 H2].
    apply list_elem_of_lookup_2, Hlen in He. rewrite length_app in He.
    split; apply reads_self; (done || lia). }
  assert (length outs <= length (concat (entry_bytes <$> outs))) as Hle.
  { rewrite <-(length_fmap entry_bytes outs). apply length_concat_ge, Forall_fmap.
    eapply Forall2_Forall_l; [exact Hall|]. apply Forall_true.
    intros v [ko vo] [[(b & t & Hko & _) _] _]. cbn in *. by rewrite Hko. }
  apply visit_dict_run. rewrite (collect_entries_run _ _ _ Hself); [done|lia|].
  by apply (fits_tail [c_d]).
Qed.

(** *** What is serialized *)
Definition serialized_as (v : SValue) (out : bytes) : Prop := serialize v = Ok out.

Lemma tuple_elements_Ok l b :
  tuple_elements serialize l = Ok b -> exists outs, Forall2 serialized_as l outs /\ b = concat outs.
Proof.
  revert b. induction l as [|v l IH]; intros b; cbn.
  - intros [= <-]. by exists [].
  - intros (o & Ho & (bs & Hbs & H)%bind_Ok)%bind_Ok. injection H as <-.
    destruct (IH bs Hbs) as (outs & Houts & ->). exists (o :: outs). by split; [constructor|].
Qed.

Lemma map_entries_Ok l c c' :
  map_entries serialize l c = Ok c' -> exists entries,
  dc_entries c' = dc_entries c ++ entries
  /\ Forall2 (fun kv e => key_capture kv.1 = Ok e.1 /\ serialized_as kv.2 e.2) l entries.
Proof.
  revert c. induction l as [|[k v] l IH]; intros c; cbn [map_entries].
  - intros [= <-]. exists []. by rewrite app_nil_r.
  - unfold serialize_key, serialize_value. intros (c1 & (key & Hkey & [= <-])%bind_Ok & H)%bind_Ok.
    apply bind_Ok in H as (c2 & (b & Hb & [= <-])%bind_Ok & H).
    destruct (IH _ H) as (entries & -> & Hall). exists ((key, b) :: entries). cbn.
    rewrite <-app_assoc. by split; [|constructor].
Qed.

Lemma struct_fields_Ok l acc entries :
  struct_fields serialize l acc = Ok entries -> exists entries',
  entries = acc ++ entries'
  /\ Forall2 (fun nv e => KUnicode nv.1 = e.1 /\ serialized_as nv.2 e.2) l entries'.
Proof.
  revert acc. induction l as [|[n v] l IH]; intros acc; cbn [struct_fields].
  - intros [= <-]. exists []. by rewrite app_nil_r.
  - unfold serialize_field. intros (acc' & (b & Hb & [= <-])%bind_Ok & H)%bind_Ok.
    destruct (IH _ H) as (entries' & -> & Hall). exists ((KUnicode n, b) :: entries').
    rewrite <-app_assoc. by split; [|constructor].
Qed.

(** The sorted entries of a dictionary. *)
Lemma reads_entries entries vals :
  Forall2 (fun e v => e.1 = v.1 /\ reads e.2 v.2) entries vals ->
  Forall (fun e => forall s, e.1 = KUnicode s -> utf8_valid s = true) entries ->
  reads (c_d :: write_entries entries ++ [c_e]) (dict_value vals).
Proof.
  intros Hall Htext. apply sort_entries_related in Hall.
  assert (Forall (fun e => forall s, e.1 = KUnicode s -> utf8_valid s = true) (sort_entries entries)) as Hs
    by by rewrite sort_entries_perm.
  unfold write_entries, dict_value.
  assert (concat ((fun e : DictKey * bytes => DictKey_write_to e.1 ++ e.2) <$> sort_entries entries)
    = concat (entry_bytes <$> ((fun e => (DictKey_write_to e.1, e.2)) <$> sort_entries entries))) as ->.
  { by rewrite <-list_fmap_compose. }
  apply reads_dict. apply Forall2_fmap. clear Htext.
  induction Hall as [|e v es vs [Hk Hv] _ IH]; [constructor|].
  inversion Hs as [|? ? He Hes]; subst. constructor; [|by apply IH]. cbn. rewrite <-Hk.
  split; [by apply reads_key|done].
Qed.

Lemma well_typed_key k key s :
  well_typed k = true -> key_capture k = Ok key -> key = KUnicode s -> utf8_valid s = true.
Proof.
  induction k using SValue_induction; cbn; intros Hw Hk ->; try done; simplify_eq; eauto.
  apply ascii_utf8, int_digits_ascii.
Qed.

Definition reads_back (v : SValue) : Prop :=
  forall out, well_typed v = true -> serialize v = Ok out -> reads out (value_of v).

Lemma elements_read l outs :
  Forall reads_back l -> forallb well_typed l = true -> Forall2 serialized_as l outs ->
  Forall2 reads outs (value_of <$> l).
Proof.
  intros Hl Hw Hall. revert Hl Hw. induction Hall as [|v o l outs Ho _ IH]; cbn; [constructor|].
  intros Hl [Hv Hw]%andb_true_iff. inversion Hl; subst. constructor; [by eauto|by apply IH].
Qed.

Lemma fields_read l entries :
  Forall (fun nv : bytes * SValue => reads_back nv.2) l ->
  forallb (fun nv => utf8_valid nv.1 && well_typed nv.2) l = true ->
  Forall2 (fun nv e => KUnicode nv.1 = e.1 /\ serialized_as nv.2 e.2) l entries ->
  reads (c_d :: write_entries entries ++ [c_e])
    (dict_value ((fun nv => (KUnicode nv.1, value_of nv.2)) <$> l)).
Proof.
  intros Hl Hw Hall. apply reads_entries.
  - revert Hl Hw. induction Hall as [|[n v] [k o] l es [Hk Ho] _ IH]; cbn; [constructor|].
    intros Hl [[_ Hv]%andb_true_iff Hw]%andb_true_iff. inversion Hl; subst.
    constructor; [by cbn; eauto|by apply IH].
  - clear Hl. revert Hw. induction Hall as [|[n v] [k o] l es [Hk Ho] _ IH]; cbn; [constructor|].
    intros [[Hn _]%andb_true_iff Hw]%andb_true_iff. constructor; [|by apply IH]. cbn in *.
    by intros s <-%(f_equal (fun k => match k with KUnicode s => s | KBytes b => b end)); rewrite <-Hk.
Qed.

Lemma map_reads l entries :
  Forall (fun kv : SValue * SValue => reads_back kv.1 /\ reads_back kv.2) l ->
  forallb (fun kv => well_typed kv.1 && well_typed kv.2) l = true ->
  Forall2 (fun kv e => key_capture kv.1 = Ok e.1 /\ serialized_as kv.2 e.2) l entries ->
  reads (c_d :: write_entries entries ++ [c_e])
    (dict_value ((fun kv => (captured_key kv.1, value_of kv.2)) <$> l)).
Proof.
  intros Hl Hw Hall. apply reads_entries.
  - revert Hl Hw. induction Hall as [|[n v] [k o] l es [Hk Ho] _ IH]; cbn; [constructor|].
    intros Hl [[_ Hv]%andb_true_iff Hw]%andb_true_iff. inversion Hl as [|? ? [_ Hr]]; subst.
    constructor; [|by apply IH]. cbn in *. unfold captured_key. rewrite Hk. by eauto.
  - clear Hl. revert Hw. induction Hall as [|[n v] [k o] l es [Hk Ho] _ IH]; cbn; [constructor|].
    intros [[Hn _]%andb_true_iff Hw]%andb_true_iff. constructor; [|by apply IH]. cbn in *.
    intros s ->. by eapply well_typed_key.
Qed.

Lemma as_i128_range z : (i128_min <= as_i128 z <= i128_max)%Z.
Proof.
  unfold as_i128, i128_min, i128_max. pose proof (Z.mod_pos_bound (z + 2 ^ 127) (2 ^ 128)). lia.
Qed.

Lemma reads_variant name out val :
  utf8_valid name = true -> reads out val ->
  reads (c_d :: write_unicode name ++ out ++ [c_e]) (VMap [(VText name, val)]).
Proof.
  intros Hn Hout.
  assert (write_unicode name ++ out ++ [c_e]
    = concat (entry_bytes <$> [(write_unicode name, out)]) ++ [c_e]) as ->
    by (cbn -[write_unicode]; by rewrite app_nil_r, <-app_assoc).
  apply reads_dict. constructor; [|constructor]. split; [by apply reads_unicode|done].
Qed.

Lemma small_int z : (- 2 ^ 63 <= z < 2 ^ 64)%Z -> (i128_min <= z <= i128_max)%Z.
Proof. unfold i128_min, i128_max. lia. Qed.

Lemma value_reads v : reads_back v.
Proof.
  induction v using SValue_induction; intros out Hw Hout; cbn [serialize well_typed] in *.
  - injection Hout as <-. apply reads_bool.
  - injection Hout as <-. apply reads_int, small_int. pose proof (Byte.to_N_bounded b). lia.
  - injection Hout as <-. apply reads_int, small_int. lia.
  - injection Hout as <-. apply reads_int. lia.
  - injection Hout as <-. apply reads_int, as_i128_range.
  - done.
  - injection Hout as <-. by apply reads_unicode.
  - injection Hout as <-. by apply reads_unicode.
  - injection Hout as <-. apply reads_bytestring.
  - injection Hout as <-. apply reads_null.
  - by apply IHv.
  - injection Hout as <-. apply reads_null.
  - injection Hout as <-. apply reads_null.
  - injection Hout as <-. by apply reads_unicode.
  - by apply IHv.
  - apply andb_true_iff in Hw as [Hn Hv]. apply bind_Ok in Hout as (b & Hb & [= <-]).
    by apply reads_variant; [|apply IHv].
  - change (serialize (SSeq l) = Ok out) in Hout. rewrite serialize_seq_spec in Hout. cbn [value_of].
    destruct l as [|v l]; [injection Hout as <-; by apply (reads_list [] [])|].
    destruct (mapM U8Probe (v :: l)) as [bs|]; [injection Hout as <-; apply reads_bytestring|].
    cbn [serialize] in Hout. apply bind_Ok in Hout as (b & (outs & Hall & ->)%tuple_elements_Ok & [= <-]).
    by apply reads_list, elements_read.
  - apply bind_Ok in Hout as (b & (outs & Hall & ->)%tuple_elements_Ok & [= <-]).
    by apply reads_list, elements_read.
  - apply bind_Ok in Hout as (b & (outs & Hall & ->)%tuple_elements_Ok & [= <-]).
    by apply reads_list, elements_read.
  - apply andb_true_iff in Hw as [Hn Hl].
    apply bind_Ok in Hout as (b & (outs & Hall & ->)%tuple_elements_Ok & Hout).
    assert (out = c_d :: write_unicode n ++ (c_l :: concat outs ++ [c_e]) ++ [c_e]) as ->
      by (injection Hout as <-; cbn; by rewrite <-!app_assoc).
    by apply reads_variant, reads_list, elements_read.
  - apply bind_Ok in Hout as (c & (entries & Hc & Hall)%map_entries_Ok & [= <-]). cbn in Hc.
    unfold DictCollector_flush. rewrite Hc. by apply map_reads.
  - apply bind_Ok in Hout as (c & (entries & -> & Hall)%struct_fields_Ok & [= <-]).
    by apply fields_read.
  - apply andb_true_iff in Hw as [Hn Hl].
    apply bind_Ok in Hout as (c & (entries & -> & Hall)%struct_fields_Ok & Hout). cbn [app] in Hout.
    assert (out = c_d :: write_unicode n ++ (c_d :: write_entries entries ++ [c_e]) ++ [c_e]) as ->
      by (injection Hout as <-; cbn; by rewrite <-!app_assoc).
    by apply reads_variant, fields_read.
Qed.

(** C21: what is serialized reads back.  The text [to_vec] writes for any value
    of Rust is read by [from_slice] as one tree, the same for every reader:
    sequences of bytes as byte strings, other sequences as lists, structures
    and maps as dictionaries with sorted keys, variants as dictionaries with
    one entry; nothing is left over.  The text must fit the memory of the
    machine. *)
Theorem bencodex_roundtrip v out
    (Hw : well_typed v = true) (Hout : to_vec v = Ok out)
    (Hfits : (N.of_nat (length out) < usize_modulus)%N) :
  BencodexValue_from_slice out = Ok (value_of v).
Proof.
  destruct (value_reads v out Hw Hout) as [_ Hrun].
  unfold BencodexValue_from_slice, from_slice. rewrite <-(app_nil_r out) at 2.
  rewrite Hrun; [done|lia|]. unfold fits. by rewrite app_nil_r.
Qed.

(** C29: a length prefix near the limit of the machine.  The sum of the length
    and the position it is read at is a [usize] sum.  When it fits, the byte
    string is read if it is all there is, and refused if the text is shorter or
    longer; when it wraps, which a prefix as large as the largest number of the
    machine brings about, reading panics. *)
Theorem bytestring_length_bounds n body
    (Hn : (n < usize_modulus)%N)
    (Hfits : (N.of_nat (length (nat_digits n ++ c_colon :: body)) < usize_modulus)%N) :
  BencodexValue_from_slice (nat_digits n ++ c_colon :: body)
  = if (N.of_nat (S (length (nat_digits n))) + n <? usize_modulus)%N then
      match (n ?= N.of_nat (length body))%N with
      | Eq => Ok (VBytes body)
      | Lt => Err (BInvalidData "trailing bytes after value")
      | Gt => Err BEof
      end
    else Err (BPanicked "slice index starts after its end").
Proof.
  pose proof (parse_bytestring_spec n body Hn Hfits) as Hspec.
  unfold BencodexValue_from_slice, from_slice. pose proof (nat_digits_head n) as Hhead.
  pose proof (nat_digits_nonnil n) as Hnil. destruct (nat_digits n) as [|b t] eqn:Hd; [done|].
  cbn [app] in *. rewrite deserialize_digit by (by eapply Hhead). unfold mbind, De_bind. rewrite Hspec.
  destruct (_ <? usize_modulus)%N; [|done].
  destruct (N.compare_spec n (N.of_nat (length body))) as [->|Hlt|Hgt].
  - rewrite N.leb_refl, Nat2N.id, drop_all, take_ge by lia. done.
  - rewrite (proj2 (N.leb_le _ _)) by lia. unfold de_lift. cbn.
    destruct (drop _ _) eqn:Hdrop; [|done]. apply (f_equal length) in Hdrop.
    rewrite length_drop in Hdrop. cbn in Hdrop. lia.
  - by rewrite (proj2 (N.leb_gt _ _)) by lia.
Qed.
End roundtrip.

(** ** Reading ends *)
Fixpoint well_formed (v : BencodexValue) : bool :=
  match v with
  | VInt z => (i128_min <=? z)%Z && (z <=? i128_max)%Z
  | VText s => utf8_valid s
  | VList items => forallb well_formed items
  | VMap entries => forallb (fun e => well_formed e.1 && well_formed e.2) entries
  | _ => true
  end.

Section termination.
Context {arch : Arch}.

(** The run did not lack fuel; a value satisfies [Q], and less than [k] bytes
    are left. *)
Definition ends {A} (Q : A -> Prop) (k : nat) (r : result BError (A * bytes)) : Prop :=
  match r with Ok (a, rest) => Q a /\ length rest < k | Err e => e <> BOutOfFuel end.

Lemma ends_weaken {A} (Q R : A -> Prop) k m r :
  ends Q k r -> k <= m -> (forall a, Q a -> R a) -> ends R m r.
Proof. destruct r as [[a rest]|e]; [|done]. intros [Ha Hr] Hle HQ. split; [by apply HQ|lia]. Qed.

Lemma ends_bind {A B} (Q : A -> Prop) (R : B -> Prop) k m (op : De A) (f : A -> De B) input :
  ends Q k (op input) ->
  (forall a rest, Q a -> length rest < k -> ends R m (f a rest)) -> ends R m ((op ≫= f) input).
Proof.
  unfold mbind, De_bind. destruct (op input) as [[a rest]|e]; [|done]. intros [Ha Hr] Hf. by apply Hf.
Qed.

Lemma ends_lift {A} (Q : A -> Prop) (r : result BError A) input :
  match r with Ok a => Q a | Err e => e <> BOutOfFuel end ->
  ends Q (S (length input)) (de_lift r input).
Proof. destruct r as [a|e]; cbn; [|done]. intros Ha. split; [done|lia]. Qed.

Lemma ends_advance n input : ends (fun _ => True) (S (length input) - n) (advance n input).
Proof.
  unfold advance. destruct (Nat.leb_spec n (length input)); [|done]. cbn. split; [done|].
  rewrite length_drop. lia.
Qed.

Lemma ends_consume input : ends (fun _ => True) (length input) (consume_end input).
Proof.
  unfold consume_end, mbind, De_bind, peek. destruct input as [|b input]; [done|].
  case_bool_decide; [|done]. pose proof (ends_advance 1 (b :: input)) as Hadv.
  eapply (ends_weaken (fun _ => True)); [exact Hadv|cbn; lia|done].
Qed.

(** A step that fails or goes on with a value. *)
Lemma ends_check {A B} (Q : B -> Prop) k (r : result BError A) (f : A -> De B) input :
  match r with Ok a => ends Q k (f a input) | Err e => e <> BOutOfFuel end ->
  ends Q k ((de_lift r ≫= f) input).
Proof. unfold mbind, De_bind, de_lift. by destruct r. Qed.

Lemma parse_i128_range bs z : parse_i128 bs = Some z -> (i128_min <= z <= i128_max)%Z.
Proof.
  unfold parse_i128, i128_max, i128_min. destruct bs as [|b rest]; [done|].
  case_bool_decide; intros (n & _ & Hn)%bind_Some; case_match eqn:Hle; simplify_eq; lia.
Qed.

Lemma ends_parse_int input :
  ends (fun z => i128_min <= z <= i128_max)%Z (length input) (parse_int_value input).
Proof.
  unfold parse_int_value. unfold mbind at 1, De_bind at 1, rest_of_input.
  apply ends_check. destruct (position _ input) as [stop|] eqn:Hstop; [cbn [ok_or]|done].
  apply position_lt in Hstop.
  apply ends_check. unfold check. destruct (utf8_valid _); [|done].
  apply ends_check. unfold check. destruct (negb _); [|done].
  apply ends_check. destruct (parse_i128 _) as [z|] eqn:Hz; [cbn [ok_or]|done].
  eapply ends_bind; [apply ends_advance|]. intros _ rest _ Hr. split; [by eapply parse_i128_range|]. lia.
Qed.

Lemma ends_bytestring input :
  ends (fun _ => True) (S (length input)) (parse_bytestring input).
Proof.
  unfold parse_bytestring. unfold mbind at 1, De_bind at 1, rest_of_input.
  apply ends_check. destruct (position _ input) as [stop|] eqn:Hstop; [cbn [ok_or]|done].
  apply ends_check. unfold check. destruct (utf8_valid _); [|done].
  apply ends_check. destruct (parse_unsigned _ _) as [n|]; [cbn [ok_or]|done].
  destruct (_ <? _)%N; [done|]. destruct (_ <? _)%N; [done|].
  eapply ends_bind; [apply ends_advance|]. intros _ rest _ Hr. split; [done|lia].
Qed.

(** A byte string takes at least its colon. *)
Lemma ends_bytestring_strict input :
  ends (fun _ => True) (length input) (parse_bytestring input).
Proof.
  pose proof (ends_bytestring input) as H. destruct (parse_bytestring input) as [[bs rest]|e] eqn:Hrun; [|done].
  destruct H as [_ Hr]. split; [done|]. revert Hrun. unfold parse_bytestring, mbind, De_bind, rest_of_input, de_lift.
  destruct (position _ input) as [stop|] eqn:Hstop; [cbn|done]. apply position_lt in Hstop.
  destruct (check _ _); [cbn|done]. destruct (parse_unsigned _ _) as [n|]; [cbn|done].
  destruct (_ <? _)%N; [done|]. destruct (_ <? _)%N eqn:Hle; [done|]. apply N.ltb_ge in Hle.
  unfold advance. destruct (_ <=? length input); [|done]. cbn. intros [= _ <-].
  rewrite length_drop. lia.
Qed.

Lemma ends_unicode input :
  ends (fun s => utf8_valid s = true) (length input) (parse_unicode input).
Proof.
  unfold parse_unicode. eapply ends_bind; [apply ends_bytestring_strict|]. intros bs rest _ Hr.
  apply ends_check. unfold check. destruct (utf8_valid bs) eqn:Hu; [|done]. by split.
Qed.

(** *** The collections *)
Section collections.
Variables (self : De BencodexValue) (n : nat).
Hypothesis self_ends : forall input, length input < n ->
  ends (fun v => well_formed v = true) (length input) (self input).

Lemma ends_item {B} (Q : B -> Prop) k f input :
  length input < n ->
  (forall v rest, well_formed v = true -> length rest < length input -> ends Q k (f (Some v) rest)) ->
  ends Q k (f None input) ->
  ends Q k (match ListAccess BencodexValue (value_seed self) input with
            | Ok (item, rest) => f item rest | Err e => Err e end).
Proof.
  intros Hlen Hsome Hnone. unfold ListAccess. destruct input as [|b input]; [done|]. cbn [peek].
  case_bool_decide; [done|]. cbn [seed_de value_seed].
  pose proof (self_ends (b :: input) Hlen) as Hself. destruct (self (b :: input)) as [[v rest]|e]; [|done].
  destruct Hself as [Hv Hr]. by apply Hsome.
Qed.

Lemma ends_items fuel items input :
  length input < fuel -> length input < n -> forallb well_formed items = true ->
  ends (fun items => forallb well_formed items = true) (S (length input))
    (collect_items fuel (value_seed self) ListAccess items input).
Proof.
  revert items input. induction fuel as [|fuel IH]; intros items input Hf Hn Hitems; [lia|].
  cbn [collect_items]. unfold mbind, result_bind.
  apply (ends_item _ _ (fun item st => match item with
    | Some item => collect_items fuel (value_seed self) ListAccess (items ++ [item]) st
    | None => Ok (items, st) end)); [done| |cbn; split; [done|lia]].
  intros v rest Hv Hr. eapply ends_weaken; [apply IH; [lia|lia|]|lia|done].
  rewrite forallb_app, Hitems. cbn. by rewrite Hv.
Qed.

Lemma ends_entries fuel entries input :
  length input < fuel -> length input < n ->
  forallb (fun e => well_formed e.1 && well_formed e.2) entries = true ->
  ends (fun entries => forallb (fun e => well_formed e.1 && well_formed e.2) entries = true)
    (S (length input)) (collect_entries fuel (value_seed self) DictAccess entries input).
Proof.
  revert entries input. induction fuel as [|fuel IH]; intros entries input Hf Hn Hentries; [lia|].
  cbn [collect_entries]. unfold mbind at 1, De_bind at 1.
  apply (ends_item _ _ (fun key => match key with
    | Some k => v ← next_value_seed DictAccess _ (value_seed self);
                collect_entries fuel (value_seed self) DictAccess (entries ++ [(k, v)])
    | None => mret entries end)); [done| |cbn; split; [done|lia]].
  intros k rest Hk Hr. cbn [next_value_seed DictAccess seed_de value_seed].
  eapply ends_bind; [apply self_ends; lia|]. intros v rest' Hv Hr'.
  eapply ends_weaken; [apply IH; [lia|lia|]|lia|done].
  rewrite forallb_app, Hentries. cbn. by rewrite Hk, Hv.
Qed.
End collections.

Lemma deserialize_ends fuel input :
  length input < fuel ->
  ends (fun v => well_formed v = true) (length input) (BencodexValue_deserialize fuel input).
Proof.
  revert input. induction fuel as [|fuel IH]; intros input Hf; [lia|]. cbn [BencodexValue_deserialize].
  unfold deserialize_any. destruct input as [|b t]; [done|].
  unfold mbind at 1, De_bind at 1. cbn [peek]. cbn [length] in Hf |- *.
  assert (forall r, match r with Ok v => well_formed v = true | Err e => e <> BOutOfFuel end ->
    ends (fun v => well_formed v = true) (S (length t)) ((_ ← advance 1; de_lift r) (b :: t))) as Hleaf.
  { intros r Hr. eapply ends_bind; [apply ends_advance|]. intros _ rest _ Hrest. cbn in Hrest.
    eapply ends_weaken; [by apply (ends_lift (fun v => well_formed v = true))|lia|done]. }
  do 3 (case_bool_decide; [by apply (Hleaf (Ok _))|]).
  case_bool_decide.
  { eapply ends_bind; [apply ends_advance|]. intros _ rest _ Hr. cbn in Hr.
    eapply ends_bind; [apply ends_parse_int|]. intros z rest' Hz Hr'.
    eapply ends_weaken; [apply (ends_lift (fun v => well_formed v = true))|lia|done].
    assert (well_formed (VInt z) = true) as Hwf by (cbn [well_formed]; cbn beta in Hz; lia).
    assert (visit_int (ValueVisitor (S fuel) (BencodexValue_deserialize fuel)) z = Ok (VInt z)) as ->
      by (unfold visit_int; by repeat case_match).
    exact Hwf. }
  case_bool_decide.
  { unfold visit_list. eapply ends_bind; [apply ends_advance|]. intros _ rest _ Hr. cbn in Hr.
    apply (ends_bind (fun v => well_formed v = true) _ (S (length rest))).
    - cbn [visit_seq ValueVisitor].
      pose proof (ends_items (BencodexValue_deserialize fuel) fuel IH (S fuel) [] rest
        ltac:(lia) ltac:(lia) eq_refl) as Hitems. unfold mbind, result_bind.
      destruct (collect_items _ _ _ _ _) as [[items st]|e]; [exact Hitems|done].
    - intros v rest' Hv Hr'. eapply ends_bind; [apply ends_consume|]. intros _ rest2 _ Hr2.
      split; [done|lia]. }
  case_bool_decide.
  { unfold visit_dict. eapply ends_bind; [apply ends_advance|]. intros _ rest _ Hr. cbn in Hr.
    apply (ends_bind (fun v => well_formed v = true) _ (S (length rest))).
    - cbn [visit_map ValueVisitor]. eapply ends_bind.
      + by apply (ends_entries _ fuel IH); [lia|lia|].
      + intros entries rest' Hentries Hr'. split; [exact Hentries|exact Hr'].
    - intros v rest' Hv Hr'. eapply ends_bind; [apply ends_consume|]. intros _ rest2 _ Hr2.
      split; [done|lia]. }
  case_bool_decide.
  { eapply ends_bind; [apply ends_advance|]. intros _ rest _ Hr. cbn in Hr.
    eapply ends_bind; [apply ends_unicode|]. intros s rest' Hs Hr'.
    eapply ends_weaken; [by apply (ends_lift (fun v => well_formed v = true))|lia|done]. }
  destruct (is_digit b); [|done].
  eapply ends_bind; [apply ends_bytestring_strict|]. intros bs rest _ Hr.
  eapply ends_weaken; [by apply (ends_lift (fun v => well_formed v = true))|cbn in Hr; lia|done].
Qed.

(** C22: reading any text as a tree ends: the recursion over the nested lists
    and dictionaries takes a byte of the text at every step, so the length of
    the text is fuel enough.  Nothing is ever read as a tree that Rust could not hold: every
    text in it is UTF-8, every integer fits 128 bits. *)
Theorem reading_ends fuel input (Hfuel : length input < fuel) :
  match from_slice (BencodexValue_deserialize fuel) input with
  | Ok v => well_formed v = true
  | Err e => e <> BOutOfFuel
  end.
Proof.
  pose proof (deserialize_ends fuel input Hfuel) as H. unfold from_slice.
  destruct (BencodexValue_deserialize fuel input) as [[v [|b rest]]|e]; [apply H|done|exact H].
Qed.
End termination.

(** ** What is shown *)
Section values.
Variable P : BencodexValue -> Prop.
Hypotheses (HNull : P VNull) (HBool : forall b, P (VBool b)) (HInt : forall z, P (VInt z))
  (HBytes : forall b, P (VBytes b)) (HText : forall s, P (VText s))
  (HList : forall l, Forall P l -> P (VList l))
  (HMap : forall l, Forall (fun e : BencodexValue * BencodexValue => P e.2) l -> P (VMap l)).

Fixpoint value_induction (v : BencodexValue) : P v :=
  match v with
  | VNull => HNull | VBool b => HBool b | VInt z => HInt z | VBytes b => HBytes b
  | VText s => HText s
  | VList l => HList l ((fix go l : Forall P l :=
      match l with
      | [] => Forall_nil_2 P
      | x :: l => Forall_cons_2 P x l (value_induction x) (go l)
      end) l)
  | VMap l => HMap l ((fix go l : Forall (fun e : BencodexValue * BencodexValue => P e.2) l :=
      match l with
      | [] => Forall_nil_2 _
      | (k, x) :: l => Forall_cons_2 (fun e : BencodexValue * BencodexValue => P e.2) (k, x) l
                         (value_induction x) (go l)
      end) l)
  end.
End values.

Section shown.
Context {hex : Hex}.

(** What the rules of elision let through: nothing of the values under four
    names, only the size of buffers, only the length of long byte strings. *)
Definition elided_names : list bytes :=
  [str "private_keys"; str "game_types"; str "unroll_puzzle_hash_map"; str "cached_redo_actions"].
Definition buffer_names : list bytes :=
  [str "incoming_messages"; str "inbound_messages"; str "game_action_queue"].
Definition redact_entry (redact : BencodexValue -> BencodexValue)
    (e : BencodexValue * BencodexValue) : BencodexValue * BencodexValue :=
  (e.1, if bool_decide (key_to_string e.1 ∈ elided_names) then VNull
        else if bool_decide (key_to_string e.1 ∈ buffer_names) then VList (replicate (buffered e.2) VNull)
        else redact e.2).
Fixpoint redact (v : BencodexValue) : BencodexValue :=
  match v with
  | VBytes b => VBytes (if ELIDE_BYTES_OVER <? length b then replicate (length b) x00 else b)
  | VList l => VList (redact <$> l)
  | VMap l => VMap (redact_entry redact <$> l)
  | v => v
  end.

Lemma scalar_repr_redact v : scalar_repr (redact v) = scalar_repr v.
Proof.
  destruct v as [| | |b| | |]; try done. cbn [redact scalar_repr]. unfold bytes_repr.
  destruct (ELIDE_BYTES_OVER <? length b) eqn:H; [by rewrite length_replicate, H|by rewrite H].
Qed.

Definition shows_redacted (v : BencodexValue) : Prop :=
  forall indent, write_value indent (redact v) = write_value indent v.

Lemma write_map_redact prefix indent l :
  Forall (fun e : BencodexValue * BencodexValue => shows_redacted e.2) l ->
  write_map write_value prefix indent (redact_entry redact <$> l)
  = write_map write_value prefix indent l.
Proof.
  induction 1 as [|[k v] l Hv _ IH]; [done|]. cbn [fmap list_fmap write_map fst snd].
  rewrite IH. f_equal. cbn [redact_entry fst snd].
  change (should_skip_key (key_to_string k)) with (bool_decide (key_to_string k ∈ elided_names)).
  destruct (bool_decide (key_to_string k ∈ elided_names)); [done|].
  unfold write_keyed_value, buffer_count.
  change (is_buffer_key (key_to_string k)) with (bool_decide (key_to_string k ∈ buffer_names)).
  destruct (bool_decide (key_to_string k ∈ buffer_names)).
  - cbn [buffered]. by rewrite length_replicate.
  - cbn in Hv. by rewrite Hv.
Qed.

Lemma write_list_redact indent l :
  Forall shows_redacted l -> write_list write_value indent (redact <$> l) = write_list write_value indent l.
Proof.
  induction 1 as [|v l Hv _ IH]; [done|]. cbn [fmap list_fmap write_list]. by rewrite Hv, IH.
Qed.

Lemma write_value_redact v : shows_redacted v.
Proof.
  induction v using value_induction; intros indent; try done.
  - pose proof (scalar_repr_redact (VBytes b)) as Hs. cbn [redact] in *. cbn [write_value].
    by rewrite Hs.
  - destruct l as [|v l]; [done|]. pose proof (write_list_redact (indent + 1) _ H) as Hl.
    cbn [redact fmap list_fmap write_value] in *. by rewrite Hl.
  - destruct l as [|e l]; [done|]. pose proof (write_map_redact (push_indent (indent + 1)) (indent + 1) _ H) as Hm.
    cbn [redact fmap list_fmap write_value] in *. by rewrite Hm.
Qed.

(** What the rules of elision hide.  Two states that differ only in the
    values under the names that are never shown ([private_keys], the game types,
    the map of the unrolls, the cached actions), in the contents of the message
    buffers, or in byte strings longer than the limit, are printed alike. *)
Lemma elided_not_shown v v' (Hsame : redact v = redact v') : pretty_print v = pretty_print v'.
Proof.
  assert (forall w, pretty_print (redact w) = pretty_print w) as Hshow.
  { intros w. assert (shows_redacted w) as Hw by apply write_value_redact.
    pose proof (scalar_repr_redact w) as Hs. destruct w as [| | |b| |l|[|e l]]; try done.
    - cbn [redact pretty_print] in *. by rewrite Hs.
    - specialize (Hw 0). destruct l; [done|]. exact Hw.
    - cbn [redact fmap list_fmap pretty_print]. apply (write_map_redact [] 0 (e :: l)).
      apply Forall_true. intros x. apply write_value_redact. }
  by rewrite <-(Hshow v), <-(Hshow v'), Hsame.
Qed.

(** What they do not hide: the private keys of the identity that the referee
    of every live game carries, hexadecimal text under names of their own. *)
Lemma identity_keys_shown key synthetic :
  pretty_print (VMap [(VText (str "my_identity"), VMap
    [(VText (str "private_key"), VText key); (VText (str "synthetic_private_key"), VText synthetic)])])
  = str "my_identity:" ++ [c_newline]
    ++ str "  private_key: " ++ c_quote :: key ++ [c_quote; c_newline]
    ++ str "  synthetic_private_key: " ++ c_quote :: synthetic ++ [c_quote; c_newline].
Proof. cbv -[app]. cbn [app]. rewrite ?app_nil_r, <-?app_assoc. reflexivity. Qed.
End shown.

Module Witnesses.
Import String.

#[export] Instance arch64 : Arch.
Proof. refine {| usize_bits := 64 |}. by right. Defined.

(** A message with text, bytes, numbers and a structure, as serde serializes it. *)
Definition sample : SValue :=
  SNewtypeVariant (str "Batch") (SStruct
    [(str "signatures", SSeq [SU8 x01; SU8 xff]); (str "actions", SSeq [SInt (-7); SNone]);
     (str "amount", SSome (SI128 (2 ^ 100)))]).
Definition ok_bytes (r : result BError bytes) : bytes := match r with Ok b => b | Err _ => [] end.
Definition sample_text : bytes := Eval vm_compute in ok_bytes (to_vec sample).

Lemma bencodex_roundtrip_witness :
  BencodexValue_from_slice sample_text = Ok (value_of sample).
Proof. apply (bencodex_roundtrip sample sample_text); vm_compute; reflexivity. Defined.

(** A prefix as large as the machine's numbers go, and one byte of text. *)
Lemma bytestring_length_bounds_witness :
  BencodexValue_from_slice (nat_digits (2 ^ 64 - 1) ++ [c_colon; x61])
  = Err (BPanicked "slice index starts after its end").
Proof.
  rewrite (bytestring_length_bounds (2 ^ 64 - 1) [x61]); [reflexivity|vm_compute; reflexivity..].
Defined.

Lemma reading_ends_witness :
  match from_slice (BencodexValue_deserialize 5) (str "lle") with
  | Ok v => well_formed v = true
  | Err e => e <> BOutOfFuel
  end.
Proof. apply (reading_ends 5 (str "lle")). cbn. lia. Defined.

#[export] Instance plain_hex : Hex := {| hex_encode := fun b => b |}.
Definition state_with (secret : bytes) (buffer : list BencodexValue) : BencodexValue :=
  VMap [(VText (str "OffChainPhase"), VMap
    [(VText (str "state_number"), VInt 7); (VText (str "private_keys"), VBytes secret);
     (VText (str "incoming_messages"), VList buffer)])].

Example state_shown :
  pretty_print (state_with [x11] [VNull; VInt 3])
  = str "OffChainPhase:" ++ [c_newline] ++ str "  state_number: 7" ++ [c_newline]
    ++ str "  incoming_messages: <2 buffered>" ++ [c_newline].
Proof. vm_compute. reflexivity. Qed.
End Witnesses.
