(* ===== verification/WasmHost.v ===== *)
(** * The exported functions of the wasm module

    [src/wasm/src/mod.rs]: the table of sessions a front-end holds, each a
    [TransactionManager<GameSession>], and the functions it calls them with.
    What JavaScript hands over is taken as the Rust value [serde_wasm_bindgen]
    or [serde_json] makes of it; what goes back is a value of [Js].  Strings are
    their UTF-8 bytes.  Debug text inside error messages is not modelled. *)
From S2P Require Import Prelude Extern World Coins Clvm StandardCoin Text TransactionManager.
From S2P Require Import UnrollCoin GameHandler RefereeTypes Referee LiveGame ChannelState ChannelGames.
From S2P Require Import ChannelOnChain Effects OnChainPhase OnChainActions OnChainSpend HandlerBase.
From S2P Require Import SpendChannelCoin UnrollTransition OffChainPhase OffChainReceive HandshakeBase.
From S2P Require Import HandshakeInitiator HandshakeReceiver PeerPhase GameSession ProtocolPretty.

(** ** What the module is linked with *)

(** [hex::decode], the inverse of [hex::encode]. *)
Class HexDecode `{Hex} := {
  hex_decode : bytes -> option bytes;
  hex_decode_encode : forall bs, hex_decode (hex_encode bs) = Some bs;
}.

(** [rand_chacha] and [SecretKey::from_seed]. *)
Class SessionRng `{Bls} := {
  ChaCha8Rng : Type;
  from_seed : Hash -> ChaCha8Rng;
  random_u8 : ChaCha8Rng -> byte * ChaCha8Rng;
  sk_from_seed : Hash -> PrivateKey;
}.

(** ** JavaScript values *)
Inductive Js : Type :=
| JsNull
| JsBool (b : bool)
| JsNumber (n : Z)
| JsString (s : bytes)
| JsBytes (b : bytes)
| JsArray (l : list Js)
| JsObject (fields : list (bytes * Js)).

(** An exception: an [Error] of the library, or a text of the module's own. *)
Inductive JsFailure : Type :=
| JsFromError (e : Error)
| JsText (msg : string).

Definition into_js {A} (r : result Error A) : result JsFailure A :=
  match r with Ok a => Ok a | Err e => Err (JsFromError e) end.

Definition js_text (s : string) : Js := JsString (String.list_byte_of_string s).
Definition field (name : string) (v : Js) : bytes * Js := (String.list_byte_of_string name, v).
Definition js_option {A} (f : A -> Js) (o : option A) : Js := match o with Some a => f a | None => JsNull end.

(** [notification.serialize(&serializer)]: derived by a macro. *)
Class NotificationJs `{Bls} := { notification_js : GameNotification -> Js }.

Section conversions.
Context {arch : Arch} {sha2 : Sha2} {bigint : BigInt} {clvm : Clvm} {bls : Bls}.
Context {hex : Hex} {unhex : HexDecode} {notifications : NotificationJs}.

(** ** Numbers, coins and hashes as text *)
Definition game_id_to_string (id : GameID) : bytes := nat_digits id.
Definition string_to_game_id (id : bytes) : result JsFailure GameID :=
  match parse_unsigned u64_modulus id with Some n => Ok n | None => Err (JsText "bad game id") end.

Definition coin_string_to_hex (cs : CoinString) : bytes := hex_encode (coin_bytes cs).
Definition hex_to_coinstring (h : bytes) : result Error CoinString :=
  match hex_decode h with
  | Some b => Ok (CoinString_from_bytes b)
  | None => Err (StrErr "hex_to_coinstring failed")
  end.

Definition c_0x : bytes := String.list_byte_of_string "0x".
Definition decode_hex (h : bytes) : result Error bytes :=
  match hex_decode h with Some b => Ok b | None => Err (StrErr "hex") end.
Definition check_for_hex (h : bytes) : result Error bytes :=
  decode_hex (if bool_decide (take 2 h = c_0x) then drop 2 h else h).

(** [str::trim]: the white space of Unicode at both ends. *)
Definition white_space : list bytes :=
  [[x09]; [x0a]; [x0b]; [x0c]; [x0d]; [x20]; [xc2; x85]; [xc2; xa0]; [xe1; x9a; x80];
   [xe2; x80; x80]; [xe2; x80; x81]; [xe2; x80; x82]; [xe2; x80; x83]; [xe2; x80; x84];
   [xe2; x80; x85]; [xe2; x80; x86]; [xe2; x80; x87]; [xe2; x80; x88]; [xe2; x80; x89];
   [xe2; x80; x8a]; [xe2; x80; xa8]; [xe2; x80; xa9]; [xe2; x80; xaf]; [xe2; x81; x9f];
   [xe3; x80; x80]].
Fixpoint trim_start (fuel : nat) (whites : list bytes) (s : bytes) : bytes :=
  match fuel with
  | O => s
  | S fuel =>
      match find_first (fun w => bool_decide (take (length w) s = w)) whites with
      | Some w => trim_start fuel whites (drop (length w) s)
      | None => s
      end
  end.
Definition trim (s : bytes) : bytes :=
  let s := trim_start (length s) white_space s in
  rev (trim_start (length s) (List.map (@rev byte) white_space) (rev s)).
Definition Program_from_hex (s : bytes) : result Error Program := mkProgram <$> decode_hex (trim s).

(** ** Spends *)
Record CoinsetSpendRecord := mkCoinsetSpend {
  cs_amount : N;
  cs_parent_coin_info : bytes;
  cs_puzzle_hash : bytes;
  cs_puzzle_reveal : bytes;
  cs_solution : bytes;
}.
Record CoinsetSpendBundle := mkCoinsetBundle {
  cs_aggregated_signature : bytes;
  cs_coin_spends : list CoinsetSpendRecord;
}.

Definition convert_coinset_org_spend_to_spend (s : CoinsetSpendRecord) : result Error CoinSpend :=
  parent_coin_info_bytes ← check_for_hex (cs_parent_coin_info s);
  puzzle_hash_bytes ← check_for_hex (cs_puzzle_hash s);
  puzzle_reveal_bytes ← check_for_hex (cs_puzzle_reveal s);
  solution_bytes ← check_for_hex (cs_solution s);
  coinid_hash ← Hash_from_slice parent_coin_info_bytes;
  puzzle_hash ← Hash_from_slice puzzle_hash_bytes;
  mret (mkCoinSpend (CoinString_from_parts (mkCoinID coinid_hash) (mkPuzzleHash puzzle_hash) (cs_amount s))
          (mkSpend (mkPuzzle (mkProgram puzzle_reveal_bytes)) (mkProgram solution_bytes) sig_default)).

(** The first spend carries the signature of the bundle. *)
Definition coinset_spend_bundle_to_spend_bundle (b : CoinsetSpendBundle) : result Error SpendBundle :=
  spends ← mapM_result convert_coinset_org_spend_to_spend (cs_coin_spends b);
  match spends with
  | [] => mret (mkSpendBundle None [])
  | first :: rest =>
      agg_sig ← check_for_hex (cs_aggregated_signature b);
      sig ← Aggsig_from_slice agg_sig;
      mret (mkSpendBundle None
        (mkCoinSpend (coin first) (mkSpend (puzzle (bundle first)) (solution (bundle first)) sig) :: rest))
  end.

Definition with_0x (b : bytes) : bytes := c_0x ++ hex_encode b.
Definition spend_to_coinset (s : CoinSpend) : result JsFailure CoinsetSpendRecord :=
  match to_parts (coin s) with
  | Some (parent, pph, amt) =>
      Ok (mkCoinsetSpend amt (with_0x (CoinID_bytes parent)) (with_0x (PuzzleHash_bytes pph))
            (with_0x (program_bytes (puzzle_program (puzzle (bundle s)))))
            (with_0x (program_bytes (solution (bundle s)))))
  | None => Err (JsText "bad coin string")
  end.
Fixpoint spends_to_coinset (l : list CoinSpend) : result JsFailure (list CoinsetSpendRecord) :=
  match l with
  | [] => mret []
  | s :: l => r ← spend_to_coinset s; rs ← spends_to_coinset l; mret (r :: rs)
  end.
Definition spend_bundle_to_coinset_js (b : SpendBundle) : result JsFailure CoinsetSpendBundle :=
  let aggsig := fold_left (fun sig cs => sig_add sig (signature (bundle cs))) (spends b) sig_default in
  coin_spends ← spends_to_coinset (spends b);
  mret (mkCoinsetBundle (with_0x (sig_bytes aggsig)) coin_spends).

Definition spend_to_js (s : Spend) : Js :=
  JsObject [field "puzzle" (JsString (hex_encode (program_bytes (puzzle_program (puzzle s)))));
            field "solution" (JsString (hex_encode (program_bytes (solution s))));
            field "signature" (JsString (hex_encode (sig_bytes (signature s))))].
Definition coin_spend_to_js (s : CoinSpend) : Js :=
  JsObject [field "coin" (JsString (coin_string_to_hex (coin s))); field "bundle" (spend_to_js (bundle s))].
Definition spend_bundle_to_js (b : SpendBundle) : Js :=
  JsObject ((match name b with Some n => [field "name" (js_text n)] | None => [] end)
            ++ [field "spends" (JsArray (coin_spend_to_js <$> spends b))]).

Definition raw_condition_to_js (c : RawCoinCondition) : Js :=
  JsObject [field "opcode" (JsNumber (Z.of_N (opcode c)));
            field "args" (JsArray ((fun a => JsString (hex_encode a)) <$> raw_args c))].
(** The amount is decimal text: a JavaScript number is a float. *)
Definition coin_spend_request_to_js (r : CoinSpendRequest) : Js :=
  JsObject ([field "amount" (JsString (nat_digits (req_amount r)));
             field "conditions" (JsArray (raw_condition_to_js <$> req_conditions r));
             field "coin_id" (js_option (fun c => JsString (hex_encode (CoinID_bytes c))) (req_coin_id r))]
            ++ match req_max_height r with Some h => [field "max_height" (JsNumber (Z.of_N h))] | None => [] end).

(** ** Events and drains *)
Definition game_session_event_to_js (e : GameSessionEvent GameNotification CoinSpendRequest)
    : result Error Js :=
  match e with
  | OutboundMessage data => Ok (JsObject [field "OutboundMessage" (JsBytes data)])
  | OutboundTerminalMessage _ =>
      Err (StrErr "OutboundTerminalMessage should be intercepted before JS event serialization")
  | OutboundTransaction b _ => Ok (JsObject [field "OutboundTransaction" (spend_bundle_to_js b)])
  | Notification n => Ok (JsObject [field "Notification" (notification_js n)])
  | Log line => Ok (JsObject [field "Log" (js_text line)])
  | CoinSolutionRequest coin =>
      Ok (JsObject [field "CoinSolutionRequest" (JsString (coin_string_to_hex coin))])
  | ReceiveError msg => Ok (JsObject [field "ReceiveError" (js_text msg)])
  | NeedCoinSpend req => Ok (JsObject [field "NeedCoinSpend" (coin_spend_request_to_js req)])
  | NeedLauncherCoin => Ok (JsObject [field "NeedLauncherCoin" (JsBool true)])
  | WatchCoin _ _ _ _ _ => Err (StrErr "WatchCoin should be intercepted before JS event serialization")
  end.
Definition collect_drain_events (d : ManagerDrain GameNotification CoinSpendRequest)
    : result Error (list Js) := mapM_result game_session_event_to_js (TransactionManager.events d).

Definition watch_coin_entries_from_coins (coins : list CoinString) : Js :=
  JsArray ((fun cs => JsObject [field "coin_name" (JsString (hex_encode (CoinID_bytes (to_coin_id cs))));
                                field "coin_string" (JsString (coin_string_to_hex cs))]) <$> coins).
Definition terminal_handoff_command_to_js (c : TerminalHandoffCommand) : Js :=
  JsObject [field "id" (JsString (nat_digits (handoff_id c))); field "message" (JsBytes (handoff_message c))].

Definition disposition_js (pending_terminal : option TerminalHandoffCommand) (terminal : bool) : Js :=
  match pending_terminal with
  | None => JsObject [field "kind" (js_text (if terminal then "terminal" else "active"))]
  | Some command => JsObject [field "kind" (js_text "await-outbound-terminal");
                              field "command" (terminal_handoff_command_to_js command)]
  end.
Definition manager_drain_to_js (d : ManagerDrain GameNotification CoinSpendRequest)
    (pending_terminal : option TerminalHandoffCommand) (terminal action_succeeded : bool) : result Error Js :=
  events ← collect_drain_events d;
  mret (JsObject [field "events" (JsArray events);
                  field "watchCoins" (watch_coin_entries_from_coins (watch_coins d));
                  field "unwatchCoins" (watch_coin_entries_from_coins (unwatch_coins d));
                  field "actionSucceeded" (JsBool action_succeeded);
                  field "disposition" (disposition_js pending_terminal terminal)]).
End conversions.

(** ** The watched coins, in the order of their bytes

    [snapshot_watched_coins] of the manager collects the keys in a [BTreeSet]. *)
Fixpoint insert_coin (c : CoinString) (l : list CoinString) : list CoinString :=
  match l with
  | [] => [c]
  | d :: l' => match bytes_cmp (coin_bytes c) (coin_bytes d) with Gt => d :: insert_coin c l' | _ => c :: l end
  end.
Definition snapshot_watched_coins `{HashOrder} {bls : Bls} {N R C : Type} (m : TransactionManager N R C)
    : list CoinString := foldr insert_coin [] (hm_iter (watched_coins m)).*1.

(** ** The table of sessions *)
Section host.
Context {arch : Arch} {sha2 : Sha2} {bigint : BigInt} {clvm : Clvm} {bls : Bls}.
Context {puzzles : ChiaPuzzles} {order : HashOrder} {codec : PeerCodec} {singleton : LauncherPuzzle}.
Context {settlement : SettlementPuzzle} {encoder : PeerEncoder}.
Context {hex : Hex} {unhex : HexDecode} {notifications : NotificationJs} {randomness : SessionRng}.

Abbreviation Managed := (TransactionManager GameNotification CoinSpendRequest GameSession).

Record JsGameSession := mkJsGameSession { rng : ChaCha8Rng; js_cradle : Managed }.
#[export] Instance JsGameSession_eta : RecordEta JsGameSession := fun s =>
  mkJsGameSession (rng s) (js_cradle s).

(** The thread-local cells; an identifier is an [i32]. *)
Record WasmHost := mkWasmHost {
  NEXT_ID : Z;
  CRADLES : gmap Z JsGameSession;
  RNGS : gmap Z ChaCha8Rng;
}.
#[export] Instance WasmHost_eta : RecordEta WasmHost := fun h =>
  mkWasmHost (NEXT_ID h) (CRADLES h) (RNGS h).
Definition WasmHost_new : WasmHost := mkWasmHost 0 ∅ ∅.

(** The functions fail with exceptions of their own. *)
Definition host (A : Type) : Type := WasmHost -> result JsFailure A * WasmHost.
#[export] Instance host_ret : MRet host := fun A a h => (Ok a, h).
#[export] Instance host_bind : MBind host := fun A B f m h =>
  match m h with (Ok a, h') => f a h' | (Err e, h') => (Err e, h') end.
Definition js_lift {A} (r : result JsFailure A) : host A := fun h => (r, h).

(** [n.fetch_add(1)] of an [AtomicI32] wraps. *)
Definition wrap_i32 (z : Z) : Z := ((z + 2 ^ 31) mod 2 ^ 32 - 2 ^ 31)%Z.
Definition get_next_id : host Z := fun h => (Ok (NEXT_ID h), h <| NEXT_ID ::= fun n => wrap_i32 (n + 1) |>).
Definition insert_cradle (id : Z) (s : JsGameSession) : host unit := fun h =>
  (Ok tt, h <| CRADLES ::= insert id s |>).
Definition insert_rng (id : Z) (r : ChaCha8Rng) : host unit := fun h =>
  (Ok tt, h <| RNGS ::= insert id r |>).

Definition with_game {A} (cid : Z) (f : eff JsGameSession A) : host A := fun h =>
  match CRADLES h !! cid with
  | Some s => let '(r, s') := f s in (into_js r, h <| CRADLES ::= insert cid s' |>)
  | None => (Err (JsText "could not find game instance"), h)
  end.
Definition with_rng {A} (cid : Z) (f : eff ChaCha8Rng A) : host A := fun h =>
  match RNGS h !! cid with
  | Some r => let '(a, r') := f r in (into_js a, h <| RNGS ::= insert cid r' |>)
  | None => (Err (JsText "could not find RNG instance"), h)
  end.

(** ** Randomness *)
Fixpoint random_bytes (n : nat) : eff ChaCha8Rng bytes :=
  match n with
  | O => mret []
  | S n => fun r => let '(b, r) := random_u8 r in (bs ← random_bytes n; mret (b :: bs)) r
  end.
Definition random_hash : eff ChaCha8Rng Hash :=
  bs ← random_bytes 32; mret (default zero_hash (array32 bs)).
Definition random_private_key : eff ChaCha8Rng PrivateKey := h ← random_hash; mret (sk_from_seed h).
Definition random_channel_keys : eff ChaCha8Rng ChannelPrivateKeys :=
  channel ← random_private_key;
  unroll ← random_private_key;
  referee ← random_private_key;
  mret (mkChannelPrivateKeys channel unroll referee).
Definition GameSession_new (config : GameSessionConfig) : eff ChaCha8Rng GameSession :=
  keys ← random_channel_keys; mret (new_with_keys config keys).

Definition create_rng (seed : bytes) : host Z :=
  id ← get_next_id; _ ← insert_rng id (from_seed (Hash_new seed)); mret id.

(** ** Sessions come and go *)
Record JsGameSessionConfig := mkJsConfig {
  js_rng_id : Z;
  js_have_potato : bool;
  js_my_contribution : Amount;
  js_their_contribution : Amount;
  js_channel_timeout : Z;
  js_unroll_timeout : Z;
  js_reward_puzzle_hash : bytes;
}.
(** [x as u64] of an [i32]. *)
Definition i32_as_u64 (z : Z) : N := Z.to_N (z mod 2 ^ 64).

(** [parse_game_config]: the reward puzzle hash, the one thing to be decoded. *)
Definition parse_reward_puzzle_hash (c : JsGameSessionConfig) : result JsFailure PuzzleHash :=
  match hex_decode (js_reward_puzzle_hash c) with
  | Some b => h ← into_js (Hash_from_slice b); mret (mkPuzzleHash h)
  | None => Err (JsFromError (StrErr "reward_puzzle_hash hex decode"))
  end.

Definition new_session (game_collection : gmap GameType GameFactory) (c : JsGameSessionConfig)
    (reward_puzzle_hash : PuzzleHash) : eff ChaCha8Rng (JsGameSession * bytes) :=
  private_key ← random_private_key;
  identity ← lift_result (ChiaIdentity_new private_key);
  game_cradle ← GameSession_new (mkSessionConfig game_collection (js_have_potato c) identity
    (js_my_contribution c) (js_their_contribution c) (i32_as_u64 (js_channel_timeout c))
    (i32_as_u64 (js_unroll_timeout c)) reward_puzzle_hash);
  rng ← get_state;
  mret (mkJsGameSession rng (TransactionManager_new game_cradle),
        hex_encode (PuzzleHash_bytes (identity_puzzle_hash identity))).

(** The identifier is taken before the configuration is looked at. *)
Definition create_game_session (game_collection : gmap GameType GameFactory)
    (config : result JsFailure JsGameSessionConfig) : host Js :=
  new_id ← get_next_id;
  c ← js_lift config;
  reward_puzzle_hash ← js_lift (parse_reward_puzzle_hash c);
  '(session, puzzle_hash_hex) ← with_rng (js_rng_id c) (new_session game_collection c reward_puzzle_hash);
  _ ← insert_cradle new_id session;
  mret (JsObject [field "id" (JsNumber new_id); field "puzzle_hash" (JsString puzzle_hash_hex)]).

(** The encoding of a session, derived by macros; the generator is not part of
    it. *)
Section stored.
Context (session_to_vec : Managed -> result Error bytes) (session_from_slice : bytes -> result Error Managed).

Definition restore_session (data new_seed : bytes) : host Z :=
  cradle ← js_lift (into_js (session_from_slice data));
  new_id ← get_next_id;
  _ ← insert_cradle new_id (mkJsGameSession (from_seed (Hash_new new_seed)) cradle);
  mret new_id.
Definition serialize_game_session (cid : Z) : host Js :=
  with_game cid (s ← get_state;
    bs ← lift_result (session_to_vec (js_cradle s));
    _ ← lift_result (session_from_slice bs);
    mret (JsBytes bs)).
End stored.

(** ** What is asked of a session *)
Definition on_manager {A} (op : eff Managed A) : eff JsGameSession A :=
  on_part js_cradle (fun m s => s <| js_cradle := m |>) op.
(** Through [DerefMut] of the manager. *)
Definition on_session {A} (op : eff GameSession A) : eff JsGameSession A := on_manager (on_cradle op).
Definition session_of (s : JsGameSession) : GameSession := cradle (js_cradle s).

Section calls.
Context (env : ChannelEnv) (exhausted : Error) (fuel : nat).
#[local] Instance managed_session : ManagedGameSession GameNotification CoinSpendRequest GameSession :=
  session_managed env exhausted fuel.

(** The action, its failure among the events, and everything that came of it. *)
Definition run_action (action_context : option (GameID * FailedGameAction)) (f : eff JsGameSession unit)
    : eff JsGameSession bool :=
  catch (_ ← f; mret true) (fun _ =>
    _ ← on_session (push_event (Notification
          (ActionFailed (fst <$> action_context) (snd <$> action_context) "action failed")));
    mret false).
Definition drain_to_js (action_succeeded : bool) : eff JsGameSession Js :=
  dr ← on_manager TransactionManager.flush_and_collect;
  s ← get_state;
  lift_result (manager_drain_to_js dr (pending_outbound_terminal (state (session_of s)))
                 (is_fully_resolved (session_of s)) action_succeeded).
Definition with_game_drain_context (cid : Z) (action_context : option (GameID * FailedGameAction))
    (f : eff JsGameSession unit) : host Js :=
  with_game cid (ok ← run_action action_context f; drain_to_js ok).
Definition with_game_drain (cid : Z) (f : eff JsGameSession unit) : host Js :=
  with_game_drain_context cid None f.
Definition with_game_action_drain (cid : Z) (id : GameID) (action : FailedGameAction)
    (f : eff JsGameSession unit) : host Js := with_game_drain_context cid (Some (id, action)) f.

(** *** The chain *)
Record JsCoinStateRecord := mkJsCoinState {
  js_coin : bytes;
  js_created_height : option N;
  js_spent_height : option N;
}.
Definition coin_state_record (r : JsCoinStateRecord) : result Error CoinStateRecord :=
  c ← hex_to_coinstring (js_coin r); mret (mkCoinStateRecord c (js_created_height r) (js_spent_height r)).
(** A report that fails is an exception; what it queued stays for the next drain. *)
Definition wasm_report_coin_states (cid : Z) (height : N) (js_records : list JsCoinStateRecord) : host Js :=
  records ← js_lift (into_js (mapM_result coin_state_record js_records));
  _ ← with_game cid (on_manager (report_coin_states height records));
  with_game_drain cid (mret tt).
Definition wasm_report_height (cid : Z) (height : N) : host Js :=
  with_game_drain cid (on_manager (report_height height)).
Definition program_option (h : option bytes) : result JsFailure (option Program) :=
  match h with Some h => p ← into_js (Program_from_hex h); mret (Some p) | None => mret None end.
Definition wasm_report_puzzle_and_solution (cid : Z) (coin_hex : bytes) (puzzle_hex solution_hex : option bytes)
    : host Js :=
  coin_bytes ← js_lift (into_js (decode_hex coin_hex));
  puzzle_program ← js_lift (program_option puzzle_hex);
  solution_program ← js_lift (program_option solution_hex);
  let ps_pair := match puzzle_program, solution_program with Some p, Some s => Some (p, s) | _, _ => None end in
  with_game_drain cid
    (on_session (report_puzzle_and_solution env exhausted fuel (CoinString_from_bytes coin_bytes) ps_pair)).
Definition wasm_drain_submissions (cid : Z) : host Js :=
  with_game cid (bundles ← on_manager drain_submissions; mret (JsArray (spend_bundle_to_js <$> bundles))).
Definition resubmit_submitted (cid : Z) : host unit :=
  with_game cid (on_manager (modify_state requeue_submitted)).
Definition get_watching_coins (cid : Z) : host Js :=
  with_game cid (s ← get_state; mret (watch_coin_entries_from_coins (snapshot_watched_coins (js_cradle s)))).

(** *** The handshake *)
Definition wasm_set_funding_coin (cid : Z) (hex_coinstring : bytes) : host Js :=
  coin ← js_lift (into_js (hex_to_coinstring hex_coinstring));
  with_game_drain cid (on_session (set_funding_coin env exhausted fuel coin)).
Definition wasm_start_handshake (cid : Z) : host Js :=
  with_game_drain cid (on_session (GameSession.start_handshake env exhausted fuel)).
Definition wasm_provide_launcher_coin (cid : Z) (hex_coinstring : bytes) : host Js :=
  coin ← js_lift (into_js (hex_to_coinstring hex_coinstring));
  with_game_drain cid (on_session (session_provide_launcher_coin env exhausted fuel coin)).
Definition wasm_provide_coin_spend_bundle (cid : Z) (b : CoinsetSpendBundle) : host Js :=
  spend_bundle ← js_lift (into_js (coinset_spend_bundle_to_spend_bundle b));
  with_game_drain cid (on_session (session_provide_coin_spend_bundle env exhausted fuel spend_bundle)).
Definition wasm_wallet_callback_failed (cid : Z) (reason : string) : host Js :=
  with_game_drain cid (on_session (session_wallet_callback_failed reason)).
Definition wasm_deliver_message (cid : Z) (inbound_message : bytes) : host Js :=
  with_game_drain cid (on_session (deliver_message inbound_message)).

(** *** The player *)
Record JsGameProposal := mkJsProposal { js_game_type : bytes; js_timeout : N }.
Definition game_proposal (gp : JsGameProposal * bytes) : GameProposal :=
  mkGameProposal (js_game_type gp.1) (js_timeout gp.1) (mkProgram gp.2).
(** Not through [with_game_drain]: what the drain watches is left out, and a
    failure is an exception. *)
Definition wasm_propose_games (cid : Z) (games : list JsGameProposal) (parameters_list : list bytes) : host Js :=
  if negb (length games =? length parameters_list)%nat
  then js_lift (Err (JsText "games and parameters_list must have the same length"))
  else with_game cid
    (ids ← on_session (session_propose_games env exhausted fuel (game_proposal <$> zip games parameters_list));
     dr ← on_manager TransactionManager.flush_and_collect;
     events ← lift_result (collect_drain_events dr);
     mret (JsObject [field "ids" (JsArray ((fun id => JsString (game_id_to_string id)) <$> ids));
                     field "events" (JsArray events)])).
Definition wasm_accept_proposal (cid : Z) (game_id : bytes) : host Js :=
  id ← js_lift (string_to_game_id game_id);
  with_game_drain cid (on_session (session_accept_proposal env exhausted fuel id)).
Definition wasm_cancel_proposal (cid : Z) (game_id : bytes) : host Js :=
  id ← js_lift (string_to_game_id game_id);
  with_game_drain cid (on_session (session_cancel_proposal env exhausted fuel id)).

(** [new_entropy.unwrap_or_else(|| cradle.rng.0.random())] *)
Definition draw_entropy (given : option Hash) : eff JsGameSession Hash :=
  match given with
  | Some e => mret e
  | None => on_part rng (fun r s => s <| rng := r |>) random_hash
  end.
Definition entropy_option (entropy : option bytes) : result JsFailure (option Hash) :=
  match entropy with
  | Some e => b ← into_js (decode_hex e); h ← into_js (Hash_from_slice b); mret (Some h)
  | None => mret None
  end.
Definition make_move_inner (cid : Z) (id readable : bytes) (entropy : option bytes) : host Js :=
  game_id ← js_lift (string_to_game_id id);
  new_entropy ← js_lift (entropy_option entropy);
  with_game_action_drain cid game_id MakeMove
    (entropy ← draw_entropy new_entropy;
     on_session (session_make_move env exhausted fuel game_id (mkReadableMove (mkProgram readable)) entropy)).
Definition wasm_make_move (cid : Z) (id readable : bytes) : host Js := make_move_inner cid id readable None.
Definition make_move_with_entropy_for_testing (cid : Z) (id readable new_entropy : bytes) : host Js :=
  make_move_inner cid id readable (Some new_entropy).
Definition wasm_cheat (cid : Z) (id mover_share : bytes) : host Js :=
  game_id ← js_lift (string_to_game_id id);
  match parse_unsigned u64_modulus mover_share with
  | Some share => with_game_drain cid (on_session (cheat env exhausted fuel game_id share))
  | None => js_lift (Err (JsText "invalid digit found in string"))
  end.
Definition wasm_accept_proposal_and_move (cid : Z) (id readable : bytes) : host Js :=
  game_id ← js_lift (string_to_game_id id);
  with_game_drain cid
    (entropy ← draw_entropy None;
     on_session (accept_proposal_and_move env exhausted fuel game_id (mkReadableMove (mkProgram readable)) entropy)).
Definition wasm_accept_settlement (cid : Z) (id : bytes) : host Js :=
  game_id ← js_lift (string_to_game_id id);
  with_game_action_drain cid game_id FailedAcceptSettlement
    (on_session (session_accept_settlement env exhausted fuel game_id)).
Definition wasm_shut_down (cid : Z) : host Js :=
  with_game_drain cid (on_session (session_shut_down env exhausted fuel)).
Definition wasm_go_on_chain (cid : Z) : host Js :=
  with_game_drain cid (on_session (session_go_on_chain env exhausted fuel false)).
Definition wasm_abandon (cid : Z) : host Js := with_game_drain cid (on_session abandon).
Definition wasm_complete_outbound_terminal_handoff (cid : Z) : host Js :=
  with_game_drain cid (on_session complete_outbound_terminal_handoff).
End calls.

(** *** What the front-end reads *)
Definition reading {A} (cid : Z) (f : GameSession -> A) : host A :=
  with_game cid (s ← get_state; mret (f (session_of s))).

Definition pending_terminal_handoff (cid : Z) : host Js :=
  reading cid (fun s => js_option terminal_handoff_command_to_js (pending_outbound_terminal (state s))).
Definition get_channel_puzzle_hash (cid : Z) : host Js :=
  reading cid (fun s => js_option (fun ph => JsString (hex_encode (PuzzleHash_bytes ph)))
                          (channel_puzzle_hash (state s))).
Definition wasm_historical_unroll_count (cid : Z) : host (option N) :=
  with_game cid (s ← get_state;
    match historical_unroll_count (session_of s) with
    | Some n => if (N.of_nat n <? 2 ^ 32)%N then mret (Some (N.of_nat n))
                else throw (StrErr "historical unroll count exceeds WASM metric range")
    | None => mret None
    end).
Definition coin_label (k : CoinOfInterest) : string :=
  match k with
  | ChannelCoin => "Channel coin" | UnrollCoinOfInterest => "Unroll coin"
  | UnrollPayout => "Unroll payout coin" | CurrentGame => "Current game coin"
  | GamePayout => "Game payout coin"
  end.
Definition wasm_coins_of_interest (cid : Z) : host Js :=
  reading cid (fun s => JsArray ((fun kc : CoinOfInterest * CoinString =>
    JsObject [field "label" (js_text (coin_label kc.1));
              field "id" (JsString (hex_encode (CoinID_bytes (to_coin_id kc.2))))])
      <$> PeerPhase.coins_of_interest (peer s))).
Definition js_identity (i : ChiaIdentity) : Js :=
  JsObject [field "private_key" (JsString (hex_encode (sk_bytes (private_key i))));
            field "synthetic_private_key" (JsString (hex_encode (sk_bytes (synthetic_private_key i))));
            field "public_key" (JsString (hex_encode (pk_bytes (public_key i))));
            field "synthetic_public_key" (JsString (hex_encode (pk_bytes (synthetic_public_key i))));
            field "puzzle" (JsString (hex_encode (program_bytes (puzzle_program (identity_puzzle i)))));
            field "puzzle_hash" (JsString (hex_encode (PuzzleHash_bytes (identity_puzzle_hash i))))].
Definition get_identity (cid : Z) : host Js := reading cid (fun s => js_identity (session_identity (state s))).
Definition chia_identity (rng_id : Z) : host Js :=
  with_rng rng_id (sk ← random_private_key; i ← lift_result (ChiaIdentity_new sk); mret (js_identity i)).
Definition wasm_get_game_state_id (cid : Z) : host (option bytes) :=
  reading cid (fun s => (fun h => hex_encode (hash_bytes h)) <$> session_game_state_id s).
Definition game_session_amount (cid : Z) : host Amount := reading cid session_amount.
Definition game_session_our_share (cid : Z) : host (option Amount) := reading cid session_our_current_share.
Definition game_session_their_share (cid : Z) : host (option Amount) := reading cid session_their_current_share.

(** *** Conversions *)
Definition convert_spend_to_coinset_org (spend : bytes) : result JsFailure CoinsetSpendBundle :=
  spend_bytes ← into_js (decode_hex spend);
  spend_node ← into_js (Program_to_nodeptr (mkProgram spend_bytes));
  spend ← into_js (SpendBundle_from_clvm spend_node);
  spend_bundle_to_coinset_js spend.
Definition convert_coinset_to_coin_string (parent_coin_info puzzle_hash : bytes) (amount : N)
    : result JsFailure bytes :=
  parent_coin_bytes ← into_js (check_for_hex parent_coin_info);
  puzzle_hash_bytes ← into_js (check_for_hex puzzle_hash);
  parent_coin_info_hash ← into_js (Hash_from_slice parent_coin_bytes);
  puzzle_hash_hash ← into_js (Hash_from_slice puzzle_hash_bytes);
  mret (hex_encode (coin_bytes (CoinString_from_parts (mkCoinID parent_coin_info_hash)
                                  (mkPuzzleHash puzzle_hash_hash) amount))).
Definition convert_chia_public_key_to_puzzle_hash (public_key : bytes) : result JsFailure bytes :=
  public_key_bytes ← into_js (check_for_hex public_key);
  pubkey ← into_js (PublicKey_from_slice public_key_bytes);
  puzzle_hash ← into_js (puzzle_hash_for_pk pubkey);
  mret (hex_encode (PuzzleHash_bytes puzzle_hash)).
Definition sha256bytes (bytes_str : bytes) : bytes := hex_encode (hash_bytes (Hash_new bytes_str)).
End host.
