(* ===== verification/WasmOffers.v ===== *)
(** * Offers, as the wasm module reads them

    [decode_offer_to_spend_bundle] of [src/wasm/src/mod.rs]: bech32m text, a
    compression version, a zlib stream with the dictionary of that version, and
    a serialized bundle.  The crates [bech32], [flate2], [chia_protocol] and
    [chia_puzzles] are parameters. *)
From S2P Require Import Prelude Extern World Coins Clvm StandardCoin Text TransactionManager.
From S2P Require Import UnrollCoin GameHandler RefereeTypes Referee LiveGame ChannelState ChannelGames.
From S2P Require Import ChannelOnChain Effects OnChainPhase OnChainActions OnChainSpend HandlerBase.
From S2P Require Import SpendChannelCoin UnrollTransition OffChainPhase OffChainReceive HandshakeBase.
From S2P Require Import HandshakeInitiator HandshakeReceiver PeerPhase GameSession ProtocolPretty.
From S2P Require Import Simulator WasmHost.

(** [flate2::Decompress]: a call reads some of the input and writes some bytes,
    at most as many as the room it is given; it may stop and ask for a
    dictionary. *)
Class Flate2 := {
  Decompress : Type;
  Decompress_new : Decompress;
  decompress : Decompress -> bytes -> nat -> result (option N) unit * bytes * Decompress;
  set_dictionary : Decompress -> bytes -> option Decompress;
  total_in : Decompress -> nat;
}.
(** [CheckedHrpstring::new::<OfferBech32m>] and its [byte_iter], and
    [SpendBundle::from_bytes]. *)
Class OfferFormats `{Sha2, BigInt, Clvm, Bls} := {
  bech32m_decode : bytes -> option bytes;
  protocol_bundle_from_bytes : bytes -> option ProtocolSpendBundle;
}.
Class OfferPuzzles := {
  SINGLETON_TOP_LAYER_V1_1 : bytes;
  NFT_STATE_LAYER : bytes;
  NFT_OWNERSHIP_LAYER : bytes;
  NFT_METADATA_UPDATER_DEFAULT : bytes;
  NFT_OWNERSHIP_TRANSFER_PROGRAM_ONE_WAY_CLAIM_WITH_ROYALTIES : bytes;
  CAT_PUZZLE : bytes;
}.

Definition LEGACY_CAT_MOD_HEX : bytes := concat (String.list_byte_of_string <$>
  ["ff02ffff01ff02ff5effff04ff02ffff04ffff04ff05ffff04ffff0bff2cff0580ffff04ff0bff80808080ffff"%string;
   "04ffff02ff17ff2f80ffff04ff5fffff04ffff02ff2effff04ff02ffff04ff17ff80808080ffff04ffff0bff82"%string;
   "027fff82057fff820b7f80ffff04ff81bfffff04ff82017fffff04ff8202ffffff04ff8205ffffff04ff820bff"%string;
   "ff80808080808080808080808080ffff04ffff01ffffffff81ca3dff46ff0233ffff3c04ff01ff0181cbffffff"%string;
   "02ff02ffff03ff05ffff01ff02ff32ffff04ff02ffff04ff0dffff04ffff0bff22ffff0bff2cff3480ffff0bff"%string;
   "22ffff0bff22ffff0bff2cff5c80ff0980ffff0bff22ff0bffff0bff2cff8080808080ff8080808080ffff010b"%string;
   "80ff0180ffff02ffff03ff0bffff01ff02ffff03ffff09ffff02ff2effff04ff02ffff04ff13ff80808080ff82"%string;
   "0b9f80ffff01ff02ff26ffff04ff02ffff04ffff02ff13ffff04ff5fffff04ff17ffff04ff2fffff04ff81bfff"%string;
   "ff04ff82017fffff04ff1bff8080808080808080ffff04ff82017fff8080808080ffff01ff088080ff0180ffff"%string;
   "01ff02ffff03ff17ffff01ff02ffff03ffff20ff81bf80ffff0182017fffff01ff088080ff0180ffff01ff0880"%string;
   "80ff018080ff0180ffff04ffff04ff05ff2780ffff04ffff10ff0bff5780ff778080ff02ffff03ff05ffff01ff"%string;
   "02ffff03ffff09ffff02ffff03ffff09ff11ff7880ffff0159ff8080ff0180ffff01818f80ffff01ff02ff7aff"%string;
   "ff04ff02ffff04ff0dffff04ff0bffff04ffff04ff81b9ff82017980ff808080808080ffff01ff02ff5affff04"%string;
   "ff02ffff04ffff02ffff03ffff09ff11ff7880ffff01ff04ff78ffff04ffff02ff36ffff04ff02ffff04ff13ff"%string;
   "ff04ff29ffff04ffff0bff2cff5b80ffff04ff2bff80808080808080ff398080ffff01ff02ffff03ffff09ff11"%string;
   "ff2480ffff01ff04ff24ffff04ffff0bff20ff2980ff398080ffff010980ff018080ff0180ffff04ffff02ffff"%string;
   "03ffff09ff11ff7880ffff0159ff8080ff0180ffff04ffff02ff7affff04ff02ffff04ff0dffff04ff0bffff04"%string;
   "ff17ff808080808080ff80808080808080ff0180ffff01ff04ff80ffff04ff80ff17808080ff0180ffffff02ff"%string;
   "ff03ff05ffff01ff04ff09ffff02ff26ffff04ff02ffff04ff0dffff04ff0bff808080808080ffff010b80ff01"%string;
   "80ff0bff22ffff0bff2cff5880ffff0bff22ffff0bff22ffff0bff2cff5c80ff0580ffff0bff22ffff02ff32ff"%string;
   "ff04ff02ffff04ff07ffff04ffff0bff2cff2c80ff8080808080ffff0bff2cff8080808080ffff02ffff03ffff"%string;
   "07ff0580ffff01ff0bffff0102ffff02ff2effff04ff02ffff04ff09ff80808080ffff02ff2effff04ff02ffff"%string;
   "04ff0dff8080808080ffff01ff0bff2cff058080ff0180ffff04ffff04ff28ffff04ff5fff808080ffff02ff7e"%string;
   "ffff04ff02ffff04ffff04ffff04ff2fff0580ffff04ff5fff82017f8080ffff04ffff02ff7affff04ff02ffff"%string;
   "04ff0bffff04ff05ffff01ff808080808080ffff04ff17ffff04ff81bfffff04ff82017fffff04ffff0bff8204"%string;
   "ffffff02ff36ffff04ff02ffff04ff09ffff04ff820affffff04ffff0bff2cff2d80ffff04ff15ff8080808080"%string;
   "8080ff8216ff80ffff04ff8205ffffff04ff820bffff808080808080808080808080ff02ff2affff04ff02ffff"%string;
   "04ff5fffff04ff3bffff04ffff02ffff03ff17ffff01ff09ff2dffff0bff27ffff02ff36ffff04ff02ffff04ff"%string;
   "29ffff04ff57ffff04ffff0bff2cff81b980ffff04ff59ff80808080808080ff81b78080ff8080ff0180ffff04"%string;
   "ff17ffff04ff05ffff04ff8202ffffff04ffff04ffff04ff24ffff04ffff0bff7cff2fff82017f80ff808080ff"%string;
   "ff04ffff04ff30ffff04ffff0bff81bfffff0bff7cff15ffff10ff82017fffff11ff8202dfff2b80ff8202ff80"%string;
   "8080ff808080ff138080ff80808080808080808080ff018080"%string]).
Definition OFFER_MOD_OLD_HEX : bytes := concat (String.list_byte_of_string <$>
  ["ff02ffff01ff02ff0affff04ff02ffff04ff03ff80808080ffff04ffff01ffff333effff02ffff03ff05ffff01"%string;
   "ff04ffff04ff0cffff04ffff02ff1effff04ff02ffff04ff09ff80808080ff808080ffff02ff16ffff04ff02ff"%string;
   "ff04ff19ffff04ffff02ff0affff04ff02ffff04ff0dff80808080ff808080808080ff8080ff0180ffff02ffff"%string;
   "03ff05ffff01ff04ffff04ff08ff0980ffff02ff16ffff04ff02ffff04ff0dffff04ff0bff808080808080ffff"%string;
   "010b80ff0180ff02ffff03ffff07ff0580ffff01ff0bffff0102ffff02ff1effff04ff02ffff04ff09ff808080"%string;
   "80ffff02ff1effff04ff02ffff04ff0dff8080808080ffff01ff0bffff0101ff058080ff0180ff018080"%string]).
Definition LATEST_OFFER_VERSION : N := 6.

Section offers.
Context {arch : Arch} {sha2 : Sha2} {bigint : BigInt} {clvm : Clvm} {bls : Bls}.
Context {puzzles : ChiaPuzzles} {order : HashOrder} {codec : PeerCodec} {singleton : LauncherPuzzle}.
Context {settlement : SettlementPuzzle} {encoder : PeerEncoder}.
Context {hex : Hex} {unhex : HexDecode} {notifications : NotificationJs} {randomness : SessionRng}.
Context {flate2 : Flate2} {formats : OfferFormats} {offer_puzzles : OfferPuzzles}.

(** The dictionaries of the versions from 1; version 6 adds none. *)
Definition zdict_for_version (version : N) : result string bytes :=
  match hex_decode LEGACY_CAT_MOD_HEX, hex_decode OFFER_MOD_OLD_HEX with
  | Some legacy_cat, Some offer_old =>
      let dicts :=
        [P2_DELEGATED_PUZZLE_OR_HIDDEN_PUZZLE ++ legacy_cat;
         offer_old;
         SINGLETON_TOP_LAYER_V1_1 ++ NFT_STATE_LAYER ++ NFT_OWNERSHIP_LAYER
           ++ NFT_METADATA_UPDATER_DEFAULT
           ++ NFT_OWNERSHIP_TRANSFER_PROGRAM_ONE_WAY_CLAIM_WITH_ROYALTIES;
         CAT_PUZZLE;
         SETTLEMENT_PAYMENT;
         []] in
      Ok (concat (take (N.to_nat version) dicts))
  | None, _ => Err "bad LEGACY_CAT_MOD hex"%string
  | _, None => Err "bad OFFER_MOD_OLD hex"%string
  end.

(** Six mebibytes of output; a stream that asks for its dictionary is read on
    from where it stopped, into the room that is left. *)
Definition offer_room : nat := N.to_nat (6 * 1024 * 1024).
Definition decompress_offer_with_zdict (data zdict : bytes) : result string bytes :=
  let '(r, output, d) := decompress Decompress_new data offer_room in
  match r with
  | Ok tt => Ok output
  | Err None => Err "zlib decompression error"%string
  | Err (Some _) =>
      match set_dictionary d zdict with
      | None => Err "set_dictionary"%string
      | Some d =>
          let '(r, more, _) := decompress d (drop (total_in d) data) (offer_room - length output) in
          match r with
          | Ok tt => Ok (output ++ more)
          | Err _ => Err "decompression after set_dictionary"%string
          end
      end
  end.

(** The first spend carries the signature of the bundle. *)
Definition offer_spend (first : bool) (agg_sig : Aggsig) (cs : ProtocolCoinSpend) : CoinSpend :=
  let c := protocol_coin cs in
  mkCoinSpend (CoinString_from_parts (mkCoinID (parent_coin_info c)) (mkPuzzleHash (protocol_puzzle_hash c))
                 (protocol_amount c))
    (mkSpend (mkPuzzle (mkProgram (puzzle_reveal cs))) (mkProgram (protocol_solution cs))
       (if first then agg_sig else sig_default)).
Definition offer_spends (agg_sig : Aggsig) (spends : list ProtocolCoinSpend) : list CoinSpend :=
  match spends with
  | [] => []
  | cs :: spends => offer_spend true agg_sig cs :: (offer_spend false agg_sig <$> spends)
  end.

Definition decode_offer_to_spend_bundle (offer_bech32 : bytes) : result string SpendBundle :=
  match bech32m_decode offer_bech32 with
  | None => Err "bech32m decode error"%string
  | Some (v1 :: v0 :: b :: rest) =>
      let version := be_value [v1; v0] in
      if (LATEST_OFFER_VERSION <? version)%N then Err "offer compression version unsupported"%string
      else
        zdict ← zdict_for_version version;
        decompressed ← decompress_offer_with_zdict (b :: rest) zdict;
        match protocol_bundle_from_bytes decompressed with
        | None => Err "streamable parse"%string
        | Some proto_bundle =>
            mret (mkSpendBundle None
              (offer_spends (aggregated_signature proto_bundle) (coin_spends proto_bundle)))
        end
  | Some _ => Err "offer data too short"%string
  end.
Definition decode_offer (offer_bech32 : bytes) : result JsFailure SpendBundle :=
  match decode_offer_to_spend_bundle offer_bech32 with
  | Ok b => Ok b
  | Err _ => Err (JsText "offer decode error")
  end.

Definition provide_offer_bech32 (env : ChannelEnv) (exhausted : Error) (fuel : nat) (cid : Z)
    (offer_bech32 : bytes) : host Js :=
  b ← js_lift (decode_offer offer_bech32);
  with_game_drain env exhausted fuel cid (on_session (session_provide_coin_spend_bundle env exhausted fuel b)).
Definition convert_offer_to_coinset_org (offer_bech32 : bytes) : result JsFailure CoinsetSpendBundle :=
  b ← decode_offer offer_bech32; spend_bundle_to_coinset_js b.
End offers.
