(* ===== verification/WasmProperties.v ===== *)
(** * What the exported functions promise

    The functions the wasm module exports act on one session each, as steps of
    the program that [ManagedSession] is about, and nothing they collect of a
    session is lost on the way to JavaScript. *)
From stdpp Require Import relations.
From S2P Require Import Prelude Extern World Coins Clvm StandardCoin Text TransactionManager ManagerProperties.
From S2P Require Import UnrollCoin GameHandler RefereeTypes Referee LiveGame ChannelState ChannelGames.
From S2P Require Import ChannelOnChain Effects OnChainPhase OnChainActions OnChainSpend HandlerBase.
From S2P Require Import SpendChannelCoin UnrollTransition OffChainPhase OffChainReceive HandshakeBase.
From S2P Require Import HandshakeInitiator HandshakeReceiver PeerPhase GameSession ProtocolPretty.
From S2P Require Import SessionProperties ManagedSession Simulator WasmHost WasmOffers.
From S2P Require Import ToyGame ToyChannel HandshakeProperties.

(** ** Events wait for no one

    The manager absorbs a session's events only where it hands them on. *)
Section events.
Context {order : HashOrder} {sha2 : Sha2} {bigint : BigInt} {clvm : Clvm} {bls : Bls}.
Context {C : Type} {session : ManagedGameSession GameNotification CoinSpendRequest C}.
Abbreviation TM := (TransactionManager GameNotification CoinSpendRequest C).
Implicit Types m : TM.

Definition none_pending m : Prop := pending_events m = [].

Lemma none_cradle {A} (op : eff C A) : preserves none_pending (on_cradle op).
Proof. intros m Hm. unfold on_cradle, on_part. by destruct (op (cradle m)). Qed.
Lemma none_rearms rearmed reported : preserves none_pending (rearm_loop rearmed reported).
Proof.
  revert reported. induction rearmed as [|semantic rearmed IH]; intros reported; cbn; [auto with chia|].
  case_bool_decide; [apply IH|]. apply preserves_bind; [apply none_cradle|intros _; apply IH].
Qed.
Lemma none_notify semantics : preserves none_pending (notify_submitted semantics).
Proof.
  induction semantics as [|semantic semantics IH]; cbn; [auto with chia|].
  apply preserves_bind; [apply none_cradle|intros _; apply IH].
Qed.
Hint Resolve none_cradle none_rearms none_notify : chia.
Lemma none_status : preserves none_pending reconcile_timeout_claim_status.
Proof. walk_through. Qed.
Lemma none_submit to_submit : preserves none_pending (submit_loop to_submit).
Proof.
  induction to_submit as [|[spend [semantic|]] to_submit IH]; cbn; [auto with chia|..].
  - apply preserves_bind; [apply none_cradle|intros _]. apply preserves_bind; [by intros m Hm|intros _; apply IH].
  - apply preserves_bind; [by intros m Hm|intros _]. apply preserves_bind; [by intros m Hm|intros _; apply IH].
Qed.
Hint Resolve none_status none_submit : chia.
Lemma none_evaluate height : preserves none_pending (evaluate_mature_timeout_claims height).
Proof. walk_through. Qed.
Lemma none_invalidate height rollback :
  preserves none_pending (invalidate_timeout_claims_for_rollback_epoch height rollback).
Proof.
  walk_through.
  by destruct (match timeout_rollback_height s with Some _ => _ | None => _ end).
Qed.
Hint Resolve none_evaluate none_invalidate : chia.
Lemma none_height height : preserves none_pending (report_height height).
Proof. walk_through. Qed.

Lemma resubmit_pending newly height m : pending_events (resubmit_vanished newly height m) = pending_events m.
Proof.
  unfold resubmit_vanished. revert m. induction newly as [|coin newly IH]; intros m; [done|]. cbn [fold_left].
  rewrite IH. unfold resubmit_coin. repeat case_match; done.
Qed.
Lemma evict_pending height m : pending_events (evict_confirmed_spends height m) = pending_events m.
Proof.
  unfold evict_confirmed_spends. set (m0 := update_field _ _ m).
  change (pending_events m) with (pending_events m0). generalize m0 (retain (fun kv : CoinString * WatchedCoin =>
    buried (confirmation_depth m) height kv.2) (hm_iter (watched_coins m))).*1.
  intros m1 l. revert m1. induction l as [|coin l IH]; intros m1; [done|]. cbn [fold_left]. by rewrite IH.
Qed.
Lemma reconcile_pending height records reorg rearmed m :
  pending_events (reconcile_snapshot height records reorg rearmed m).1.1 = pending_events m.
Proof. unfold reconcile_snapshot. repeat case_match; cbn; by rewrite resubmit_pending. Qed.
Lemma none_snapshot height records : preserves none_pending (report_coin_states height records).
Proof.
  apply after_preserves. intros m Hm. unfold report_coin_states. walk; try done.
  all: try (apply preserves_after; [solve [eauto with chia]|done]).
  - match goal with H : reconcile_snapshot ?h ?r ?reorg ?re ?m0 = _ |- _ =>
      pose proof (reconcile_pending h r reorg re m0) as Hp; rewrite H in Hp; cbn in Hp end.
    unfold none_pending. by rewrite Hp.
  - unfold none_pending. by rewrite evict_pending.
Qed.
Lemma none_submissions : preserves none_pending drain_submissions.
Proof. walk_through. Qed.

(** What a drain hands on: the events that are not the manager's own business. *)
Definition passed_on (e : GameSessionEvent GameNotification CoinSpendRequest) : bool :=
  match e with OutboundTransaction _ _ | WatchCoin _ _ _ _ _ => false | _ => true end.
Lemma absorb_pending events m :
  pending_events (absorb_events events m) = pending_events m ++ retain passed_on events.
Proof.
  unfold absorb_events. revert m. induction events as [|e events IH]; intros m; [by rewrite app_nil_r|].
  cbn [fold_left]. rewrite IH. destruct e; cbn; rewrite <- ?app_assoc; done.
Qed.
Lemma flush_events m d m' :
  none_pending m -> TransactionManager.flush_and_collect m = (Ok d, m') ->
  none_pending m' /\ exists r c,
    session_flush_and_collect (cradle m) = (Ok r, c) /\ TransactionManager.events d = retain passed_on (drain_events r).
Proof.
  unfold none_pending. intros Hm.
  unfold TransactionManager.flush_and_collect, on_cradle, on_part, modify_state, get_state, put_state, mbind, eff_bind, mret, eff_ret.
  destruct (session_flush_and_collect (cradle m)) as [[r|e] c] eqn:Hflush; [|done].
  intros [= <- <-]. split; [done|]. exists r, c. split; [done|]. cbn. rewrite absorb_pending.
  by destruct (is_some _), (is_abandoned _); cbn; rewrite ?Hm.
Qed.
Lemma none_flush : preserves none_pending TransactionManager.flush_and_collect.
Proof.
  intros m Hm. destruct (TransactionManager.flush_and_collect m) as [[d|e] m'] eqn:Hrun; [by eapply flush_events|].
  revert Hrun. unfold TransactionManager.flush_and_collect, on_cradle, on_part, modify_state, get_state, put_state, mbind, eff_bind, mret, eff_ret.
  destruct (session_flush_and_collect (cradle m)) as [[r|e'] c]; [done|]. by intros [= _ <-].
Qed.
End events.

Section wasm.
Context {arch : Arch} {sha2 : Sha2} {bigint : BigInt} {clvm : Clvm} {bls : Bls}.
Context {puzzles : ChiaPuzzles} {order : HashOrder} {codec : PeerCodec} {singleton : LauncherPuzzle}.
Context {settlement : SettlementPuzzle} {encoder : PeerEncoder}.
Context {hex : Hex} {unhex : HexDecode} {notifications : NotificationJs} {randomness : SessionRng}.
Context {flate2 : Flate2} {formats : OfferFormats} {offer_puzzles : OfferPuzzles}.
Abbreviation Managed := (TransactionManager GameNotification CoinSpendRequest GameSession).
Context (game_collection : gmap GameType GameFactory).
Context (session_to_vec : Managed -> result Error bytes) (session_from_slice : bytes -> result Error Managed).
Implicit Types (h : WasmHost) (s : JsGameSession) (m : Managed).

(** ** The calls of the front-end *)
Inductive WasmCall : Type :=
| CallCreateRng (seed : bytes)
| CallChiaIdentity (rng_id : Z)
| CallCreateGameSession (config : result JsFailure JsGameSessionConfig)
| CallRestoreSession (data new_seed : bytes)
| CallSerializeGameSession (cid : Z)
| CallReportCoinStates (cid : Z) (height : N) (records : list JsCoinStateRecord)
| CallReportHeight (cid : Z) (height : N)
| CallReportPuzzleAndSolution (cid : Z) (coin : bytes) (puzzle solution : option bytes)
| CallDrainSubmissions (cid : Z)
| CallResubmitSubmitted (cid : Z)
| CallGetWatchingCoins (cid : Z)
| CallSetFundingCoin (cid : Z) (coin : bytes)
| CallStartHandshake (cid : Z)
| CallProvideLauncherCoin (cid : Z) (coin : bytes)
| CallProvideCoinSpendBundle (cid : Z) (b : CoinsetSpendBundle)
| CallProvideOffer (cid : Z) (offer_bech32 : bytes)
| CallWalletCallbackFailed (cid : Z) (reason : string)
| CallDeliverMessage (cid : Z) (message : bytes)
| CallProposeGames (cid : Z) (games : list JsGameProposal) (parameters_list : list bytes)
| CallAcceptProposal (cid : Z) (game_id : bytes)
| CallCancelProposal (cid : Z) (game_id : bytes)
| CallMakeMove (cid : Z) (id readable : bytes) (entropy : option bytes)
| CallCheat (cid : Z) (id mover_share : bytes)
| CallAcceptProposalAndMove (cid : Z) (id readable : bytes)
| CallAcceptSettlement (cid : Z) (id : bytes)
| CallShutDown (cid : Z)
| CallGoOnChain (cid : Z)
| CallAbandon (cid : Z)
| CallCompleteOutboundTerminalHandoff (cid : Z)
| CallRead (cid : Z).

(** The session a call names. *)
Definition target (c : WasmCall) : option Z :=
  match c with
  | CallCreateRng _ | CallChiaIdentity _ | CallCreateGameSession _ | CallRestoreSession _ _ => None
  | CallSerializeGameSession id | CallReportCoinStates id _ _ | CallReportHeight id _
  | CallReportPuzzleAndSolution id _ _ _ | CallDrainSubmissions id | CallResubmitSubmitted id
  | CallGetWatchingCoins id | CallSetFundingCoin id _ | CallStartHandshake id
  | CallProvideLauncherCoin id _ | CallProvideCoinSpendBundle id _ | CallProvideOffer id _
  | CallWalletCallbackFailed id _ | CallDeliverMessage id _ | CallProposeGames id _ _
  | CallAcceptProposal id _ | CallCancelProposal id _ | CallMakeMove id _ _ _ | CallCheat id _ _
  | CallAcceptProposalAndMove id _ _ | CallAcceptSettlement id _ | CallShutDown id | CallGoOnChain id
  | CallAbandon id | CallCompleteOutboundTerminalHandoff id | CallRead id => Some id
  end.

Definition wasm_call (env : ChannelEnv) (x : Error) (fuel : nat) (c : WasmCall) : host unit :=
  match c with
  | CallCreateRng seed => _ ← create_rng seed; mret tt
  | CallChiaIdentity rng_id => _ ← chia_identity rng_id; mret tt
  | CallCreateGameSession config => _ ← create_game_session game_collection config; mret tt
  | CallRestoreSession data seed => _ ← restore_session session_from_slice data seed; mret tt
  | CallSerializeGameSession cid => _ ← serialize_game_session session_to_vec session_from_slice cid; mret tt
  | CallReportCoinStates cid height records => _ ← wasm_report_coin_states env x fuel cid height records; mret tt
  | CallReportHeight cid height => _ ← wasm_report_height env x fuel cid height; mret tt
  | CallReportPuzzleAndSolution cid coin p sol =>
      _ ← wasm_report_puzzle_and_solution env x fuel cid coin p sol; mret tt
  | CallDrainSubmissions cid => _ ← wasm_drain_submissions cid; mret tt
  | CallResubmitSubmitted cid => _ ← resubmit_submitted cid; mret tt
  | CallGetWatchingCoins cid => _ ← get_watching_coins cid; mret tt
  | CallSetFundingCoin cid coin => _ ← wasm_set_funding_coin env x fuel cid coin; mret tt
  | CallStartHandshake cid => _ ← wasm_start_handshake env x fuel cid; mret tt
  | CallProvideLauncherCoin cid coin => _ ← wasm_provide_launcher_coin env x fuel cid coin; mret tt
  | CallProvideCoinSpendBundle cid b => _ ← wasm_provide_coin_spend_bundle env x fuel cid b; mret tt
  | CallProvideOffer cid offer => _ ← provide_offer_bech32 env x fuel cid offer; mret tt
  | CallWalletCallbackFailed cid reason => _ ← wasm_wallet_callback_failed env x fuel cid reason; mret tt
  | CallDeliverMessage cid message => _ ← wasm_deliver_message env x fuel cid message; mret tt
  | CallProposeGames cid games parameters => _ ← wasm_propose_games env x fuel cid games parameters; mret tt
  | CallAcceptProposal cid id => _ ← wasm_accept_proposal env x fuel cid id; mret tt
  | CallCancelProposal cid id => _ ← wasm_cancel_proposal env x fuel cid id; mret tt
  | CallMakeMove cid id readable entropy => _ ← make_move_inner env x fuel cid id readable entropy; mret tt
  | CallCheat cid id share => _ ← wasm_cheat env x fuel cid id share; mret tt
  | CallAcceptProposalAndMove cid id readable =>
      _ ← wasm_accept_proposal_and_move env x fuel cid id readable; mret tt
  | CallAcceptSettlement cid id => _ ← wasm_accept_settlement env x fuel cid id; mret tt
  | CallShutDown cid => _ ← wasm_shut_down env x fuel cid; mret tt
  | CallGoOnChain cid => _ ← wasm_go_on_chain env x fuel cid; mret tt
  | CallAbandon cid => _ ← wasm_abandon env x fuel cid; mret tt
  | CallCompleteOutboundTerminalHandoff cid =>
      _ ← wasm_complete_outbound_terminal_handoff env x fuel cid; mret tt
  | CallRead cid => _ ← reading cid (fun g => g); mret tt
  end.

Section steps.
Context (env : ChannelEnv).
Abbreviation runs m m' := (rtc (program_step env) m m').

(** ** What a call does to its session *)
Definition runs_program {A} (f : eff JsGameSession A) : Prop :=
  forall s, runs (js_cradle s) (js_cradle (f s).2).

Lemma rp_pure {A} (r : result Error A) : runs_program (lift_result r).
Proof. by intros s. Qed.
Lemma rp_bind {A B} (f : eff JsGameSession A) (g : A -> eff JsGameSession B) :
  runs_program f -> (forall a, runs_program (g a)) -> runs_program (f ≫= g).
Proof.
  intros Hf Hg s. specialize (Hf s). unfold mbind, eff_bind.
  destruct (f s) as [[a|e] s1]; [|done]. etrans; [exact Hf|apply Hg].
Qed.
Lemma rp_state : runs_program get_state.
Proof. by intros s. Qed.
Lemma rp_catch {A} (f : eff JsGameSession A) g :
  runs_program f -> (forall e, runs_program (g e)) -> runs_program (catch f g).
Proof.
  intros Hf Hg s. specialize (Hf s). unfold catch. destruct (f s) as [[a|e] s1]; [done|].
  destruct e; try (etrans; [exact Hf|apply Hg]). done.
Qed.
Lemma rp_manager {A} (op : eff Managed A) :
  (forall m, runs m (op m).2) -> runs_program (on_manager op).
Proof. intros Hop s. unfold on_manager, on_part. specialize (Hop (js_cradle s)). by destruct (op _). Qed.
Lemma rp_session {A} (op : eff GameSession A) :
  (forall g, exists x fuel c, (op g).2 = (host_call env x fuel c g).2) -> runs_program (on_session op).
Proof.
  intros Hop. apply rp_manager. intros m. destruct (Hop (cradle m)) as (x & fuel & c & Heq).
  unfold on_cradle, on_part. destruct (op (cradle m)) as [r g]. cbn in *. subst g.
  apply rtc_once. exact (session_reached env x fuel c m).
Qed.
(** A call of the list. *)
Lemma rp_call (x : Error) (fuel : nat) (c : HostCall) : runs_program (on_session (host_call env x fuel c)).
Proof. apply rp_session. intros g. by exists x, fuel, c. Qed.
Lemma rp_entropy given : runs_program (draw_entropy given).
Proof.
  intros s. unfold draw_entropy, on_part. destruct given as [e|]; [done|].
  by destruct (random_hash (rng s)).
Qed.
Lemma rp_collect x fuel :
  runs_program (on_manager (TransactionManager.flush_and_collect (session := session_managed env x fuel))).
Proof. apply rp_manager. intros m. apply rtc_once. exact (collected env x fuel m). Qed.
Hint Resolve rp_pure rp_bind rp_catch rp_entropy rp_collect : chia.

Lemma rp_action ctx f : runs_program f -> runs_program (run_action ctx f).
Proof.
  intros Hf. apply rp_catch.
  - apply rp_bind; [done|]. intros _. apply (rp_pure (Ok true)).
  - intros e. apply rp_bind; [|intros _; apply (rp_pure (Ok false))].
    apply (rp_call e 0 (ReportFailure (fst <$> ctx) (snd <$> ctx) "action failed")).
Qed.
Lemma rp_drain x fuel ok : runs_program (drain_to_js env x fuel ok).
Proof. apply rp_bind; [apply rp_collect|]. intros dr.
  apply rp_bind; [apply rp_state|]. intros s. apply rp_pure.
Qed.

(** ** What a call does to the table *)
Definition acts_on (cid : Z) h h' : Prop :=
  NEXT_ID h' = NEXT_ID h
  /\ (forall id, id <> cid -> CRADLES h' !! id = CRADLES h !! id)
  /\ (CRADLES h !! cid = None -> CRADLES h' !! cid = None)
  /\ (forall s, CRADLES h !! cid = Some s ->
       exists s', CRADLES h' !! cid = Some s' /\ runs (js_cradle s) (js_cradle s')).
Definition confined (cid : Z) {A} (op : host A) : Prop := forall h, acts_on cid h (op h).2.

Lemma acts_refl cid h : acts_on cid h h.
Proof. split_and!; [done..|]. intros s Hs. by exists s. Qed.
Lemma acts_trans cid h1 h2 h3 : acts_on cid h1 h2 -> acts_on cid h2 h3 -> acts_on cid h1 h3.
Proof.
  intros (H1 & H2 & H3 & H4) (K1 & K2 & K3 & K4). split_and!; [congruence| |auto|].
  - intros id Hid. by rewrite K2, H2.
  - intros s (s1 & Hs1 & Hr1)%H4. destruct (K4 s1 Hs1) as (s2 & Hs2 & Hr2). exists s2.
    split; [done|]. by etrans.
Qed.
Lemma cf_lift {A} cid (r : result JsFailure A) : confined cid (js_lift r).
Proof. intros h. apply acts_refl. Qed.
Lemma cf_bind {A B} cid (f : host A) (g : A -> host B) :
  confined cid f -> (forall a, confined cid (g a)) -> confined cid (f ≫= g).
Proof.
  intros Hf Hg h. specialize (Hf h). unfold mbind, host_bind.
  destruct (f h) as [[a|e] h1]; [|done]. by eapply acts_trans, Hg.
Qed.
Lemma cf_game {A} cid (f : eff JsGameSession A) : runs_program f -> confined cid (with_game cid f).
Proof.
  intros Hf h. unfold with_game. destruct (CRADLES h !! cid) as [s|] eqn:Hs; [|apply acts_refl].
  specialize (Hf s). destruct (f s) as [r s']. cbn in *. split_and!; cbn; [done| |congruence|].
  - intros id Hid. by rewrite lookup_insert_ne.
  - intros s0 Hs0. exists s'. rewrite lookup_insert_eq. split; [done|]. by simplify_eq.
Qed.
Lemma cf_done {A} cid (op : host A) : confined cid op -> confined cid (_ ← op; mret tt).
Proof. intros Hop. apply cf_bind; [done|]. intros _ h. apply acts_refl. Qed.
Lemma cf_drain x fuel cid ctx f :
  runs_program f -> confined cid (with_game_drain_context env x fuel cid ctx f).
Proof.
  intros Hf. apply cf_game, rp_bind; [by apply rp_action|]. intros ok. apply rp_drain.
Qed.


Lemma rp_propose x fuel games : runs_program (on_session (session_propose_games env x fuel games)).
Proof.
  apply rp_session. intros g. exists x, fuel, (ProposeGames games). cbn [host_call].
  unfold mbind, eff_bind. by destruct (session_propose_games env x fuel games g) as [[]].
Qed.
Lemma rp_height x fuel height :
  runs_program (on_manager (report_height (session := session_managed env x fuel) height)).
Proof. apply rp_manager. intros m. apply rtc_once. exact (reported_height env x fuel height m). Qed.
Lemma rp_states x fuel height records :
  runs_program (on_manager (report_coin_states (session := session_managed env x fuel) height records)).
Proof. apply rp_manager. intros m. apply rtc_once. exact (reported_states env x fuel height records m). Qed.
Lemma rp_submissions : runs_program (on_manager drain_submissions).
Proof. apply rp_manager. intros m. apply rtc_once. exact (submissions_drained env m). Qed.
Lemma rp_requeued : runs_program (on_manager (modify_state requeue_submitted)).
Proof. apply rp_manager. intros m. apply rtc_once. exact (submitted_requeued env m). Qed.

Ltac confine := repeat match goal with
  | |- confined _ (with_game_drain _ _ _ _ _) => apply cf_drain
  | |- confined _ (with_game_action_drain _ _ _ _ _ _ _) => apply cf_drain
  | |- confined _ (with_game _ _) => apply cf_game
  | |- confined _ (reading _ _) => apply cf_game
  | |- confined _ (js_lift _) => apply cf_lift
  | |- confined _ (_ ≫= _) => apply cf_bind; [|intros ?]
  | |- confined _ (if ?b then _ else _) => destruct b
  | |- confined _ (match ?o with _ => _ end) => destruct o
  | |- runs_program get_state => apply rp_state
  | |- runs_program (_ ≫= _) => apply rp_bind; [|intros ?]
  | |- runs_program (mret _) => apply (rp_pure (Ok _))
  | |- runs_program (lift_result _) => apply rp_pure
  | |- runs_program (draw_entropy _) => apply rp_entropy
  end.

Lemma cf_call x fuel c cid : target c = Some cid -> confined cid (wasm_call env x fuel c).
Proof.
  destruct c; try done; intros [= ->]; cbn [wasm_call]; apply cf_done.
  - unfold serialize_game_session. confine.
  - unfold wasm_report_coin_states. confine. apply rp_states.
  - unfold wasm_report_height. confine. apply rp_height.
  - unfold wasm_report_puzzle_and_solution. confine. exact (rp_call x fuel (ReportPuzzleAndSolution (CoinString_from_bytes a) _)).
  - unfold wasm_drain_submissions. confine. apply rp_submissions.
  - unfold resubmit_submitted. confine. apply rp_requeued.
  - unfold get_watching_coins. confine.
  - unfold wasm_set_funding_coin. confine. exact (rp_call x fuel (SetFundingCoin a)).
  - unfold wasm_start_handshake. confine. exact (rp_call x fuel StartHandshake).
  - unfold wasm_provide_launcher_coin. confine. exact (rp_call x fuel (ProvideLauncherCoin a)).
  - unfold wasm_provide_coin_spend_bundle. confine. exact (rp_call x fuel (ProvideCoinSpendBundle a)).
  - unfold provide_offer_bech32. confine. exact (rp_call x fuel (ProvideCoinSpendBundle a)).
  - unfold wasm_wallet_callback_failed. confine. exact (rp_call x fuel (WalletCallbackFailed reason)).
  - unfold wasm_deliver_message. confine. exact (rp_call x fuel (DeliverMessage message)).
  - unfold wasm_propose_games. confine; [apply rp_propose|apply rp_collect].
  - unfold wasm_accept_proposal. confine. exact (rp_call x fuel (AcceptProposal a)).
  - unfold wasm_cancel_proposal. confine. exact (rp_call x fuel (CancelProposal a)).
  - unfold make_move_inner. confine. exact (rp_call x fuel (MakeMove a (mkReadableMove (mkProgram readable)) a1)).
  - unfold wasm_cheat. confine. exact (rp_call x fuel (Cheat a n)).
  - unfold wasm_accept_proposal_and_move. confine.
    exact (rp_call x fuel (AcceptProposalAndMove a (mkReadableMove (mkProgram readable)) a0)).
  - unfold wasm_accept_settlement. confine. exact (rp_call x fuel (AcceptSettlement a)).
  - unfold wasm_shut_down. confine. exact (rp_call x fuel ShutDown).
  - unfold wasm_go_on_chain. confine. exact (rp_call x fuel (GoOnChain false)).
  - unfold wasm_abandon. confine. exact (rp_call x fuel Abandon).
  - unfold wasm_complete_outbound_terminal_handoff. confine. exact (rp_call x fuel CompleteOutboundTerminalHandoff).
  - confine.
Qed.

(** ** The table over a run *)
(** Identifiers are handed out in order; they run out after 2^31 sessions and
    generators. *)
Definition ids_fresh h : Prop := (0 <= NEXT_ID h)%Z /\ forall id s, CRADLES h !! id = Some s -> (id < NEXT_ID h)%Z.

(** A session as it enters the table. *)
Definition enters (m : Managed) : Prop :=
  (exists config keys, m = TransactionManager_new (new_with_keys config keys)
     /\ cfg_game_types config = game_collection)
  \/ exists data, session_from_slice data = Ok m.

Definition advances h h' : Prop :=
  (forall id s, CRADLES h !! id = Some s ->
     exists s', CRADLES h' !! id = Some s' /\ runs (js_cradle s) (js_cradle s'))
  /\ (forall id s', CRADLES h !! id = None -> CRADLES h' !! id = Some s' ->
        exists m, enters m /\ runs m (js_cradle s')).

Lemma advances_trans h1 h2 h3 : advances h1 h2 -> advances h2 h3 -> advances h1 h3.
Proof.
  intros [Hold Hnew] [Hold' Hnew']. split.
  - intros id s (s2 & Hs2 & H12)%Hold. destruct (Hold' id s2 Hs2) as (s3 & Hs3 & H23).
    exists s3. split; [done|]. by etrans.
  - intros id s3 Hnone Hs3. destruct (CRADLES h2 !! id) as [s2|] eqn:Hs2; [|by eapply Hnew'].
    destruct (Hnew id s2 Hnone Hs2) as (m & Hm & Hrun). destruct (Hold' id s2 Hs2) as (s & Hs & H23).
    simplify_eq. exists m. split; [done|]. by etrans.
Qed.
Lemma same_table_advances h h' : CRADLES h' = CRADLES h -> advances h h'.
Proof. intros Heq. split; rewrite Heq; [|congruence]. intros id s Hs. by exists s. Qed.
Lemma acts_advances cid h h' : acts_on cid h h' -> advances h h'.
Proof.
  intros (_ & Hothers & Hnone & Hs). split.
  - intros id s Hid. destruct (decide (id = cid)) as [->|Hne]; [by apply Hs|].
    exists s. by rewrite Hothers.
  - intros id s' Hid. destruct (decide (id = cid)) as [->|Hne]; [rewrite Hnone by done|rewrite Hothers, Hid by done]; done.
Qed.
Lemma entry_advances h h' id s :
  CRADLES h' = <[id := s]> (CRADLES h) -> CRADLES h !! id = None -> enters (js_cradle s) -> advances h h'.
Proof.
  intros Heq Hid Hs. split; rewrite Heq; intros id' s'.
  - intros Hs'. exists s'. rewrite lookup_insert_ne; [done|congruence].
  - intros Hnone. destruct (decide (id' = id)) as [->|Hne].
    + rewrite lookup_insert_eq. intros [= <-]. by exists (js_cradle s).
    + rewrite lookup_insert_ne by done. congruence.
Qed.

(** A call that takes an identifier may put a session there. *)
Definition takes_id {A} (op : host A) : Prop := forall h,
  (0 <= NEXT_ID h < 2 ^ 31 - 1)%Z ->
  (CRADLES (op h).2 = CRADLES h /\ NEXT_ID h <= NEXT_ID (op h).2)%Z
  \/ exists s, enters (js_cradle s) /\ CRADLES (op h).2 = <[NEXT_ID h := s]> (CRADLES h)
       /\ NEXT_ID (op h).2 = (NEXT_ID h + 1)%Z.

#[local] Arguments wrap_i32 : simpl never.
Ltac run_host := unfold create_rng, get_next_id, insert_rng, insert_cradle, js_lift, mbind, host_bind, mret, host_ret; cbn.
Lemma wrap_next n : (0 <= n < 2 ^ 31 - 1)%Z -> wrap_i32 (n + 1) = (n + 1)%Z.
Proof. intros Hn. unfold wrap_i32. rewrite Z.mod_small by lia. lia. Qed.

Lemma rng_keeps_table {A} id (f : eff ChaCha8Rng A) h :
  CRADLES (with_rng id f h).2 = CRADLES h /\ NEXT_ID (with_rng id f h).2 = NEXT_ID h.
Proof. unfold with_rng. destruct (RNGS h !! id); [|done]. by destruct (f _). Qed.

Lemma rng_result {A} id (f : eff ChaCha8Rng A) h a h' :
  with_rng id f h = (Ok a, h') -> exists r r', f r = (Ok a, r').
Proof.
  unfold with_rng. destruct (RNGS h !! id) as [r|]; [|done]. destruct (f r) as [[a'|e] r'] eqn:Hf; [|done].
  intros [= -> _]. by exists r, r'.
Qed.

Lemma new_session_enters c ph r js puzzle_hash r' :
  new_session game_collection c ph r = (Ok (js, puzzle_hash), r') -> enters (js_cradle js).
Proof.
  unfold new_session, GameSession_new, get_state. unfold mbind, eff_bind, mret, eff_ret, lift_result.
  intros Hrun. repeat case_match; simplify_eq. cbn. left. eexists _, _. done.
Qed.

Lemma takes_create_rng seed : takes_id (create_rng seed).
Proof. intros h Hn. left. run_host. rewrite wrap_next by done. split; [done|lia]. Qed.
Lemma takes_identity rng_id : takes_id (chia_identity rng_id).
Proof. intros h Hn. left. unfold chia_identity.
  rewrite (proj1 (rng_keeps_table _ _ _)), (proj2 (rng_keeps_table _ _ _)). split; [done|lia].
Qed.
Lemma takes_restore data seed : takes_id (restore_session session_from_slice data seed).
Proof.
  intros h Hn. unfold restore_session. run_host. destruct (session_from_slice data) as [m|e] eqn:Hm.
  - right. exists (mkJsGameSession (from_seed (Hash_new seed)) m). split_and!; [right; by exists data|done|].
    cbn. by apply wrap_next.
  - left. cbn. split; [done|lia].
Qed.
Lemma takes_create config : takes_id (create_game_session game_collection config).
Proof.
  intros h Hn. unfold create_game_session. run_host. rewrite wrap_next by done.
  set (h1 := mkWasmHost _ _ _).
  assert (CRADLES h1 = CRADLES h /\ (NEXT_ID h <= NEXT_ID h1)%Z) as Hsame by (split; [done|cbn; lia]).
  destruct config as [c|e]; [|by left]. destruct (parse_reward_puzzle_hash c) as [ph|e]; [|by left].
  destruct (rng_keeps_table (js_rng_id c) (new_session game_collection c ph) h1) as [Htable Hid].
  destruct (with_rng _ _ h1) as [[[js puzzle_hash]|e] h2] eqn:Hrun; cbn in Htable, Hid |- *.
  - right. exists js. apply rng_result in Hrun as (r & r' & Hrun). split_and!; [by eapply new_session_enters| |done].
    by rewrite Htable.
  - left. by rewrite Htable, Hid.
Qed.

(** The session keeps a copy of the generator it was made with, which stays in
    the table: the entropy of its first move is the seed of the first key made
    with that generator afterwards. *)
Lemma random_bytes_ok n (r : ChaCha8Rng) : exists bs r', random_bytes n r = (Ok bs, r').
Proof.
  revert r. induction n as [|n IH]; intros r; [by exists [], r|]. cbn [random_bytes].
  destruct (random_u8 r) as [b r1]. destruct (IH r1) as (bs & r2 & Hbs). exists (b :: bs), r2.
  unfold mbind, eff_bind. by rewrite Hbs.
Qed.
#[local] Arguments random_bytes : simpl never.
#[local] Arguments random_hash : simpl never.
Lemma random_hash_ok (r : ChaCha8Rng) : exists e r', random_hash r = (Ok e, r').
Proof.
  unfold random_hash. destruct (random_bytes_ok 32 r) as (bs & r1 & Hbs). eexists _, r1.
  unfold mbind, eff_bind. by rewrite Hbs.
Qed.
Lemma session_copies_generator c ph r js puzzle_hash r' :
  new_session game_collection c ph r = (Ok (js, puzzle_hash), r') -> rng js = r'.
Proof.
  unfold new_session, GameSession_new, get_state. unfold mbind, eff_bind, mret, eff_ret, lift_result.
  intros Hrun. by repeat case_match; simplify_eq.
Qed.
Lemma entropy_seeds_next_key c h js h1 :
  create_game_session game_collection (Ok c) h = (Ok js, h1) ->
  exists s r entropy, CRADLES h1 !! NEXT_ID h = Some s /\ RNGS h1 !! js_rng_id c = Some r
    /\ (draw_entropy None s).1 = Ok entropy /\ (random_private_key r).1 = Ok (sk_from_seed entropy).
Proof.
  unfold create_game_session. run_host. destruct (parse_reward_puzzle_hash c) as [ph|e]; [|done].
  unfold with_rng. cbn [RNGS]. destruct (RNGS h !! js_rng_id c) as [r|] eqn:Hr; [|done].
  destruct (new_session game_collection c ph r) as [[[s puzzle_hash]|e] r'] eqn:Hnew; cbn; [|done].
  intros [= _ <-]. destruct (random_hash_ok r') as (entropy & r2 & Hentropy). exists s, r', entropy. cbn.
  rewrite !lookup_insert_eq. split_and!; [done..| |].
  - unfold draw_entropy, on_part. by rewrite (session_copies_generator _ _ _ _ _ _ Hnew), Hentropy.
  - unfold random_private_key, mbind, eff_bind. by rewrite Hentropy.
Qed.

(** *** A call *)
Lemma takes_done {A} (op : host A) : takes_id op -> takes_id (_ ← op; mret tt).
Proof. intros Hop h Hn. specialize (Hop h Hn). unfold mbind, host_bind. by destruct (op h) as [[a|e] h']. Qed.

Lemma call_takes x fuel c : target c = None -> takes_id (wasm_call env x fuel c).
Proof.
  destruct c; try done; intros _; apply takes_done.
  - apply takes_create_rng.
  - apply takes_identity.
  - apply takes_create.
  - apply takes_restore.
Qed.

Lemma call_advances x fuel c h :
  (NEXT_ID h < 2 ^ 31 - 1)%Z -> ids_fresh h ->
  advances h (wasm_call env x fuel c h).2 /\ ids_fresh (wasm_call env x fuel c h).2.
Proof.
  intros Hlast [Hn Hids]. destruct (target c) as [cid|] eqn:Hc.
  - pose proof (cf_call x fuel c cid Hc h) as Hacts. split; [by eapply acts_advances|].
    destruct Hacts as (Hid & Hothers & Hnone & Hs). split; rewrite Hid; [done|]. intros id s Hid'.
    destruct (CRADLES h !! id) as [s0|] eqn:Hs0; [by eapply Hids|].
    destruct (decide (id = cid)) as [->|Hne]; [by rewrite Hnone in Hid'|].
    rewrite Hothers in Hid' by done. congruence.
  - destruct (call_takes x fuel c Hc h ltac:(lia)) as [[Htable Hid]|(s & Hs & Htable & Hid)].
    + split; [by apply same_table_advances|]. split; [lia|]. rewrite Htable. intros id s Hs.
      specialize (Hids id s Hs). lia.
    + assert (CRADLES h !! NEXT_ID h = None) as Hfree.
      { destruct (CRADLES h !! NEXT_ID h) as [s0|] eqn:Hs0; [|done]. specialize (Hids _ _ Hs0). lia. }
      split; [by eapply entry_advances|]. split; [lia|]. rewrite Htable, Hid. intros id s'.
      destruct (decide (id = NEXT_ID h)) as [->|Hne]; [lia|]. rewrite lookup_insert_ne by done.
      intros Hs'. specialize (Hids id s' Hs'). lia.
Qed.

(** A call of the front-end, whether it returns or throws. *)
Inductive wasm_step h : WasmHost -> Prop :=
| front_end_called x fuel c :
    (NEXT_ID h < 2 ^ 31 - 1)%Z -> wasm_step h (wasm_call env x fuel c h).2.

(** C11: the module runs the program.  Whatever calls a front-end makes, failing
    ones included, each session of the table is advanced by steps of the
    program of its own session alone, no session is lost or replaced, and
    every session that enters the table was freshly made with the game
    collection or restored from its encoding.  Identifiers are handed out in
    order; a table outgrows them after 2^31 calls that take one. *)
Theorem sessions_run_their_programs h h' (Hfresh : ids_fresh h) (Hrun : rtc wasm_step h h') :
  (forall id s, CRADLES h !! id = Some s ->
     exists s', CRADLES h' !! id = Some s' /\ rtc (program_step env) (js_cradle s) (js_cradle s'))
  /\ (forall id s', CRADLES h !! id = None -> CRADLES h' !! id = Some s' ->
        exists m, ((exists config keys, m = TransactionManager_new (new_with_keys config keys)
                     /\ cfg_game_types config = game_collection)
                   \/ exists data, session_from_slice data = Ok m)
          /\ rtc (program_step env) m (js_cradle s')).
Proof.
  change (advances h h'). revert Hfresh. induction Hrun as [h|h1 h2 h3 [x fuel c Hlast] _ IH]; intros Hfresh.
  - by apply same_table_advances.
  - destruct (call_advances x fuel c h1 Hlast Hfresh) as [Hadv Hfresh']. eapply advances_trans; [done|by apply IH].
Qed.

(** ** What comes back *)
Lemma step_none_pending m m' : program_step env m m' -> none_pending m -> none_pending m'.
Proof.
  destruct 1 as [x fuel height m|x fuel height records m|x fuel m|m|m|x fuel c m]; intros Hm; try done.
  - by apply (none_height (session := session_managed env x fuel)).
  - by apply (none_snapshot (session := session_managed env x fuel)).
  - by apply (none_flush (session := session_managed env x fuel)).
  - by apply none_submissions.
Qed.

Lemma convertible e : passed_on e = true -> terminal_message e = false -> exists j, game_session_event_to_js e = Ok j.
Proof. destruct e; try done; intros _ _; by eexists. Qed.

Lemma drain_converts config keys x fuel m d m' :
  runs (TransactionManager_new (new_with_keys config keys)) m ->
  TransactionManager.flush_and_collect (session := session_managed env x fuel) m = (Ok d, m') ->
  exists events, collect_drain_events d = Ok events.
Proof.
  intros Hrun Hflush.
  assert (none_pending m) as Hnone.
  { assert (none_pending (TransactionManager_new (new_with_keys config keys))) as H0 by done.
    revert H0. clear Hflush. induction Hrun as [|m1 m2 m3 Hstep _ IH]; [done|]. intros H1. by eapply IH, step_none_pending. }
  destruct (flush_events (session := session_managed env x fuel) m d m' Hnone Hflush) as [_ (r & c & Hr & Hd)].
  assert (rtc (session_step env) (new_with_keys config keys) (cradle m)) as Hsession.
  { apply (program_steps_keep env (rtc (session_step env) (new_with_keys config keys)) _ _) in Hrun; [done| |done].
    intros x' fuel' c' s Hs. apply (rtc_r _ s); [done|constructor]. }
  pose proof (sessions_plain env config keys (cradle m) x fuel r c Hsession Hr) as Hplain.
  unfold collect_drain_events. rewrite Hd. clear Hd Hr.
  induction (drain_events r) as [|e events IH]; [by eexists|]. cbn in Hplain.
  apply orb_false_iff in Hplain as [He Hevents]. destruct (IH Hevents) as [js Hjs]. cbn.
  destruct (passed_on e) eqn:Hpassed; [|by eexists]. destruct (convertible e Hpassed He) as [j Hj].
  exists (j :: js). cbn. by rewrite Hj, Hjs.
Qed.

(** C20: a call returns everything that came of it.  When a session the module
    made is called through the drain and the collection succeeds, the call does
    not throw for what was collected: each event becomes a JavaScript value, in
    order, and the object returned holds them with the coins to watch and to
    forget, whether the action succeeded and how the session stands; the
    session is stored as the collection left it. *)
Theorem calls_return_their_drain config keys x fuel cid ctx f h s ok s1 d m'
    (Hs : CRADLES h !! cid = Some s)
    (Hreached : rtc (program_step env) (TransactionManager_new (new_with_keys config keys)) (js_cradle s))
    (Hf : runs_program f)
    (Hact : run_action ctx f s = (Ok ok, s1))
    (Hdrain : TransactionManager.flush_and_collect (session := session_managed env x fuel) (js_cradle s1)
              = (Ok d, m')) :
  exists events,
    Forall2 (fun e js => game_session_event_to_js e = Ok js) (TransactionManager.events d) events
    /\ with_game_drain_context env x fuel cid ctx f h
       = (Ok (JsObject [field "events" (JsArray events);
                        field "watchCoins" (watch_coin_entries_from_coins (watch_coins d));
                        field "unwatchCoins" (watch_coin_entries_from_coins (unwatch_coins d));
                        field "actionSucceeded" (JsBool ok);
                        field "disposition" (disposition_js (pending_outbound_terminal (state (cradle m')))
                                               (is_fully_resolved (cradle m')))]),
          h <| CRADLES ::= insert cid (s1 <| js_cradle := m' |>) |>).
Proof.
  pose proof (rp_action ctx f Hf s) as Hrun. rewrite Hact in Hrun. cbn in Hrun.
  destruct (drain_converts config keys x fuel (js_cradle s1) d m') as [events Hevents]; [by etrans|done|].
  exists events. split; [by apply mapM_result_Ok|].
  unfold with_game_drain_context, with_game. rewrite Hs. unfold drain_to_js, on_manager, on_part.
  unfold managed_session, manager_drain_to_js, mbind, eff_bind, get_state, lift_result. rewrite Hact, Hdrain.
  cbn [fst snd js_cradle]. unfold result_bind. by rewrite Hevents.
Qed.
End steps.
End wasm.

Module Witnesses.
Import Toy ToyGame ToyChannel HandshakeProperties.Witnesses SessionProperties.Witnesses.

Abbreviation Managed := (TransactionManager GameNotification CoinSpendRequest GameSession).

(** Every byte as it is, and a generator that counts. *)
#[local] Instance plain_hex : Hex := {| hex_encode := fun b => b |}.
#[local] Instance plain_decode : HexDecode :=
  {| hex_decode := fun b => Some b; hex_decode_encode := fun bs => eq_refl |}.
#[local] Instance counting_rng : SessionRng := {|
  ChaCha8Rng := nat;
  from_seed := fun h => length (hash_bytes h);
  random_u8 := fun n => (byte_of_N (N.of_nat n), S n);
  sk_from_seed := fun _ => sk_bob;
|}.
#[local] Instance no_text : NotificationJs := {| notification_js := fun _ => JsNull |}.
#[local] Instance stored : Flate2 := {|
  Decompress := unit;
  Decompress_new := tt;
  decompress := fun d data room => (Ok tt, take room data, d);
  set_dictionary := fun d _ => Some d;
  total_in := fun _ => 0;
|}.
#[local] Instance no_offers : OfferFormats :=
  {| bech32m_decode := fun _ => None; protocol_bundle_from_bytes := fun _ => None |}.
#[local] Instance no_offer_puzzles : OfferPuzzles := Build_OfferPuzzles [] [] [] [] [] [].

(** The one encoding is Bob's fresh session. *)
Definition bob_to_vec (m : Managed) : result Error bytes := Ok [].
Definition bob_from_slice (bs : bytes) : result Error Managed := Ok (TransactionManager_new bob_session).
Abbreviation called c h := (wasm_call ∅ bob_to_vec bob_from_slice env (StrErr "") 5 c h).2.

Definition bob_js : JsGameSession := mkJsGameSession 32 (TransactionManager_new bob_session).
Definition h0 : WasmHost := mkWasmHost 1 {[0%Z := bob_js]} ∅.
Definition h1 : WasmHost := called (CallStartHandshake 0) h0.
Definition h2 : WasmHost := called (CallRestoreSession [] []) h1.
Definition h3 : WasmHost := called (CallDeliverMessage 1 [x01]) h2.
Lemma h0_fresh : ids_fresh h0.
Proof.
  split; [done|]. intros id s Hs. cbn [h0 CRADLES] in Hs.
  apply lookup_singleton_Some in Hs as [<- _]. done.
Qed.
Lemma h0_called : rtc (wasm_step ∅ bob_to_vec bob_from_slice env) h0 h3.
Proof.
  apply (rtc_l _ h0 h1); [constructor; by_evaluation|].
  apply (rtc_l _ h1 h2); [constructor; by_evaluation|].
  apply rtc_once. constructor. by_evaluation.
Qed.
Lemma second_session : is_some (CRADLES h3 !! 1%Z) = true.
Proof. vm_compute. reflexivity. Qed.

(** Bob's session is started, another is restored and hears from its peer. *)
Lemma sessions_run_their_programs_witness :
  is_some (CRADLES h3 !! 1%Z) = true
  /\ (exists s, CRADLES h3 !! 0%Z = Some s /\ rtc (program_step env) (TransactionManager_new bob_session) (js_cradle s))
  /\ (forall s, CRADLES h3 !! 1%Z = Some s -> exists m, rtc (program_step env) m (js_cradle s)).
Proof.
  destruct (sessions_run_their_programs ∅ bob_to_vec bob_from_slice env h0 h3 h0_fresh h0_called) as [Hold Hnew].
  split_and!; [exact second_session|exact (Hold 0%Z bob_js eq_refl)|].
  intros s Hs. destruct (Hnew 1%Z s eq_refl Hs) as (m & _ & Hm). by exists m.
Defined.

Abbreviation managed := (session_managed env (StrErr "") 5).
Definition start : eff JsGameSession unit := on_session (GameSession.start_handshake env (StrErr "") 5).
Definition begun : JsGameSession := (run_action None start bob_js).2.
Lemma begun_ok : (run_action None start bob_js).1 = Ok true.
Proof. vm_compute. reflexivity. Qed.
Lemma collects : is_ok (TransactionManager.flush_and_collect (session := managed) (js_cradle begun)).1 = true.
Proof. vm_compute. reflexivity. Qed.
Definition of_start : ManagerDrain GameNotification CoinSpendRequest := the_ok _ collects.
Definition kept : Managed := (TransactionManager.flush_and_collect (session := managed) (js_cradle begun)).2.

(** The first message of the handshake comes back as an event. *)
Lemma calls_return_their_drain_witness :
  length (TransactionManager.events of_start) = 2
  /\ exists events, Forall2 (fun e js => game_session_event_to_js e = Ok js) (TransactionManager.events of_start) events.
Proof.
  split; [vm_compute; reflexivity|].
  destruct (calls_return_their_drain env bob_config bob_keys (StrErr "") 5 0 None start h0 bob_js true begun
    of_start kept eq_refl (rtc_refl _ _) (rp_call env (StrErr "") 5 StartHandshake)
    (eff_run _ _ _ begun_ok) (eff_run _ _ _ (the_ok_eq _ collects))) as (events & Hevents & _).
  by exists events.
Defined.
End Witnesses.
