(* ===== verification/SimulatorService.v ===== *)
(** * The service around the simulator

    [src/simulator/service.rs]: the wallet of named users over one simulated
    chain, the requests clients send it, and the actor that serves them one at
    a time.  Sockets, timers and the HTTP server are left out; the bounded queue
    to each client is in.  A JSON text is the value it stands for: the bodies
    that the methods print and [parse_result_body] reads back are values, and a
    message is the value it is the text of.  What serde's macros make of a
    request is a parameter. *)
From S2P Require Import Prelude Extern World Coins Clvm StandardCoin Text TransactionManager.
From S2P Require Import UnrollCoin GameHandler RefereeTypes Referee LiveGame ChannelState ChannelGames.
From S2P Require Import ChannelOnChain Effects OnChainPhase OnChainActions OnChainSpend HandlerBase.
From S2P Require Import SpendChannelCoin UnrollTransition OffChainPhase OffChainReceive HandshakeBase.
From S2P Require Import HandshakeInitiator HandshakeReceiver PeerPhase GameSession ProtocolPretty.
From S2P Require Import Simulator WasmHost.

(** ** JSON values and requests *)
Inductive Json : Type :=
| Null
| Bool (b : bool)
| Number (n : Z)
(** a number that is no integer *)
| Float (text : bytes)
| Str (s : bytes)
| Arr (l : list Json)
| Obj (fields : list (bytes * Json)).

Definition as_str (j : Json) : option bytes := match j with Str s => Some s | _ => None end.
Definition as_u64 (j : Json) : option N :=
  match j with
  | Number n => if bool_decide (0 <= n < 2 ^ 64)%Z then Some (Z.to_N n) else None
  | _ => None
  end.
Definition as_array (j : Json) : option (list Json) := match j with Arr l => Some l | _ => None end.
(** [params.get(name)], [Null] where there is no such member. *)
Definition get_param (params : Json) (name : string) : Json :=
  match params with
  | Obj fields =>
      match find_first (fun kv : bytes * Json => bool_decide (kv.1 = String.list_byte_of_string name)) fields with
      | Some kv => kv.2
      | None => Null
      end
  | _ => Null
  end.
Definition jstr (s : string) : Json := Str (String.list_byte_of_string s).
Definition member (name : string) (v : Json) : bytes * Json := (String.list_byte_of_string name, v).
Definition of_N (n : N) : Json := Number (Z.of_N n).

Record WsRequest := mkWsRequest { req_id : N; method : bytes; params : Json }.
Record ExtraCondition := mkExtraCondition { extra_opcode : N; extra_args : list bytes }.
Record CreateOfferForIdsRequest := mkCreateOffer {
  offer : gmap bytes Z;
  coin_ids : list bytes;
  extra_conditions : list ExtraCondition;
}.
(** [serde_json::from_str], [serde_json::from_value] and the derived [Debug] of
    an error. *)
Class ServiceJson := {
  WsRequest_from_str : bytes -> option WsRequest;
  offer_request_from_value : Json -> option CreateOfferForIdsRequest;
  push_request_from_value : Json -> option CoinsetSpendBundle;
  debug_error : Error -> bytes;
}.

Definition CREATE_COIN_ANNOUNCEMENT : N := 60.
Definition ASSERT_BEFORE_HEIGHT_ABSOLUTE : N := 87.

Section service.
Context {arch : Arch} {sha2 : Sha2} {bigint : BigInt} {clvm : Clvm} {bls : Bls}.
Context {puzzles : ChiaPuzzles} {order : HashOrder} {settlement : SettlementPuzzle}.
Context {hex : Hex} {unhex : HexDecode} {randomness : SessionRng} {consensus : Consensus}.
Context {json : ServiceJson}.

Definition hex_to_bytes (hexstr : bytes) : result Error bytes :=
  match hex_decode hexstr with Some b => Ok b | None => Err (StrErr "not hex") end.
Definition require_coin_parts (c : CoinString) : result Error (CoinID * PuzzleHash * Amount) :=
  ok_or (StrErr "malformed coin string (to_parts failed)") (to_parts c).

(** ** State *)
Record FullCoinSetAdapter := mkAdapter { current_coins : gset CoinString }.

(** What changed since the last look; the order is the sets' own. *)
Definition make_observations (coins : list CoinString) : eff FullCoinSetAdapter (list CoinObservation) :=
  a ← get_state;
  let now : gset CoinString := list_to_set coins in
  _ ← put_state (mkAdapter now);
  mret ((Created <$> retain (fun c => negb (bool_decide (c ∈ current_coins a))) (hs_iter now))
        ++ (Spent <$> retain (fun c => negb (bool_decide (c ∈ now))) (hs_iter (current_coins a)))).

Record GameRunner := mkGameRunner {
  runner_rng : ChaCha8Rng;
  neutral_identity : ChiaIdentity;
  identities : gmap bytes bytes;
  pubkeys : gmap bytes ChiaIdentity;
  simulator : Simulator;
  coinset_adapter : FullCoinSetAdapter;
  sim_record : gmap N (list CoinObservation);
}.
#[export] Instance GameRunner_eta : RecordEta GameRunner := fun g =>
  mkGameRunner (runner_rng g) (neutral_identity g) (identities g) (pubkeys g) (simulator g)
    (coinset_adapter g) (sim_record g).

Definition on_simulator {A} (op : eff Simulator A) : eff GameRunner A :=
  on_part simulator (fun s g => g <| simulator := s |>) op.
Definition on_adapter {A} (op : eff FullCoinSetAdapter A) : eff GameRunner A :=
  on_part coinset_adapter (fun a g => g <| coinset_adapter := a |>) op.
Definition on_runner_rng {A} (op : eff ChaCha8Rng A) : eff GameRunner A :=
  on_part runner_rng (fun r g => g <| runner_rng := r |>) op.

Definition GameRunner_new (sim : Simulator) (adapter : FullCoinSetAdapter) : result Error GameRunner :=
  let '(neutral_pk, rng) := random_private_key (from_seed zero_hash) in
  neutral_pk ← neutral_pk;
  neutral_identity ← expect "should work" (ChiaIdentity_new neutral_pk);
  mret (mkGameRunner rng neutral_identity ∅ ∅ (farm_block (identity_puzzle_hash neutral_identity) sim)
          adapter ∅).

(** The users keep their names and keys, and the record its blocks. *)
Definition reset_sim : eff GameRunner Json :=
  _ ← modify_state (fun g => g <| simulator := Simulator_new false |> <| coinset_adapter := mkAdapter ∅ |>);
  mret (Number 1).

(** ** Blocks *)
Definition chase_block : eff GameRunner N :=
  g ← get_state;
  let new_height := get_current_height (simulator g) in
  observations ← on_adapter (make_observations (get_all_coins (simulator g)));
  _ ← modify_state (fun g => g <| sim_record ::= insert new_height observations |>);
  mret new_height.
Definition farm_and_chase : eff GameRunner N :=
  _ ← modify_state (fun g => g <| simulator ::= farm_block (identity_puzzle_hash (neutral_identity g)) |>);
  chase_block.

Definition created_coin (o : CoinObservation) : option CoinString :=
  match o with Created c => Some c | Spent _ => None end.
Definition spent_coin (o : CoinObservation) : option CoinString :=
  match o with Created _ => None | Spent c => Some c end.
Definition hex_of (b : bytes) : Json := Str (hex_encode b).
Definition get_block_data (block : N) (g : GameRunner) : Json :=
  match sim_record g !! block with
  | Some observations =>
      Obj [member "created" (Arr ((fun c => hex_of (coin_bytes c)) <$> omap created_coin observations));
           member "deleted" (Arr ((fun c => hex_of (coin_bytes c)) <$> omap spent_coin observations))]
  | None => Null
  end.

(** ** Users *)
Definition lookup_identity (name : bytes) (g : GameRunner) : option ChiaIdentity :=
  match identities g !! name with
  | Some pk => pubkeys g !! pk
  | None => pubkeys g !! name
  end.

(** [+=] of a [u64] wraps. *)
Fixpoint sum_amounts (total : N) (cs : list CoinString) : result Error N :=
  match cs with
  | [] => mret total
  | c :: cs => '(_, _, amt) ← require_coin_parts c; sum_amounts (u64_add total amt) cs
  end.
Definition get_balance (who : bytes) (g : GameRunner) : result Error Json :=
  match lookup_identity who g with
  | Some pk => of_N <$> sum_amounts 0 (get_my_coins (identity_puzzle_hash pk) (simulator g))
  | None => mret (of_N 0)
  end.

Definition runner_puzzle_and_solution (coin : bytes) (g : GameRunner) : result Error Json :=
  b ← hex_to_bytes coin;
  coin_id ← (if (32 <? length b)%nat then mret (to_coin_id (CoinString_from_bytes b))
             else mkCoinID <$> Hash_from_slice b);
  mret (match get_puzzle_and_solution coin_id (simulator g) with
        | Some (prog, sol) => Arr [hex_of (program_bytes prog); hex_of (program_bytes sol)]
        | None => Null
        end).

(** Coins are kept up to [keep_left]; what exceeds it goes to the zero hash. *)
Fixpoint burn_excess (identity : ChiaIdentity) (keep_left : N) (cs : list CoinString)
    : eff GameRunner unit :=
  match cs with
  | [] => mret tt
  | c :: cs =>
      '(_, _, amt) ← lift_result (require_coin_parts c);
      if (keep_left =? 0)%N then
        _ ← on_simulator (transfer_coin_amount (mkPuzzleHash zero_hash) identity c amt);
        burn_excess identity keep_left cs
      else if (amt <=? keep_left)%N then burn_excess identity (keep_left - amt) cs
      else
        _ ← on_simulator (transfer_coin_amount (mkPuzzleHash zero_hash) identity c (amt - keep_left)%N);
        burn_excess identity 0 cs
  end.

Definition new_identity (name : bytes) : eff GameRunner bytes :=
  pk1 ← on_runner_rng random_private_key;
  identity ← lift_result (ChiaIdentity_new pk1);
  _ ← modify_state (fun g => g <| simulator ::= farm_block (identity_puzzle_hash identity) |>);
  _ ← chase_block;
  let result := hex_encode (PuzzleHash_bytes (identity_puzzle_hash identity)) in
  _ ← modify_state (fun g => g <| identities ::= insert name result |> <| pubkeys ::= insert result identity |>);
  mret result.

Definition trim_balance (public_key : bytes) (desired : N) : eff GameRunner unit :=
  g ← get_state;
  match lookup_identity public_key g with
  | Some identity =>
      let coins := get_my_coins (identity_puzzle_hash identity) (simulator g) in
      total ← lift_result (sum_amounts 0 coins);
      if (desired <? total)%N
      then _ ← burn_excess identity desired coins; _ ← farm_and_chase; mret tt
      else mret tt
  | None => mret tt
  end.

Definition register (name : bytes) (target_balance : option N) : eff GameRunner Json :=
  g ← get_state;
  public_key ← match lookup_identity name g with
               | Some identity => mret (hex_encode (PuzzleHash_bytes (identity_puzzle_hash identity)))
               | None => new_identity name
               end;
  _ ← match target_balance with
      | Some desired => trim_balance public_key desired
      | None => mret tt
      end;
  mret (Str public_key).

Definition create_spendable (who target : bytes) (amt : N) : eff GameRunner Json :=
  target_ph_bytes ← lift_result (match hex_decode target with Some b => Ok b | None => Err (StrErr "bad target hex") end);
  target_hash ← lift_result (Hash_from_slice target_ph_bytes);
  g ← get_state;
  match lookup_identity who g with
  | Some identity =>
      c ← lift_result (first_of_amount amt (get_my_coins (identity_puzzle_hash identity) (simulator g)));
      match c with
      | Some c =>
          '(parent_coin_0, _) ← on_simulator (transfer_coin_amount (mkPuzzleHash target_hash) identity c amt);
          _ ← farm_and_chase;
          mret (hex_of (coin_bytes parent_coin_0))
      | None => mret Null
      end
  | None => mret Null
  end.

Fixpoint eligible_coins (amount : N) (cs : list CoinString) : result Error (list (N * CoinString)) :=
  match cs with
  | [] => mret []
  | c :: cs =>
      '(_, _, amt) ← require_coin_parts c;
      rest ← eligible_coins amount cs;
      mret (if (amount <=? amt)%N then (amt, c) :: rest else rest)
  end.
(** [min_by_key]: the first of the smallest. *)
Definition min_by_amount (l : list (N * CoinString)) : option CoinString :=
  snd <$> fold_left (fun (best : option (N * CoinString)) x =>
    match best with Some b => if (x.1 <? b.1)%N then Some x else best | None => Some x end) l None.
Definition runner_select_coins (who : bytes) (amount : N) (g : GameRunner) : result Error Json :=
  match lookup_identity who g with
  | Some identity =>
      eligible ← eligible_coins amount (get_my_coins (identity_puzzle_hash identity) (simulator g));
      mret (match min_by_amount eligible with Some selected => hex_of (coin_bytes selected) | None => Null end)
  | None => mret Null
  end.

(** ** Offers *)
(** [(-*v) as u64] of an [i64]. *)
Definition requested_amounts (offer : gmap bytes Z) : list N :=
  omap (fun kv : bytes * Z => if (kv.2 <? 0)%Z then Some (Z.to_N ((- kv.2) mod 2 ^ 64)) else None) (map_to_list offer).
Definition requested_amount (offer : gmap bytes Z) : option N :=
  match requested_amounts offer with [] => None | a :: l => Some (fold_left N.max l a) end.

Definition offered_coin (eligible : list (N * CoinString)) (ids : list bytes) : result Error CoinString :=
  match ids with
  | first_coin_id :: _ =>
      expected_bytes ← check_for_hex first_coin_id;
      expected_id ← Hash_from_slice expected_bytes;
      ok_or (StrErr "requested coin id not found")
        (find_first (fun coin => bool_decide (to_coin_id coin = mkCoinID expected_id)) (snd <$> eligible))
  | [] => ok_or (StrErr "no spendable coin for requested amount") (min_by_amount eligible)
  end.

(** A condition the wallet is asked to add: one more coin, or one of four kinds
    of condition with a single argument. *)
Definition extra_condition (ec : ExtraCondition) : result Error (PuzzleHash * Amount + N * bytes) :=
  if (extra_opcode ec =? CREATE_COIN)%N then
    match extra_args ec with
    | a0 :: a1 :: _ =>
        ph_bytes ← check_for_hex a0;
        ph ← (match array32 ph_bytes with Some h => Ok h | None => Err (StrErr "CREATE_COIN puzzle hash must be 32 bytes") end);
        amt_bytes ← check_for_hex a1;
        amt_val ← ok_or (StrErr "CREATE_COIN amount is not a valid CLVM int") (u64_from_atom amt_bytes);
        mret (inl (mkPuzzleHash ph, amt_val))
    | _ => Err (StrErr "CREATE_COIN extra condition missing args")
    end
  else if (extra_opcode ec =? ASSERT_COIN_ANNOUNCEMENT)%N || (extra_opcode ec =? CREATE_COIN_ANNOUNCEMENT)%N then
    match extra_args ec with
    | [a] =>
        arg ← check_for_hex a;
        if (extra_opcode ec =? ASSERT_COIN_ANNOUNCEMENT)%N && negb (length arg =? 32)%nat
        then Err (StrErr "ASSERT_COIN_ANNOUNCEMENT arg must be 32-byte announcement id")
        else mret (inr (extra_opcode ec, arg))
    | _ => Err (StrErr "announcement condition opcode must have exactly one arg")
    end
  else if (extra_opcode ec =? ASSERT_BEFORE_HEIGHT_ABSOLUTE)%N then
    match extra_args ec with
    | [a] =>
        arg ← check_for_hex a;
        if bool_decide (u64_from_atom arg = None)
        then Err (StrErr "ASSERT_BEFORE_HEIGHT_ABSOLUTE arg is not a valid CLVM int")
        else mret (inr (extra_opcode ec, arg))
    | _ => Err (StrErr "ASSERT_BEFORE_HEIGHT_ABSOLUTE must have exactly one arg")
    end
  else Err (StrErr "unsupported extra condition opcode in simulator create_offer_for_ids").

Definition left_of {A B} (x : A + B) : option A := match x with inl a => Some a | inr _ => None end.
Definition right_of {A B} (x : A + B) : option B := match x with inl _ => None | inr b => Some b end.

(** The requested amount goes to the settlement puzzle, the rest comes back. *)
Definition offer_conditions (identity : ChiaIdentity) (requested change : N)
    (extras : list (PuzzleHash * Amount + N * bytes)) : sexp :=
  let create_targets :=
    (mkPuzzleHash SETTLEMENT_PAYMENT_HASH, requested)
      :: (if (0 <? change)%N then [(identity_puzzle_hash identity, change)] else [])
      ++ omap left_of extras in
  list_node (((fun t : PuzzleHash * Amount => create_coin_node t.1 t.2) <$> create_targets)
             ++ ((fun c : N * bytes => list_node [num_node c.1; Atom c.2]) <$> omap right_of extras)).

Definition spend_record_json (parent : CoinID) (ph : PuzzleHash) (amt : Amount) (reveal solution : bytes) : Json :=
  Obj [member "coin" (Obj [member "amount" (of_N amt);
                           member "parent_coin_info" (Str (with_0x (CoinID_bytes parent)));
                           member "puzzle_hash" (Str (with_0x (PuzzleHash_bytes ph)))]);
       member "puzzle_reveal" (Str (with_0x reveal));
       member "solution" (Str (with_0x solution))].

Definition create_offer_for_ids (env : ChannelEnv) (who : bytes) (req : CreateOfferForIdsRequest) (g : GameRunner)
    : result Error Json :=
  identity ← ok_or (StrErr "unknown wallet user") (lookup_identity who g);
  requested ← ok_or (StrErr "offer does not request any spend amount") (requested_amount (offer req));
  eligible ← eligible_coins requested (get_my_coins (identity_puzzle_hash identity) (simulator g));
  selected_coin ← offered_coin eligible (coin_ids req);
  '(parent, ph, amount) ← require_coin_parts selected_coin;
  extras ← mapM_result extra_condition (extra_conditions req);
  info ← standard_solution_partial (synthetic_private_key identity) (to_coin_id selected_coin)
           (offer_conditions identity requested (amount - requested) extras)
           (synthetic_public_key identity) (env_agg_sig_me_additional_data env) false;
  mret (Obj [member "aggregated_signature" (Str (with_0x (sig_bytes (broken_signature info))));
             member "coin_spends" (Arr [spend_record_json parent ph amount
                                          (program_bytes (puzzle_program (identity_puzzle identity)))
                                          (program_bytes (broken_solution info))])]).

(** ** Transactions *)
Definition spend_list_of_spends (spends : list CoinSpend) : eff GameRunner Json :=
  result ← on_simulator (push_transactions spends);
  let e_res := match include_error result with Some e => of_N e | None => Null end in
  mret (Arr (of_N (code result) :: e_res
             :: if negb (code result =? 1)%N && negb (bool_decide (diagnostic result = ""%string))
                then [jstr (diagnostic result)] else [])).
Definition spend_blob (blob : bytes) : eff GameRunner Json :=
  spend_program ← lift_result (Program_from_hex blob);
  spend_node ← lift_result (Program_to_nodeptr spend_program);
  spend_bundle ← lift_result (SpendBundle_from_clvm spend_node);
  spend_list_of_spends (spends spend_bundle).
Definition runner_push_transactions (b : CoinsetSpendBundle) : eff GameRunner Json :=
  aggsig_bytes ← lift_result (check_for_hex (cs_aggregated_signature b));
  aggsig ← lift_result (Aggsig_from_slice aggsig_bytes);
  converted ← lift_result (mapM_result convert_coinset_org_spend_to_spend (cs_coin_spends b));
  spend_list_of_spends (match converted with
    | [] => []
    | first :: rest =>
        mkCoinSpend (coin first) (mkSpend (puzzle (bundle first)) (solution (bundle first)) aggsig) :: rest
    end).

(** ** What is reported of the chain *)
Definition block_spend (g : GameRunner) (c : CoinString) : option Json :=
  match to_parts c with
  | Some (parent, ph, amt) =>
      (fun ps : Program * Program => spend_record_json parent ph amt (program_bytes ps.1) (program_bytes ps.2))
        <$> get_puzzle_and_solution (to_coin_id c) (simulator g)
  | None => None
  end.
Definition block_spends (height : N) (g : GameRunner) : Json :=
  match sim_record g !! height with
  | Some observations =>
      Obj [member "block_spends" (Arr (omap (block_spend g) (omap spent_coin observations)))]
  | None => Null
  end.

Definition coin_record_json (coin_id : CoinID) (g : GameRunner) : option Json :=
  match get_watched_coin_snapshot coin_id (simulator g) with
  | Some (coin, created_height, spent_height) =>
      match to_parts coin with
      | Some (parent, ph, amount) =>
          Some (Obj [member "coin" (Obj [member "parentCoinInfo" (Str (with_0x (CoinID_bytes parent)));
                                         member "puzzleHash" (Str (with_0x (PuzzleHash_bytes ph)));
                                         member "amount" (of_N amount)]);
                     member "confirmedBlockIndex" (of_N created_height);
                     member "spentBlockIndex" (of_N (default 0%N spent_height));
                     member "spent" (Bool (is_some spent_height));
                     member "coinbase" (Bool false);
                     member "timestamp" (Number 0)])
      | None => None
      end
  | None => None
  end.

(** The ids among the values: the others are passed over. *)
Definition coin_id_of (v : Json) : option CoinID :=
  match as_str v with
  | Some hex_str =>
      match check_for_hex hex_str with
      | Ok b => match Hash_from_slice b with Ok h => Some (mkCoinID h) | Err _ => None end
      | Err _ => None
      end
  | None => None
  end.
Definition get_coin_records_by_names (params : Json) (registered_coins : gset CoinID) (g : GameRunner)
    : result Error Json :=
  names ← ok_or (StrErr "missing names array") (as_array (get_param params "names"));
  mret (Arr (omap (fun id => if bool_decide (id ∈ registered_coins) then coin_record_json id g else None)
               (omap coin_id_of names))).
Definition registered_coin_records (registered_coins : gset CoinID) (g : GameRunner) : list Json :=
  omap (fun id => coin_record_json id g) (hs_iter registered_coins).
Definition register_remote_coins (params : Json) : eff (gset CoinID) Json :=
  coin_ids ← lift_result (ok_or (StrErr "missing coinIds array") (as_array (get_param params "coinIds")));
  _ ← modify_state (fun registered : gset CoinID => registered ∪ list_to_set (omap coin_id_of coin_ids));
  mret (Bool true).
Definition make_block_event_json_for_client (g : GameRunner) (height : N) (registered_coins : gset CoinID) : Json :=
  Obj [member "event" (jstr "block"); member "peak" (of_N height);
       member "records" (Arr (registered_coin_records registered_coins g))].

(** ** A request *)
Definition get_str_param (params : Json) (name : string) : result Error bytes :=
  ok_or (StrErr "missing param") (as_str (get_param params name)).
Definition get_u64_param (params : Json) (name : string) : result Error N :=
  ok_or (StrErr "missing param") (as_u64 (get_param params name)).

(** The runner, and the coins of the client that asks. *)
Record Desk := mkDesk { game_runner : GameRunner; registered_coins : gset CoinID }.
#[export] Instance Desk_eta : RecordEta Desk := fun d => mkDesk (game_runner d) (registered_coins d).
Definition on_game_runner {A} (op : eff GameRunner A) : eff Desk A :=
  on_part game_runner (fun g d => d <| game_runner := g |>) op.
Definition on_registered {A} (op : eff (gset CoinID) A) : eff Desk A :=
  on_part registered_coins (fun r d => d <| registered_coins := r |>) op.
Definition reads (f : GameRunner -> result Error Json) : eff Desk Json :=
  d ← get_state; lift_result (f (game_runner d)).

Inductive Method : Type :=
| MRegister | MGetPeak | MGetBlockData | MGetBalance | MGetPuzzleAndSolution | MCreateSpendable
| MSelectCoins | MCreateOfferForIds | MSpend | MPushTransactions | MBlockSpends
| MGetCoinRecordsByNames | MRegisterRemoteCoins | MReset | MExit.
Definition method_names : list (string * Method) :=
  [("register", MRegister); ("get_peak", MGetPeak); ("get_block_data", MGetBlockData);
   ("get_balance", MGetBalance); ("get_puzzle_and_solution", MGetPuzzleAndSolution);
   ("create_spendable", MCreateSpendable); ("select_coins", MSelectCoins);
   ("create_offer_for_ids", MCreateOfferForIds); ("spend", MSpend); ("push_tx", MPushTransactions);
   ("push_transactions", MPushTransactions); ("block_spends", MBlockSpends);
   ("get_coin_records_by_names", MGetCoinRecordsByNames);
   ("register_remote_coins", MRegisterRemoteCoins); ("reset", MReset); ("exit", MExit)]%string.
Definition method_of (name : bytes) : option Method :=
  snd <$> find_first (fun m : string * Method => bool_decide (String.list_byte_of_string m.1 = name)) method_names.

Definition run_method (env : ChannelEnv) (m : Method) (params : Json) : eff Desk Json :=
  match m with
  | MRegister =>
      name ← lift_result (get_str_param params "name");
      on_game_runner (register name (as_u64 (get_param params "balance")))
  | MGetPeak => reads (fun g => mret (of_N (get_current_height (simulator g))))
  | MGetBlockData => block ← lift_result (get_u64_param params "block"); reads (fun g => mret (get_block_data block g))
  | MGetBalance => user ← lift_result (get_str_param params "user"); reads (get_balance user)
  | MGetPuzzleAndSolution => coin ← lift_result (get_str_param params "coin"); reads (runner_puzzle_and_solution coin)
  | MCreateSpendable =>
      who ← lift_result (get_str_param params "who");
      target ← lift_result (get_str_param params "target");
      amount ← lift_result (get_u64_param params "amount");
      on_game_runner (create_spendable who target amount)
  | MSelectCoins =>
      who ← lift_result (get_str_param params "who");
      amount ← lift_result (get_u64_param params "amount");
      reads (runner_select_coins who amount)
  | MCreateOfferForIds =>
      who ← lift_result (get_str_param params "who");
      req ← lift_result (ok_or (StrErr "bad offer params") (offer_request_from_value params));
      reads (create_offer_for_ids env who req)
  | MSpend => blob ← lift_result (get_str_param params "blob"); on_game_runner (spend_blob blob)
  | MPushTransactions =>
      b ← lift_result (ok_or (StrErr "bad push_transactions params") (push_request_from_value params));
      on_game_runner (runner_push_transactions b)
  | MBlockSpends => height ← lift_result (get_u64_param params "height"); reads (fun g => mret (block_spends height g))
  | MGetCoinRecordsByNames => d ← get_state; reads (get_coin_records_by_names params (registered_coins d))
  | MRegisterRemoteCoins => on_registered (register_remote_coins params)
  | MReset => on_game_runner reset_sim
  (** the process ends, as after a panic *)
  | MExit => throw (Panicked "exit")
  end.

Definition ws_result (id : N) (v : Json) : Json := Obj [member "id" (of_N id); member "result" v].
Definition ws_error (id : N) (e : bytes) : Json := Obj [member "id" (of_N id); member "error" (Str e)].

(** The events of the blocks between two heights, as this client sees them. *)
Definition block_events (g : GameRunner) (height_before height_after : N) (registered : gset CoinID) : list Json :=
  (fun h => make_block_event_json_for_client g (N.of_nat h) registered)
    <$> seq (S (N.to_nat height_before)) (N.to_nat height_after - N.to_nat height_before).

(** The response, and the events of the blocks the request made, which a request
    that fails does not announce. *)
Definition dispatch_ws_request (env : ChannelEnv) (text : bytes) : eff Desk (list Json) :=
  match WsRequest_from_str text with
  | None => mret [ws_error 0 (String.list_byte_of_string "invalid request JSON")]
  | Some req =>
      d ← get_state;
      let height_before := get_current_height (simulator (game_runner d)) in
      catch
        (body ← match method_of (method req) with
                | Some m => run_method env m (params req)
                | None => throw (StrErr "unknown method")
                end;
         d ← get_state;
         mret (ws_result (req_id req) body
               :: block_events (game_runner d) height_before (get_current_height (simulator (game_runner d)))
                    (registered_coins d)))
        (fun e => mret [ws_error (req_id req) (debug_error e)])
  end.

(** ** The actor *)
(** A bounded [mpsc] channel, of which the actor holds the sending end. *)
Record Outbox := mkOutbox { queue : list Json; capacity : nat; receiver_open : bool }.
Record ActorClient := mkActorClient {
  outbound : Outbox;
  client_coins : gset CoinID;
}.
#[export] Instance ActorClient_eta : RecordEta ActorClient := fun c => mkActorClient (outbound c) (client_coins c).
#[export] Instance Outbox_eta : RecordEta Outbox := fun o => mkOutbox (queue o) (capacity o) (receiver_open o).

(** [try_reserve_many]: room for all of the messages, or none is sent and the
    connection is told to close. *)
Definition queue_actor_messages (client : ActorClient) (messages : list Json) : result string ActorClient :=
  let o := outbound client in
  if receiver_open o && (length messages <=? capacity o - length (queue o))%nat
  then Ok (client <| outbound := o <| queue ::= fun q => q ++ messages |> |>)
  else Err "outbound queue cannot reserve messages atomically"%string.

Inductive GameCommand : Type :=
| Connect (connection_id : N) (outbound : Outbox)
| Request (connection_id : N) (text : bytes)
| Disconnect (connection_id : N)
| Farm
| ShutdownActor.

Record GameActor := mkGameActor {
  actor_runner : GameRunner;
  actor_height : N;
  clients : gmap N ActorClient;
}.
#[export] Instance GameActor_eta : RecordEta GameActor := fun a =>
  mkGameActor (actor_runner a) (actor_height a) (clients a).

Definition store_height : eff GameActor unit :=
  modify_state (fun a => a <| actor_height := get_current_height (simulator (actor_runner a)) |>).

Definition handle_request (env : ChannelEnv) (connection_id : N) (text : bytes) : eff GameActor (result string unit) :=
  a ← get_state;
  match clients a !! connection_id with
  | None => mret (Err "connection is no longer registered"%string)
  | Some client =>
      messages ← on_part (fun a => mkDesk (actor_runner a) (client_coins client))
        (fun d a => a <| actor_runner := game_runner d |>
                      <| clients ::= insert connection_id (client <| client_coins := registered_coins d |>) |>)
        (dispatch_ws_request env text);
      _ ← store_height;
      a ← get_state;
      match clients a !! connection_id with
      | None => mret (Ok tt)
      | Some client =>
          match queue_actor_messages client messages with
          | Ok client => _ ← modify_state (fun a => a <| clients ::= insert connection_id client |>); mret (Ok tt)
          | Err reason => _ ← modify_state (fun a => a <| clients ::= delete connection_id |>); mret (Err reason)
          end
      end
  end.

(** Each client is told of the block; those whose queue is full are dropped. *)
Definition tell_client (g : GameRunner) (height : N) (client : ActorClient) : option ActorClient :=
  match queue_actor_messages client [make_block_event_json_for_client g height (client_coins client)] with
  | Ok client => Some client
  | Err _ => None
  end.
Definition handle_farm : eff GameActor (result string unit) :=
  new_height ← on_part actor_runner (fun g a => a <| actor_runner := g |>) farm_and_chase;
  _ ← store_height;
  _ ← modify_state (fun a => a <| clients ::= omap (tell_client (actor_runner a) new_height) |>);
  mret (Ok tt).

(** A command, and its reply. *)
Definition handle_command (env : ChannelEnv) (c : GameCommand) : eff GameActor (result string unit) :=
  match c with
  | Connect connection_id outbound =>
      _ ← modify_state (fun a => a <| clients ::= insert connection_id (mkActorClient outbound ∅) |>);
      mret (Ok tt)
  | Request connection_id text => handle_request env connection_id text
  | Disconnect connection_id =>
      _ ← modify_state (fun a => a <| clients ::= delete connection_id |>); mret (Ok tt)
  | Farm => handle_farm
  | ShutdownActor => _ ← modify_state (fun a => a <| clients := ∅ |>); mret (Ok tt)
  end.

Definition GameActor_new : result Error GameActor :=
  g ← GameRunner_new (Simulator_new false) (mkAdapter ∅);
  mret (mkGameActor g (get_current_height (simulator g)) ∅).
(** The loop over the commands, up to a shutdown. *)
Fixpoint run_game_actor (env : ChannelEnv) (commands : list GameCommand) : eff GameActor unit :=
  match commands with
  | [] => mret tt
  | ShutdownActor :: _ => _ ← handle_command env ShutdownActor; mret tt
  | command :: commands => _ ← handle_command env command; run_game_actor env commands
  end.
End service.
