(* ===== verification/ServiceProperties.v ===== *)
(** * What the clients of the simulator service see

    Every message that waits for a client answers that client or tells it of a
    block and of its own coins; a request's answer and events are queued
    together or not at all. *)
From stdpp Require Import relations.
From S2P Require Import Prelude Extern World Coins Clvm StandardCoin Text TransactionManager.
From S2P Require Import UnrollCoin GameHandler RefereeTypes Referee LiveGame ChannelState ChannelGames.
From S2P Require Import ChannelOnChain Effects OnChainPhase OnChainActions OnChainSpend HandlerBase.
From S2P Require Import SpendChannelCoin UnrollTransition OffChainPhase OffChainReceive HandshakeBase.
From S2P Require Import HandshakeInitiator HandshakeReceiver PeerPhase GameSession ProtocolPretty.
From S2P Require Import ToyGame ToyChannel HandshakeProperties SessionProperties.
From S2P Require Import Simulator WasmHost SimulatorService.

Section service.
Context {arch : Arch} {sha2 : Sha2} {bigint : BigInt} {clvm : Clvm} {bls : Bls}.
Context {puzzles : ChiaPuzzles} {order : HashOrder} {settlement : SettlementPuzzle}.
Context {hex : Hex} {unhex : HexDecode} {randomness : SessionRng} {consensus : Consensus}.
Context {json : ServiceJson}.
Context (env : ChannelEnv).

(** ** A client's coins only grow *)
Definition registers (R : gset CoinID) (d : Desk) : Prop := R ⊆ registered_coins d.

Lemma registers_runner {A} R (op : eff GameRunner A) : preserves (registers R) (on_game_runner op).
Proof. intros d Hd. unfold on_game_runner, on_part. by destruct (op (game_runner d)). Qed.
Lemma registers_reads R f : preserves (registers R) (reads f).
Proof. by intros d Hd. Qed.
Lemma registers_remote R params : preserves (registers R) (on_registered (register_remote_coins params)).
Proof.
  intros d Hd. unfold on_registered, on_part, register_remote_coins, mbind, eff_bind, lift_result.
  destruct (ok_or _ _); [|done]. unfold registers in *. cbn. set_solver.
Qed.
Hint Resolve registers_runner registers_reads registers_remote : chia.
Lemma registers_method R m params : preserves (registers R) (run_method env m params).
Proof. destruct m; walk_through. Qed.
Hint Resolve registers_method : chia.
Lemma registers_dispatch R text : preserves (registers R) (dispatch_ws_request env text).
Proof. walk_through. Qed.

(** ** What is sent *)
Definition is_answer (v : Json) : Prop := exists id body, v = ws_result id body \/ exists e, v = ws_error id e.
(** A block, with the records of some coins of [R]. *)
Definition is_block_event (R : gset CoinID) (v : Json) : Prop := exists peak records,
  v = Obj [member "event" (jstr "block"); member "peak" (of_N peak); member "records" (Arr records)]
  /\ Forall (fun r => exists g id, id ∈ R /\ coin_record_json id g = Some r) records.
Definition for_client (R : gset CoinID) (v : Json) : Prop := is_answer v \/ is_block_event R v.

Lemma block_event_for g peak R : is_block_event R (make_block_event_json_for_client g peak R).
Proof.
  exists peak, (registered_coin_records R g). split; [done|]. apply Forall_forall. intros r Hr.
  apply list_elem_of_omap in Hr as (id & Hid & Hr). exists g, id. split; [by apply elem_of_hs_iter|done].
Qed.
Lemma for_client_mono R R' v : R ⊆ R' -> for_client R v -> for_client R' v.
Proof.
  intros HR [Ha|(peak & records & -> & Hr)]; [by left|]. right. exists peak, records. split; [done|].
  eapply Forall_impl; [exact Hr|]. intros r (g & id & Hid & Hrec). exists g, id. split; [set_solver|done].
Qed.

(** What the answer to a request is, and the blocks it announces: the answer names
    the request, and the blocks are those a successful method made. *)
Definition answers (text : bytes) (desk : Desk) (after : N) (answer : Json) (heights : list nat) : Prop :=
  match WsRequest_from_str text with
  | None => (exists e, answer = ws_error 0 e) /\ heights = []
  | Some req =>
      match method_of (method req) with
      | None => (exists e, answer = ws_error (req_id req) e) /\ heights = []
      | Some m =>
          match (run_method env m (params req) desk).1 with
          | Ok body => answer = ws_result (req_id req) body
              /\ let before := N.to_nat (get_current_height (simulator (game_runner desk))) in
                 heights = seq (S before) (N.to_nat after - before)
          | Err _ => (exists e, answer = ws_error (req_id req) e) /\ heights = []
          end
      end
  end.
Lemma answers_is_answer text desk after answer heights :
  answers text desk after answer heights -> is_answer answer.
Proof.
  unfold answers, is_answer. destruct (WsRequest_from_str text) as [req|].
  - destruct (method_of _) as [m|].
    + destruct (run_method _ _ _ _).1 as [body|e0]; [intros [-> _]; by eexists _, _; left|].
      intros [[e ->] _]. exists (req_id req), Null. right. by exists e.
    + intros [[e ->] _]. exists (req_id req), Null. right. by exists e.
  - intros [[e ->] _]. exists 0%N, Null. right. by exists e.
Qed.
Definition event_of (d : Desk) (h : nat) : Json :=
  make_block_event_json_for_client (game_runner d) (N.of_nat h) (registered_coins d).

Lemma dispatch_messages text d messages d' :
  dispatch_ws_request env text d = (Ok messages, d') ->
  exists answer heights,
    answers text d (get_current_height (simulator (game_runner d'))) answer heights
    /\ messages = answer :: (event_of d' <$> heights).
Proof.
  unfold dispatch_ws_request, answers. destruct (WsRequest_from_str text) as [req|].
  - unfold catch, mbind, eff_bind, get_state. destruct (method_of (method req)) as [m|].
    + destruct (run_method env m (params req) d) as [[body|e] d1]; cbn [fst].
      * intros [= <- <-]. eexists _, _. split; [split; reflexivity|reflexivity].
      * destruct e; try done; intros [= <- <-]; eexists _, []; (split; [split; [by eexists|done]|done]).
    + intros [= <- <-]. eexists _, []. split; [split; [by eexists|done]|done].
  - intros [= <- <-]. eexists _, []. split; [split; [by eexists|done]|done].
Qed.

(** ** Queues *)
Definition client_ok (c : ActorClient) : Prop :=
  (length (queue (outbound c)) <= capacity (outbound c))%nat
  /\ Forall (for_client (client_coins c)) (queue (outbound c)).

Lemma queued c messages c' :
  queue_actor_messages c messages = Ok c' ->
  client_coins c' = client_coins c /\ queue (outbound c') = queue (outbound c) ++ messages
  /\ (client_ok c -> Forall (for_client (client_coins c)) messages -> client_ok c').
Proof.
  unfold queue_actor_messages. destruct (receiver_open _ && _) eqn:Hroom; [|done]. intros [= <-].
  apply andb_prop in Hroom as [_ Hroom]. apply Nat.leb_le in Hroom. split_and!; [done..|].
  intros [Hlen Hq] Hm. split; cbn.
  - rewrite length_app. lia.
  - by apply Forall_app.
Qed.

(** Room for some messages, and what a client is after it was sent them. *)
Definition has_room (c : ActorClient) (messages : list Json) : bool :=
  receiver_open (outbound c) && (length (queue (outbound c)) + length messages <=? capacity (outbound c))%nat.
Definition sent (c : ActorClient) (messages : list Json) : ActorClient :=
  c <| outbound := (outbound c) <| queue ::= fun q => q ++ messages |> |>.

Lemma queue_room c messages :
  client_ok c ->
  queue_actor_messages c messages
  = if has_room c messages then Ok (sent c messages)
    else Err "outbound queue cannot reserve messages atomically"%string.
Proof.
  intros [Hlen _]. unfold queue_actor_messages, has_room.
  replace (length messages <=? capacity (outbound c) - length (queue (outbound c)))%nat with
    (length (queue (outbound c)) + length messages <=? capacity (outbound c))%nat; [done|].
  apply eq_true_iff_eq. rewrite !Nat.leb_le. lia.
Qed.

Definition all_ok (a : GameActor) : Prop := map_Forall (fun _ => client_ok) (clients a).

(** What a request does: the runner is the one the request leaves; the client is
    dropped, or has the messages, or the actor is gone with a panic. *)
Lemma request_run id text c a :
  clients a !! id = Some c ->
  let '(r, d) := dispatch_ws_request env text (mkDesk (actor_runner a) (client_coins c)) in
  let kept := c <| client_coins := registered_coins d |> in
  let h := get_current_height (simulator (game_runner d)) in
  handle_request env id text a =
    match r with
    | Ok messages =>
        match queue_actor_messages kept messages with
        | Ok c' => (Ok (Ok tt), mkGameActor (game_runner d) h (<[id := c']> (clients a)))
        | Err reason => (Ok (Err reason), mkGameActor (game_runner d) h (delete id (clients a)))
        end
    | Err e => (Err e, mkGameActor (game_runner d) (actor_height a) (<[id := kept]> (clients a)))
    end.
Proof.
  intros Hc. destruct (dispatch_ws_request _ _ _) as [r d] eqn:Hd. cbv zeta.
  unfold handle_request, store_height, get_state, modify_state, on_part, mret, eff_ret, mbind, eff_bind.
  rewrite Hc, Hd. destruct r as [messages|e]; [|done]. cbn [clients game_runner]. cbn.
  rewrite lookup_insert_eq. destruct (queue_actor_messages _ messages) as [c'|reason]; cbn.
  - by rewrite insert_insert_eq.
  - by rewrite delete_insert_eq.
Qed.

Lemma kept_ok c R : client_coins c ⊆ R -> client_ok c -> client_ok (c <| client_coins := R |>).
Proof.
  intros HR [Hlen Hq]. split; [done|]. cbn. eapply Forall_impl; [exact Hq|]. intros v. by apply for_client_mono.
Qed.
Lemma request_ok id text a : all_ok a -> all_ok (handle_request env id text a).2.
Proof.
  intros Ha. destruct (clients a !! id) as [c|] eqn:Hc.
  - pose proof (request_run id text c a Hc) as Hrun.
    pose proof (registers_dispatch (client_coins c) text (mkDesk (actor_runner a) (client_coins c))
      ltac:(by unfold registers)) as HR. unfold registers in HR.
    destruct (dispatch_ws_request _ _ _) as [r d] eqn:Hd. cbn in HR. cbv zeta in Hrun. rewrite Hrun.
    pose proof (kept_ok c _ HR (Ha id c Hc)) as Hkept. unfold all_ok. destruct r as [messages|e]; [|by apply map_Forall_insert_2].
    destruct (queue_actor_messages _ messages) as [c'|reason] eqn:Hq; [|by apply map_Forall_delete].
    apply map_Forall_insert_2; [|done]. apply queued in Hq as (_ & _ & Hok). apply Hok; [done|].
    apply dispatch_messages in Hd as (answer & heights & Ha' & ->). cbn. constructor.
    { left. by eapply answers_is_answer. }
    apply Forall_fmap, Forall_forall. intros h _. right. apply block_event_for.
  - unfold handle_request, get_state, mret, eff_ret, mbind, eff_bind. by rewrite Hc.
Qed.
Lemma farm_ok a : all_ok a -> all_ok (handle_farm a).2.
Proof.
  intros Ha. unfold handle_farm, store_height, on_part, modify_state, mret, eff_ret, mbind, eff_bind.
  destruct (farm_and_chase (actor_runner a)) as [[h|e] g]; [|done]. intros id c'. cbn.
  rewrite lookup_omap_Some. intros (c & Hc & Hid). unfold tell_client in Hc.
  destruct (queue_actor_messages c _) as [c1|reason] eqn:Hq; [|done]. simplify_eq.
  apply queued in Hq as (_ & _ & Hok). apply Hok; [by eapply Ha|]. constructor; [|done].
  right. apply block_event_for.
Qed.

(** ** The service as it runs *)
(** A new connection's queue is empty. *)
Definition connects_empty (c : GameCommand) : Prop :=
  match c with Connect _ o => queue o = [] | _ => True end.
Inductive service_step (a : GameActor) : GameActor -> Prop :=
| command_served c : connects_empty c -> service_step a (handle_command env c a).2
| client_reads id c message rest :
    clients a !! id = Some c -> queue (outbound c) = message :: rest ->
    service_step a (a <| clients ::= insert id (c <| outbound := (outbound c) <| queue := rest |> |>) |>)
| client_closes id c :
    clients a !! id = Some c ->
    service_step a (a <| clients ::= insert id (c <| outbound := (outbound c) <| receiver_open := false |> |>) |>).

Lemma step_ok a a' : service_step a a' -> all_ok a -> all_ok a'.
Proof.
  destruct 1 as [c Hempty|id c message rest Hc Hq|id c Hc]; intros Ha.
  - destruct c as [id o|id text|id| |]; cbn in Hempty.
    + apply map_Forall_insert_2; [|done]. split; cbn; rewrite Hempty; cbn; [lia|constructor].
    + by apply request_ok.
    + by apply map_Forall_delete.
    + by apply farm_ok.
    + apply map_Forall_empty.
  - destruct (Ha id c Hc) as [Hlen Hall]. rewrite Hq in Hlen, Hall. apply Forall_cons in Hall as [_ Hall].
    apply map_Forall_insert_2; [|done]. split; cbn in *; [lia|done].
  - apply map_Forall_insert_2; [|done]. destruct (Ha id c Hc). by split.
Qed.

Lemma service_ok a0 a : GameActor_new = Ok a0 -> rtc service_step a0 a -> all_ok a.
Proof.
  intros Hnew Hrun. assert (all_ok a0) as Ha0.
  { unfold GameActor_new in Hnew. apply bind_Ok in Hnew as (g & _ & [= <-]). apply map_Forall_empty. }
  clear Hnew. induction Hrun as [|a1 a2 a3 Hstep _ IH]; [done|]. by eapply IH, step_ok.
Qed.

(** A block of the clock. *)
Lemma farm_tells a reply a' :
  all_ok a -> handle_farm a = (Ok reply, a') ->
  simulator (actor_runner a')
  = farm_block (identity_puzzle_hash (neutral_identity (actor_runner a))) (simulator (actor_runner a))
  /\ forall id, clients a' !! id = (c ← clients a !! id;
       let event := make_block_event_json_for_client (actor_runner a')
                      (get_current_height (simulator (actor_runner a'))) (client_coins c) in
       if has_room c [event] then Some (sent c [event]) else None).
Proof.
  intros Ha. unfold handle_farm, farm_and_chase, chase_block, store_height, on_adapter, make_observations,
    on_part, get_state, put_state, modify_state, mret, eff_ret, mbind, eff_bind. cbn.
  intros [= <- <-]. split; [done|]. intros id. cbn. rewrite lookup_omap.
  destruct (clients a !! id) as [c|] eqn:Hc; [|done]. cbn. unfold tell_client.
  rewrite queue_room by by eapply Ha. by destruct (has_room _ _).
Qed.

(** C40: every client sees its own coins.  Whatever the clients ask, blocks farmed
    and clients coming, reading and leaving in between, what waits for a client
    never exceeds its queue and is answers to it and blocks with records of the
    coins it registered.  A request of a client changes no other client's queue;
    its answer names the request, is the value the method returned or else an
    error, and is followed by the event of each block a successful method made;
    all of this is queued together when there is room, and otherwise the client is
    dropped.  A block of the clock is told to every client that has room for its
    event, and drops the others. *)
Theorem clients_see_their_coins a0 a id client
    (Hnew : GameActor_new = Ok a0) (Hrun : rtc service_step a0 a) (Hclient : clients a !! id = Some client) :
  (length (queue (outbound client)) <= capacity (outbound client))%nat
  /\ Forall (for_client (client_coins client)) (queue (outbound client))
  /\ (forall text reply a', handle_request env id text a = (Ok reply, a') ->
       (forall id', id' <> id -> clients a' !! id' = clients a !! id')
       /\ exists answer heights registered,
          answers text (mkDesk (actor_runner a) (client_coins client))
            (get_current_height (simulator (actor_runner a'))) answer heights
          /\ client_coins client ⊆ registered
          /\ let client' := client <| client_coins := registered |> in
             let messages := answer :: ((fun h =>
               make_block_event_json_for_client (actor_runner a') (N.of_nat h) registered) <$> heights) in
             clients a' !! id = (if has_room client' messages then Some (sent client' messages) else None)
             /\ (reply = Ok tt <-> has_room client' messages = true))
  /\ (forall reply a', handle_farm a = (Ok reply, a') ->
       let event := make_block_event_json_for_client (actor_runner a')
                      (get_current_height (simulator (actor_runner a'))) (client_coins client) in
       simulator (actor_runner a')
       = farm_block (identity_puzzle_hash (neutral_identity (actor_runner a))) (simulator (actor_runner a))
       /\ clients a' !! id = if has_room client [event] then Some (sent client [event]) else None).
Proof.
  pose proof (service_ok a0 a Hnew Hrun) as Ha. destruct (Ha id client Hclient) as [Hlen Hq].
  split_and!; [done..| |].
  2: { intros reply a' [Hsim Hclients]%farm_tells; [|done]. split; [done|]. by rewrite Hclients, Hclient. }
  intros text reply a'. pose proof (request_run id text client a Hclient) as Hreq.
  pose proof (registers_dispatch (client_coins client) text (mkDesk (actor_runner a) (client_coins client))
    ltac:(by unfold registers)) as HR. unfold registers in HR.
  destruct (dispatch_ws_request _ _ _) as [r d] eqn:Hd. cbn in HR. cbv zeta in Hreq. rewrite Hreq.
  destruct r as [messages|e]; [|done]. apply dispatch_messages in Hd as (answer & heights & Hanswer & ->).
  rewrite queue_room by by apply kept_ok.
  destruct (has_room _ _) eqn:Hroom; intros [= <- <-]; cbn [clients actor_runner].
  - split; [intros id' Hid; by rewrite lookup_insert_ne|]. exists answer, heights, (registered_coins d).
    split; [done|]. split; [done|]. unfold event_of in Hroom. cbv zeta. rewrite Hroom. by rewrite lookup_insert_eq.
  - split; [intros id' Hid; by rewrite lookup_delete_ne|]. exists answer, heights, (registered_coins d).
    split; [done|]. split; [done|]. unfold event_of in Hroom. cbv zeta. rewrite Hroom. by rewrite lookup_delete_eq.
Qed.

(** ** After a reset

    The users stay, but their coins are gone, and registering again does not
    farm them new ones. *)
Lemma genesis_coins_zero ph : ph <> mkPuzzleHash zero_hash -> get_my_coins ph (Simulator_new false) = [].
Proof.
  intros Hph. unfold get_my_coins, records_of.
  assert (map_Forall (fun _ r => record_puzzle_hash r = mkPuzzleHash zero_hash) (coins (sim_state (Simulator_new false))))
    as Hall.
  { unfold Simulator_new, farm_block_inner. cbn [sim_state]. unfold add_coin. cbn.
    apply map_Forall_insert_2; [done|]. apply map_Forall_insert_2; [done|]. apply map_Forall_empty. }
  revert Hall. generalize (coins (sim_state (Simulator_new false))). intros cs Hall.
  destruct (retain _ _) as [|r l] eqn:Hl; [done|]. exfalso.
  assert (r ∈ r :: l) as Hr by constructor. rewrite <- Hl in Hr. apply elem_of_retain in Hr as [Hr Hmine].
  apply list_elem_of_fmap in Hr as ([id r'] & -> & Hr). apply elem_of_hm_iter in Hr. specialize (Hall id r' Hr).
  cbn in Hall, Hmine. apply andb_prop in Hmine as [_ Hmine]. apply bool_decide_eq_true_1 in Hmine. congruence.
Qed.
Lemma reset_strands_users g name identity
    (Hname : lookup_identity name g = Some identity)
    (Hkey : identity_puzzle_hash identity <> mkPuzzleHash zero_hash) :
  let g' := (reset_sim g).2 in
  register name None g' = (Ok (Str (hex_encode (PuzzleHash_bytes (identity_puzzle_hash identity)))), g')
  /\ get_balance name g' = Ok (of_N 0) /\ sim_record g' = sim_record g.
Proof.
  intros g'. assert (lookup_identity name g' = Some identity) as Hname' by done. split_and!; [| |done].
  - unfold register, get_state, mret, eff_ret, mbind, eff_bind. by rewrite Hname'.
  - unfold get_balance. rewrite Hname'. change (simulator g') with (Simulator_new false).
    by rewrite genesis_coins_zero.
Qed.
End service.

Module Witnesses.
Import Toy ToyChannel SessionProperties.Witnesses.

#[local] Instance plain_hex : Hex := {| hex_encode := fun b => b |}.
#[local] Instance plain_decode : HexDecode :=
  {| hex_decode := fun b => Some b; hex_decode_encode := fun bs => eq_refl |}.
#[local] Instance counting_rng : SessionRng := {|
  ChaCha8Rng := nat;
  from_seed := fun h => length (hash_bytes h);
  random_u8 := fun n => (byte_of_N (N.of_nat n), S n);
  sk_from_seed := fun _ => x0b;
|}.
(** No spend is valid. *)
#[local] Program Instance refusing_consensus : Consensus := {|
  error_number _ := 5%N;
  flags_for_height _ := 0%N;
  validate_clvm_and_signature _ _ := Err DoubleSpend;
|}.
Next Obligation. done. Qed.
Next Obligation. done. Qed.

(** One byte asks: to watch a coin, to register a user, or nothing sensible. *)
Definition watched : CoinID := reward_parent_id pool_reward_prefix 0.
Definition toy_request (text : bytes) : option WsRequest :=
  match text with
  | [x01] => Some (mkWsRequest 1 (String.list_byte_of_string "register_remote_coins")
                     (Obj [member "coinIds" (Arr [Str (CoinID_bytes
                        (to_coin_id (CoinString_from_parts watched (mkPuzzleHash zero_hash) POOL_REWARD_AMOUNT)))])]))
  | [x02] => Some (mkWsRequest 2 (String.list_byte_of_string "register") (Obj [member "name" (Str [x61])]))
  | _ => None
  end.
#[local] Instance toy_json : ServiceJson := {|
  WsRequest_from_str := toy_request;
  offer_request_from_value := fun _ => None;
  push_request_from_value := fun _ => None;
  debug_error := fun _ => [];
|}.

Lemma actor_starts : is_ok GameActor_new = true.
Proof. vm_compute. reflexivity. Qed.
Definition started : GameActor := the_ok _ actor_starts.
Abbreviation served a c := (handle_command env c a).2.
Definition serves (cs : list GameCommand) : GameActor := foldl (fun a c => served a c) started cs.
Definition session : list GameCommand :=
  [Connect 7 (mkOutbox [] 4 true); Request 7 [x01]; Request 7 [x02]; Farm].

Lemma serves_runs a cs : Forall connects_empty cs -> rtc (service_step env) a (foldl (fun a c => served a c) a cs).
Proof.
  revert a. induction cs as [|c cs IH]; intros a; [done|]. rewrite Forall_cons. intros [Hc Hcs].
  apply (rtc_l _ _ (served a c)); [by constructor|by apply IH].
Qed.
Lemma session_connects : Forall connects_empty session.
Proof. by repeat constructor. Qed.
Lemma four_messages : match clients (serves session) !! 7%N with
                      | Some c => length (queue (outbound c)) = 4 | None => False end.
Proof. vm_compute. reflexivity. Qed.

(** Two answers and two blocks, the second farmed by the clock. *)
Lemma clients_see_their_coins_witness :
  match clients (serves session) !! 7%N with
  | Some client => length (queue (outbound client)) = 4
                   /\ Forall (for_client (client_coins client)) (queue (outbound client))
  | None => False
  end.
Proof.
  pose proof four_messages as Hfour. destruct (clients (serves session) !! 7%N) as [client|] eqn:Hclient; [|done].
  split; [exact Hfour|].
  exact (proj1 (proj2 (clients_see_their_coins env started (serves session) 7%N client
    (the_ok_eq _ actor_starts) (serves_runs started session session_connects) Hclient))).
Defined.
End Witnesses.
